(* ===== verification/_CoqProject ===== *)
-Q . S2P
Prelude.v
CInt.v
Rng.v
Packet.v
Dpdk.v
Ecn.v
Offload.v
Poll.v
Plan.v
PlanRace.v
PlanSteps.v
PlanCas.v
Config.v
Route.v
Device.v
VhostTx.v
EthTx.v
Batch.v
EthRx.v
VhostRx.v
SlowPath.v
ConfigParse.v
Text.v
Log.v
Dashboard.v
Sync.v
Startup.v
Contexts.v
Bringup.v
Drivers.v
Main.v
DataPlane.v
RingSteps.v
RingRefine.v
System.v
Delivery.v
Outbound.v
TxCores.v
SystemSteps.v
