(* ===== verification/Prelude.v ===== *)
(** * UMANet: a verification library

    UMANet is a DPDK switch between virtual machines on one host and the wire.  Every VM
    has a vhost-user socket; cores of four kinds poll without locks: vhost_rx cores
    receive from the VMs, eth_rx cores from the NIC; both switch packets into single
    consumer rings, one per VM and one per NIC queue, which vhost_tx and eth_tx cores
    empty.  A slow-path thread learns the addresses of VMs, answers ARP requests and
    recomputes once a second which core serves which VM (the plans); DPDK's vhost thread
    calls back when a VM connects or goes.  This library models that program function by
    function and proves what makes it correct, and where it is not.

    ** Conventions

    [res] ([Ok] or [Fault]) is the outcome of C code: a fault is the undefined behaviour
    reached at that point (NULL or freed pointer, index out of bounds, double free,
    indeterminate value).  Integers are [Z] in the range of their C type with wrap-around
    written out (CInt.v); buffers are lists of bytes; pointers to mbufs and devices are
    keys of a finite map, the heap of live objects; loops are [foldM] over the indices the
    C loop takes, and the body of each endless loop is one definition.  What the program
    calls in DPDK is given by the type classes of Dpdk.v, with the documented behaviour as
    laws and a reference instance of each; answers of the environment (bursts, clocks,
    results of allocations and of device calls) are arguments.  Each property has a
    witness that runs it on a concrete state, mostly one with four VMs' worth of arrays,
    the subnet 192.168.100.0/24 and one core of each kind.

    ** Files

    Basics: Prelude.v (outcomes, arrays, heaps, loops, tactics), CInt.v (include/utils.h:
    wrap-around, byte order), Packet.v (struct rte_mbuf, header fields as loads and
    stores), Dpdk.v (what is assumed of DPDK).

    Data plane: Ecn.v (src/fast/ecn.h), Offload.v (src/include/fastpath.h: TSO requests and
    checksums), Poll.v (src/fast/poll.h: adaptive polling), Batch.v (batches and slow
    messages of the receive loops), VhostRx.v, EthRx.v, VhostTx.v, EthTx.v (the four loops
    of src/fast), DataPlane.v (any number of cores of each kind, on shared rings and one
    pool, one visit per step), RingSteps.v (the same with one ring access per step),
    RingRefine.v (whole visits are runs of those steps).

    Control plane: Plan.v (src/vhost/plan.c and the recomputation in src/slow/slowpath.c),
    PlanRace.v and PlanSteps.v (their interleavings: the transmit direction against a whole
    recomputation; both directions, one access per step), PlanCas.v (publication and
    reclamation of one plan, one memory access per step), Route.v (src/vhost/route.c), Device.v
    (src/vhost/device.c, vmdq.c, src/network/flow.c), SlowPath.v (src/slow/slowpath.c,
    arp.c), Dashboard.v (src/slow/dashboard.c), Text.v and Log.v (display_number of
    lib/utils/utils.c, lib/utils/log.c).

    Start-up: Config.v and ConfigParse.v (src/config), Contexts.v and Startup.v
    (src/dataplane.c, src/ring.c, the thread dispatch of src/main.c), Bringup.v
    (src/network/network.c), Drivers.v (registration in device.c), Main.v (src/main.c).

    Utilities: Rng.v (lib/utils/rng.c), Sync.v (include/utils_sync.h).

    The whole: System.v (data plane, control loop and device callbacks on one state, a visit
    of a core per step), Delivery.v and Outbound.v (in its runs frames reach their VMs and the
    wire), TxCores.v (the same with the arrays of each vhost_tx core apart), SystemSteps.v
    (System.v with one ring access of a core per step).

    ** What is shown

    End to end ([System.system_correct]): started with exactly 64 sockets (fewer, as in
    the README, leave NULL entries in the array of rings that this start does not have),
    visits of any number of cores, iterations of the control loop and device callbacks,
    interleaved in any order, do not fault, keep the invariants of all components, and hand
    every VM packets addressed to it, at most once, in the order they were switched, in the
    runs that meet the conditions of [sw_run_ok].  These leave out the known defects: no VM
    asks for the data plane's address by ARP, a learning message is handled while its
    packet is live, only learned devices are destroyed, there are messages enough and
    allocations succeed; [System.conditions_needed] runs the switch into a fault where
    they are not met.  That is what a guest may receive; what it does receive is
    [Delivery.frame_reaches_guest]: a frame that finds room on the ring of its VM is with
    the guest after a number of visits that its place in the queue determines, of which
    every iteration over a plan has one ([TxCores.one_visit_per_iteration]);
    [Outbound.frame_reaches_wire] is the same for frames to other networks.
    System.v has one array for what vhost_tx cores keep per VM; [TxCores.fleet_correct] shows
    that the arrays of the cores, which visit the VMs of the plans they have read, amount
    to that array as long as no socket is used twice, and
    [TxCores.kept_packets_stay_behind] that packets get out of order when one is.
    [SystemSteps.system_steps_correct] shows what [System.system_correct] does, with the
    order of each receiving core, when the cores interleave between their ring accesses with
    packets and messages in their hands, and [SystemSteps.reused_packet_misteaches] what happens when an
    mbuf is used again while a message names it.  For the data plane alone these are
    [DataPlane.plane_delivers] and [RingSteps.machine_delivers];
    [RingRefine.visits_are_runs]: whole visits are runs of accesses;
    [VhostTx.vhost_tx_drains]: a ring is empty after a bounded number of visits.
    The files of the loops state what one visit does on every branch
    ([vhost_rx_visit_correct], [eth_rx_visit_correct], [vhost_tx_visit_correct],
    [eth_tx_visit_correct]), what an iteration over a plan or over the queues does, how a
    frame is classified from its bytes ([VhostRx.vhost_rx_packet_correct]), what ECN marking and the offload code change in it, and that
    adaptive polling starves no VM.  An iteration over a plan is
    [VhostRx.vhost_rx_iter_correct].

    Control plane: in every state reached by devices that come, learn usable addresses and
    go once they are learned, the device list, the devices, the routes and the plans agree
    ([Device.device_lifecycle_safe]); every live VM is in exactly one plan
    ([Plan.plans_partition]) as long as events and recomputations do not overlap, the
    atomic view that [PlanRace.quiet_events_refine] justifies between operations and
    [PlanCas.publication_refines] between memory accesses, if the slow path waits before
    it frees a plan; that it does not is [PlanCas.reclamation_races].  When events and
    recomputations overlap access by access, [PlanSteps.recomputation_repairs] says what
    remains true and that the next recomputation makes up for it, and
    [PlanSteps.receive_race_shares_vm] what goes wrong until then; the route table
    refines a finite map; the slow path and the dashboard are safe in these states, and an
    iteration of the slow path does all that its messages ask for and recomputes the plans
    when they are due ([SlowPath.slowpath_iter_correct], [SlowPath.process_arp_req_correct]).

    Start-up: the option loop takes effect exactly for the options that are right
    ([ConfigParse.parse_config_correct]); when [main] reaches the control loop everything
    the other theorems assume is set up ([Main.main_running_correct], [Contexts.startup_establishes_invariants]); the
    queue barrier orders the bring-up and can always finish when there is a queue per core.

    The places where the code does not do what it means to do are theorems too:
    traffic before registration, the barrier with more or fewer queues than cores, mbufs
    that are never freed or freed twice, the races between plan updates and the dashboard,
    message and index overflows, parsers that truncate, and the packets of a VM that is gone,
    which the next VM with its vid receives ([System.next_vm_gets_old_packets]).

    ** Bounds and fuel

    [dec_digits] prints with fuel for 20 digits, enough for 64 bits; every other loop of
    the program is bounded by an array size or a count and is modelled without fuel.
    Sizes are those of the source: MAX_VHOSTS 64, MAX_PKT_BURST 64, WINDOW_SIZE 10,
    MAX_ETH_TX_QUEUES 20, 256 routes.

    ** Not modelled

    DPDK, the C library and the kernel, beyond the laws in Dpdk.v and the functions of ISO
    C described where they are used; [getopt_long], whose results are the input of the
    option loop, and the usage text; prefetches, the log calls inside other functions and
    the counters that only limit debug logs; GRO contexts, which nothing uses; stopping
    the port on an error exit and network_dump_stats, which nothing calls;
    installing the signal handlers and sleeping.  Rings are sequentially consistent
    queues.  In SystemSteps.v an iteration of the control loop and a callback are atomic steps,
    a visit sees the device list of the moment when it sorts its burst, and the
    allocations of the callbacks succeed (Device.v has their failures); the races inside
    these steps are in PlanRace.v, PlanSteps.v and PlanCas.v.  The fill level that ECN marking
    reads and the enqueue after it are one access.  Vids are assumed to
    be below MAX_VHOSTS, as DPDK numbers devices from 0 and there are at most 64 sockets.
    The reuse of the memory of replaced plans is in PlanCas.v only; replaced device lists
    are never freed by the code, a leak the model does not count.  The accesses
    to plans and device lists (PlanSteps.v, PlanCas.v) and those to the rings (SystemSteps.v) are
    interleaved in machines of their own, not in one: a machine for both would need a
    notion of which VMs are served while the plans disagree, which the code does not have. *)

From stdpp Require Export base tactics numbers list gmap.
From Stdlib Require Export ZArith Lia.

Declare Scope umanet_scope.
Delimit Scope umanet_scope with umanet.

(** ** Outcomes of C code

    [Ok a] is a normal return; [Fault f] is the undefined behaviour the C
    abstract machine (or DPDK) reaches at that point. *)

Inductive fault :=
  | NullDeref
  | OutOfBounds
  | UseAfterFree
  | DoubleFree
  | Uninitialised
  | DivisionByZero.

#[export] Instance fault_eq_dec : EqDecision fault.
Proof. solve_decision. Defined.

Inductive res (A : Type) :=
  | Ok (a : A)
  | Fault (f : fault).
Arguments Ok {A} a.
Arguments Fault {A} f.

#[export] Instance res_ret : MRet res := λ A a, Ok a.
#[export] Instance res_bind : MBind res := λ A B f m,
  match m with Ok a => f a | Fault e => Fault e end.
#[export] Instance res_fmap : FMap res := λ A B f m,
  match m with Ok a => Ok (f a) | Fault e => Fault e end.

(** Did the code return normally? *)
Definition is_ok {A} (m : res A) : bool :=
  match m with Ok _ => true | Fault _ => false end.

(** A C array access: reading or writing outside the array is a fault. *)
Definition arr_get {A} (l : list A) (i : nat) : res A :=
  match l !! i with Some x => Ok x | None => Fault OutOfBounds end.

Definition arr_set {A} (l : list A) (i : nat) (x : A) : res (list A) :=
  if decide (i < length l) then Ok (<[i:=x]> l) else Fault OutOfBounds.

(** Appending to a fixed-size C array [a[cnt++] = x] whose live prefix is [l]
    and whose size is [size]. *)
Definition arr_push {A} (size : nat) (l : list A) (x : A) : res (list A) :=
  if decide (length l < size) then Ok (l ++ [x]) else Fault OutOfBounds.

(** Dereferencing a pointer into the heap of live objects. *)
Definition heap_get {A} (h : gmap nat A) (p : nat) : res A :=
  match h !! p with Some x => Ok x | None => Fault UseAfterFree end.

Definition heap_set {A} (h : gmap nat A) (p : nat) (x : A) : res (gmap nat A) :=
  match h !! p with Some _ => Ok (<[p:=x]> h) | None => Fault UseAfterFree end.

Definition heap_free {A} (h : gmap nat A) (p : nat) : res (gmap nat A) :=
  match h !! p with Some _ => Ok (delete p h) | None => Fault DoubleFree end.

(** Run a handler over a list from left to right, threading the state. *)
Fixpoint foldM {A S} (f : A → S → res S) (l : list A) (s : S) : res S :=
  match l with
  | [] => Ok s
  | x :: l => s' ← f x s; foldM f l s'
  end.

(** Update the object a pointer designates, for one pointer and for an array. *)
Definition heap_update {A} (f : A → A) (p : nat) (h : gmap nat A) : res (gmap nat A) :=
  x ← heap_get h p; Ok (<[p := f x]> h).

Definition heap_update_all {A} (f : A → A) (ps : list nat) (h : gmap nat A) : res (gmap nat A) :=
  foldM (heap_update f) ps h.

(** All the pointers of the list designate live objects. *)
Definition live {A} (h : gmap nat A) (ps : list nat) : Prop := ∀ p, p ∈ ps → is_Some (h !! p).

Notation "x <=? y <? z" := ((x <=? y)%Z && (y <? z)%Z)%bool
  (at level 70, y at next level) : umanet_scope.

(** ** Automation *)

Create HintDb umanet.
Create Rewrite HintDb umanet.

(** Take apart an equation between outcomes. *)
Ltac res_step :=
  match goal with
  | H : Ok _ = Ok _ |- _ => injection H as H
  | H : Ok _ = Fault _ |- _ => discriminate H
  | H : Fault _ = Ok _ |- _ => discriminate H
  | H : mbind _ ?m = Ok _ |- _ =>
      let E := fresh "E" in destruct m eqn:E; cbn [mbind res_bind] in H
  | H : context [mret _] |- _ => progress cbn [mret res_ret] in H
  end.
Ltac res_inv := repeat (res_step; simplify_eq).

(** The first statement of a sequence that returned: [x] is its result. *)
Tactic Notation "bind_step" ident(H) "as" simple_intropattern(x) ident(E) :=
  lazymatch type of H with
  | mbind _ ?m = Ok _ => destruct m as [x|] eqn:E; cbn [mbind res_bind] in H; [|discriminate H]
  end.

(** Split a conjunction along its right spine, keeping [0 ≤ x < n] together. *)
Ltac splits :=
  lazymatch goal with
  | |- (_ ≤ _)%Z ∧ (_ < _)%Z => idtac
  | |- (_ ≤ _)%Z ∧ (_ ≤ _)%Z => idtac
  | |- _ ∧ _ => split; [|splits]
  | |- _ => idtac
  end.

(** Equations between bitwise expressions, bit by bit. *)
Ltac bitwise :=
  apply Z.bits_inj'; let n := fresh "n" in let Hn := fresh "Hn" in intros n Hn;
  repeat (rewrite ?Z.land_spec, ?Z.lor_spec, ?Z.lnot_spec, ?Z.bits_0 by done);
  repeat match goal with |- context [Z.testbit ?x n] => destruct (Z.testbit x n) end;
  done.

(** ** Shared lemmas: outcomes *)

Lemma arr_get_Some {A} (l : list A) i x : l !! i = Some x → arr_get l i = Ok x.
Proof. intros H. unfold arr_get. by rewrite H. Qed.

Lemma arr_get_Ok {A} (l : list A) i x : arr_get l i = Ok x → l !! i = Some x.
Proof. unfold arr_get. destruct (l !! i); congruence. Qed.

Lemma arr_set_lt {A} (l : list A) i x :
  i < length l → arr_set l i x = Ok (<[i:=x]> l).
Proof. intros H. unfold arr_set. by rewrite decide_True. Qed.

Lemma arr_set_Ok {A} (l l' : list A) i x :
  arr_set l i x = Ok l' → i < length l ∧ l' = <[i:=x]> l.
Proof. unfold arr_set. case_decide; intros; res_inv; auto. Qed.

Lemma arr_push_lt {A} size (l : list A) x :
  length l < size → arr_push size l x = Ok (l ++ [x]).
Proof. intros H. unfold arr_push. by rewrite decide_True. Qed.

Lemma arr_push_Ok {A} size (l l' : list A) x :
  arr_push size l x = Ok l' → length l < size ∧ l' = l ++ [x].
Proof. unfold arr_push. case_decide; intros; res_inv; auto. Qed.

Lemma heap_get_Some {A} (h : gmap nat A) p x : h !! p = Some x → heap_get h p = Ok x.
Proof. intros H. unfold heap_get. by rewrite H. Qed.

Lemma heap_get_Ok {A} (h : gmap nat A) p x : heap_get h p = Ok x → h !! p = Some x.
Proof. unfold heap_get. destruct (h !! p); congruence. Qed.

Lemma heap_set_Some {A} (h : gmap nat A) p x y :
  h !! p = Some y → heap_set h p x = Ok (<[p:=x]> h).
Proof. intros H. unfold heap_set. by rewrite H. Qed.

Lemma heap_free_Some {A} (h : gmap nat A) p x :
  h !! p = Some x → heap_free h p = Ok (delete p h).
Proof. intros H. unfold heap_free. by rewrite H. Qed.

Lemma heap_free_Ok {A} (h h' : gmap nat A) p :
  heap_free h p = Ok h' → is_Some (h !! p) ∧ h' = delete p h.
Proof. unfold heap_free. destruct (h !! p) eqn:E; intros; res_inv; eauto. Qed.

Lemma foldM_app {A S} (f : A → S → res S) l1 l2 s :
  foldM f (l1 ++ l2) s = (s' ← foldM f l1 s; foldM f l2 s').
Proof.
  revert s. induction l1 as [|x l1 IH]; intros s; [done|].
  cbn [foldM app]. destruct (f x s) as [s'|e]; cbn; auto.
Qed.

(** A loop invariant for [foldM]: if the body is fault free and preserves [P],
    so does the loop.  [P] may mention the prefix already processed. *)
Lemma foldM_ind {A S} (f : A → S → res S) (P : list A → S → Prop) l s :
  P [] s →
  (∀ pre x post s, l = pre ++ x :: post → P pre s → ∃ s', f x s = Ok s' ∧ P (pre ++ [x]) s') →
  ∃ s', foldM f l s = Ok s' ∧ P l s'.
Proof.
  intros H0 Hstep.
  cut (∀ post pre s, l = pre ++ post → P pre s → ∃ s', foldM f post s = Ok s' ∧ P l s').
  { intros H. by apply (H l []). }
  clear s H0. intros post. induction post as [|x post IH]; intros pre s Hl HP.
  - rewrite app_nil_r in Hl. subst. by exists s.
  - destruct (Hstep pre x post s Hl HP) as (s' & Hf & HP').
    cbn [foldM]. rewrite Hf. cbn. apply (IH (pre ++ [x])); [|done].
    by rewrite <- app_assoc.
Qed.

(** A loop [for (j = 0; j < n; j++)] that reads [l[j]] runs over the prefix of [l]. *)
Lemma foldM_arr_get {A S} (f : nat → S → res S) (g : A → S → res S) (l : list A) n s :
  (∀ j s, f j s = (v ← arr_get l j; g v s)) → n ≤ length l →
  foldM f (seq 0 n) s = foldM g (take n l) s.
Proof.
  intros Hf. cut (∀ k s, k + n ≤ length l →
    foldM f (seq k n) s = foldM g (take n (drop k l)) s).
  { intros H Hn. rewrite H by done. by rewrite drop_0. }
  induction n as [|n IH]; intros k s' Hk; [done|].
  destruct (lookup_lt_is_Some_2 l k) as [x Hx]; [lia|].
  rewrite (drop_S l x k Hx). cbn [seq foldM take]. rewrite Hf.
  rewrite (arr_get_Some _ _ _ Hx). cbn. destruct (g x s'); cbn; [|done].
  apply IH. lia.
Qed.

(** The same for a loop that counts down. *)
Lemma foldM_arr_get_rev {A S} (f : nat → S → res S) (g : A → S → res S) (l : list A) n s :
  (∀ j s, f j s = (v ← arr_get l j; g v s)) → n ≤ length l →
  foldM f (rev (seq 0 n)) s = foldM g (rev (take n l)) s.
Proof.
  intros Hf. revert s. induction n as [|n IH]; intros s Hn; [done|].
  destruct (lookup_lt_is_Some_2 l n) as [x Hx]; [lia|].
  rewrite seq_S, (take_S_r l n x Hx), !rev_app_distr. cbn [rev app foldM Nat.add].
  rewrite Hf, (arr_get_Some _ _ _ Hx). cbn [mbind res_bind].
  destruct (g x s); cbn [mbind res_bind]; [|done]. apply IH. lia.
Qed.

Lemma decide_ext_if (P Q : Prop) `{Decision P, Decision Q} {A} (x y : A) :
  (P ↔ Q) → (if decide P then x else y) = (if decide Q then x else y).
Proof. intros. by apply decide_ext. Qed.

Lemma filter_ext_in {A} (P Q : A → Prop) `{∀ x, Decision (P x), ∀ x, Decision (Q x)} (l : list A) :
  (∀ x, x ∈ l → P x ↔ Q x) → filter P l = filter Q l.
Proof.
  induction l as [|x l IH]; intros Heq; [done|]. rewrite !filter_cons.
  rewrite IH by (intros y Hy; apply Heq; by right).
  apply decide_ext_if. apply Heq. by left.
Qed.

(** Counting after the update of one element. *)
Lemma count_insert {A} (P : A → Prop) `{∀ x, Decision (P x)} (l : list A) i x y :
  l !! i = Some x →
  length (filter P (<[i:=y]> l)) + (if decide (P x) then 1 else 0) =
  length (filter P l) + (if decide (P y) then 1 else 0).
Proof.
  revert i. induction l as [|z l IH]; intros [|i] Hi; cbn in Hi; simplify_eq.
  - cbn [insert list_insert]. rewrite !filter_cons. repeat case_decide; cbn [length]; lia.
  - specialize (IH i Hi). change (<[S i:=y]> (z :: l)) with (z :: <[i:=y]> l).
    rewrite !(filter_cons P z). destruct (decide (P z)); cbn [length]; lia.
Qed.

(** ** Shared lemmas: heaps *)

Lemma live_dom {A} (h h' : gmap nat A) ps : dom h' = dom h → live h ps → live h' ps.
Proof. intros Hd Hl p Hp. apply elem_of_dom. rewrite Hd. by apply elem_of_dom, Hl. Qed.

Lemma live_cons {A} (h : gmap nat A) p ps : live h (p :: ps) ↔ is_Some (h !! p) ∧ live h ps.
Proof.
  unfold live. split.
  - intros H. split; [apply H; by left|]. intros q Hq. apply H. by right.
  - intros [H1 H2] q Hq. apply elem_of_cons in Hq as [->|Hq]; auto.
Qed.

#[export] Instance live_proper {A} (h : gmap nat A) : Proper ((≡ₚ) ==> iff) (live h).
Proof. intros l1 l2 Hp. unfold live. by setoid_rewrite Hp. Qed.

Lemma live_app {A} (h : gmap nat A) ps qs : live h (ps ++ qs) ↔ live h ps ∧ live h qs.
Proof. unfold live. setoid_rewrite elem_of_app. split; [intros Hl; split|intros [H1 H2] p []]; auto. Qed.

(** Updating every object of an array: no fault when they are live; the objects of
    the array, if distinct, are updated once, the others not at all. *)
Lemma heap_update_all_spec {A} (f : A → A) ps (h : gmap nat A) :
  NoDup ps → live h ps →
  ∃ h', heap_update_all f ps h = Ok h' ∧ dom h' = dom h ∧
    ∀ p, h' !! p = (if decide (p ∈ ps) then f else id) <$> h !! p.
Proof.
  revert h. induction ps as [|p ps IH]; intros h Hnd Hl.
  { exists h. split_and!; auto. intros q. by rewrite option_fmap_id. }
  apply NoDup_cons in Hnd as [Hp Hnd]. apply live_cons in Hl as [[x Hx] Hl].
  assert (dom (<[p:=f x]> h) = dom h) as Hd
    by (by apply dom_insert_lookup_L).
  destruct (IH (<[p:=f x]> h) Hnd) as (h' & Hf & Hd' & Hlk).
  { eapply live_dom; [|exact Hl]. done. }
  exists h'. split_and!; [|congruence|].
  - unfold heap_update_all in *. cbn [foldM].
    assert (heap_update f p h = Ok (<[p:=f x]> h)) as ->; [|done].
    unfold heap_update. by rewrite (heap_get_Some _ _ _ Hx).
  - intros q. rewrite Hlk. destruct (decide (p = q)) as [<-|Hne].
    + rewrite decide_False, decide_True by (by left || done). by simplify_map_eq.
    + rewrite lookup_insert_ne by done. f_equal. apply decide_ext.
      rewrite elem_of_cons. split; [auto|intros [->|?]; [done|auto]].
Qed.

(** Freeing distinct live objects. *)
Lemma heap_free_all_spec {A} ps (h : gmap nat A) :
  NoDup ps → live h ps →
  ∃ h', foldM (λ p h, heap_free h p) ps h = Ok h' ∧
    ∀ q, h' !! q = if decide (q ∈ ps) then None else h !! q.
Proof.
  revert h. induction ps as [|p ps IH]; intros h Hnd Hl.
  { exists h. split; [done|]. intros q. rewrite decide_False; [done|]. apply not_elem_of_nil. }
  apply NoDup_cons in Hnd as [Hp Hnd]. apply live_cons in Hl as [[x Hx] Hl].
  cbn [foldM]. rewrite (heap_free_Some _ _ _ Hx). cbn [mbind res_bind].
  destruct (IH (delete p h) Hnd) as (h' & Hf & Hq).
  { intros q Hq. rewrite lookup_delete_ne by (intros ->; done). by apply Hl. }
  exists h'. split; [done|]. intros q. rewrite Hq. destruct (decide (p = q)) as [<-|Hne].
  - rewrite lookup_delete_eq. rewrite (decide_True (P := p ∈ p :: ps)) by by left. by case_decide.
  - rewrite lookup_delete_ne by done. apply decide_ext_if. rewrite elem_of_cons.
    split; [auto|]. by intros [->|?].
Qed.

#[export] Hint Resolve arr_get_Some arr_set_lt arr_push_lt : umanet.
#[export] Hint Resolve heap_get_Some heap_set_Some heap_free_Some : umanet.
