(* ===== verification/CInt.v ===== *)
(** * Machine integers of the C program

    Fixed-width wrap-around, the little-endian byte representation of the host
    (the code contains x86 inline assembly, so loads and stores are little
    endian), the [__builtin_bswap] builtins and the [beui16/32/64] types of
    include/utils.h. *)

From S2P Require Import Prelude.
Local Open Scope Z_scope.

(** Unsigned and signed conversion to a [w]-bit type. *)
Definition wrap (w x : Z) : Z := x mod 2 ^ w.
Definition swrap (w x : Z) : Z := (x + 2 ^ (w - 1)) mod 2 ^ w - 2 ^ (w - 1).

Definition u8 : Z → Z := wrap 8.
Definition u16 : Z → Z := wrap 16.
Definition u32 : Z → Z := wrap 32.
Definition u64 : Z → Z := wrap 64.
Definition i8 : Z → Z := swrap 8.
Definition i16 : Z → Z := swrap 16.
Definition i32 : Z → Z := swrap 32.

(** The value is in the range of the unsigned [w]-bit type. *)
Definition in_u (w x : Z) : Prop := 0 ≤ x < 2 ^ w.
#[export] Instance in_u_dec w x : Decision (in_u w x).
Proof. unfold in_u. apply _. Defined.

(** ** Bytes in memory *)

(** The [n] bytes at which an integer is stored, least significant first. *)
Fixpoint le_bytes (n : nat) (x : Z) : list Z :=
  match n with
  | O => []
  | S n => x mod 256 :: le_bytes n (x / 256)
  end.

(** The integer that a little-endian load of these bytes yields. *)
Fixpoint of_le_bytes (l : list Z) : Z :=
  match l with
  | [] => 0
  | b :: l => b + 256 * of_le_bytes l
  end.

(** The same bytes in network order. *)
Definition of_be_bytes (l : list Z) : Z := of_le_bytes (rev l).

Definition is_byte (b : Z) : Prop := 0 ≤ b < 256.

(** [__builtin_bswap16], [__builtin_bswap32] and [__builtin_bswap64]. *)
Definition bswap (n : nat) (x : Z) : Z := of_le_bytes (rev (le_bytes n x)).
Definition bswap16 : Z → Z := bswap 2.
Definition bswap32 : Z → Z := bswap 4.
Definition bswap64 : Z → Z := bswap 8.

(** ** The big-endian integer types of include/utils.h *)

Record beui16 := mk_beui16 { beui16_x : Z }.
Record beui32 := mk_beui32 { beui32_x : Z }.
Record beui64 := mk_beui64 { beui64_x : Z }.

Definition f_beui16 (x : beui16) : Z := bswap16 (beui16_x x).
Definition f_beui32 (x : beui32) : Z := bswap32 (beui32_x x).
Definition f_beui64 (x : beui64) : Z := bswap64 (beui64_x x).
Definition t_beui16 (x : Z) : beui16 := mk_beui16 (bswap16 x).
Definition t_beui32 (x : Z) : beui32 := mk_beui32 (bswap32 x).
Definition t_beui64 (x : Z) : beui64 := mk_beui64 (bswap64 x).

(** [MIN] and [MAX] of include/utils.h, with the comparison the macros use. *)
Definition MIN (a b : Z) : Z := if b <? a then b else a.
Definition MAX (a b : Z) : Z := if b >? a then b else a.

(** ** Lemmas *)

Lemma wrap_range w x : 0 ≤ w → 0 ≤ wrap w x < 2 ^ w.
Proof. intros. unfold wrap. apply Z.mod_pos_bound. lia. Qed.

Lemma wrap_small w x : in_u w x → wrap w x = x.
Proof. unfold in_u, wrap. intros. by apply Z.mod_small. Qed.

Lemma wrap_wrap_le w w' x : 0 ≤ w ≤ w' → wrap w (wrap w' x) = wrap w x.
Proof.
  intros H. unfold wrap. apply Z.mod_mod_divide.
  exists (2 ^ (w' - w)). rewrite <- Z.pow_add_r by lia. f_equal; lia.
Qed.

Lemma swrap_small w x : 0 < w → - 2 ^ (w - 1) ≤ x < 2 ^ (w - 1) → swrap w x = x.
Proof.
  intros Hw H. unfold swrap.
  assert (2 ^ w = 2 * 2 ^ (w - 1)) as E
    by (rewrite <- Z.pow_succ_r by lia; f_equal; lia).
  rewrite Z.mod_small; lia.
Qed.

Lemma length_le_bytes n x : length (le_bytes n x) = n.
Proof. revert x. induction n; intros; cbn; auto. Qed.

Lemma le_bytes_is_byte n x : Forall is_byte (le_bytes n x).
Proof.
  revert x. induction n; intros; cbn; constructor; auto.
  apply Z.mod_pos_bound. lia.
Qed.

Lemma pow256_succ n : 256 ^ Z.of_nat (S n) = 256 * 256 ^ Z.of_nat n.
Proof. rewrite Nat2Z.inj_succ. apply Z.pow_succ_r. lia. Qed.

Lemma of_le_bytes_le_bytes n x : of_le_bytes (le_bytes n x) = x mod 256 ^ Z.of_nat n.
Proof.
  revert x. induction n as [|n IH]; intros x.
  - cbn. by rewrite Z.mod_1_r.
  - cbn [le_bytes of_le_bytes]. rewrite IH, pow256_succ.
    rewrite Z.rem_mul_r by lia. lia.
Qed.

Lemma le_bytes_of_le_bytes l : Forall is_byte l → le_bytes (length l) (of_le_bytes l) = l.
Proof.
  induction 1 as [|b l Hb _ IH]; [done|].
  cbn [length le_bytes of_le_bytes]. unfold is_byte in Hb. f_equal.
  - rewrite (Z.mul_comm 256), Z_mod_plus_full. by apply Z.mod_small.
  - rewrite (Z.mul_comm 256), Z_div_plus_full, Z.div_small by lia.
    by rewrite Z.add_0_l.
Qed.

Lemma of_le_bytes_bound l : Forall is_byte l → 0 ≤ of_le_bytes l < 256 ^ Z.of_nat (length l).
Proof.
  induction 1 as [|b l Hb _ IH]; cbn [of_le_bytes length]; [lia|].
  rewrite pow256_succ. unfold is_byte in Hb. lia.
Qed.

Lemma bswap_range n x : 0 ≤ bswap n x < 256 ^ Z.of_nat n.
Proof.
  unfold bswap. pose proof (of_le_bytes_bound (rev (le_bytes n x))) as H.
  rewrite length_rev, length_le_bytes in H. by apply H, Forall_rev, le_bytes_is_byte.
Qed.

Lemma le_bytes_bswap n x : le_bytes n (bswap n x) = rev (le_bytes n x).
Proof.
  unfold bswap. pose proof (le_bytes_of_le_bytes (rev (le_bytes n x))) as H.
  rewrite length_rev, length_le_bytes in H. by apply H, Forall_rev, le_bytes_is_byte.
Qed.

(** Swapping twice is reduction to the width. *)
Lemma bswap_bswap n x : bswap n (bswap n x) = x mod 256 ^ Z.of_nat n.
Proof.
  unfold bswap at 1. rewrite le_bytes_bswap, rev_involutive.
  apply of_le_bytes_le_bytes.
Qed.

Lemma bswap_of_le_bytes n l :
  Forall is_byte l → length l = n → bswap n (of_le_bytes l) = of_be_bytes l.
Proof.
  intros Hl <-. unfold bswap, of_be_bytes. by rewrite le_bytes_of_le_bytes.
Qed.

Lemma of_be_bytes_bound l : Forall is_byte l → 0 ≤ of_be_bytes l < 256 ^ Z.of_nat (length l).
Proof.
  intros. unfold of_be_bytes. rewrite <- length_rev.
  by apply of_le_bytes_bound, Forall_rev.
Qed.

#[export] Hint Resolve le_bytes_is_byte : umanet.
#[export] Hint Rewrite length_le_bytes : umanet.

(** The conversions of include/utils.h are inverse to each other in both
    directions, at all three widths, on in-range values. *)
Lemma beui_roundtrip x16 x32 x64 :
  in_u 16 x16 → in_u 32 x32 → in_u 64 x64 →
  (f_beui16 (t_beui16 x16) = x16 ∧ t_beui16 (f_beui16 (mk_beui16 x16)) = mk_beui16 x16) ∧
  (f_beui32 (t_beui32 x32) = x32 ∧ t_beui32 (f_beui32 (mk_beui32 x32)) = mk_beui32 x32) ∧
  (f_beui64 (t_beui64 x64) = x64 ∧ t_beui64 (f_beui64 (mk_beui64 x64)) = mk_beui64 x64).
Proof.
  unfold in_u. intros.
  unfold f_beui16, t_beui16, f_beui32, t_beui32, f_beui64, t_beui64,
    bswap16, bswap32, bswap64; cbn [beui16_x beui32_x beui64_x].
  rewrite !bswap_bswap. rewrite !Z.mod_small; auto.
Qed.
