(* ===== verification/Rng.v ===== *)
(** * lib/utils/rng.c: the linear congruential generator

    [struct utils_rng] is its 64-bit [seed]; all arithmetic is on [uint64_t],
    so the product [a * seed + c] wraps modulo 2^64 before it is reduced
    modulo 2^48. *)

From S2P Require Import Prelude CInt.
Local Open Scope Z_scope.

Definition rng_a : Z := 0x5deece66d.
Definition rng_c : Z := 0xb.
Definition rng_m : Z := Z.shiftl 1 48.

(** rng->seed = (seed ^ a) % m *)
Definition utils_rng_init (seed : Z) : Z := Z.lxor seed rng_a mod rng_m.

(** The new seed and the 32-bit result ([next >> 16] converted to uint32_t). *)
Definition utils_rng_gen32 (seed : Z) : Z * Z :=
  let next := u64 (u64 (rng_a * seed) + rng_c) mod rng_m in
  (u32 (Z.shiftr next 16), next).

(** The 53-bit integer [utils_rng_gend] divides by 2^53; the two calls are
    taken left to right (C leaves their order unspecified). *)
Definition utils_rng_gend_num (seed : Z) : Z * Z :=
  let '(r1, seed) := utils_rng_gen32 seed in
  let '(r2, seed) := utils_rng_gen32 seed in
  (u64 (Z.shiftl (Z.shiftr r1 6) 27 + Z.shiftr r2 5), seed).

(** The first loop of [utils_rng_gen]: whole 4-byte words.  [fuel] bounds the
    iterations; [size] is enough, since each iteration writes four bytes. *)
Fixpoint gen_words (fuel : nat) (seed : Z) (size : nat) : list Z * (Z * nat) :=
  match fuel with
  | O => ([], (seed, size))
  | S fuel =>
      if decide (4 <= size)%nat then
        let '(x, seed) := utils_rng_gen32 seed in
        let '(bytes, st) := gen_words fuel seed (size - 4) in
        (le_bytes 4 x ++ bytes, st)
      else ([], (seed, size))
  end.

(** The second loop: the high byte of [x], then [x <<= 8]. *)
Fixpoint gen_tail (x : Z) (size : nat) : list Z :=
  match size with
  | O => []
  | S size => Z.shiftr x 24 :: gen_tail (u32 (Z.shiftl x 8)) size
  end.

Definition utils_rng_gen (seed : Z) (size : nat) : list Z * Z :=
  let '(words, (seed, rest)) := gen_words size seed size in
  let '(x, seed) := utils_rng_gen32 seed in
  (words ++ gen_tail x rest, seed).

(** The multiplier's inverse modulo 2^48. *)
Definition rng_a_inv : Z := 0xdfe05bcb1365.

(** ** Lemmas *)

Lemma rng_m_eq : rng_m = 2 ^ 48.
Proof. reflexivity. Qed.

Lemma mod64_mod48 x : (x mod 2 ^ 64) mod 2 ^ 48 = x mod 2 ^ 48.
Proof. apply (wrap_wrap_le 48 64). lia. Qed.

(** The 64-bit wrap-around is invisible: 2^48 divides 2^64. *)
Lemma gen32_seed_eq seed : (utils_rng_gen32 seed).2 = (rng_a * seed + rng_c) mod rng_m.
Proof.
  unfold utils_rng_gen32, u64, wrap. cbn [snd]. rewrite rng_m_eq, mod64_mod48.
  rewrite <- Z.add_mod_idemp_l, mod64_mod48, Z.add_mod_idemp_l by lia. done.
Qed.

Lemma gen32_seed_range seed : 0 ≤ (utils_rng_gen32 seed).2 < rng_m.
Proof. rewrite gen32_seed_eq. apply Z.mod_pos_bound. rewrite rng_m_eq. lia. Qed.

Lemma gen32_out_eq seed :
  (utils_rng_gen32 seed).1 = (utils_rng_gen32 seed).2 / 2 ^ 16 ∧
  0 ≤ (utils_rng_gen32 seed).1 < 2 ^ 32.
Proof.
  pose proof (gen32_seed_range seed) as H. revert H.
  unfold utils_rng_gen32. cbn [fst snd]. set (n := _ mod rng_m). rewrite rng_m_eq.
  intros H. rewrite Z.shiftr_div_pow2 by lia. unfold u32, wrap.
  assert (0 ≤ n / 2 ^ 16 < 2 ^ 32)
    by (split; [apply Z.div_pos|apply Z.div_lt_upper_bound]; lia).
  rewrite Z.mod_small; auto.
Qed.

Lemma gen_words_spec fuel seed size :
  (size <= fuel)%nat →
  let '(bytes, (_, rest)) := gen_words fuel seed size in
  (length bytes + rest = size)%nat ∧ (rest < 4)%nat ∧ Forall is_byte bytes.
Proof.
  revert seed size. induction fuel as [|fuel IH]; intros seed size Hs; cbn [gen_words].
  { assert (size = 0)%nat as -> by lia. cbn. auto with lia. }
  case_decide; [|cbn; auto with lia].
  destruct (utils_rng_gen32 seed) as [x s].
  specialize (IH s (size - 4)%nat ltac:(lia)).
  destruct (gen_words fuel s (size - 4)) as [bytes [s' rest]].
  destruct IH as (H1 & H2 & H3). rewrite length_app, length_le_bytes.
  split_and!; [lia|lia|]. apply Forall_app; auto using le_bytes_is_byte.
Qed.

Lemma gen_tail_spec x size :
  0 ≤ x < 2 ^ 32 → length (gen_tail x size) = size ∧ Forall is_byte (gen_tail x size).
Proof.
  revert x. induction size as [|size IH]; intros x Hx; [done|].
  cbn [gen_tail]. destruct (IH (u32 (Z.shiftl x 8))) as [H1 H2].
  { by apply wrap_range. }
  cbn [length]. split; [lia|]. constructor; [|done].
  rewrite Z.shiftr_div_pow2 by lia. unfold is_byte.
  split; [apply Z.div_pos|apply Z.div_lt_upper_bound]; lia.
Qed.

Lemma gend_num_range r1 r2 :
  0 ≤ r1 < 2 ^ 32 → 0 ≤ r2 < 2 ^ 32 →
  0 ≤ u64 (Z.shiftl (Z.shiftr r1 6) 27 + Z.shiftr r2 5) < 2 ^ 53.
Proof.
  intros H1 H2. rewrite Z.shiftl_mul_pow2, !Z.shiftr_div_pow2 by lia.
  assert (0 ≤ r1 / 2 ^ 6 < 2 ^ 26)
    by (split; [apply Z.div_pos|apply Z.div_lt_upper_bound]; lia).
  assert (0 ≤ r2 / 2 ^ 5 < 2 ^ 27)
    by (split; [apply Z.div_pos|apply Z.div_lt_upper_bound]; lia).
  unfold u64. rewrite wrap_small; unfold in_u; lia.
Qed.

(** ** Properties *)

(** The generator's step is a permutation of the 48-bit seeds: every state
    reached by [utils_rng_init] or [utils_rng_gen32] is below 2^48, the 64-bit
    product that overflows does not disturb the recurrence, and the step can
    be undone (so no seed is ever lost and no two seeds collide). *)
Theorem rng_step_bijective (s : Z) :
  0 ≤ utils_rng_init s < rng_m ∧
  0 ≤ (utils_rng_gen32 s).2 < rng_m ∧
  (utils_rng_gen32 s).2 = (rng_a * s + rng_c) mod rng_m ∧
  (0 ≤ s < rng_m → (rng_a_inv * ((utils_rng_gen32 s).2 - rng_c)) mod rng_m = s) ∧
  (0 ≤ s < rng_m → ∃ p, 0 ≤ p < rng_m ∧ (utils_rng_gen32 p).2 = s).
Proof.
  pose proof rng_m_eq as Em.
  assert (rng_a_inv * rng_a = 1 + rng_m * 22050866921) as Einv by reflexivity.
  splits.
  - unfold utils_rng_init. apply Z.mod_pos_bound. lia.
  - apply gen32_seed_range.
  - apply gen32_seed_eq.
  - intros H. rewrite gen32_seed_eq, <- Z.mul_mod_idemp_r, Zminus_mod_idemp_l,
      Z.mul_mod_idemp_r by lia.
    replace (rng_a_inv * (rng_a * s + rng_c - rng_c)) with (rng_a_inv * rng_a * s) by ring.
    rewrite Einv. replace ((_ + _) * s) with (s + (22050866921 * s) * rng_m) by ring.
    rewrite Z_mod_plus_full. by apply Z.mod_small.
  - intros H. exists ((rng_a_inv * (s - rng_c)) mod rng_m).
    split; [apply Z.mod_pos_bound; lia|].
    rewrite gen32_seed_eq, <- Z.add_mod_idemp_l, Z.mul_mod_idemp_r,
      Z.add_mod_idemp_l by lia.
    replace (rng_a * (rng_a_inv * (s - rng_c)) + rng_c)
      with (rng_a_inv * rng_a * (s - rng_c) + rng_c) by ring.
    rewrite Einv. replace (_ + rng_c)
      with (s + (22050866921 * (s - rng_c)) * rng_m) by ring.
    rewrite Z_mod_plus_full. by apply Z.mod_small.
Qed.

Lemma rng_step_bijective_witness :
  0 ≤ 42 < rng_m ∧ (rng_a_inv * ((utils_rng_gen32 42).2 - rng_c)) mod rng_m = 42.
Proof.
  assert (0 ≤ 42 < rng_m) as H by (split; [lia|reflexivity]).
  split; [exact H|]. exact (proj1 (proj2 (proj2 (proj2 (rng_step_bijective 42)))) H).
Defined.

(** [utils_rng_gen] writes exactly [size] bytes, each a byte value, for every
    size (whole words first, the 0 to 3 byte tail from one more draw), and
    [utils_rng_gend]'s numerator is below 2^53, so its quotient is in [0, 1). *)
Theorem rng_gen_fills_buffer (seed : Z) (size : nat) :
  length (utils_rng_gen seed size).1 = size ∧
  Forall is_byte (utils_rng_gen seed size).1 ∧
  0 ≤ (utils_rng_gen seed size).2 < rng_m ∧
  0 ≤ (utils_rng_gend_num seed).1 < 2 ^ 53.
Proof.
  unfold utils_rng_gen, utils_rng_gend_num.
  pose proof (gen_words_spec size seed size (le_n _)) as H.
  destruct (gen_words size seed size) as [words [s rest]].
  destruct H as (H1 & H2 & H3).
  pose proof (gen32_seed_range s) as Hs. pose proof (gen32_out_eq s) as [_ Ho].
  pose proof (gen32_out_eq seed) as [_ Ho1].
  destruct (utils_rng_gen32 s) as [x s1]. destruct (utils_rng_gen32 seed) as [r1 s2].
  pose proof (gen32_out_eq s2) as [_ Ho2]. destruct (utils_rng_gen32 s2) as [r2 s3].
  cbn [fst snd] in *. destruct (gen_tail_spec x rest Ho) as [H4 H5].
  rewrite length_app. splits; [lia|by apply Forall_app|tauto|];
    unfold u64, wrap; rewrite ?Z.shiftl_mul_pow2, ?Z.shiftr_div_pow2 by lia;
    rewrite Z.mod_small; Z.to_euclidean_division_equations; lia.
Qed.
