(* ===== verification/Packet.v ===== *)
(** * Packets: [struct rte_mbuf] and the headers the data plane reads

    A packet buffer is the list of bytes from the start of the Ethernet frame
    to the end of the mbuf's data room (the room is far larger than the headers,
    see [MBUF_SIZE]); [pkt_len] is kept separately, as the C code never compares
    a header offset with it.  Header fields are loads and stores at the offsets
    of the wire formats (IEEE 802.3, RFC 826, RFC 791, RFC 9293, RFC 768), done
    in the host's little-endian order, exactly as [ip->dst_addr] is. *)

From S2P Require Import Prelude CInt.
Local Open Scope Z_scope.

(** The mbuf fields the program reads or writes. *)
Record mbuf := mk_mbuf {
  buf : list Z;
  pkt_len : Z;
  nb_segs : Z;
  ol_flags : Z;
  packet_type : Z;
  l2_len : Z;
  l3_len : Z;
  l4_len : Z;
  tso_segsz : Z;
  outer_l2_len : Z;
  outer_l3_len : Z;
}.

Definition set_buf (b : list Z) (m : mbuf) : mbuf :=
  mk_mbuf b (pkt_len m) (nb_segs m) (ol_flags m) (packet_type m) (l2_len m) (l3_len m)
    (l4_len m) (tso_segsz m) (outer_l2_len m) (outer_l3_len m).
Definition set_ol_flags (f : Z) (m : mbuf) : mbuf :=
  mk_mbuf (buf m) (pkt_len m) (nb_segs m) f (packet_type m) (l2_len m) (l3_len m)
    (l4_len m) (tso_segsz m) (outer_l2_len m) (outer_l3_len m).
Definition set_packet_type (t : Z) (m : mbuf) : mbuf :=
  mk_mbuf (buf m) (pkt_len m) (nb_segs m) (ol_flags m) t (l2_len m) (l3_len m)
    (l4_len m) (tso_segsz m) (outer_l2_len m) (outer_l3_len m).
Definition set_tso_segsz (t : Z) (m : mbuf) : mbuf :=
  mk_mbuf (buf m) (pkt_len m) (nb_segs m) (ol_flags m) (packet_type m) (l2_len m) (l3_len m)
    (l4_len m) t (outer_l2_len m) (outer_l3_len m).

(** [l2_len], [l3_len], [l4_len] are bit-fields of 7, 9 and 8 bits, the outer
    lengths of 7 and 9 bits; [tso_segsz] has 16. *)
Definition set_l2_len (x : Z) (m : mbuf) : mbuf :=
  mk_mbuf (buf m) (pkt_len m) (nb_segs m) (ol_flags m) (packet_type m) (wrap 7 x) (l3_len m)
    (l4_len m) (tso_segsz m) (outer_l2_len m) (outer_l3_len m).
Definition set_l3_len (x : Z) (m : mbuf) : mbuf :=
  mk_mbuf (buf m) (pkt_len m) (nb_segs m) (ol_flags m) (packet_type m) (l2_len m) (wrap 9 x)
    (l4_len m) (tso_segsz m) (outer_l2_len m) (outer_l3_len m).
Definition set_l4_len (x : Z) (m : mbuf) : mbuf :=
  mk_mbuf (buf m) (pkt_len m) (nb_segs m) (ol_flags m) (packet_type m) (l2_len m) (l3_len m)
    (wrap 8 x) (tso_segsz m) (outer_l2_len m) (outer_l3_len m).
Definition set_outer_len (x2 x3 : Z) (m : mbuf) : mbuf :=
  mk_mbuf (buf m) (pkt_len m) (nb_segs m) (ol_flags m) (packet_type m) (l2_len m) (l3_len m)
    (l4_len m) (tso_segsz m) (wrap 7 x2) (wrap 9 x3).

(** ** Memory access *)

Definition get_bytes (n off : nat) (b : list Z) : list Z := take n (drop off b).
Definition put_bytes (off : nat) (bs b : list Z) : list Z := list_inserts off bs b.
Definition load (n off : nat) (b : list Z) : Z := of_le_bytes (get_bytes n off b).
Definition store (n off : nat) (v : Z) (b : list Z) : list Z := put_bytes off (le_bytes n v) b.

(** The [n] bytes at [off] as a number in network order. *)
Definition net (n off : nat) (b : list Z) : Z := of_be_bytes (get_bytes n off b).

(** ** Byte order *)

Definition rte_be_to_cpu_16 : Z → Z := bswap16.
Definition rte_be_to_cpu_32 : Z → Z := bswap32.
Definition rte_cpu_to_be_16 : Z → Z := bswap16.
Definition rte_cpu_to_be_32 : Z → Z := bswap32.

(** ** Protocol numbers *)

Definition RTE_ETHER_TYPE_IPV4 : Z := 0x0800.
Definition RTE_ETHER_TYPE_ARP : Z := 0x0806.
Definition IPPROTO_TCP : Z := 6.
Definition IPPROTO_UDP : Z := 17.
Definition RTE_ARP_OP_REQUEST : Z := 1.
Definition RTE_ARP_OP_REPLY : Z := 2.
Definition RTE_ETHER_ADDR_LEN : nat := 6.

(** ** Ethernet header (14 bytes) *)

Definition sizeof_ether_hdr : nat := 14.
Definition eth_dst_addr (b : list Z) : list Z := get_bytes 6 0 b.
Definition eth_src_addr (b : list Z) : list Z := get_bytes 6 6 b.
Definition eth_type (b : list Z) : Z := load 2 12 b.
Definition set_eth_dst (a b : list Z) : list Z := put_bytes 0 a b.
Definition set_eth_src (a b : list Z) : list Z := put_bytes 6 a b.

(** ** IPv4 header, at offset 14 *)

Definition ip_ihl (b : list Z) : Z := Z.land (load 1 14 b) 0x0f.
Definition ip_tos (b : list Z) : Z := load 1 15 b.
Definition ip_proto (b : list Z) : Z := load 1 23 b.
Definition ip_src_addr (b : list Z) : Z := load 4 26 b.
Definition ip_dst_addr (b : list Z) : Z := load 4 30 b.
Definition set_ip_tos (v : Z) (b : list Z) : list Z := store 1 15 v b.
Definition set_ip_cksum (v : Z) (b : list Z) : list Z := store 2 24 v b.

(** [(uint8_t * )ip + ip->ihl * 4] *)
Definition l4_off (b : list Z) : nat := 14 + Z.to_nat (ip_ihl b * 4).
Definition l4_src_port (b : list Z) : Z := load 2 (l4_off b) b.
Definition l4_dst_port (b : list Z) : Z := load 2 (l4_off b + 2) b.
Definition tcp_data_off (b : list Z) : Z := load 1 (l4_off b + 12) b.
Definition set_tcp_cksum (v : Z) (b : list Z) : list Z := store 2 (l4_off b + 16) v b.
Definition set_udp_cksum (v : Z) (b : list Z) : list Z := store 2 (l4_off b + 6) v b.

(** ** ARP message, at offset 14 *)

Definition arp_opcode (b : list Z) : Z := load 2 20 b.
Definition arp_sha (b : list Z) : list Z := get_bytes 6 22 b.
Definition arp_sip (b : list Z) : Z := load 4 28 b.
Definition arp_tha (b : list Z) : list Z := get_bytes 6 32 b.
Definition arp_tip (b : list Z) : Z := load 4 38 b.
Definition set_arp_opcode (v : Z) (b : list Z) : list Z := store 2 20 v b.
Definition set_arp_sha (a b : list Z) : list Z := put_bytes 22 a b.
Definition set_arp_sip (v : Z) (b : list Z) : list Z := store 4 28 v b.
Definition set_arp_tha (a b : list Z) : list Z := put_bytes 32 a b.
Definition set_arp_tip (v : Z) (b : list Z) : list Z := store 4 38 v b.

(** ** The tests the fast path makes on a frame *)

(** eth_hdr->ether_type == rte_cpu_to_be_16(RTE_ETHER_TYPE_IPV4), and the ARP one. *)
Definition is_ipv4 (b : list Z) : bool := eth_type b =? rte_cpu_to_be_16 RTE_ETHER_TYPE_IPV4.
Definition is_arp (b : list Z) : bool := eth_type b =? rte_cpu_to_be_16 RTE_ETHER_TYPE_ARP.

(** The buffer holds byte values and reaches past every header the program
    touches: 14 + 60 bytes of Ethernet and IPv4 with options, then 60 of TCP. *)
Definition wf_buf (b : list Z) : Prop := Forall is_byte b ∧ (134 ≤ length b)%nat.
#[export] Instance wf_buf_dec b : Decision (wf_buf b).
Proof. unfold wf_buf, is_byte. apply _. Defined.

(** ** Lemmas: bytes *)

Lemma length_put_bytes off bs b : length (put_bytes off bs b) = length b.
Proof. apply length_inserts. Qed.

Lemma length_store n off v b : length (store n off v b) = length b.
Proof. apply length_put_bytes. Qed.

Lemma length_get_bytes n off b :
  (off + n ≤ length b)%nat → length (get_bytes n off b) = n.
Proof. intros. unfold get_bytes. rewrite length_take, length_drop. lia. Qed.

Lemma get_bytes_lookup n off b i :
  get_bytes n off b !! i = if decide (i < n)%nat then b !! (off + i)%nat else None.
Proof.
  unfold get_bytes. case_decide.
  - by rewrite lookup_take_lt, lookup_drop by done.
  - by apply lookup_take_ge, Nat.nlt_ge.
Qed.

Lemma get_put_same off bs b :
  (off + length bs ≤ length b)%nat → get_bytes (length bs) off (put_bytes off bs b) = bs.
Proof.
  intros H. apply list_eq. intros i. rewrite get_bytes_lookup. case_decide.
  - unfold put_bytes. rewrite list_lookup_inserts by lia.
    f_equal. lia.
  - symmetry. apply lookup_ge_None. lia.
Qed.

Lemma get_put_other n off off' bs b :
  (off' + n ≤ off ∨ off + length bs ≤ off')%nat →
  get_bytes n off' (put_bytes off bs b) = get_bytes n off' b.
Proof.
  intros H. apply list_eq. intros i. rewrite !get_bytes_lookup. case_decide; [|done].
  unfold put_bytes. destruct H.
  - apply list_lookup_inserts_lt. lia.
  - apply list_lookup_inserts_ge. lia.
Qed.

Lemma get_bytes_is_byte n off b : Forall is_byte b → Forall is_byte (get_bytes n off b).
Proof. intros. by apply Forall_take, Forall_drop. Qed.

Lemma put_bytes_is_byte off bs b :
  Forall is_byte b → Forall is_byte bs → Forall is_byte (put_bytes off bs b).
Proof.
  intros Hb Hbs. revert off. unfold put_bytes.
  induction Hbs as [|x bs Hx _ IH]; intros off; cbn [list_inserts]; [done|].
  by apply Forall_insert.
Qed.

Lemma wf_put_bytes off bs b : wf_buf b → Forall is_byte bs → wf_buf (put_bytes off bs b).
Proof.
  intros [H1 H2] H. split; [by apply put_bytes_is_byte|].
  by rewrite length_put_bytes.
Qed.

Lemma wf_store n off v b : wf_buf b → wf_buf (store n off v b).
Proof. intros. apply wf_put_bytes; auto using le_bytes_is_byte. Qed.

(** ** Lemmas: loads and stores *)

Lemma load_range n off b :
  Forall is_byte b → (off + n ≤ length b)%nat → 0 ≤ load n off b < 256 ^ Z.of_nat n.
Proof.
  intros Hb Hl. unfold load. pose proof (of_le_bytes_bound (get_bytes n off b)) as H.
  rewrite length_get_bytes in H by done. by apply H, get_bytes_is_byte.
Qed.

Lemma load_store_same n off v b :
  (off + n ≤ length b)%nat → load n off (store n off v b) = v mod 256 ^ Z.of_nat n.
Proof.
  intros H. unfold load, store. rewrite <- of_le_bytes_le_bytes. f_equal.
  rewrite <- (length_le_bytes n v) at 1. apply get_put_same.
  by rewrite length_le_bytes.
Qed.

Lemma load_store_other n n' off off' v b :
  (off' + n' ≤ off ∨ off + n ≤ off')%nat → load n' off' (store n off v b) = load n' off' b.
Proof.
  intros H. unfold load, store. f_equal. apply get_put_other.
  by rewrite length_le_bytes.
Qed.

Lemma load_put_other n' off off' bs b :
  (off' + n' ≤ off ∨ off + length bs ≤ off')%nat → load n' off' (put_bytes off bs b) = load n' off' b.
Proof. intros H. unfold load. f_equal. by apply get_put_other. Qed.

Lemma get_store_other n n' off off' v b :
  (off' + n' ≤ off ∨ off + n ≤ off')%nat → get_bytes n' off' (store n off v b) = get_bytes n' off' b.
Proof. intros H. apply get_put_other. by rewrite length_le_bytes. Qed.

Lemma store_store n off v w b : store n off v (store n off w b) = store n off v b.
Proof.
  unfold store, put_bytes. apply list_eq. intros i.
  destruct (decide (i < length b)%nat) as [Hi|Hi].
  - destruct (decide (i < off)%nat) as [Ho|Ho].
    { by rewrite !list_lookup_inserts_lt by done. }
    destruct (decide (i < off + n)%nat).
    + rewrite !list_lookup_inserts by (rewrite ?length_inserts, ?length_le_bytes; lia). done.
    + rewrite !list_lookup_inserts_ge by (rewrite length_le_bytes; lia). done.
  - rewrite !lookup_ge_None_2 by (rewrite ?length_inserts; lia). done.
Qed.

(** A big-endian field read through [rte_be_to_cpu_32] is the number the four
    bytes spell in network order. *)
Lemma be_load_32 off b :
  Forall is_byte b → (off + 4 ≤ length b)%nat →
  rte_be_to_cpu_32 (load 4 off b) = of_be_bytes (get_bytes 4 off b).
Proof.
  intros. apply bswap_of_le_bytes; [by apply get_bytes_is_byte|].
  by apply length_get_bytes.
Qed.

Lemma get_bytes_part n k N off b : (k + n ≤ N)%nat → get_bytes n (off + k) b = get_bytes n k (get_bytes N off b).
Proof.
  intros Hle. apply list_eq. intros i. rewrite !get_bytes_lookup. case_decide; [|done].
  rewrite decide_True by lia. f_equal. lia.
Qed.

Lemma be_eq n off b x :
  Forall is_byte b → (off + n ≤ length b)%nat → 0 ≤ x < 256 ^ Z.of_nat n → (load n off b =? bswap n x) = (net n off b =? x).
Proof.
  intros Hb Hl Hx. pose proof (load_range n off b Hb Hl) as Hr.
  assert (bswap n (load n off b) = net n off b) as Hn
    by (apply bswap_of_le_bytes; [by apply get_bytes_is_byte|by apply length_get_bytes]).
  apply eq_true_iff_eq. rewrite !Z.eqb_eq, <- Hn. split; [intros ->|intros <-]; rewrite bswap_bswap; [|symmetry]; by apply Z.mod_small.
Qed.

Lemma net_1 off b : (off < length b)%nat → net 1 off b = load 1 off b.
Proof.
  intros Hl. unfold net, load. pose proof (length_get_bytes 1 off b ltac:(lia)) as Hg.
  by destruct (get_bytes 1 off b) as [|x [|? ?]].
Qed.

Lemma be_net_range n off b : Forall is_byte b → (off + n ≤ length b)%nat → 0 ≤ net n off b < 256 ^ Z.of_nat n.
Proof.
  intros Hb Hl. pose proof (of_be_bytes_bound (get_bytes n off b) (get_bytes_is_byte n off b Hb)) as Hr.
  by rewrite length_get_bytes in Hr.
Qed.

Lemma ip_ihl_range b : 0 ≤ ip_ihl b < 16.
Proof.
  unfold ip_ihl. change 0x0f with (Z.ones 4). rewrite Z.land_ones by lia.
  apply Z.mod_pos_bound. lia.
Qed.

(** No header access of the fast path leaves the first 134 bytes. *)
Lemma l4_off_bound b : (14 ≤ l4_off b ≤ 74)%nat.
Proof. unfold l4_off. pose proof (ip_ihl_range b). lia. Qed.

Lemma l4_off_store n off v b :
  (off + n ≤ 14 ∨ 15 ≤ off)%nat → l4_off (store n off v b) = l4_off b.
Proof. intros. unfold l4_off, ip_ihl. rewrite load_store_other; [done|lia]. Qed.

Lemma l4_off_put off bs b :
  (off + length bs ≤ 14 ∨ 15 ≤ off)%nat → l4_off (put_bytes off bs b) = l4_off b.
Proof. intros. unfold l4_off, ip_ihl. rewrite load_put_other; [done|lia]. Qed.

#[export] Hint Resolve wf_store wf_put_bytes : umanet.
#[export] Hint Rewrite length_put_bytes length_store : umanet.
