(* ===== verification/Dpdk.v ===== *)
(** * What the program relies on from DPDK

    DPDK is not part of the repository: its rings, pools, checksum and address
    helpers are parameters of the model, given by type classes whose laws are
    the documented behaviour of the calls.  Each class has a reference instance,
    so every theorem that uses it can be run on a concrete input. *)

From S2P Require Import Prelude CInt Packet.
Local Open Scope Z_scope.

(** ** rte_ring: bounded FIFO of pointers

    The burst calls enqueue and dequeue as many objects as possible and return
    how many; both are atomic with respect to other producers. *)

Class RteRing := {
  ring : Type → Type;
  ring_items : ∀ {A}, ring A → list A;
  ring_capacity : ∀ {A}, ring A → nat;
  rte_ring_create : ∀ A, nat → option (ring A);
  rte_ring_free_count : ∀ {A}, ring A → nat;
  rte_ring_enqueue_burst : ∀ {A}, ring A → list A → nat * ring A;
  rte_ring_dequeue_burst : ∀ {A}, ring A → nat → list A * ring A;
  ring_create_ok : ∀ A size (r : ring A), rte_ring_create A size = Some r →
    ring_items r = [] ∧ ring_capacity r = (size - 1)%nat;
  ring_free_count_eq : ∀ A (r : ring A),
    rte_ring_free_count r = (ring_capacity r - length (ring_items r))%nat;
  ring_enqueue_eq : ∀ A (r r' : ring A) l k, rte_ring_enqueue_burst r l = (k, r') →
    k = (length l `min` rte_ring_free_count r)%nat ∧
    ring_items r' = ring_items r ++ take k l ∧ ring_capacity r' = ring_capacity r;
  ring_dequeue_eq : ∀ A (r r' : ring A) n l, rte_ring_dequeue_burst r n = (l, r') →
    l = take n (ring_items r) ∧
    ring_items r' = drop n (ring_items r) ∧ ring_capacity r' = ring_capacity r;
}.

(** ** rte_mempool: objects handed out with whatever they last held

    [pool_objs] are the free objects; [rte_mempool_get] fails (-ENOENT) only when
    there are none. *)

Class RteMempool (A : Type) := {
  mempool : Type;
  pool_objs : mempool → list A;
  rte_mempool_get : mempool → option (A * mempool);
  rte_mempool_put : mempool → A → mempool;
  pool_get_Some : ∀ mp x mp', rte_mempool_get mp = Some (x, mp') →
    pool_objs mp ≡ₚ x :: pool_objs mp';
  pool_get_None : ∀ mp, rte_mempool_get mp = None → pool_objs mp = [];
  pool_put : ∀ mp x, pool_objs (rte_mempool_put mp x) ≡ₚ x :: pool_objs mp;
}.

(** ** Internet checksums *)

(** The 16-bit words of the IPv4 header, of [ihl * 4] bytes, as loaded. *)
Definition ip_words (b : list Z) : list Z :=
  (λ i, load 2 (14 + 2 * i) b) <$> seq 0 (2 * Z.to_nat (ip_ihl b)).

Definition sum_list_Z (l : list Z) : Z := foldr Z.add 0 l.

(** RFC 1071: the one's complement sum of all the words, checksum included, is
    all ones (that is, the sum is 0 modulo 65535). *)
Definition ip_cksum_ok (b : list Z) : Prop := sum_list_Z (ip_words b) mod 65535 = 0.
#[export] Instance ip_cksum_ok_dec b : Decision (ip_cksum_ok b).
Proof. unfold ip_cksum_ok. apply _. Defined.

(** [rte_ipv4_cksum]: the caller zeroes the field, the call returns the value to
    set.  [rte_ipv4_udptcp_cksum b] is the L4 checksum of the packet. *)
Class RteCksum := {
  rte_ipv4_cksum : list Z → Z;
  rte_ipv4_udptcp_cksum : list Z → Z;
  ipv4_cksum_range : ∀ b, in_u 16 (rte_ipv4_cksum b);
  ipv4_udptcp_cksum_range : ∀ b, in_u 16 (rte_ipv4_udptcp_cksum b);
  ipv4_cksum_sets : ∀ b, wf_buf b → 5 ≤ ip_ihl b → load 2 24 b = 0 →
    ip_cksum_ok (set_ip_cksum (rte_ipv4_cksum b) b);
}.

(** ** The RSS hash of a tuple of big-endian words, with a key of bytes *)

Class RteThash := {
  rte_softrss_be : list Z → list Z → Z;
  softrss_be_range : ∀ tuple key, in_u 32 (rte_softrss_be tuple key);
}.

(** ** Ethernet address predicates *)

Class RteEther := {
  rte_is_broadcast_ether_addr : list Z → bool;
  rte_is_multicast_ether_addr : list Z → bool;
  rte_is_same_ether_addr : list Z → list Z → bool;
  is_broadcast_spec : ∀ a, rte_is_broadcast_ether_addr a = true ↔ a = replicate 6 255;
  is_multicast_spec : ∀ b a, rte_is_multicast_ether_addr (b :: a) = Z.testbit b 0;
  is_same_spec : ∀ a1 a2, rte_is_same_ether_addr a1 a2 = true ↔ a1 = a2;
}.

(** ** Offload flag bits of [ol_flags] and packet types (rte_mbuf_core.h)

    Their values are DPDK's; the code relies on the TSO request bit being apart
    from the others. *)

Class RteFlags := {
  RTE_MBUF_F_TX_TCP_SEG : Z;
  RTE_MBUF_F_TX_IPV4 : Z;
  RTE_MBUF_F_TX_IP_CKSUM : Z;
  RTE_MBUF_F_TX_TCP_CKSUM : Z;
  RTE_MBUF_F_TX_UDP_CKSUM : Z;
  RTE_PTYPE_L2_ETHER : Z;
  RTE_PTYPE_L3_IPV4 : Z;
  RTE_PTYPE_L4_TCP : Z;
  flags_u64 : Forall (in_u 64) [RTE_MBUF_F_TX_TCP_SEG; RTE_MBUF_F_TX_IPV4;
    RTE_MBUF_F_TX_IP_CKSUM; RTE_MBUF_F_TX_TCP_CKSUM; RTE_MBUF_F_TX_UDP_CKSUM];
  flags_nonzero : RTE_MBUF_F_TX_TCP_SEG ≠ 0;
  tcp_seg_apart : Z.land RTE_MBUF_F_TX_TCP_SEG
    (Z.lor (Z.lor RTE_MBUF_F_TX_IPV4 RTE_MBUF_F_TX_IP_CKSUM)
           (Z.lor RTE_MBUF_F_TX_TCP_CKSUM RTE_MBUF_F_TX_UDP_CKSUM)) = 0;
}.

(** ** Reference instances *)

Definition list_ring_enqueue {A} (r : nat * list A) (l : list A) : nat * (nat * list A) :=
  let k := (length l `min` (r.1 - length r.2))%nat in (k, (r.1, r.2 ++ take k l)).

#[export, refine] Instance list_ring : RteRing := {|
  ring A := (nat * list A)%type;
  ring_items A r := r.2;
  ring_capacity A r := r.1;
  rte_ring_create A size := Some ((size - 1)%nat, []);
  rte_ring_free_count A r := (r.1 - length r.2)%nat;
  rte_ring_enqueue_burst A := list_ring_enqueue;
  rte_ring_dequeue_burst A r n := (take n r.2, (r.1, drop n r.2));
|}.
Proof.
  - intros A size r Hr. by simplify_eq.
  - done.
  - unfold list_ring_enqueue. intros A r r' l k Hr. by simplify_eq.
  - intros A r r' n l Hr. by simplify_eq.
Defined.

#[export, refine] Instance list_mempool A : RteMempool A := {|
  mempool := list A;
  pool_objs mp := mp;
  rte_mempool_get mp := match mp with [] => None | x :: mp => Some (x, mp) end;
  rte_mempool_put mp x := x :: mp;
|}.
Proof.
  - intros [|y mp] x mp' Hr; by simplify_eq.
  - by intros [|y mp].
  - done.
Defined.

(** A checksum that meets the law: 65535 minus the sum modulo 65535. *)
Definition cksum_ref (b : list Z) : Z := 65535 - sum_list_Z (ip_words b) mod 65535.

#[export, refine] Instance ref_ether : RteEther := {|
  rte_is_broadcast_ether_addr a := bool_decide (a = replicate 6 255);
  rte_is_multicast_ether_addr a := match a with b :: _ => Z.testbit b 0 | [] => false end;
  rte_is_same_ether_addr a1 a2 := bool_decide (a1 = a2);
|}.
Proof.
  - intros. apply bool_decide_eq_true.
  - done.
  - intros. apply bool_decide_eq_true.
Defined.

(** The Toeplitz hash: bit [i] of the input selects the 32 key bits from bit [i] on. *)
Definition toeplitz (tuple key : list Z) : Z :=
  let k := of_be_bytes key in
  let n := 8 * Z.of_nat (length key) in
  foldr (λ '(j, w) h,
    foldr (λ i h, if Z.testbit w (31 - Z.of_nat i)
                  then Z.lxor h (Z.shiftr k (n - 32 - (32 * Z.of_nat j + Z.of_nat i)) mod 2 ^ 32) else h)
      h (seq 0 32)) 0 (zip (seq 0 (length tuple)) tuple) mod 2 ^ 32.

#[export, refine] Instance toeplitz_thash : RteThash := {| rte_softrss_be := toeplitz |}.
Proof. intros tuple key. unfold toeplitz, in_u. cbv zeta. by apply Z.mod_pos_bound. Defined.

(** The values of DPDK 21.11. *)
#[export, refine] Instance dpdk_21_11_flags : RteFlags := {|
  RTE_MBUF_F_TX_TCP_SEG := Z.shiftl 1 50;
  RTE_MBUF_F_TX_IPV4 := Z.shiftl 1 55;
  RTE_MBUF_F_TX_IP_CKSUM := Z.shiftl 1 54;
  RTE_MBUF_F_TX_TCP_CKSUM := Z.shiftl 1 52;
  RTE_MBUF_F_TX_UDP_CKSUM := Z.shiftl 3 52;
  RTE_PTYPE_L2_ETHER := 0x1;
  RTE_PTYPE_L3_IPV4 := 0x10;
  RTE_PTYPE_L4_TCP := 0x100;
|}.
Proof.
  - apply (bool_decide_unpack _). by vm_compute.
  - done.
  - done.
Defined.

(** ** Lemmas: header words under a checksum store *)

Lemma ip_ihl_store n off v b :
  (off + n ≤ 14 ∨ 15 ≤ off)%nat → ip_ihl (store n off v b) = ip_ihl b.
Proof. intros. unfold ip_ihl. rewrite load_store_other; [done|lia]. Qed.

Lemma sum_list_Z_app l1 l2 : sum_list_Z (l1 ++ l2) = sum_list_Z l1 + sum_list_Z l2.
Proof. induction l1 as [|x l1 IH]; [done|]. unfold sum_list_Z in *. cbn. lia. Qed.

Lemma ip_words_app b n :
  (2 * Z.to_nat (ip_ihl b) = 6 + n)%nat →
  ip_words b = ((λ i, load 2 (14 + 2 * i) b) <$> seq 0 5) ++ [load 2 24 b]
               ++ ((λ i, load 2 (14 + 2 * i) b) <$> seq 6 n).
Proof. intros H. unfold ip_words. rewrite H, (seq_app 6 n), fmap_app. done. Qed.

(** Storing a checksum over a zero field adds it to the header sum. *)
Lemma sum_ip_words_set_cksum v b :
  wf_buf b → 5 ≤ ip_ihl b → load 2 24 b = 0 → in_u 16 v →
  sum_list_Z (ip_words (set_ip_cksum v b)) = sum_list_Z (ip_words b) + v.
Proof.
  intros [Hb Hl] Hihl H0 Hv. pose proof (ip_ihl_range b).
  set (n := (2 * Z.to_nat (ip_ihl b) - 6)%nat).
  assert (2 * Z.to_nat (ip_ihl b) = 6 + n)%nat as Hn by lia.
  unfold set_ip_cksum.
  rewrite (ip_words_app b n Hn), (ip_words_app (store 2 24 v b) n)
    by (rewrite ip_ihl_store by lia; done).
  assert (∀ s m, (s + m ≤ 5 ∨ 6 ≤ s)%nat →
    ((λ i, load 2 (14 + 2 * i) (store 2 24 v b)) <$> seq s m) =
    ((λ i, load 2 (14 + 2 * i) b) <$> seq s m)) as Hseq.
  { intros s m Hsm. apply list_fmap_ext. intros i x Hx.
    apply lookup_seq in Hx as [-> Hx]. apply load_store_other. lia. }
  rewrite !Hseq by lia. rewrite load_store_same by lia.
  rewrite !sum_list_Z_app, H0. cbn [sum_list_Z foldr].
  change (256 ^ Z.of_nat 2) with (2 ^ 16). unfold in_u in Hv.
  rewrite Z.mod_small by lia. lia.
Qed.

#[export, refine] Instance ref_cksum : RteCksum := {|
  rte_ipv4_cksum := cksum_ref;
  rte_ipv4_udptcp_cksum b := load 2 (l4_off b) b mod 2 ^ 16;
|}.
Proof.
  - intros b. unfold cksum_ref, in_u. pose proof (Z.mod_pos_bound (sum_list_Z (ip_words b)) 65535). lia.
  - intros b. unfold in_u. apply Z.mod_pos_bound. lia.
  - intros b Hb Hihl H0. unfold ip_cksum_ok, cksum_ref.
    pose proof (Z.mod_pos_bound (sum_list_Z (ip_words b)) 65535).
    rewrite sum_ip_words_set_cksum by (auto; unfold in_u; lia).
    set (s := sum_list_Z (ip_words b)).
    replace (s + (65535 - s mod 65535)) with ((s / 65535 + 1) * 65535)
      by (pose proof (Z.div_mod s 65535); lia).
    apply Z_mod_mult.
Defined.
