(* ===== verification/Ecn.v ===== *)
(** * src/fast/ecn.h: ECN marking under ring congestion

    [ecn_mark_packet] works on one buffer; [ecn_mark_packets] walks an array of
    mbuf pointers into the heap of live mbufs and threads the per-ring counter
    [*rr], a [uint32_t]. *)

From S2P Require Import Prelude CInt Packet Dpdk.
Local Open Scope Z_scope.

(** [RING_SIZE] is defined in src/include/fastpath.h. *)
Definition RING_SIZE : Z := 16384.

(** The thresholds, with C's left-to-right integer arithmetic. *)
Definition ECN_START : Z := RING_SIZE * 1 / 2.
Definition ECN_MID : Z := RING_SIZE * 7 / 10.
Definition ECN_HIGH : Z := RING_SIZE * 85 / 100.

(** The local [step]: one packet in 16, in 4, or every packet. *)
Definition ecn_step (congestion : Z) : Z :=
  if congestion <? ECN_MID then 16 else if congestion <? ECN_HIGH then 4 else 1.

Section ecn.
Context `{RteCksum}.

Definition ecn_mark_packet (b : list Z) : list Z :=
  if negb (is_ipv4 b) then b
  else if Z.land (ip_tos b) 0x03 =? 0 then b
  else
    let b := set_ip_tos (Z.lor (ip_tos b) 0x03) b in
    let b := set_ip_cksum 0 b in
    set_ip_cksum (rte_ipv4_cksum b) b.

(** One iteration of the loop: test [( *rr)++ % step == 0], mark if so. *)
Definition ecn_mark_iter (step : Z) (p : nat) (s : gmap nat mbuf * Z) : res (gmap nat mbuf * Z) :=
  let '(h, rr) := s in
  let rr' := u32 (rr + 1) in
  if rr mod step =? 0 then
    m ← heap_get h p;
    Ok (<[p := set_buf (ecn_mark_packet (buf m)) m]> h, rr')
  else Ok (h, rr').

Definition ecn_mark_packets (mbufs : list nat) (congestion : Z) (h : gmap nat mbuf) (rr : Z)
    : res (gmap nat mbuf * Z) :=
  if congestion <? ECN_START then Ok (h, rr)
  else foldM (ecn_mark_iter (ecn_step congestion)) mbufs (h, rr).

(** ** Specification *)

(** Packet number [i] of a burst is selected when the counter, counted without
    wrap-around, is a multiple of the step. *)
Definition ecn_selected (congestion rr : Z) (i : nat) : bool :=
  (ECN_START <=? congestion) && ((rr + Z.of_nat i) mod ecn_step congestion =? 0).

(** The heap after marking the selected packets of [ps], the first of which is
    packet number [i] of the burst. *)
Fixpoint ecn_spec (congestion rr : Z) (i : nat) (ps : list nat) (h : gmap nat mbuf) : gmap nat mbuf :=
  match ps with
  | [] => h
  | p :: ps =>
      let h := if ecn_selected congestion rr i
               then alter (λ m, set_buf (ecn_mark_packet (buf m)) m) p h else h in
      ecn_spec congestion rr (S i) ps h
  end.

(** Does marking the burst [ps] select the mbuf [p]? *)
Definition ecn_marks (congestion rr : Z) (ps : list nat) (p : nat) : bool :=
  match list_find (λ q, q = p) ps with
  | Some (i, _) => ecn_selected congestion rr i
  | None => false
  end.

(** The counter after a burst of [n] packets. *)
Definition ecn_rr_after (congestion rr : Z) (n : nat) : Z :=
  if congestion <? ECN_START then rr else u32 (rr + Z.of_nat n).

(** How many of [n] packets are selected. *)
Definition ecn_count (congestion rr : Z) (n : nat) : nat :=
  length (List.filter (ecn_selected congestion rr) (seq 0 n)).

(** ** Lemmas *)

Lemma ecn_step_cases congestion :
  ecn_step congestion = 16 ∨ ecn_step congestion = 4 ∨ ecn_step congestion = 1.
Proof. unfold ecn_step. repeat case_match; auto. Qed.

(** The step divides 2^32, so the wrap of [*rr] does not disturb the pattern. *)
Lemma u32_mod_step congestion x : u32 x mod ecn_step congestion = x mod ecn_step congestion.
Proof.
  unfold u32, wrap.
  destruct (ecn_step_cases congestion) as [E|[E|E]]; rewrite E;
    rewrite Z.mod_mod_divide; auto; by apply Z.mod_divide.
Qed.

Lemma wf_ecn_mark_packet b : wf_buf b → wf_buf (ecn_mark_packet b).
Proof.
  intros. unfold ecn_mark_packet. repeat case_match; auto.
  unfold set_ip_cksum, set_ip_tos. auto with umanet.
Qed.

Lemma length_ecn_mark_packet b : length (ecn_mark_packet b) = length b.
Proof.
  unfold ecn_mark_packet, set_ip_cksum, set_ip_tos.
  repeat case_match; autorewrite with umanet; auto.
Qed.

(** Marking touches only the ToS byte (15) and the header checksum (24, 25). *)
Lemma ecn_mark_packet_frame n off b :
  (off + n ≤ 15 ∨ (16 ≤ off ∧ off + n ≤ 24) ∨ 26 ≤ off)%nat →
  get_bytes n off (ecn_mark_packet b) = get_bytes n off b.
Proof.
  intros. unfold ecn_mark_packet, set_ip_cksum, set_ip_tos.
  repeat case_match; auto. rewrite !get_store_other; auto; lia.
Qed.

Lemma land_lor_absorb x y : Z.land (Z.lor x y) y = y.
Proof.
  apply Z.bits_inj'. intros n _. rewrite Z.land_spec, Z.lor_spec.
  by destruct (Z.testbit x n), (Z.testbit y n).
Qed.

Lemma lor_3_byte x : 0 ≤ x < 256 → 0 ≤ Z.lor x 3 < 256.
Proof.
  intros. split; [apply Z.lor_nonneg; lia|].
  destruct (decide (x = 0)) as [->|]; [done|].
  apply Z.log2_lt_cancel. rewrite Z.log2_lor by lia.
  apply Z.max_lub_lt; [|done]. change (Z.log2 256) with 8.
  apply Z.log2_lt_pow2; lia.
Qed.

Lemma ecn_mark_packets_step (congestion rr0 : Z) ps i h :
  ECN_START ≤ congestion → (∀ p, p ∈ ps → is_Some (h !! p)) →
  foldM (ecn_mark_iter (ecn_step congestion)) ps (h, u32 (rr0 + Z.of_nat i)) =
  Ok (ecn_spec congestion rr0 i ps h, u32 (rr0 + Z.of_nat (i + length ps))).
Proof.
  intros Hc. revert i h. induction ps as [|p ps IH]; intros i h Hps.
  { cbn. by rewrite Nat.add_0_r. }
  cbn [foldM ecn_spec]. unfold ecn_mark_iter at 2. cbv beta iota zeta. rewrite u32_mod_step.
  assert (∀ h', dom h' = dom h →
    foldM (ecn_mark_iter (ecn_step congestion)) ps (h', u32 (u32 (rr0 + Z.of_nat i) + 1)) =
    Ok (ecn_spec congestion rr0 (S i) ps h', u32 (rr0 + Z.of_nat (i + length (p :: ps))))) as Hrec.
  { intros h' Hd.
    replace (u32 (u32 (rr0 + Z.of_nat i) + 1)) with (u32 (rr0 + Z.of_nat (S i))).
    2:{ unfold u32, wrap. rewrite Z.add_mod_idemp_l by lia. f_equal. lia. }
    rewrite IH.
    - cbn [length]. do 4 f_equal. lia.
    - intros q Hq. apply elem_of_dom. rewrite Hd. apply elem_of_dom, Hps. by right. }
  unfold ecn_selected. replace (ECN_START <=? congestion) with true by (symmetry; lia).
  cbn [andb]. destruct ((rr0 + Z.of_nat i) mod ecn_step congestion =? 0); [|by apply Hrec].
  destruct (Hps p) as [m Hm]; [by left|]. rewrite (heap_get_Some _ _ _ Hm).
  cbn [mbind res_bind]. rewrite <- Hrec; [|by rewrite dom_alter_L].
  do 3 f_equal. apply map_eq. intros q. rewrite lookup_alter, lookup_insert. case_decide; simplify_map_eq; done.
Qed.

Lemma ecn_spec_other congestion rr i ps h p :
  p ∉ ps → ecn_spec congestion rr i ps h !! p = h !! p.
Proof.
  revert i h. induction ps as [|q ps IH]; intros i h Hp; [done|].
  apply not_elem_of_cons in Hp as [Hne Hp]. cbn [ecn_spec]. rewrite IH by done.
  case_match; [|done]. by apply lookup_alter_ne.
Qed.

Lemma ecn_spec_at congestion rr i ps h j p :
  NoDup ps → ps !! j = Some p →
  ecn_spec congestion rr i ps h !! p =
  (if ecn_selected congestion rr (i + j)
   then λ m, set_buf (ecn_mark_packet (buf m)) m else id) <$> h !! p.
Proof.
  revert i j h. induction ps as [|q ps IH]; intros i j h Hnd Hj; [done|].
  apply NoDup_cons in Hnd as [Hq Hnd]. cbn [ecn_spec].
  destruct j as [|j]; cbn in Hj; simplify_eq.
  - rewrite ecn_spec_other, Nat.add_0_r by done.
    case_match; [by rewrite lookup_alter_eq|by rewrite option_fmap_id].
  - rewrite (IH _ j) by done. rewrite Nat.add_succ_comm. f_equal.
    case_match; [|done]. apply lookup_alter_ne. intros ->.
    apply Hq, list_elem_of_lookup. eauto.
Qed.

Lemma ecn_mark_packets_all congestion rr ps h :
  NoDup ps → live h ps → in_u 32 rr →
  ∃ h', ecn_mark_packets ps congestion h rr = Ok (h', ecn_rr_after congestion rr (length ps)) ∧
    ∀ p, h' !! p = (if ecn_marks congestion rr ps p
                    then λ m, set_buf (ecn_mark_packet (buf m)) m else id) <$> h !! p.
Proof.
  intros Hnd Hl Hrr. unfold ecn_mark_packets, ecn_rr_after.
  destruct (Z.ltb_spec congestion ECN_START) as [Hc|Hc].
  - exists h. split; [done|]. intros p.
    replace (ecn_marks congestion rr ps p) with false; [by rewrite option_fmap_id|].
    unfold ecn_marks, ecn_selected. replace (ECN_START <=? congestion) with false by lia.
    by destruct (list_find _ _) as [[]|].
  - pose proof (ecn_mark_packets_step congestion rr ps 0 h Hc Hl) as Hs.
    cbn [Z.of_nat Nat.add] in Hs. rewrite Z.add_0_r in Hs.
    unfold u32 in Hs at 1. rewrite wrap_small in Hs by done. rewrite Hs.
    eexists. split; [done|]. intros p. unfold ecn_marks.
    destruct (list_find (λ q, q = p) ps) as [[i q]|] eqn:E.
    + apply list_find_Some in E as (Hi & -> & _). by apply (ecn_spec_at congestion rr 0 ps h i p).
    + apply list_find_None in E. rewrite option_fmap_id. apply ecn_spec_other. intros Hp.
      rewrite Forall_forall in E. by apply (E p).
Qed.

Lemma ecn_count_div congestion rr n :
  ECN_START ≤ congestion →
  Z.of_nat (ecn_count congestion rr n) =
  (rr + Z.of_nat n - 1) / ecn_step congestion - (rr - 1) / ecn_step congestion.
Proof.
  intros Hc. set (k := ecn_step congestion).
  assert (0 < k) as Hk by (subst k; destruct (ecn_step_cases congestion) as [->|[->| ->]]; lia).
  unfold ecn_count. induction n as [|n IH].
  { cbn. rewrite Z.add_0_r. lia. }
  rewrite seq_S, List.filter_app, length_app, Nat2Z.inj_add, IH. cbn [List.filter Nat.add].
  unfold ecn_selected at 1. fold k. replace (ECN_START <=? congestion) with true by lia.
  cbn [andb]. replace (rr + Z.of_nat (S n) - 1) with (rr + Z.of_nat n) by lia.
  pose proof (Z.div_mod (rr + Z.of_nat n) k ltac:(lia)).
  pose proof (Z.mod_pos_bound (rr + Z.of_nat n) k Hk).
  pose proof (Z.div_mod (rr + Z.of_nat n - 1) k ltac:(lia)).
  pose proof (Z.mod_pos_bound (rr + Z.of_nat n - 1) k Hk).
  destruct (Z.eqb_spec ((rr + Z.of_nat n) mod k) 0); cbn [length]; nia.
Qed.

(** ** Properties *)

(** Marking one packet.  On an IPv4 packet whose ECN field is not Not-ECT the
    field becomes CE, the DSCP bits keep their value, and the header checksum is
    valid again (RFC 1071); on every other packet the buffer is left untouched.
    In all cases only the ToS byte and the checksum bytes can differ, and the
    frame keeps its EtherType, addresses and payload. *)
Theorem ecn_mark_packet_correct (b : list Z) :
  wf_buf b →
  (is_ipv4 b = true → Z.land (ip_tos b) 3 ≠ 0 → 5 ≤ ip_ihl b →
     Z.land (ip_tos (ecn_mark_packet b)) 3 = 3 ∧
     Z.shiftr (ip_tos (ecn_mark_packet b)) 2 = Z.shiftr (ip_tos b) 2 ∧
     ip_cksum_ok (ecn_mark_packet b)) ∧
  (is_ipv4 b = false ∨ Z.land (ip_tos b) 3 = 0 → ecn_mark_packet b = b) ∧
  length (ecn_mark_packet b) = length b ∧
  (∀ n off, (off + n ≤ 15 ∨ (16 ≤ off ∧ off + n ≤ 24) ∨ 26 ≤ off)%nat →
     get_bytes n off (ecn_mark_packet b) = get_bytes n off b).
Proof.
  intros Hwf. pose proof Hwf as [Hb Hl]. splits.
  - intros Hip Hect Hihl. unfold ecn_mark_packet. rewrite Hip. cbn [negb].
    destruct (Z.eqb_spec (Z.land (ip_tos b) 3) 0); [done|].
    set (b1 := set_ip_tos _ b).
    assert (ip_tos (set_ip_cksum (rte_ipv4_cksum (set_ip_cksum 0 b1)) (set_ip_cksum 0 b1))
            = Z.lor (ip_tos b) 3) as ->.
    { unfold ip_tos, set_ip_cksum. rewrite !load_store_other by lia.
      unfold b1, set_ip_tos. rewrite load_store_same by lia. apply Z.mod_small.
      apply lor_3_byte. by apply (load_range 1 15); [|lia]. }
    splits; [apply land_lor_absorb|by rewrite Z.shiftr_lor, Z.lor_0_r|].
    apply ipv4_cksum_sets; [unfold set_ip_cksum, b1, set_ip_tos; auto with umanet| |].
    + unfold b1, set_ip_cksum, set_ip_tos. rewrite !ip_ihl_store by lia. done.
    + unfold set_ip_cksum. rewrite load_store_same; [done|].
      unfold b1, set_ip_tos. rewrite length_store. lia.
  - intros H'. unfold ecn_mark_packet. destruct (is_ipv4 b); [|done]. cbn [negb].
    destruct H' as [?|Hz]; [done|]. by rewrite Hz.
  - apply length_ecn_mark_packet.
  - intros. by apply ecn_mark_packet_frame.
Qed.

(** [C28] Marking a burst.  For live, distinct mbufs the loop never faults; packet
    number [i] is marked exactly when congestion has reached [ECN_START] and the
    counter (as if it never wrapped at 2^32) is a multiple of the step; all other
    mbufs are untouched; and over any burst of [n] packets the number marked is
    within one of [n / step], all of them from [ECN_HIGH] on. *)
Theorem ecn_mark_packets_correct (ps : list nat) (congestion rr : Z) (h : gmap nat mbuf) :
  NoDup ps → (∀ p, p ∈ ps → is_Some (h !! p)) → in_u 32 rr →
  ∃ h' rr', ecn_mark_packets ps congestion h rr = Ok (h', rr') ∧
    (∀ i p, ps !! i = Some p →
       h' !! p = (if ecn_selected congestion rr i
                  then λ m, set_buf (ecn_mark_packet (buf m)) m else id) <$> h !! p) ∧
    (∀ p, p ∉ ps → h' !! p = h !! p) ∧
    (ECN_START ≤ congestion →
       Z.of_nat (length ps) / ecn_step congestion ≤ Z.of_nat (ecn_count congestion rr (length ps))
       ≤ Z.of_nat (length ps) / ecn_step congestion + 1 ∧
       rr' = u32 (rr + Z.of_nat (length ps))) ∧
    (congestion < ECN_START → h' = h ∧ rr' = rr) ∧
    (ECN_HIGH ≤ congestion → ecn_count congestion rr (length ps) = length ps).
Proof.
  intros Hnd Hlive Hrr. unfold ecn_mark_packets.
  destruct (Z.ltb_spec congestion ECN_START) as [Hc|Hc].
  - assert (ECN_HIGH = 13926 ∧ ECN_START = 8192) as [E1 E2] by done.
    exists h, rr. splits; auto; [|lia|lia].
    intros i p Hi. unfold ecn_selected. replace (ECN_START <=? congestion) with false by lia.
    cbn. by rewrite option_fmap_id.
  - pose proof (ecn_mark_packets_step congestion rr ps 0 h Hc Hlive) as Hs.
    cbn [Z.of_nat Nat.add] in Hs. rewrite Z.add_0_r in Hs.
    unfold u32 in Hs at 1. rewrite wrap_small in Hs by done. rewrite Hs.
    pose proof (ecn_count_div congestion rr (length ps) Hc) as Hcnt.
    assert (0 < ecn_step congestion) as Hk
      by (destruct (ecn_step_cases congestion) as [->|[->| ->]]; lia).
    eexists _, _. splits; [done|..].
    + intros i p Hi. apply (ecn_spec_at congestion rr 0 ps h i p Hnd Hi).
    + intros p Hp. by apply ecn_spec_other.
    + intros _. split; [|done]. rewrite Hcnt. clear Hcnt Hs.
      set (n := Z.of_nat _). set (k := ecn_step congestion) in *.
      Z.to_euclidean_division_equations. nia.
    + lia.
    + intros Hh. assert (ecn_step congestion = 1) as E.
      { unfold ecn_step. assert (ECN_HIGH = 13926 ∧ ECN_MID = 11468) as [E1 E2] by done.
        repeat case_match; lia. }
      rewrite E, !Z.div_1_r in Hcnt. lia.
Qed.

End ecn.

(** A UDP/IPv4 packet with ECT(0) on the wire, and a heap of one such mbuf. *)
Definition demo_ip_buf (tos proto : Z) (src dst : list Z) : list Z :=
  [2;0;0;0;0;254; 2;0;0;0;0;1; 8;0;
   69;tos;0;28;0;0;0;0;64;proto;0;0] ++ src ++ dst ++
  [0;80;31;144;0;8;0;0] ++ replicate 100 0.

Definition demo_mbuf (b : list Z) : mbuf := mk_mbuf b 60 1 0 0 0 0 0 0 0 0.

Lemma ecn_mark_packet_correct_witness :
  wf_buf (demo_ip_buf 2 17 [192;168;100;2] [192;168;100;3]) ∧
  Z.land (ip_tos (ecn_mark_packet (demo_ip_buf 2 17 [192;168;100;2] [192;168;100;3]))) 3 = 3.
Proof.
  assert (wf_buf (demo_ip_buf 2 17 [192;168;100;2] [192;168;100;3])) as Hwf
    by (apply (bool_decide_unpack _); vm_compute; exact I).
  split; [exact Hwf|].
  refine (proj1 (proj1 (ecn_mark_packet_correct _ Hwf) _ _ _));
    vm_compute; congruence.
Defined.

Lemma ecn_mark_packets_correct_witness :
  ∃ h' rr', ecn_mark_packets [7%nat] 14000
    {[7%nat := demo_mbuf (demo_ip_buf 2 17 [192;168;100;2] [192;168;100;3])]} 5 = Ok (h', rr') ∧
    rr' = 6.
Proof.
  destruct (ecn_mark_packets_correct [7%nat] 14000 5
    {[7%nat := demo_mbuf (demo_ip_buf 2 17 [192;168;100;2] [192;168;100;3])]})
    as (h' & rr' & He & _ & _ & Hrr & _ & _).
  - repeat constructor. set_solver.
  - intros p Hp. apply list_elem_of_singleton in Hp as ->. eexists. reflexivity.
  - apply (bool_decide_unpack _). vm_compute. exact I.
  - exists h', rr'. split; [exact He|]. apply Hrr. vm_compute. congruence.
Defined.
