(* ===== verification/Offload.v ===== *)
(** * src/include/fastpath.h: offload metadata and checksums

    The per-packet bodies of [pkts_set_tso_flags] and [pkts_set_gro_flags], their
    loops over an array of mbuf pointers, and [fix_cksum]. *)

From S2P Require Import Prelude CInt Packet Dpdk Ecn.
Local Open Scope Z_scope.

Definition PKT_MTU : Z := 9000.

(** [x &= ~f] on a [uint64_t]. *)
Definition clear_flags (x f : Z) : Z := Z.land x (Z.lnot f).

Section offload.
Context `{RteFlags} `{RteCksum}.

(** The body of the loop of [pkts_set_tso_flags]. *)
Definition pkt_set_tso_flags (m : mbuf) : mbuf :=
  let b := buf m in
  if rte_be_to_cpu_16 (eth_type b) =? RTE_ETHER_TYPE_IPV4 then
    let m := set_l2_len (Z.of_nat sizeof_ether_hdr) m in
    let m := set_l3_len (ip_ihl b * 4) m in
    if ip_proto b =? IPPROTO_TCP then
      let m := set_ol_flags (Z.lor (ol_flags m)
        (Z.lor RTE_MBUF_F_TX_IPV4 (Z.lor RTE_MBUF_F_TX_TCP_CKSUM RTE_MBUF_F_TX_IP_CKSUM))) m in
      let m := set_l4_len (Z.shiftr (tcp_data_off b) 4 * 4) m in
      if nb_segs m >? 1 then
        let m := set_ol_flags (Z.lor (ol_flags m) RTE_MBUF_F_TX_TCP_SEG) m in
        set_tso_segsz (u16 (PKT_MTU - l3_len m - l4_len m)) m
      else
        let m := set_ol_flags (clear_flags (ol_flags m) RTE_MBUF_F_TX_TCP_SEG) m in
        set_tso_segsz 0 m
    else if ip_proto b =? IPPROTO_UDP then
      set_ol_flags (Z.lor (ol_flags m)
        (Z.lor RTE_MBUF_F_TX_IPV4 (Z.lor RTE_MBUF_F_TX_IP_CKSUM RTE_MBUF_F_TX_UDP_CKSUM))) m
    else
      set_ol_flags (Z.lor (ol_flags m) (Z.lor RTE_MBUF_F_TX_IPV4 RTE_MBUF_F_TX_IP_CKSUM)) m
  else set_ol_flags 0 m.

Definition pkts_set_tso_flags (pkts : list nat) (h : gmap nat mbuf) : res (gmap nat mbuf) :=
  heap_update_all pkt_set_tso_flags pkts h.

(** The body of the loop of [pkts_set_gro_flags]. *)
Definition pkt_set_gro_flags (m : mbuf) : mbuf :=
  let m := set_packet_type 0 m in
  let m := set_l4_len 0 (set_l3_len 0 (set_l2_len 0 m)) in
  let m := set_outer_len 0 0 m in
  let b := buf m in
  if negb (rte_be_to_cpu_16 (eth_type b) =? RTE_ETHER_TYPE_IPV4) then m
  else if negb (ip_proto b =? IPPROTO_TCP) then m
  else
    let m := set_l2_len (Z.of_nat sizeof_ether_hdr) m in
    let m := set_l3_len (ip_ihl b * 4) m in
    (* tcp = (uint8_t * )ip + m->l3_len *)
    let m := set_l4_len (Z.shiftr (load 1 (14 + Z.to_nat (l3_len m) + 12) b) 4 * 4) m in
    set_packet_type (Z.lor RTE_PTYPE_L2_ETHER (Z.lor RTE_PTYPE_L3_IPV4 RTE_PTYPE_L4_TCP)) m.

Definition pkts_set_gro_flags (pkts : list nat) (h : gmap nat mbuf) : res (gmap nat mbuf) :=
  heap_update_all pkt_set_gro_flags pkts h.

Definition fix_cksum (m : mbuf) : mbuf :=
  let m := set_ol_flags (clear_flags (ol_flags m)
    (Z.lor RTE_MBUF_F_TX_TCP_SEG (Z.lor (Z.lor RTE_MBUF_F_TX_IPV4 RTE_MBUF_F_TX_IP_CKSUM)
       (Z.lor RTE_MBUF_F_TX_TCP_CKSUM RTE_MBUF_F_TX_UDP_CKSUM)))) m in
  let m := set_tso_segsz 0 m in
  if is_ipv4 (buf m) then
    let m := set_l2_len (Z.of_nat sizeof_ether_hdr) m in
    let m := set_l3_len (ip_ihl (buf m) * 4) m in
    let m := set_buf (set_ip_cksum 0 (buf m)) m in
    let m := set_buf (set_ip_cksum (rte_ipv4_cksum (buf m)) (buf m)) m in
    if ip_proto (buf m) =? IPPROTO_TCP then
      let m := set_l4_len (Z.shiftr (tcp_data_off (buf m)) 4 * 4) m in
      let m := set_buf (set_tcp_cksum 0 (buf m)) m in
      set_buf (set_tcp_cksum (rte_ipv4_udptcp_cksum (buf m)) (buf m)) m
    else if ip_proto (buf m) =? IPPROTO_UDP then
      let m := set_l4_len 8 m in
      let m := set_buf (set_udp_cksum 0 (buf m)) m in
      set_buf (set_udp_cksum (rte_ipv4_udptcp_cksum (buf m)) (buf m)) m
    else set_l4_len 0 m
  else set_l4_len 0 (set_l3_len 0 (set_l2_len 0 m)).

(** ** Lemmas *)

Lemma data_off_len_range b :
  wf_buf b → 0 ≤ Z.shiftr (tcp_data_off b) 4 * 4 ≤ 60.
Proof.
  intros [Hb Hl]. pose proof (l4_off_bound b).
  pose proof (load_range 1 (l4_off b + 12) b Hb ltac:(lia)) as Hr.
  unfold tcp_data_off. rewrite Z.shiftr_div_pow2 by lia.
  change (256 ^ Z.of_nat 1) with 256 in Hr. Z.to_euclidean_division_equations. lia.
Qed.

Lemma clear_flags_gone x f g : Z.land g f = g → Z.land (clear_flags x f) g = 0.
Proof.
  intros Hg. apply Z.bits_inj'. intros n Hn.
  assert (Z.testbit (Z.land g f) n = Z.testbit g n) as Hb by by rewrite Hg.
  revert Hb. unfold clear_flags. rewrite !Z.land_spec, Z.lnot_spec, Z.bits_0 by done.
  destruct (Z.testbit x n), (Z.testbit f n), (Z.testbit g n); done.
Qed.

Lemma clear_flags_keep x f g : Z.land g f = 0 → Z.land (clear_flags x f) g = Z.land x g.
Proof.
  intros Hg. apply Z.bits_inj'. intros n Hn.
  assert (Z.testbit (Z.land g f) n = false) as Hb by (rewrite Hg; apply Z.bits_0).
  revert Hb. unfold clear_flags. rewrite !Z.land_spec, Z.lnot_spec by done.
  destruct (Z.testbit x n), (Z.testbit f n), (Z.testbit g n); done.
Qed.

Lemma lor_land_self x f : Z.land (Z.lor x f) f = f.
Proof.
  apply Z.bits_inj'. intros n _. rewrite Z.land_spec, Z.lor_spec.
  by destruct (Z.testbit x n), (Z.testbit f n).
Qed.

(** The EtherType test in either byte order. *)
Lemma ether_type_swap b :
  wf_buf b → (rte_be_to_cpu_16 (eth_type b) =? RTE_ETHER_TYPE_IPV4) = is_ipv4 b.
Proof.
  intros [Hb Hl]. unfold is_ipv4, rte_be_to_cpu_16, rte_cpu_to_be_16, bswap16.
  pose proof (load_range 2 12 b Hb ltac:(lia)) as Hr. fold (eth_type b) in Hr.
  destruct (Z.eqb_spec (eth_type b) (bswap 2 RTE_ETHER_TYPE_IPV4)) as [->|Hne]; [done|].
  apply Z.eqb_neq. intros Heq. apply Hne. rewrite <- Heq, bswap_bswap.
  symmetry. by apply Z.mod_small.
Qed.

(** What [fix_cksum] leaves in the buffer, on each branch. *)
Definition ip_fixed (b : list Z) : list Z :=
  set_ip_cksum (rte_ipv4_cksum (set_ip_cksum 0 b)) (set_ip_cksum 0 b).

Lemma wf_ip_fixed b : wf_buf b → wf_buf (ip_fixed b).
Proof. unfold ip_fixed, set_ip_cksum. auto with umanet. Qed.

Lemma ip_fixed_load n off b :
  (off + n ≤ 24 ∨ 26 ≤ off)%nat → load n off (ip_fixed b) = load n off b.
Proof. intros. unfold ip_fixed, set_ip_cksum. by rewrite !load_store_other by lia. Qed.

Lemma ip_fixed_l4_off b : l4_off (ip_fixed b) = l4_off b.
Proof. unfold ip_fixed, set_ip_cksum. by rewrite !l4_off_store by lia. Qed.

Lemma ip_fixed_ok b : wf_buf b → 5 ≤ ip_ihl b → ip_cksum_ok (ip_fixed b).
Proof.
  intros Hwf Hihl. apply ipv4_cksum_sets.
  - by apply wf_store.
  - unfold set_ip_cksum. by rewrite ip_ihl_store by lia.
  - unfold set_ip_cksum. rewrite load_store_same; [done|]. destruct Hwf. lia.
Qed.

(** A store past the IPv4 header leaves the header sum alone. *)
Lemma ip_words_store n off v b :
  5 ≤ ip_ihl b → (l4_off b ≤ off)%nat → ip_words (store n off v b) = ip_words b.
Proof.
  intros Hihl Hoff. unfold l4_off in Hoff. unfold ip_words.
  rewrite ip_ihl_store by lia. apply list_fmap_ext. intros i x Hx.
  apply lookup_seq in Hx as [-> Hx]. apply load_store_other. lia.
Qed.

Lemma ip_cksum_ok_store n off v b :
  5 ≤ ip_ihl b → (l4_off b ≤ off)%nat → ip_cksum_ok b → ip_cksum_ok (store n off v b).
Proof. intros. unfold ip_cksum_ok. by rewrite ip_words_store. Qed.

(** The store of an L4 checksum at [l4_off + k] into the fixed buffer. *)
Lemma l4_cksum_field k b v :
  wf_buf b → (2 ≤ k ≤ 16)%nat → in_u 16 v →
  load 2 (l4_off b + k) (store 2 (l4_off b + k) v b) = v.
Proof.
  intros [_ Hl] Hk Hv. pose proof (l4_off_bound b).
  rewrite load_store_same by lia. apply Z.mod_small. exact Hv.
Qed.

Lemma l4_off_cksum_store k b v :
  (2 ≤ k)%nat → l4_off (store 2 (l4_off b + k) v b) = l4_off b.
Proof. intros. pose proof (l4_off_bound b). apply l4_off_store. lia. Qed.

(** [fix_cksum] as a function of the branch taken. *)
Lemma fix_cksum_buf m :
  buf (fix_cksum m) =
  let b := buf m in
  if is_ipv4 b then
    if ip_proto b =? IPPROTO_TCP then
      set_tcp_cksum (rte_ipv4_udptcp_cksum (set_tcp_cksum 0 (ip_fixed b)))
        (set_tcp_cksum 0 (ip_fixed b))
    else if ip_proto b =? IPPROTO_UDP then
      set_udp_cksum (rte_ipv4_udptcp_cksum (set_udp_cksum 0 (ip_fixed b)))
        (set_udp_cksum 0 (ip_fixed b))
    else ip_fixed b
  else b.
Proof.
  unfold fix_cksum. cbn [buf set_ol_flags set_tso_segsz].
  destruct (is_ipv4 (buf m)); [|done].
  cbn [buf set_ol_flags set_tso_segsz set_l2_len set_l3_len set_l4_len set_buf].
  fold (ip_fixed (buf m)).
  assert (ip_proto (ip_fixed (buf m)) = ip_proto (buf m)) as ->
    by (apply ip_fixed_load; lia).
  by repeat case_match.
Qed.

Definition tx_offload_flags : Z :=
  Z.lor RTE_MBUF_F_TX_TCP_SEG (Z.lor (Z.lor RTE_MBUF_F_TX_IPV4 RTE_MBUF_F_TX_IP_CKSUM)
    (Z.lor RTE_MBUF_F_TX_TCP_CKSUM RTE_MBUF_F_TX_UDP_CKSUM)).

Lemma fix_cksum_flags m : ol_flags (fix_cksum m) = clear_flags (ol_flags m) tx_offload_flags.
Proof. unfold fix_cksum. by repeat case_match. Qed.

Lemma fix_cksum_segsz m : tso_segsz (fix_cksum m) = 0.
Proof. unfold fix_cksum. by repeat case_match. Qed.

Lemma fix_cksum_frame m n off :
  (off + n ≤ 24 ∨ 26 ≤ off)%nat →
  (off + n ≤ l4_off (buf m) + 6 ∨ l4_off (buf m) + 8 ≤ off)%nat →
  (off + n ≤ l4_off (buf m) + 16 ∨ l4_off (buf m) + 18 ≤ off)%nat →
  get_bytes n off (buf (fix_cksum m)) = get_bytes n off (buf m).
Proof.
  intros H1 H2 H3. rewrite fix_cksum_buf. cbv zeta.
  assert (get_bytes n off (ip_fixed (buf m)) = get_bytes n off (buf m)) as Hf.
  { unfold ip_fixed, set_ip_cksum. by rewrite !get_store_other by lia. }
  unfold set_tcp_cksum, set_udp_cksum.
  repeat case_match; rewrite ?l4_off_cksum_store, ?ip_fixed_l4_off by lia;
    rewrite ?get_store_other by lia; done.
Qed.

(** The L4 checksum of the fixed packet: in range, and the one DPDK computes for
    the packet with its checksum field zeroed. *)
Lemma fix_cksum_l4 m k :
  wf_buf (buf m) → (2 ≤ k ≤ 16)%nat →
  let z := store 2 (l4_off (buf m) + k) 0 (ip_fixed (buf m)) in
  let b' := store 2 (l4_off z + k) (rte_ipv4_udptcp_cksum z) z in
  load 2 (l4_off b' + k) b' = rte_ipv4_udptcp_cksum (store 2 (l4_off b' + k) 0 b').
Proof.
  intros Hwf Hk z b'.
  assert (l4_off z = l4_off (buf m)) as Hz.
  { unfold z. rewrite <- (ip_fixed_l4_off (buf m)). apply l4_off_cksum_store. lia. }
  assert (l4_off b' = l4_off (buf m)) as Hb'
    by (unfold b'; rewrite l4_off_cksum_store by lia; done).
  assert (store 2 (l4_off b' + k) 0 b' = z) as ->.
  { rewrite Hb'. unfold b'. rewrite Hz, store_store. unfold z. by rewrite store_store. }
  rewrite Hb'. unfold b'. rewrite <- Hz. apply l4_cksum_field; [|lia|].
  - unfold z. apply wf_store. by apply wf_ip_fixed.
  - apply ipv4_udptcp_cksum_range.
Qed.

Lemma ip_cksum_ok_l4 k b v w :
  5 ≤ ip_ihl b → (2 ≤ k)%nat → ip_cksum_ok b →
  ip_cksum_ok (store 2 (l4_off (store 2 (l4_off b + k) w b) + k) v (store 2 (l4_off b + k) w b)).
Proof.
  intros Hihl Hk Hok. pose proof (l4_off_bound b).
  apply ip_cksum_ok_store; [by rewrite ip_ihl_store by lia|lia|].
  apply ip_cksum_ok_store; [done|lia|done].
Qed.

Lemma fix_cksum_ip_ok m :
  wf_buf (buf m) → is_ipv4 (buf m) = true → 5 ≤ ip_ihl (buf m) → ip_cksum_ok (buf (fix_cksum m)).
Proof.
  intros Hwf Hip Hihl. rewrite fix_cksum_buf. cbv zeta. rewrite Hip.
  assert (ip_ihl (ip_fixed (buf m)) = ip_ihl (buf m)) as Hi
    by (unfold ip_fixed, set_ip_cksum; by rewrite !ip_ihl_store by lia).
  pose proof (ip_fixed_ok (buf m) Hwf Hihl) as Hok. rewrite <- Hi in Hihl.
  unfold set_tcp_cksum, set_udp_cksum.
  destruct (_ =? IPPROTO_TCP); [by apply (ip_cksum_ok_l4 16); [|lia|]|].
  destruct (_ =? IPPROTO_UDP); [by apply (ip_cksum_ok_l4 6); [|lia|]|done].
Qed.

Lemma tcp_seg_disjoint :
  Z.land RTE_MBUF_F_TX_IPV4 RTE_MBUF_F_TX_TCP_SEG = 0 ∧
  Z.land RTE_MBUF_F_TX_IP_CKSUM RTE_MBUF_F_TX_TCP_SEG = 0 ∧
  Z.land RTE_MBUF_F_TX_TCP_CKSUM RTE_MBUF_F_TX_TCP_SEG = 0 ∧
  Z.land RTE_MBUF_F_TX_UDP_CKSUM RTE_MBUF_F_TX_TCP_SEG = 0.
Proof.
  pose proof tcp_seg_apart as Ha.
  rewrite !Z.land_lor_distr_r, !Z.lor_eq_0_iff in Ha.
  rewrite !(Z.land_comm _ RTE_MBUF_F_TX_TCP_SEG). tauto.
Qed.

(** The lengths the three parsers leave for a TCP/IPv4 packet. *)
Definition hdr_lengths (m : mbuf) : Z * Z * Z := (l2_len m, l3_len m, l4_len m).

Definition parsed_lengths (b : list Z) : Z * Z * Z :=
  (14, ip_ihl b * 4, Z.shiftr (tcp_data_off b) 4 * 4).

Lemma parsed_lengths_fit b :
  wf_buf b →
  wrap 7 (Z.of_nat sizeof_ether_hdr) = 14 ∧ wrap 9 (ip_ihl b * 4) = ip_ihl b * 4 ∧
  wrap 8 (Z.shiftr (tcp_data_off b) 4 * 4) = Z.shiftr (tcp_data_off b) 4 * 4.
Proof.
  intros Hwf. pose proof (data_off_len_range _ Hwf). pose proof (ip_ihl_range b).
  rewrite !wrap_small by (unfold in_u, sizeof_ether_hdr; lia). done.
Qed.

Lemma tso_lengths m :
  wf_buf (buf m) → is_ipv4 (buf m) = true → ip_proto (buf m) = IPPROTO_TCP →
  hdr_lengths (pkt_set_tso_flags m) = parsed_lengths (buf m).
Proof.
  intros Hwf Hip Hp. destruct (parsed_lengths_fit _ Hwf) as (E2 & E3 & E4).
  unfold pkt_set_tso_flags. cbv zeta. rewrite ether_type_swap, Hip, Hp, Z.eqb_refl by done.
  unfold hdr_lengths, parsed_lengths. 
  case_match; cbn [l2_len l3_len l4_len set_l2_len set_l3_len set_l4_len set_ol_flags
    set_tso_segsz]; by rewrite E2, E3, E4.
Qed.

Lemma gro_lengths m :
  wf_buf (buf m) → is_ipv4 (buf m) = true → ip_proto (buf m) = IPPROTO_TCP →
  hdr_lengths (pkt_set_gro_flags m) = parsed_lengths (buf m).
Proof.
  intros Hwf Hip Hp. destruct (parsed_lengths_fit _ Hwf) as (E2 & E3 & E4).
  unfold pkt_set_gro_flags. cbv zeta.
  cbn [buf set_packet_type set_l2_len set_l3_len set_l4_len set_outer_len].
  rewrite ether_type_swap, Hip, Hp, Z.eqb_refl by done. cbn [negb].
  unfold hdr_lengths, parsed_lengths.
  cbn [l2_len l3_len l4_len set_packet_type set_l2_len set_l3_len set_l4_len].
  rewrite E3. fold (l4_off (buf m)). fold (tcp_data_off (buf m)). by rewrite E2, E4.
Qed.

Lemma fix_cksum_lengths m :
  wf_buf (buf m) → is_ipv4 (buf m) = true → ip_proto (buf m) = IPPROTO_TCP →
  hdr_lengths (fix_cksum m) = parsed_lengths (buf m).
Proof.
  intros Hwf Hip Hp. destruct (parsed_lengths_fit _ Hwf) as (E2 & E3 & E4).
  unfold fix_cksum. cbn [buf set_ol_flags set_tso_segsz]. rewrite Hip.
  cbn [buf set_ol_flags set_tso_segsz set_l2_len set_l3_len set_l4_len set_buf].
  fold (ip_fixed (buf m)).
  assert (ip_proto (ip_fixed (buf m)) = IPPROTO_TCP) as ->
    by (rewrite <- Hp; apply ip_fixed_load; lia).
  rewrite Z.eqb_refl. unfold hdr_lengths, parsed_lengths.
  cbn [l2_len l3_len l4_len set_l2_len set_l3_len set_l4_len set_buf].
  unfold tcp_data_off at 1. rewrite ip_fixed_l4_off, ip_fixed_load.
  - fold (tcp_data_off (buf m)). by rewrite E2, E3, E4.
  - right. unfold l4_off. lia.
Qed.

(** ** Properties *)

(** [C29] [fix_cksum] prepares a packet for a virtio queue.  Every transmit offload
    request is cleared and the segment size is 0; on an IPv4 packet the header
    checksum is valid (RFC 1071), whatever branch is taken afterwards, and the
    TCP or UDP checksum is the one computed over the packet with that field
    zeroed; outside the checksum fields no byte changes; a non-IPv4 frame keeps
    its bytes and gets zero header lengths. *)
Theorem fix_cksum_correct (m : mbuf) :
  wf_buf (buf m) →
  let m' := fix_cksum m in
  (Z.land (ol_flags m') RTE_MBUF_F_TX_TCP_SEG = 0 ∧ Z.land (ol_flags m') RTE_MBUF_F_TX_IPV4 = 0 ∧
   Z.land (ol_flags m') RTE_MBUF_F_TX_IP_CKSUM = 0 ∧
   Z.land (ol_flags m') RTE_MBUF_F_TX_TCP_CKSUM = 0 ∧
   Z.land (ol_flags m') RTE_MBUF_F_TX_UDP_CKSUM = 0 ∧ tso_segsz m' = 0) ∧
  (is_ipv4 (buf m) = true → 5 ≤ ip_ihl (buf m) → ip_cksum_ok (buf m')) ∧
  (is_ipv4 (buf m) = true → ip_proto (buf m) = IPPROTO_TCP →
   load 2 (l4_off (buf m') + 16) (buf m') = rte_ipv4_udptcp_cksum (set_tcp_cksum 0 (buf m'))) ∧
  (is_ipv4 (buf m) = true → ip_proto (buf m) = IPPROTO_UDP →
   load 2 (l4_off (buf m') + 6) (buf m') = rte_ipv4_udptcp_cksum (set_udp_cksum 0 (buf m'))) ∧
  (is_ipv4 (buf m) = false → buf m' = buf m ∧ l2_len m' = 0 ∧ l3_len m' = 0 ∧ l4_len m' = 0) ∧
  (∀ n off, (off + n ≤ 24 ∨ 26 ≤ off)%nat →
     (off + n ≤ l4_off (buf m) + 6 ∨ l4_off (buf m) + 8 ≤ off)%nat →
     (off + n ≤ l4_off (buf m) + 16 ∨ l4_off (buf m) + 18 ≤ off)%nat →
     get_bytes n off (buf m') = get_bytes n off (buf m)).
Proof.
  intros Hwf. cbv zeta. splits.
  - rewrite !fix_cksum_flags, fix_cksum_segsz. unfold tx_offload_flags.
    splits; try done; apply clear_flags_gone; bitwise.
  - by apply fix_cksum_ip_ok.
  - intros Hip Hp. rewrite fix_cksum_buf. cbv zeta. rewrite Hip, Hp. cbn [Z.eqb].
    unfold set_tcp_cksum. rewrite ip_fixed_l4_off. by apply fix_cksum_l4; [|lia].
  - intros Hip Hp. rewrite fix_cksum_buf. cbv zeta. rewrite Hip, Hp. cbn [Z.eqb].
    unfold set_udp_cksum. rewrite ip_fixed_l4_off. by apply fix_cksum_l4; [|lia].
  - intros Hip. unfold fix_cksum. cbn [buf set_ol_flags set_tso_segsz]. by rewrite Hip.
  - intros. by apply fix_cksum_frame.
Qed.

(** [C30] TSO requests describe the packet.  The buffer is never written; a TCP/IPv4
    packet gets the header lengths its headers state (no truncation in the 7, 9
    and 8-bit fields) and all three checksum requests; with several segments the
    TSO bit is set and the segment size is the MTU less the IPv4 and TCP headers,
    between 8880 and 9000 with no 16-bit wrap; with one segment the TSO bit is
    cleared and the size is 0; other IPv4 packets keep their TSO bit; a non-IPv4
    frame requests nothing. *)
Theorem tso_flags_correct (m : mbuf) :
  wf_buf (buf m) →
  let m' := pkt_set_tso_flags m in
  buf m' = buf m ∧ nb_segs m' = nb_segs m ∧
  (is_ipv4 (buf m) = true → ip_proto (buf m) = IPPROTO_TCP →
     l2_len m' = 14 ∧ l3_len m' = ip_ihl (buf m) * 4 ∧
     l4_len m' = Z.shiftr (tcp_data_off (buf m)) 4 * 4 ∧
     Z.land (ol_flags m') RTE_MBUF_F_TX_TCP_CKSUM = RTE_MBUF_F_TX_TCP_CKSUM ∧
     (1 < nb_segs m →
        Z.land (ol_flags m') RTE_MBUF_F_TX_TCP_SEG = RTE_MBUF_F_TX_TCP_SEG ∧
        tso_segsz m' = PKT_MTU - l3_len m' - l4_len m' ∧ 8880 ≤ tso_segsz m' ≤ 9000) ∧
     (nb_segs m ≤ 1 → Z.land (ol_flags m') RTE_MBUF_F_TX_TCP_SEG = 0 ∧ tso_segsz m' = 0)) ∧
  (is_ipv4 (buf m) = true → ip_proto (buf m) ≠ IPPROTO_TCP →
     Z.land (ol_flags m') RTE_MBUF_F_TX_TCP_SEG = Z.land (ol_flags m) RTE_MBUF_F_TX_TCP_SEG) ∧
  (is_ipv4 (buf m) = false → ol_flags m' = 0).
Proof.
  intros Hwf. cbv zeta. pose proof (ether_type_swap _ Hwf) as Hswap.
  pose proof (data_off_len_range _ Hwf) as Hd. pose proof (ip_ihl_range (buf m)) as Hi.
  unfold pkt_set_tso_flags. cbv zeta. rewrite Hswap. splits.
  - by repeat case_match.
  - by repeat case_match.
  - intros Hip Hp. destruct (parsed_lengths_fit _ Hwf) as (E2 & E3 & E4).
    rewrite Hip, Hp, Z.eqb_refl.
    cbn [nb_segs set_l4_len set_ol_flags set_l3_len set_l2_len].
    destruct (Z.gtb_spec (nb_segs m) 1);
      cbn [l2_len l3_len l4_len ol_flags tso_segsz set_l2_len set_l3_len set_l4_len
           set_ol_flags set_tso_segsz]; rewrite E2, E3, E4.
    + splits; try done; [bitwise| |lia]. intros _. unfold u16, PKT_MTU.
      rewrite wrap_small by (unfold in_u; lia). splits; [bitwise|done|lia].
    + splits; try done; [|lia|].
      * rewrite clear_flags_keep; [bitwise|apply tcp_seg_disjoint].
      * intros _. split; [apply clear_flags_gone; bitwise|done].
  - intros Hip Hp. rewrite Hip.
    replace (ip_proto (buf m) =? IPPROTO_TCP) with false by (symmetry; by apply Z.eqb_neq).
    destruct (_ =? IPPROTO_UDP); cbn [ol_flags set_ol_flags set_l3_len set_l2_len];
      rewrite !Z.land_lor_distr_l; destruct tcp_seg_disjoint as (E1 & E2 & _ & E3);
      by rewrite ?E1, ?E2, ?E3, ?Z.lor_0_r.
  - intros Hip. by rewrite Hip.
Qed.

(** The three routines that parse TCP/IPv4 headers agree: [pkts_set_tso_flags],
    [pkts_set_gro_flags] and [fix_cksum] leave the same L2, L3 and L4 lengths, and
    the GRO pass tags exactly the TCP/IPv4 packets and resets every other packet's
    metadata. *)
Theorem header_lengths_agree (m : mbuf) :
  wf_buf (buf m) →
  (is_ipv4 (buf m) = true → ip_proto (buf m) = IPPROTO_TCP →
     hdr_lengths (pkt_set_gro_flags m) = hdr_lengths (pkt_set_tso_flags m) ∧
     hdr_lengths (fix_cksum m) = hdr_lengths (pkt_set_tso_flags m) ∧
     hdr_lengths (fix_cksum m) =
       (14, ip_ihl (buf m) * 4, Z.shiftr (tcp_data_off (buf m)) 4 * 4) ∧
     packet_type (pkt_set_gro_flags m) =
       Z.lor RTE_PTYPE_L2_ETHER (Z.lor RTE_PTYPE_L3_IPV4 RTE_PTYPE_L4_TCP)) ∧
  (is_ipv4 (buf m) = false ∨ ip_proto (buf m) ≠ IPPROTO_TCP →
     packet_type (pkt_set_gro_flags m) = 0 ∧ hdr_lengths (pkt_set_gro_flags m) = (0, 0, 0)).
Proof.
  intros Hwf. split.
  - intros Hip Hp. rewrite gro_lengths, tso_lengths, fix_cksum_lengths by done.
    splits; try done. unfold pkt_set_gro_flags. cbv zeta.
    cbn [buf set_packet_type set_l2_len set_l3_len set_l4_len set_outer_len].
    rewrite ether_type_swap, Hip, Hp, Z.eqb_refl by done. done.
  - intros Hno. unfold pkt_set_gro_flags. cbv zeta.
    cbn [buf set_packet_type set_l2_len set_l3_len set_l4_len set_outer_len].
    rewrite ether_type_swap by done. destruct (is_ipv4 (buf m)); cbn [negb]; [|done].
    destruct Hno as [?|Hno%Z.eqb_neq]; [done|]. by rewrite Hno.
Qed.

End offload.

Lemma fix_cksum_correct_witness :
  wf_buf (demo_ip_buf 0 17 [192;168;100;2] [192;168;100;3]) ∧
  ip_cksum_ok (buf (fix_cksum (demo_mbuf (demo_ip_buf 0 17 [192;168;100;2] [192;168;100;3])))).
Proof.
  assert (wf_buf (demo_ip_buf 0 17 [192;168;100;2] [192;168;100;3])) as Hwf
    by (apply (bool_decide_unpack _); vm_compute; exact I).
  split; [exact Hwf|].
  refine (proj1 (proj2 (fix_cksum_correct (demo_mbuf _) Hwf)) _ _); vm_compute; congruence.
Defined.

(** A two-segment TCP packet: the segment size is 9000 - 20 - 20. *)
Definition demo_tcp_buf : list Z :=
  [2;0;0;0;0;254; 2;0;0;0;0;1; 8;0;
   69;0;0;40;0;0;0;0;64;6;0;0; 192;168;100;2; 192;168;100;3;
   0;80;31;144; 0;0;0;1; 0;0;0;2; 80;16;4;0; 0;0;0;0] ++ replicate 100 0.
Definition demo_tcp_mbuf : mbuf := mk_mbuf demo_tcp_buf 12000 2 0 0 0 0 0 0 0 0.

Lemma tso_flags_correct_witness :
  wf_buf demo_tcp_buf ∧ tso_segsz (pkt_set_tso_flags demo_tcp_mbuf) = 8960.
Proof.
  assert (wf_buf demo_tcp_buf) as Hwf
    by (apply (bool_decide_unpack _); vm_compute; exact I).
  split; [exact Hwf|].
  pose proof (proj1 (proj2 (proj2 (tso_flags_correct demo_tcp_mbuf Hwf)))) as Ht.
  destruct Ht as (_ & H3 & H4 & _ & Hmulti & _); [reflexivity|reflexivity|].
  destruct Hmulti as (_ & Hs & _); [reflexivity|].
  transitivity (PKT_MTU - 20 - 20); [rewrite Hs, H3, H4; reflexivity|reflexivity].
Defined.

Lemma header_lengths_agree_witness :
  hdr_lengths (fix_cksum demo_tcp_mbuf) = (14, 20, 20).
Proof.
  assert (wf_buf demo_tcp_buf) as Hwf
    by (apply (bool_decide_unpack _); vm_compute; exact I).
  destruct (proj1 (header_lengths_agree demo_tcp_mbuf Hwf)) as (_ & _ & H & _);
    [reflexivity|reflexivity|].
  rewrite H. reflexivity.
Defined.
