(* ===== verification/Poll.v ===== *)
(** * src/fast/poll.h: adaptive polling of the VMs

    The per-VM state [struct vhost_ap], its update after each poll, and the gate
    at the head of the body of [vhost_rx_loop] that skips idle VMs. *)

From S2P Require Import Prelude CInt.
Local Open Scope Z_scope.

Inductive rx_state := RX_HOT | RX_WARM | RX_COOL | RX_COLD | RX_FROZEN.

#[export] Instance rx_state_eq_dec : EqDecision rx_state.
Proof. solve_decision. Defined.

Record vhost_ap := mk_ap {
  ap_state : rx_state;
  idle_score : Z;          (* int8_t *)
  blocked_until_tsc : Z;   (* uint64_t *)
}.

Definition MAX_PKT_BURST : nat := 64.
Definition RX_BACKOFF : Z := 100000.
Definition LOW_PKT_BURST : Z := Z.of_nat MAX_PKT_BURST / 4.

(** [poll_states[i]++] on the array of five [uint32_t] counters. *)
Definition count_state (i : nat) (poll_states : list Z) : list Z :=
  alter (λ x, u32 (x + 1)) i poll_states.

(** [tsc] is the value [rte_rdtsc()] returns. *)
Definition update_rx_state (ap : vhost_ap) (poll_num : Z) (poll_states : list Z) (tsc : Z)
    : vhost_ap * list Z :=
  let score := if LOW_PKT_BURST <? poll_num then i8 (idle_score ap - 4)
               else i8 (idle_score ap + 1) in
  let score := i8 (Z.max (-8) score) in
  let score := i8 (Z.min 32 score) in
  if score <=? 0 then (mk_ap RX_HOT score (blocked_until_tsc ap), count_state 0 poll_states)
  else if score <=? 4 then (mk_ap RX_WARM score (blocked_until_tsc ap), count_state 1 poll_states)
  else if score <=? 8 then (mk_ap RX_COOL score (blocked_until_tsc ap), count_state 2 poll_states)
  else if score <=? 16 then (mk_ap RX_COLD score (blocked_until_tsc ap), count_state 3 poll_states)
  else (mk_ap RX_FROZEN score (u64 (tsc + RX_BACKOFF)), count_state 4 poll_states).

(** The [switch] on the state: [None] is [continue] (skip this VM), [Some ap] is
    [break] or the fall out of the last case (poll it). *)
Definition poll_gate (ap : vhost_ap) (iteration_counter tsc : Z) : option vhost_ap :=
  match ap_state ap with
  | RX_HOT => Some ap
  | RX_WARM => if Z.land iteration_counter 3 =? 0 then Some ap else None
  | RX_COOL => if Z.land iteration_counter 7 =? 0 then Some ap else None
  | RX_COLD => if Z.land iteration_counter 15 =? 0 then Some ap else None
  | RX_FROZEN =>
      if tsc <? blocked_until_tsc ap then None
      else Some (mk_ap RX_COOL 8 (blocked_until_tsc ap))
  end.

(** The initial state set by [init_dataplane_ctxs]. *)
Definition init_vhost_ap : vhost_ap := mk_ap RX_HOT 0 0.

(** ** Specification *)

(** The state a score stands for. *)
Definition classify (score : Z) : rx_state :=
  if score <=? 0 then RX_HOT else if score <=? 4 then RX_WARM
  else if score <=? 8 then RX_COOL else if score <=? 16 then RX_COLD else RX_FROZEN.

Definition ap_wf (ap : vhost_ap) : Prop :=
  -8 ≤ idle_score ap ≤ 32 ∧ ap_state ap = classify (idle_score ap).

(** How often a VM that is not frozen is polled: every [period] iterations. *)
Definition period (st : rx_state) : Z :=
  match st with RX_HOT => 1 | RX_WARM => 4 | RX_COOL => 8 | RX_COLD => 16 | RX_FROZEN => 1 end.

(** One pass of the loop body for a VM: the gate, then the poll's result. *)
Inductive ap_step : vhost_ap → vhost_ap → Prop :=
  | ap_skip ap c tsc : poll_gate ap c tsc = None → ap_step ap ap
  | ap_poll ap ap' c tsc tsc' n ps :
      poll_gate ap c tsc = Some ap' → 0 ≤ n ≤ Z.of_nat MAX_PKT_BURST →
      ap_step ap (update_rx_state ap' n ps tsc').1.

Inductive ap_reach : vhost_ap → Prop :=
  | ap_reach_init : ap_reach init_vhost_ap
  | ap_reach_step ap ap' : ap_reach ap → ap_step ap ap' → ap_reach ap'.

(** A run of consecutive polls, each with its packet count and time stamp. *)
Definition run_polls (polls : list (Z * Z)) (ap : vhost_ap) : vhost_ap :=
  fold_left (λ ap '(n, tsc), (update_rx_state ap n [] tsc).1) polls ap.

(** ** Lemmas *)

(** The score after a poll, without the 8-bit conversions: they never wrap. *)
Definition next_score (score n : Z) : Z :=
  Z.min 32 (Z.max (-8) (if LOW_PKT_BURST <? n then score - 4 else score + 1)).

Lemma i8_id x : -128 ≤ x < 128 → i8 x = x.
Proof. intros. apply swrap_small; lia. Qed.

Lemma update_rx_state_eq ap n ps tsc :
  -8 ≤ idle_score ap ≤ 32 →
  let s := next_score (idle_score ap) n in
  (update_rx_state ap n ps tsc).1 =
    mk_ap (classify s) s
      (if decide (classify s = RX_FROZEN) then u64 (tsc + RX_BACKOFF) else blocked_until_tsc ap) ∧
  (update_rx_state ap n ps tsc).2 =
    count_state (match classify s with
                 | RX_HOT => 0 | RX_WARM => 1 | RX_COOL => 2 | RX_COLD => 3 | RX_FROZEN => 4
                 end)%nat ps.
Proof.
  intros Hr s. unfold update_rx_state.
  assert ((if LOW_PKT_BURST <? n then i8 (idle_score ap - 4) else i8 (idle_score ap + 1)) =
          (if LOW_PKT_BURST <? n then idle_score ap - 4 else idle_score ap + 1)) as ->
    by (case_match; apply i8_id; lia).
  rewrite (i8_id (Z.max _ _)) by (case_match; lia).
  rewrite i8_id by (case_match; lia). fold (next_score (idle_score ap) n). fold s.
  unfold classify. by repeat case_match.
Qed.

Lemma next_score_range score n : -8 ≤ next_score score n ≤ 32.
Proof. unfold next_score. lia. Qed.

Lemma update_wf ap n ps tsc : ap_wf ap → ap_wf (update_rx_state ap n ps tsc).1.
Proof.
  intros [Hr _]. destruct (update_rx_state_eq ap n ps tsc Hr) as [-> _].
  split; cbn; [apply next_score_range|done].
Qed.

Lemma gate_wf ap c tsc ap' : ap_wf ap → poll_gate ap c tsc = Some ap' → ap_wf ap'.
Proof.
  intros Hwf. unfold poll_gate. repeat case_match; intros; simplify_eq; try done.
Qed.

Lemma land_mask c k : 0 ≤ k → (Z.land c (2 ^ k - 1) =? 0) = (c mod 2 ^ k =? 0).
Proof. intros. rewrite <- Z.land_ones by lia. by rewrite Z.ones_equiv, Z.sub_1_r. Qed.

Lemma gate_period ap c tsc :
  ap_state ap ≠ RX_FROZEN →
  poll_gate ap c tsc = if c mod period (ap_state ap) =? 0 then Some ap else None.
Proof.
  unfold poll_gate. destruct (ap_state ap) eqn:E; intros; try done; cbn [period].
  - by rewrite Z.mod_1_r.
  - change (Z.land c 3) with (Z.land c (2 ^ 2 - 1)). by rewrite land_mask.
  - change (Z.land c 7) with (Z.land c (2 ^ 3 - 1)). by rewrite land_mask.
  - change (Z.land c 15) with (Z.land c (2 ^ 4 - 1)). by rewrite land_mask.
Qed.

(** In any window of [k] consecutive iterations one is a multiple of [k]. *)
Lemma window_hits c k : 0 < k → ∃ i, 0 ≤ i < k ∧ (c + i) mod k = 0.
Proof.
  intros Hk. exists ((- c) mod k). split; [by apply Z.mod_pos_bound|].
  rewrite Z.add_mod_idemp_r by lia. by rewrite Z.add_opp_diag_r, Z.mod_0_l by lia.
Qed.

Lemma run_polls_score polls ap :
  -8 ≤ idle_score ap ≤ 32 →
  idle_score (run_polls polls ap) = fold_left (λ s '(n, _), next_score s n) polls (idle_score ap).
Proof.
  revert ap. induction polls as [|[n tsc] polls IH]; intros ap Hr; [done|].
  cbn. destruct (update_rx_state_eq ap n [] tsc Hr) as [-> _].
  rewrite IH; [done|apply next_score_range].
Qed.

Lemma run_polls_wf polls ap : ap_wf ap → ap_wf (run_polls polls ap).
Proof.
  revert ap. induction polls as [|[n tsc] polls IH]; intros ap Hwf; [done|].
  apply IH. by apply update_wf.
Qed.

(** Quiet polls raise the score by one each, up to 32. *)
Lemma quiet_scores polls s :
  Forall (λ p : Z * Z, p.1 ≤ LOW_PKT_BURST) polls → -8 ≤ s ≤ 32 →
  fold_left (λ s '(n, _), next_score s n) polls s = Z.min 32 (s + Z.of_nat (length polls)).
Proof.
  intros Hp. revert s. induction Hp as [|[n tsc] polls Hn _ IH]; intros s Hs; cbn [fold_left length].
  { lia. }
  rewrite IH by apply next_score_range. cbn in Hn. unfold next_score.
  destruct (Z.ltb_spec LOW_PKT_BURST n); lia.
Qed.

(** Busy polls lower it by four each, down to -8. *)
Lemma busy_scores polls s :
  Forall (λ p : Z * Z, LOW_PKT_BURST < p.1) polls → -8 ≤ s ≤ 32 →
  fold_left (λ s '(n, _), next_score s n) polls s = Z.max (-8) (s - 4 * Z.of_nat (length polls)).
Proof.
  intros Hp. revert s. induction Hp as [|[n tsc] polls Hn _ IH]; intros s Hs; cbn [fold_left length].
  { lia. }
  rewrite IH by apply next_score_range. cbn in Hn. unfold next_score.
  destruct (Z.ltb_spec LOW_PKT_BURST n); lia.
Qed.

(** ** Properties *)

(** In every reachable state of a VM's polling record the idle score is within
    [-8, 32] (so the [int8_t] arithmetic never wraps), the state is the one the
    score stands for, also after a thaw, and every poll bumps the one counter of
    [poll_states] that names the new state. *)
Theorem ap_reachable_wf (ap : vhost_ap) :
  ap_reach ap →
  ap_wf ap ∧
  ∀ n ps tsc, length ps = 5%nat →
    let s := next_score (idle_score ap) n in
    (update_rx_state ap n ps tsc).1 =
      mk_ap (classify s) s
        (if decide (classify s = RX_FROZEN) then u64 (tsc + RX_BACKOFF)
         else blocked_until_tsc ap) ∧
    ∃ i, (i < 5)%nat ∧ ∀ j, (update_rx_state ap n ps tsc).2 !! j =
      (if decide (i = j) then λ x, u32 (x + 1) else id) <$> ps !! j.
Proof.
  intros Hreach. assert (ap_wf ap) as Hwf.
  { induction Hreach as [|ap ap' _ IH Hstep]; [done|].
    destruct Hstep; [done|]. apply update_wf. by eapply gate_wf. }
  split; [done|]. intros n ps tsc Hl s.
  destruct (update_rx_state_eq ap n ps tsc (proj1 Hwf)) as [E1 E2].
  split; [exact E1|]. rewrite E2. fold s. unfold count_state.
  set (k := match classify s with RX_HOT => _ | _ => _ end). exists k. split.
  - subst k. destruct (classify s); lia.
  - intros j. destruct (decide (k = j)) as [<-|Hd]; [apply list_lookup_alter_eq|].
    rewrite list_lookup_alter_ne by done. by rewrite option_fmap_id.
Qed.

(** [C34] No VM starves.  A VM that is not frozen is polled exactly when the
    iteration counter is a multiple of 1, 4, 8 or 16 by state, hence at least once
    in any 16 consecutive iterations; a frozen VM is polled as soon as the time
    stamp reaches [blocked_until_tsc], which a freeze sets [RX_BACKOFF] ahead, and
    comes back as COOL. *)
Theorem no_starvation (ap : vhost_ap) (c : Z) :
  ap_wf ap →
  (ap_state ap ≠ RX_FROZEN →
     (∀ tsc, poll_gate ap c tsc = if c mod period (ap_state ap) =? 0 then Some ap else None) ∧
     ∃ i, 0 ≤ i < 16 ∧ ∀ tsc, poll_gate ap (c + i) tsc = Some ap) ∧
  (ap_state ap = RX_FROZEN →
     ∀ tsc, (tsc < blocked_until_tsc ap → poll_gate ap c tsc = None) ∧
       (blocked_until_tsc ap ≤ tsc → ∃ ap', poll_gate ap c tsc = Some ap' ∧
          ap_wf ap' ∧ ap_state ap' = RX_COOL)) ∧
  (∀ n ps tsc, 0 ≤ tsc < 2 ^ 64 - RX_BACKOFF →
     let ap' := (update_rx_state ap n ps tsc).1 in
     ap_state ap' = RX_FROZEN → blocked_until_tsc ap' = tsc + RX_BACKOFF).
Proof.
  intros Hwf. splits.
  - intros Hnf. split; [intros; by apply gate_period|].
    assert (0 < period (ap_state ap) ≤ 16) as Hp by (destruct (ap_state ap); cbn; lia).
    destruct (window_hits c (period (ap_state ap))) as (i & Hi & Hm); [lia|].
    exists i. split; [lia|]. intros tsc. by rewrite gate_period, Hm.
  - intros Hf tsc. unfold poll_gate. rewrite Hf.
    destruct (Z.ltb_spec tsc (blocked_until_tsc ap)); split; intros; try lia; [done|].
    eexists. split; [done|]. split; [|done]. split; cbn; [lia|done].
  - intros n ps tsc Ht ap' Hf. destruct (update_rx_state_eq ap n ps tsc (proj1 Hwf)) as [E _].
    subst ap'. rewrite E in Hf |- *. cbn in Hf |- *. rewrite decide_True by done.
    apply wrap_small. unfold in_u, RX_BACKOFF in *. lia.
Qed.

(** Idleness accumulates slowly and activity cancels it quickly: 25 quiet polls
    in a row freeze any VM, 10 busy ones make any VM hot, and a thawed VM needs
    only two busy polls to be polled on every iteration again. *)
Theorem backoff_converges (ap : vhost_ap) (polls : list (Z * Z)) :
  ap_wf ap →
  (Forall (λ p : Z * Z, p.1 ≤ LOW_PKT_BURST) polls → (25 ≤ length polls)%nat →
     ap_state (run_polls polls ap) = RX_FROZEN) ∧
  (Forall (λ p : Z * Z, LOW_PKT_BURST < p.1) polls → (10 ≤ length polls)%nat →
     ap_state (run_polls polls ap) = RX_HOT ∧ idle_score (run_polls polls ap) = -8) ∧
  (∀ c tsc ap', ap_state ap = RX_FROZEN → poll_gate ap c tsc = Some ap' →
     Forall (λ p : Z * Z, LOW_PKT_BURST < p.1) polls → (2 ≤ length polls)%nat →
     ap_state (run_polls polls ap') = RX_HOT).
Proof.
  intros Hwf. pose proof (run_polls_wf polls ap Hwf) as [_ ->].
  destruct Hwf as [Hr Hst]. rewrite run_polls_score by done. splits.
  - intros Hq Hl. rewrite quiet_scores by done. unfold classify. repeat case_match; done || lia.
  - intros Hb Hl. rewrite busy_scores by done. unfold classify.
    split; [repeat case_match; done || lia|lia].
  - intros c tsc ap' Hf Hg Hb Hl. unfold poll_gate in Hg. rewrite Hf in Hg.
    case_match; simplify_eq.
    pose proof (run_polls_wf polls (mk_ap RX_COOL 8 (blocked_until_tsc ap))) as [_ ->].
    { split; cbn; [lia|done]. }
    rewrite run_polls_score, busy_scores by (done || (cbn; lia)). cbn [idle_score].
    unfold classify. repeat case_match; done || lia.
Qed.

Lemma ap_reachable_wf_witness : ap_wf (update_rx_state init_vhost_ap 3 [0;0;0;0;0] 7).1.
Proof.
  apply (proj1 (ap_reachable_wf (update_rx_state init_vhost_ap 3 [0;0;0;0;0] 7).1
    (ap_reach_step _ _ ap_reach_init
       (ap_poll init_vhost_ap init_vhost_ap 0 0 7 3 [0;0;0;0;0] eq_refl ltac:(unfold MAX_PKT_BURST; lia))))).
Defined.

Lemma no_starvation_witness :
  ap_wf (mk_ap RX_COLD 12 0) ∧
  ∃ i, 0 ≤ i < 16 ∧ ∀ tsc, poll_gate (mk_ap RX_COLD 12 0) (5 + i) tsc = Some (mk_ap RX_COLD 12 0).
Proof.
  assert (ap_wf (mk_ap RX_COLD 12 0)) as Hwf by (split; [cbn; lia|reflexivity]).
  split; [exact Hwf|].
  exact (proj2 (proj1 (no_starvation (mk_ap RX_COLD 12 0) 5 Hwf) ltac:(discriminate))).
Defined.

Lemma backoff_converges_witness :
  ap_wf init_vhost_ap ∧ ap_state (run_polls (replicate 25 (0, 0)) init_vhost_ap) = RX_FROZEN.
Proof.
  assert (ap_wf init_vhost_ap) as Hwf by (split; [cbn; lia|reflexivity]).
  split; [exact Hwf|].
  apply (proj1 (backoff_converges init_vhost_ap (replicate 25 (0, 0)) Hwf)).
  - apply Forall_replicate. vm_compute. discriminate.
  - cbn. lia.
Defined.
