(* ===== verification/Plan.v ===== *)
(** * src/vhost/plan.c and the plan recomputation of src/slow/slowpath.c

    A [struct vhost_plan] lists the VMs (vids) one vhost core serves.  Plans are
    published by swapping an atomic pointer; vhost cores only read them.  The add
    and remove operations of plan.c have two phases, a search over all plans and a
    compare-and-swap on one of them; they are separate definitions here, because
    the slow path may replace the plans in between ([PlanRace]). *)

From S2P Require Import Prelude CInt Poll.

Definition MAX_VHOSTS : nat := 64.
Definition WINDOW_SIZE : nat := 10.
Definition BYTE_ACTIVE_THRESHOLD : Z := 10 * 1024.
Definition PKT_ACTIVE_THRESHOLD : Z := 100.

(** [num] is a [uint16_t]; [vids] has [MAX_VHOSTS] elements. *)
Record vhost_plan := mk_plan {
  plan_num : Z;
  plan_vids : list nat;
}.

(** The counters of [struct vdev_rx_stats]; all are [uint32_t] but [wnd_idx]. *)
Record vdev_rx_stats := mk_rx_stats {
  rxs_call_count : Z;
  rxs_pkt_count : Z;
  rxs_empty_poll_count : Z;
  rxs_max_poll_count : Z;
  rxs_vhost_tx_ring_enq_fail_count : Z;
  rxs_eth_tx_ring_enq_fail_count : Z;
  byte_wnd : list Z;
  pkt_wnd : list Z;
  empty_wnd : list Z;
  wnd_idx : nat;
}.

(** A zeroed plan, as [rte_zmalloc] returns it. *)
Definition empty_plan : vhost_plan := mk_plan 0 (replicate MAX_VHOSTS 0).

(** [new->vids[new->num] = vid; new->num++]: the write faults outside the array. *)
Definition plan_push (vid : nat) (p : vhost_plan) : res vhost_plan :=
  vids ← arr_set (plan_vids p) (Z.to_nat (plan_num p)) vid;
  Ok (mk_plan (u16 (plan_num p + 1)) vids).

(** ** init_vhost_plans: one empty plan per core, for both directions

    [alloc i] is the success of the [i]-th allocation. *)

Definition init_plans (cores : nat) (alloc : nat → bool) : option (list vhost_plan) :=
  if negb (alloc 0) then None
  else if forallb alloc (seq 1 cores) then Some (replicate cores empty_plan) else None.

Definition init_vhost_plans (rx_cores tx_cores : nat) (alloc : nat → bool)
    : option (list vhost_plan * list vhost_plan) :=
  rx ← init_plans rx_cores alloc;
  tx ← init_plans tx_cores (λ i, alloc (i + rx_cores + 1));
  Some (rx, tx).

(** ** Adding a VM *)

(** The search loop: the first core with the fewest VMs, among those with fewer
    than [min_vdev] (initially [MAX_VHOSTS]). *)
Fixpoint min_core (plans : list vhost_plan) (i : nat) (min_vdev : Z) (min_id : option nat)
    : option nat :=
  match plans with
  | [] => min_id
  | p :: plans =>
      if (plan_num p <? min_vdev)%Z then min_core plans (S i) (plan_num p) (Some i)
      else min_core plans (S i) min_vdev min_id
  end.

Definition select_core (plans : list vhost_plan) : option nat :=
  min_core plans 0 (Z.of_nat MAX_VHOSTS) None.

(** The successful iteration of the compare-and-swap loop on plan [i]; a failed
    iteration changes nothing and is repeated.  [None] is a [-1] return. *)
Definition plan_add_commit (i vid : nat) (alloc : bool) (plans : list vhost_plan)
    : res (option (list vhost_plan)) :=
  old ← arr_get plans i;
  if (Z.of_nat MAX_VHOSTS <=? plan_num old)%Z then Ok None
  else if negb alloc then Ok None
  else new ← plan_push vid old; Ok (Some (<[i:=new]> plans)).

(** The whole function: return value, plans, and the core table. *)
Definition plan_add (vid : nat) (alloc : bool) (plans : list vhost_plan) (core : list nat)
    : res (Z * list vhost_plan * list nat) :=
  match select_core plans with
  | None => Ok ((-1)%Z, plans, core)
  | Some i =>
      r ← plan_add_commit i vid alloc plans;
      match r with
      | None => Ok ((-1)%Z, plans, core)
      | Some plans => core ← arr_set core vid i; Ok (0%Z, plans, core)
      end
  end.

Definition vhost_rx_plan_add := plan_add.
Definition vhost_tx_plan_add := plan_add.

(** ** Removing a VM *)

(** Does the prefix of [num] entries hold [vid]? *)
Definition plan_mem (vid : nat) (p : vhost_plan) : res bool :=
  foldM (λ j b, v ← arr_get (plan_vids p) j; Ok (b || bool_decide (v = vid)))
    (seq 0 (Z.to_nat (plan_num p))) false.

(** The search loop, which stops at the first plan that holds [vid]. *)
Fixpoint find_core (vid : nat) (plans : list vhost_plan) (i : nat) : res (option nat) :=
  match plans with
  | [] => Ok None
  | p :: plans =>
      b ← plan_mem vid p;
      if b : bool then Ok (Some i) else find_core vid plans (S i)
  end.

(** The index to delete at: the first match, and 0 when there is none. *)
Definition find_idx (vid : nat) (l : list nat) : nat :=
  match list_find (λ v, v = vid) l with Some (j, _) => j | None => 0 end.

(** [for (i = idx; i < old->num - 1; i++) new->vids[i] = old->vids[i + 1]] *)
Definition shift_down (idx num : nat) (old : list nat) : res (list nat) :=
  foldM (λ i new, v ← arr_get old (i + 1); arr_set new i v) (seq idx (num - 1 - idx)) old.

Definition plan_delete (vid : nat) (old : vhost_plan) : res vhost_plan :=
  let num := Z.to_nat (plan_num old) in
  let idx := find_idx vid (take num (plan_vids old)) in
  vids ← shift_down idx num (plan_vids old);
  Ok (mk_plan (u16 (plan_num old - 1)) vids).

Definition plan_remove_commit (i vid : nat) (alloc : bool) (plans : list vhost_plan)
    : res (option (list vhost_plan)) :=
  old ← arr_get plans i;
  if negb alloc then Ok None
  else new ← plan_delete vid old; Ok (Some (<[i:=new]> plans)).

Definition plan_remove (vid : nat) (alloc : bool) (plans : list vhost_plan) (core : list nat)
    : res (Z * list vhost_plan * list nat) :=
  o ← find_core vid plans 0;
  match o with
  | None => Ok ((-1)%Z, plans, core)
  | Some i =>
      r ← plan_remove_commit i vid alloc plans;
      match r with
      | None => Ok ((-1)%Z, plans, core)
      | Some plans => core ← arr_set core vid 0; Ok (0%Z, plans, core)
      end
  end.

Definition vhost_rx_plan_remove := plan_remove.
Definition vhost_tx_plan_remove := plan_remove.

(** ** Recomputing the plans (slow path)

    [vdevs] is the array of the current [vdev_list]: [None] is a NULL slot. *)

Definition u32_sum (l : list Z) : Z := fold_left (λ s x, u32 (s + x)) l 0%Z.

Definition is_busy (st : vdev_rx_stats) : bool :=
  ((BYTE_ACTIVE_THRESHOLD <? u32_sum (byte_wnd st))
   || (PKT_ACTIVE_THRESHOLD <? u32_sum (pkt_wnd st)))%Z.

(** Advance the window and zero the slot it now points at. *)
Definition advance_wnd (st : vdev_rx_stats) : vdev_rx_stats :=
  let i := (wnd_idx st + 1) mod WINDOW_SIZE in
  mk_rx_stats (rxs_call_count st) (rxs_pkt_count st) (rxs_empty_poll_count st)
    (rxs_max_poll_count st) (rxs_vhost_tx_ring_enq_fail_count st)
    (rxs_eth_tx_ring_enq_fail_count st)
    (<[i:=0%Z]> (byte_wnd st)) (<[i:=0%Z]> (pkt_wnd st)) (<[i:=0%Z]> (empty_wnd st)) i.

(** The body of the loop over the old plan, for the vid it reads, and the loop. *)
Definition calc_rx_visit (vdevs : list (option nat)) (vid : nat)
    (s : list bool * list vdev_rx_stats) : res (list bool * list vdev_rx_stats) :=
  let '(is_active, stats) := s in
  dev ← arr_get vdevs vid;
  match dev with
  | None => Ok (is_active, stats)
  | Some _ =>
      st ← arr_get stats vid;
      is_active ← arr_set is_active vid (is_busy st);
      stats ← arr_set stats vid (advance_wnd st);
      Ok (is_active, stats)
  end.

Definition calc_rx_visits (vdevs : list (option nat)) (p : vhost_plan)
    : list bool * list vdev_rx_stats → res (list bool * list vdev_rx_stats) :=
  foldM (λ j s, vid ← arr_get (plan_vids p) j; calc_rx_visit vdevs vid s)
    (seq 0 (Z.to_nat (plan_num p))).

Definition calc_tx_visit (vdevs : list (option nat)) (vid : nat) (is_active : list bool)
    : res (list bool) :=
  dev ← arr_get vdevs vid;
  match dev with
  | None => Ok is_active
  | Some _ => arr_set is_active vid true
  end.

Definition calc_tx_visits (vdevs : list (option nat)) (p : vhost_plan)
    : list bool → res (list bool) :=
  foldM (λ j s, vid ← arr_get (plan_vids p) j; calc_tx_visit vdevs vid s)
    (seq 0 (Z.to_nat (plan_num p))).

(** The two loops that fill the new plan: the active VMs in vid order, then the
    inactive ones that exist and belong to core [i]. *)
Definition fill_active (is_active : list bool) (j : nat) (p : vhost_plan) : res vhost_plan :=
  a ← arr_get is_active j;
  if a : bool then plan_push j p else Ok p.

Definition fill_probe (i : nat) (is_active : list bool) (vdevs : list (option nat))
    (core : list nat) (j : nat) (p : vhost_plan) : res vhost_plan :=
  if (plan_num p <? Z.of_nat MAX_PKT_BURST)%Z then
    a ← arr_get is_active j;
    dev ← arr_get vdevs j;
    c ← arr_get core j;
    if negb a && bool_decide (is_Some dev) && bool_decide (c = i) then plan_push j p else Ok p
  else Ok p.

Definition fill_plan (i : nat) (is_active : list bool) (vdevs : list (option nat))
    (core : list nat) : res vhost_plan :=
  p ← foldM (fill_active is_active) (seq 0 MAX_VHOSTS) empty_plan;
  foldM (fill_probe i is_active vdevs core) (seq 0 MAX_VHOSTS) p.

(** One core of [calculate_vhost_rx_plan]; [None] when [rte_zmalloc] fails. *)
Definition calc_rx_core (i : nat) (alloc : bool) (vdevs : list (option nat)) (core : list nat)
    (plan : vhost_plan) (stats : list vdev_rx_stats)
    : res (option vhost_plan * list vdev_rx_stats) :=
  '(is_active, stats) ← calc_rx_visits vdevs plan (replicate MAX_VHOSTS false, stats);
  if negb alloc then Ok (None, stats)
  else p ← fill_plan i is_active vdevs core; Ok (Some p, stats).

Definition calc_tx_core (i : nat) (alloc : bool) (vdevs : list (option nat)) (core : list nat)
    (plan : vhost_plan) : res (option vhost_plan) :=
  is_active ← calc_tx_visits vdevs plan (replicate MAX_VHOSTS false);
  if negb alloc then Ok None
  else p ← fill_plan i is_active vdevs core; Ok (Some p).

(** All cores from number [i] on; an allocation failure returns at once and leaves
    the remaining plans (and statistics) as they were. *)
Fixpoint calculate_rx_from (i : nat) (alloc : nat → bool) (vdevs : list (option nat))
    (core : list nat) (plans : list vhost_plan) (stats : list (list vdev_rx_stats))
    : res (list vhost_plan * list (list vdev_rx_stats)) :=
  match plans, stats with
  | p :: plans, st :: stats =>
      '(o, st) ← calc_rx_core i (alloc i) vdevs core p st;
      match o with
      | None => Ok (p :: plans, st :: stats)
      | Some p' =>
          '(plans, stats) ← calculate_rx_from (S i) alloc vdevs core plans stats;
          Ok (p' :: plans, st :: stats)
      end
  | _, _ => Ok (plans, stats)
  end.

Fixpoint calculate_tx_from (i : nat) (alloc : nat → bool) (vdevs : list (option nat))
    (core : list nat) (plans : list vhost_plan) : res (list vhost_plan) :=
  match plans with
  | [] => Ok []
  | p :: plans =>
      o ← calc_tx_core i (alloc i) vdevs core p;
      match o with
      | None => Ok (p :: plans)
      | Some p' => plans ← calculate_tx_from (S i) alloc vdevs core plans; Ok (p' :: plans)
      end
  end.

Definition calculate_vhost_rx_plan := calculate_rx_from 0.
Definition calculate_vhost_tx_plan := calculate_tx_from 0.

(** ** Specification *)

(** The vids a plan lists. *)
Definition plan_list (p : vhost_plan) : list nat := take (Z.to_nat (plan_num p)) (plan_vids p).

Definition plan_wf (p : vhost_plan) : Prop :=
  (0 ≤ plan_num p ≤ Z.of_nat MAX_VHOSTS)%Z ∧ length (plan_vids p) = MAX_VHOSTS ∧
  NoDup (plan_list p) ∧ Forall (λ v, v < MAX_VHOSTS) (plan_list p).

(** The VM of slot [vid] exists. *)
Definition vm_live (vdevs : list (option nat)) (vid : nat) : Prop := ∃ d, vdevs !! vid = Some (Some d).

#[export] Instance vm_live_dec vdevs vid : Decision (vm_live vdevs vid).
Proof.
  refine (match vdevs !! vid as o return vdevs !! vid = o → _ with
          | Some (Some d) => λ E, left _ | _ => λ E, right _ end eq_refl);
  unfold vm_live; rewrite E; [by exists d|by intros [? ?]|by intros [? ?]].
Defined.

(** ** Lemmas: the plan as a list *)

Definition plan_shape (p : vhost_plan) : Prop :=
  (0 ≤ plan_num p ≤ Z.of_nat MAX_VHOSTS)%Z ∧ length (plan_vids p) = MAX_VHOSTS.

Lemma plan_wf_shape p : plan_wf p → plan_shape p.
Proof. by intros (? & ? & _). Qed.

Lemma length_plan_list p : plan_shape p → length (plan_list p) = Z.to_nat (plan_num p).
Proof. intros [H1 H2]. unfold plan_list. rewrite length_take. lia. Qed.

Lemma empty_plan_shape : plan_shape empty_plan ∧ plan_list empty_plan = [].
Proof. split; [|done]. split; [cbn; lia|done]. Qed.

Lemma plan_push_ok v p :
  plan_shape p → (plan_num p < Z.of_nat MAX_VHOSTS)%Z →
  ∃ p', plan_push v p = Ok p' ∧ plan_shape p' ∧ plan_list p' = plan_list p ++ [v] ∧
        plan_num p' = (plan_num p + 1)%Z.
Proof.
  intros [H1 H2] Hn. unfold plan_push. rewrite arr_set_lt by lia. cbn.
  unfold u16. rewrite wrap_small by (unfold in_u, MAX_VHOSTS in *; lia).
  eexists. split; [done|]. unfold plan_shape. split_and!; cbn [plan_num plan_vids].
  - lia.
  - lia.
  - by rewrite length_insert.
  - unfold plan_list. cbn [plan_num plan_vids]. replace (Z.to_nat (plan_num p + 1)) with (S (Z.to_nat (plan_num p))) by lia.
    rewrite (take_S_r _ _ v) by (apply list_lookup_insert_eq; lia).
    by rewrite take_insert_ge by lia.
  - done.
Qed.

Lemma plan_mem_spec v p :
  plan_shape p → plan_mem v p = Ok (bool_decide (v ∈ plan_list p)).
Proof.
  intros [H1 H2]. unfold plan_mem.
  rewrite (foldM_arr_get _ (λ w b, Ok (b || bool_decide (w = v))) (plan_vids p)) by (done || lia).
  fold (plan_list p). generalize (plan_list p) as l.
  cut (∀ l b, foldM (λ w b, Ok (b || bool_decide (w = v))) l b = Ok (b || bool_decide (v ∈ l))).
  { intros H l. by rewrite H. }
  induction l as [|w l IH]; intros b; cbn [foldM mbind res_bind].
  - by rewrite bool_decide_false, orb_false_r by apply not_elem_of_nil.
  - rewrite IH. rewrite <- orb_assoc, <- bool_decide_or. do 2 f_equal.
    apply bool_decide_ext. rewrite elem_of_cons. split; intros [->|]; auto.
Qed.

Lemma find_core_spec v plans i :
  Forall plan_shape plans →
  ∃ o, find_core v plans i = Ok o ∧
    match o with
    | Some k => ∃ j p, k = i + j ∧ plans !! j = Some p ∧ v ∈ plan_list p ∧
                  ∀ j' p', j' < j → plans !! j' = Some p' → v ∉ plan_list p'
    | None => ∀ j p, plans !! j = Some p → v ∉ plan_list p
    end.
Proof.
  intros Hs. revert i. induction Hs as [|p plans Hp _ IH]; intros i; cbn [find_core].
  { exists None. split; [done|]. intros j p H. done. }
  rewrite plan_mem_spec by done. cbn [mbind res_bind].
  destruct (bool_decide_reflect (v ∈ plan_list p)) as [Hin|Hnin].
  - exists (Some i). split; [done|]. exists 0, p. split_and!; [lia|done|done|]. lia.
  - destruct (IH (S i)) as (o & Ho & Hspec). exists o. split; [done|]. destruct o as [k|].
    + destruct Hspec as (j & q & -> & Hj & Hin & Hfirst). exists (S j), q.
      split_and!; [lia|done|done|]. intros [|j'] p' Hlt Hp'; cbn in Hp'; [by simplify_eq|].
      apply (Hfirst j'); [lia|done].
    + intros [|j] q Hq; cbn in Hq; [by simplify_eq|]. by apply (Hspec j).
Qed.

(** ** Lemmas: choosing the least loaded core *)

Lemma min_core_spec plans i m mid :
  match min_core plans i m mid with
  | Some k =>
      (mid = Some k ∧ ∀ j p, plans !! j = Some p → (m ≤ plan_num p)%Z) ∨
      (∃ j p, k = i + j ∧ plans !! j = Some p ∧ (plan_num p < m)%Z ∧
         ∀ j' p', plans !! j' = Some p' → (plan_num p ≤ plan_num p')%Z ∧
           (j' < j → (plan_num p < plan_num p')%Z))
  | None => mid = None ∧ ∀ j p, plans !! j = Some p → (m ≤ plan_num p)%Z
  end.
Proof.
  revert i m mid. induction plans as [|q plans IH]; intros i m mid; cbn [min_core].
  { destruct mid; [left|]; split; done || (intros j p H; done). }
  destruct (Z.ltb_spec (plan_num q) m) as [Hlt|Hge].
  - specialize (IH (S i) (plan_num q) (Some i)).
    destruct (min_core plans (S i) (plan_num q) (Some i)) as [k|]; [|by destruct IH].
    right. destruct IH as [[[= ->] Hall]|(j & p & -> & Hj & Hlt' & Hall)].
    + exists 0, q. split_and!; [lia|done|done|]. intros [|j'] p' Hp'; cbn in Hp'; simplify_eq; [lia|].
      split; [by apply (Hall j')|lia].
    + exists (S j), p. split_and!; [lia|done|lia|].
      intros [|j'] p' Hp'; cbn in Hp'; simplify_eq; [lia|]. destruct (Hall j' p' Hp'). split; lia.
  - specialize (IH (S i) m mid). destruct (min_core plans (S i) m mid) as [k|].
    + destruct IH as [[-> Hall]|(j & p & -> & Hj & Hlt' & Hall)].
      * left. split; [done|]. intros [|j] p Hp; cbn in Hp; simplify_eq; [done|by apply (Hall j)].
      * right. exists (S j), p. split_and!; [lia|done|done|].
        intros [|j'] p' Hp'; cbn in Hp'; simplify_eq; [lia|]. destruct (Hall j' p' Hp'). split; lia.
    + destruct IH as [-> Hall]. split; [done|].
      intros [|j] p Hp; cbn in Hp; simplify_eq; [done|by apply (Hall j)].
Qed.

Lemma select_core_Some plans k :
  select_core plans = Some k →
  ∃ p, plans !! k = Some p ∧ (plan_num p < Z.of_nat MAX_VHOSTS)%Z ∧
    ∀ j p', plans !! j = Some p' →
      (plan_num p ≤ plan_num p')%Z ∧ (j < k → (plan_num p < plan_num p')%Z).
Proof.
  unfold select_core. intros H. pose proof (min_core_spec plans 0 (Z.of_nat MAX_VHOSTS) None) as Hs.
  rewrite H in Hs. destruct Hs as [[? _]|(j & p & -> & Hj & Hlt & Hall)]; [done|]. by exists p.
Qed.

Lemma select_core_None plans :
  select_core plans = None → ∀ j p, plans !! j = Some p → (Z.of_nat MAX_VHOSTS ≤ plan_num p)%Z.
Proof.
  unfold select_core. intros H. pose proof (min_core_spec plans 0 (Z.of_nat MAX_VHOSTS) None) as Hs.
  rewrite H in Hs. apply Hs.
Qed.

(** ** Lemmas: deletion *)

Lemma shift_down_spec idx num old :
  num ≤ length old →
  ∃ new, shift_down idx num old = Ok new ∧ length new = length old ∧
    ∀ j, new !! j = if decide (idx ≤ j < num - 1) then old !! (j + 1) else old !! j.
Proof.
  intros Hn. unfold shift_down.
  destruct (foldM_ind (λ i new, v ← arr_get old (i + 1); arr_set new i v)
    (λ pre new, length new = length old ∧
       ∀ j, new !! j = if decide (idx ≤ j < idx + length pre) then old !! (j + 1) else old !! j)
    (seq idx (num - 1 - idx)) old) as (new & Hf & Hl & Hlk).
  - split; [done|]. intros j. rewrite decide_False; [done|cbn; lia].
  - intros pre i post new Heq [Hl Hlk].
    assert (i = idx + length pre ∧ i < num - 1) as [-> Hi].
    { assert (seq idx (num - 1 - idx) !! length pre = Some i) as Hlk'
        by (rewrite Heq; by apply list_lookup_middle).
      apply lookup_seq in Hlk'. lia. }
    destruct (lookup_lt_is_Some_2 old (idx + length pre + 1)) as [v Hv]; [lia|].
    rewrite (arr_get_Some _ _ _ Hv). cbn. rewrite arr_set_lt by lia.
    eexists. split; [done|]. split; [by rewrite length_insert|]. intros j.
    rewrite length_app. cbn. destruct (decide (j = idx + length pre)) as [->|Hne].
    + rewrite list_lookup_insert_eq, decide_True by lia. done.
    + rewrite list_lookup_insert_ne, Hlk by done. apply decide_ext_if. lia.
  - exists new. split_and!; [done|done|]. intros j. rewrite Hlk, length_seq.
    apply decide_ext_if. lia.
Qed.

(** Deleting a listed vid removes exactly that entry and keeps the order. *)
Lemma plan_delete_spec v p :
  plan_shape p → v ∈ plan_list p →
  ∃ p' k, plan_delete v p = Ok p' ∧ plan_shape p' ∧ plan_list p !! k = Some v ∧
    plan_list p' = delete k (plan_list p) ∧ plan_num p' = (plan_num p - 1)%Z.
Proof.
  intros Hs Hin. pose proof Hs as [H1 H2]. pose proof (length_plan_list p Hs) as Hlen.
  unfold plan_delete, find_idx. fold (plan_list p).
  destruct (list_find_elem_of (λ w, w = v) (plan_list p) v Hin eq_refl) as [[k w] Hk].
  rewrite Hk. apply list_find_Some in Hk as (Hk & -> & _).
  assert (k < Z.to_nat (plan_num p)) as Hkn by (rewrite <- Hlen; by eapply lookup_lt_Some).
  destruct (shift_down_spec k (Z.to_nat (plan_num p)) (plan_vids p)) as (new & -> & Hl & Hlk); [lia|].
  cbn [mbind res_bind]. unfold u16.
  rewrite wrap_small by (unfold in_u, MAX_VHOSTS in *; lia).
  eexists _, k. split; [done|]. unfold plan_shape. cbn [plan_num plan_vids].
  split_and!; [lia|lia|lia|done| |done].
  unfold plan_list. cbn [plan_num plan_vids]. apply list_eq. intros j.
  replace (Z.to_nat (plan_num p - 1)) with (Z.to_nat (plan_num p) - 1) by lia.
  destruct (decide (j < k)) as [Hj|Hj].
  - rewrite list_lookup_delete_lt by done. rewrite !lookup_take_lt by lia.
    rewrite Hlk, decide_False by lia. done.
  - rewrite list_lookup_delete_ge by lia. destruct (decide (j < Z.to_nat (plan_num p) - 1)).
    + rewrite !lookup_take_lt by lia. rewrite Hlk, decide_True by lia. f_equal. lia.
    + rewrite !lookup_take_ge by lia. done.
Qed.

Lemma plan_delete_wf v p :
  plan_wf p → v ∈ plan_list p →
  ∃ p', plan_delete v p = Ok p' ∧ plan_wf p' ∧
    ∀ w, w ∈ plan_list p' ↔ w ∈ plan_list p ∧ w ≠ v.
Proof.
  intros Hwf Hin. pose proof Hwf as (_ & _ & Hnd & Hall).
  destruct (plan_delete_spec v p (plan_wf_shape _ Hwf) Hin) as (p' & k & Hd & [H1 H2] & Hk & Hl & _).
  exists p'. pose proof (delete_Permutation _ _ _ Hk) as Hperm. rewrite <- Hl in Hperm.
  rewrite Hperm in Hnd, Hall. apply NoDup_cons in Hnd as [Hv Hnd].
  apply Forall_cons in Hall as [_ Hall]. split; [done|]. split; [by unfold plan_wf|].
  intros w. rewrite Hperm, elem_of_cons. split.
  - intros Hw. split; [by right|]. by intros ->.
  - by intros [[->|Hw] Hne].
Qed.

Lemma plan_push_wf v p :
  plan_wf p → v < MAX_VHOSTS → v ∉ plan_list p →
  ∃ p', plan_push v p = Ok p' ∧ plan_wf p' ∧ plan_list p' = plan_list p ++ [v].
Proof.
  intros Hwf Hv Hnin. pose proof Hwf as (Hn & Hl & Hnd & Hall).
  assert (plan_num p < Z.of_nat MAX_VHOSTS)%Z as Hlt.
  { pose proof (length_plan_list p (plan_wf_shape _ Hwf)) as Hlen.
    assert (length (v :: plan_list p) ≤ length (seq 0 MAX_VHOSTS)) as Hle.
    { apply submseteq_length, NoDup_submseteq.
      - by constructor.
      - intros w Hw. apply elem_of_seq. apply elem_of_cons in Hw as [->|Hw]; [lia|].
        rewrite Forall_forall in Hall. specialize (Hall w Hw). lia. }
    rewrite length_seq in Hle. cbn [length] in Hle. lia. }
  destruct (plan_push_ok v p (plan_wf_shape _ Hwf) Hlt) as (p' & Hp & [H1 H2] & Hlist & _).
  exists p'. splits; [done| |done]. unfold plan_wf. rewrite Hlist. splits; try done.
  - apply NoDup_app. splits; [done| |apply NoDup_singleton].
    by intros w Hw ->%list_elem_of_singleton.
  - apply Forall_app. split; [done|]. by apply Forall_singleton.
Qed.

Lemma empty_plan_wf : plan_wf empty_plan.
Proof. unfold plan_wf. cbn. splits; [lia|done|constructor|constructor]. Qed.

(** ** Lemmas: filling a plan *)

(** Conditionally pushing the vids [0 .. n-1] that are not yet listed. *)
Lemma fill_loop (Q : nat → Prop) `{∀ j, Decision (Q j)} (f : nat → vhost_plan → res vhost_plan) p :
  plan_wf p → (∀ j, Q j → j ∉ plan_list p) →
  (∀ j q, j < MAX_VHOSTS → plan_wf q → (Q j → j ∉ plan_list q) →
     f j q = if decide (Q j) then plan_push j q else Ok q) →
  ∃ p', foldM f (seq 0 MAX_VHOSTS) p = Ok p' ∧ plan_wf p' ∧
    plan_list p' = plan_list p ++ filter Q (seq 0 MAX_VHOSTS).
Proof.
  intros Hwf Hfresh Hf.
  apply (foldM_ind f (λ pre q, plan_wf q ∧ plan_list q = plan_list p ++ filter Q pre)).
  { split; [done|]. by rewrite filter_nil, app_nil_r. }
  intros pre j post q Heq [Hq Hlist].
  assert (j < MAX_VHOSTS ∧ j ∉ pre) as [Hj Hpre].
  { pose proof (NoDup_seq 0 MAX_VHOSTS) as Hnd. rewrite Heq in Hnd.
    apply NoDup_app in Hnd as (_ & Hdisj & _). split.
    - assert (j ∈ seq 0 MAX_VHOSTS) as Hj
        by (rewrite Heq; apply elem_of_app; right; by left).
      apply elem_of_seq in Hj. lia.
    - intros Hin. apply (Hdisj j Hin). by left. }
  assert (Q j → j ∉ plan_list q) as Hnin.
  { intros HQ. rewrite Hlist, elem_of_app, list_elem_of_filter. intros [Hin|[_ Hin]]; [|done].
    by apply (Hfresh j). }
  rewrite (Hf j q Hj Hq Hnin), filter_app. case_decide as HQ.
  - destruct (plan_push_wf j q Hq Hj (Hnin HQ)) as (q' & Hp & Hwf' & Hl).
    exists q'. split_and!; [done|done|].
    rewrite Hl, Hlist, <- app_assoc, filter_cons_True by done. done.
  - exists q. split_and!; [done|done|].
    rewrite filter_cons_False, filter_nil, app_nil_r by done. done.
Qed.

Definition probe_cond (i : nat) (is_active : list bool) (vdevs : list (option nat))
    (core : list nat) (j : nat) : Prop :=
  is_active !! j = Some false ∧ vm_live vdevs j ∧ core !! j = Some i.

#[export] Instance probe_cond_dec i ia vdevs core j : Decision (probe_cond i ia vdevs core j).
Proof. unfold probe_cond. apply _. Defined.

Lemma fill_plan_spec i is_active vdevs core :
  length is_active = MAX_VHOSTS → length vdevs = MAX_VHOSTS → length core = MAX_VHOSTS →
  ∃ p, fill_plan i is_active vdevs core = Ok p ∧ plan_wf p ∧
    plan_list p = filter (λ j, is_active !! j = Some true) (seq 0 MAX_VHOSTS)
                  ++ filter (probe_cond i is_active vdevs core) (seq 0 MAX_VHOSTS).
Proof.
  intros Ha Hv Hc. unfold fill_plan.
  destruct (fill_loop (λ j, is_active !! j = Some true) (fill_active is_active) empty_plan)
    as (p & -> & Hwf & Hl).
  - apply empty_plan_wf.
  - intros j _. apply not_elem_of_nil.
  - intros j q Hj _ _. unfold fill_active. destruct (lookup_lt_is_Some_2 is_active j) as [a Hj'];
      [lia|]. rewrite (arr_get_Some _ _ _ Hj'). cbn.
    destruct a; [by rewrite decide_True|]. rewrite decide_False; [done|congruence].
  - cbn [mbind res_bind]. rewrite (proj2 empty_plan_shape) in Hl. cbn [app] in Hl.
    destruct (fill_loop (probe_cond i is_active vdevs core)
      (fill_probe i is_active vdevs core) p Hwf) as (p' & -> & Hwf' & Hl').
    + intros j [Hf _]. rewrite Hl, list_elem_of_filter. intros [Ht _]. congruence.
    + intros j q Hj Hq Hnin. unfold fill_probe.
      destruct (lookup_lt_is_Some_2 is_active j) as [a Hj1]; [lia|].
      destruct (lookup_lt_is_Some_2 vdevs j) as [d Hj2]; [lia|].
      destruct (lookup_lt_is_Some_2 core j) as [c Hj3]; [lia|].
      destruct (Z.ltb_spec (plan_num q) (Z.of_nat MAX_PKT_BURST)) as [Hlt|Hge].
      * rewrite (arr_get_Some _ _ _ Hj1), (arr_get_Some _ _ _ Hj2), (arr_get_Some _ _ _ Hj3).
        cbn [mbind res_bind]. case_decide as HQ.
        -- destruct HQ as (E1 & [x E2] & E3). rewrite E1 in Hj1. rewrite E2 in Hj2.
           rewrite E3 in Hj3. simplify_eq. by rewrite !bool_decide_true.
        -- destruct a; [done|]. destruct d as [x|]; [|done]. cbn.
           rewrite bool_decide_false; [done|]. intros ->. apply HQ.
           split_and!; [done|by exists x|done].
      * case_decide as HQ; [|done]. exfalso.
        destruct (plan_push_wf j q Hq Hj (Hnin HQ)) as (q' & _ & Hwf' & Hl'').
        pose proof (length_plan_list q' (plan_wf_shape _ Hwf')) as E1.
        pose proof (length_plan_list q (plan_wf_shape _ Hq)) as E2.
        rewrite Hl'', length_app in E1. cbn [length] in E1.
        destruct Hwf' as (Hr & _). unfold MAX_PKT_BURST, MAX_VHOSTS in *. lia.
    + exists p'. split_and!; [done|done|]. by rewrite Hl', Hl.
Qed.

(** ** Lemmas: the visit of the old plan *)

(** The busy VMs among the live ones of a list. *)
Definition busy_in (vdevs : list (option nat)) (stats : list vdev_rx_stats) (l : list nat) (v : nat)
    : Prop := v ∈ l ∧ vm_live vdevs v ∧ is_busy <$> stats !! v = Some true.

#[export] Instance busy_in_dec vdevs stats l v : Decision (busy_in vdevs stats l v).
Proof. unfold busy_in. apply _. Defined.

(** The flags and statistics after visiting the vids [pre]. *)
Definition rx_visited (vdevs : list (option nat)) (stats : list vdev_rx_stats) (pre : list nat)
    (s : list bool * list vdev_rx_stats) : Prop :=
  length s.1 = MAX_VHOSTS ∧ length s.2 = MAX_VHOSTS ∧
  (∀ v, v < MAX_VHOSTS → s.1 !! v = Some (bool_decide (busy_in vdevs stats pre v))) ∧
  (∀ v, s.2 !! v = (if decide (v ∈ pre ∧ vm_live vdevs v) then advance_wnd else id) <$> stats !! v).

Definition tx_visited (vdevs : list (option nat)) (pre : list nat) (ia : list bool) : Prop :=
  length ia = MAX_VHOSTS ∧
  (∀ v, v < MAX_VHOSTS → ia !! v = Some (bool_decide (v ∈ pre ∧ vm_live vdevs v))).

Lemma snoc_dead {A} (Q : A → Prop) (pre : list A) (v w : A) :
  ¬ Q v → w ∈ pre ++ [v] ∧ Q w ↔ w ∈ pre ∧ Q w.
Proof.
  intros Hv. rewrite elem_of_app, list_elem_of_singleton.
  split; [intros [[?| ->] ?]; done|intros [? ?]; auto].
Qed.

Lemma snoc_other {A} (Q : A → Prop) (pre : list A) (v w : A) :
  v ≠ w → w ∈ pre ++ [v] ∧ Q w ↔ w ∈ pre ∧ Q w.
Proof.
  intros Hv. rewrite elem_of_app, list_elem_of_singleton.
  split; [intros [[?| ->] ?]; done|intros [? ?]; auto].
Qed.

Lemma elem_of_snoc {A} (pre : list A) (v : A) : v ∈ pre ++ [v].
Proof. apply elem_of_app. right. by left. Qed.

Lemma rx_visited_step vdevs stats pre v s :
  length vdevs = MAX_VHOSTS → length stats = MAX_VHOSTS → v < MAX_VHOSTS → v ∉ pre →
  rx_visited vdevs stats pre s →
  ∃ s', calc_rx_visit vdevs v s = Ok s' ∧ rx_visited vdevs stats (pre ++ [v]) s'.
Proof.
  intros Hv Hs Hlt Hpre. destruct s as [ia st]. intros (Hla & Hls & Hia & Hst). cbn [fst snd] in *.
  unfold calc_rx_visit. destruct (lookup_lt_is_Some_2 vdevs v) as [dev Hdev]; [lia|].
  rewrite (arr_get_Some _ _ _ Hdev). cbn [mbind res_bind]. destruct dev as [d|].
  - destruct (lookup_lt_is_Some_2 stats v) as [st0 Hst0]; [lia|].
    assert (st !! v = Some st0) as Hst1 by (rewrite Hst, decide_False, option_fmap_id; tauto).
    rewrite (arr_get_Some _ _ _ Hst1). cbn [mbind res_bind]. rewrite !arr_set_lt by lia.
    cbn [mbind res_bind]. eexists. split; [done|]. unfold rx_visited. cbn [fst snd].
    assert (vm_live vdevs v) as Hlive by by exists d. pose proof (elem_of_snoc pre v) as Hin.
    split_and!; [by rewrite length_insert|by rewrite length_insert| |]; intros w;
      (destruct (decide (v = w)) as [<-|Hne];
        [rewrite list_lookup_insert_eq by lia|rewrite list_lookup_insert_ne by done]).
    + intros _. f_equal. symmetry. destruct (is_busy st0) eqn:Hb.
      * apply bool_decide_eq_true. unfold busy_in. rewrite Hst0. cbn. by rewrite Hb.
      * apply bool_decide_eq_false. unfold busy_in. rewrite Hst0. cbn. rewrite Hb.
        by intros (_ & _ & ?).
    + intros Hw. rewrite Hia by done. f_equal. apply bool_decide_ext. unfold busy_in.
      symmetry. by apply (snoc_other (λ w, vm_live vdevs w ∧ is_busy <$> stats !! w = Some true)).
    + by rewrite decide_True, Hst0.
    + rewrite Hst. f_equal. apply decide_ext_if. symmetry. by apply snoc_other.
  - assert (¬ vm_live vdevs v) as Hdead by (intros [d Hd]; congruence).
    eexists. split; [done|]. unfold rx_visited. cbn [fst snd]. split_and!; [done|done| |]; intros w.
    + intros Hw. rewrite Hia by done. f_equal. apply bool_decide_ext. unfold busy_in. symmetry.
      apply (snoc_dead (λ w, vm_live vdevs w ∧ is_busy <$> stats !! w = Some true)). tauto.
    + rewrite Hst. f_equal. apply decide_ext_if. symmetry. by apply snoc_dead.
Qed.

Lemma tx_visited_step vdevs pre v ia :
  length vdevs = MAX_VHOSTS → v < MAX_VHOSTS → tx_visited vdevs pre ia →
  ∃ ia', calc_tx_visit vdevs v ia = Ok ia' ∧ tx_visited vdevs (pre ++ [v]) ia'.
Proof.
  intros Hv Hlt (Hla & Hia). unfold calc_tx_visit, tx_visited.
  destruct (lookup_lt_is_Some_2 vdevs v) as [dev Hdev]; [lia|].
  rewrite (arr_get_Some _ _ _ Hdev). cbn [mbind res_bind]. destruct dev as [d|].
  - rewrite arr_set_lt by lia. eexists. split; [done|]. split; [by rewrite length_insert|].
    intros w Hw. destruct (decide (v = w)) as [<-|Hne].
    + rewrite list_lookup_insert_eq by lia. rewrite bool_decide_true; [done|].
      split; [apply elem_of_snoc|by exists d].
    + rewrite list_lookup_insert_ne, Hia by done. f_equal. apply bool_decide_ext.
      symmetry. by apply snoc_other.
  - eexists. split; [done|]. split; [done|]. intros w Hw. rewrite Hia by done. f_equal.
    apply bool_decide_ext. symmetry. apply snoc_dead. intros [d Hd]. congruence.
Qed.

(** The entries of a well-formed plan, one after the other. *)
Lemma plan_entry p pre v post :
  plan_wf p → plan_list p = pre ++ v :: post → v < MAX_VHOSTS ∧ v ∉ pre.
Proof.
  intros (_ & _ & Hnd & Hall) Heq. rewrite Heq in Hnd, Hall. split.
  - rewrite Forall_forall in Hall. apply Hall. apply elem_of_app. right. by left.
  - apply NoDup_app in Hnd as (_ & Hd & _). intros Hin. apply (Hd v Hin). by left.
Qed.

Lemma calc_rx_visits_spec vdevs p stats :
  plan_wf p → length vdevs = MAX_VHOSTS → length stats = MAX_VHOSTS →
  ∃ s, calc_rx_visits vdevs p (replicate MAX_VHOSTS false, stats) = Ok s ∧
    rx_visited vdevs stats (plan_list p) s.
Proof.
  intros Hp Hv Hs. pose proof Hp as (Hn & Hl & _). unfold calc_rx_visits.
  rewrite (foldM_arr_get _ (calc_rx_visit vdevs) (plan_vids p)) by (done || lia).
  fold (plan_list p). apply foldM_ind.
  - unfold rx_visited. cbn [fst snd].
    split_and!; [by rewrite length_replicate|done| |]; intros v; intros.
    + rewrite lookup_replicate_2, bool_decide_false; [done| |done].
      intros [Hin _]. by apply not_elem_of_nil in Hin.
    + rewrite decide_False, option_fmap_id; [done|]. intros [Hin _]. by apply not_elem_of_nil in Hin.
  - intros pre v post s Heq HP. destruct (plan_entry p pre v post Hp Heq). by apply rx_visited_step.
Qed.

Lemma calc_tx_visits_spec vdevs p :
  plan_wf p → length vdevs = MAX_VHOSTS →
  ∃ ia, calc_tx_visits vdevs p (replicate MAX_VHOSTS false) = Ok ia ∧
    tx_visited vdevs (plan_list p) ia.
Proof.
  intros Hp Hv. pose proof Hp as (Hn & Hl & _). unfold calc_tx_visits.
  rewrite (foldM_arr_get _ (calc_tx_visit vdevs) (plan_vids p)) by (done || lia).
  fold (plan_list p). apply foldM_ind.
  - split; [by rewrite length_replicate|]. intros v Hlt.
    rewrite lookup_replicate_2, bool_decide_false; [done| |done].
    intros [Hin _]. by apply not_elem_of_nil in Hin.
  - intros pre v post s Heq HP. destruct (plan_entry p pre v post Hp Heq). by apply tx_visited_step.
Qed.

(** ** Specification: the recomputed plans *)

(** A plan built from a set of active vids: them first, then the other live VMs
    whose home is core [i]; both groups in vid order. *)
Definition spec_fill (i : nat) (vdevs : list (option nat)) (core : list nat)
    (active : nat → Prop) `{∀ v, Decision (active v)} : list nat :=
  filter active (seq 0 MAX_VHOSTS) ++
  filter (λ v, ¬ active v ∧ vm_live vdevs v ∧ core !! v = Some i) (seq 0 MAX_VHOSTS).

Definition rx_plan_spec (i : nat) (vdevs : list (option nat)) (core : list nat)
    (p : vhost_plan) (stats : list vdev_rx_stats) : list nat :=
  spec_fill i vdevs core (busy_in vdevs stats (plan_list p)).

Definition tx_active (vdevs : list (option nat)) (p : vhost_plan) (v : nat) : Prop :=
  v ∈ plan_list p ∧ vm_live vdevs v.
#[export] Instance tx_active_dec vdevs p v : Decision (tx_active vdevs p v).
Proof. unfold tx_active. apply _. Defined.

Definition tx_plan_spec (i : nat) (vdevs : list (option nat)) (core : list nat)
    (p : vhost_plan) : list nat :=
  spec_fill i vdevs core (tx_active vdevs p).

(** The statistics of a core after its plan has been recomputed. *)
Definition stats_advanced (vdevs : list (option nat)) (p : vhost_plan)
    (stats stats' : list vdev_rx_stats) : Prop :=
  length stats' = MAX_VHOSTS ∧
  ∀ v, stats' !! v = (if decide (v ∈ plan_list p ∧ vm_live vdevs v) then advance_wnd else id)
                      <$> stats !! v.

Lemma elem_of_seq_max v : v ∈ seq 0 MAX_VHOSTS ↔ v < MAX_VHOSTS.
Proof. rewrite elem_of_seq. lia. Qed.

Lemma elem_of_spec_fill i vdevs core active `{∀ v, Decision (active v)} v :
  v ∈ spec_fill i vdevs core active ↔
  v < MAX_VHOSTS ∧ (active v ∨ (vm_live vdevs v ∧ core !! v = Some i)).
Proof.
  unfold spec_fill. rewrite elem_of_app, !list_elem_of_filter, elem_of_seq_max.
  destruct (decide (active v)); tauto.
Qed.

(** Filling from flags that decide [active] gives the specified plan. *)
Lemma fill_plan_active i ia vdevs core active `{∀ v, Decision (active v)} :
  length ia = MAX_VHOSTS → length vdevs = MAX_VHOSTS → length core = MAX_VHOSTS →
  (∀ v, v < MAX_VHOSTS → ia !! v = Some (bool_decide (active v))) →
  ∃ p, fill_plan i ia vdevs core = Ok p ∧ plan_wf p ∧ plan_list p = spec_fill i vdevs core active.
Proof.
  intros Ha Hv Hc Hia. destruct (fill_plan_spec i ia vdevs core Ha Hv Hc) as (p & Hf & Hwf & Hl).
  exists p. split_and!; [done|done|]. rewrite Hl. unfold spec_fill, probe_cond.
  assert (∀ v, v ∈ seq 0 MAX_VHOSTS → ia !! v = Some (bool_decide (active v))) as Hin
    by (intros v Hv'; apply Hia, elem_of_seq_max, Hv').
  f_equal; apply filter_ext_in; intros v Hv'; rewrite (Hin v Hv').
  - rewrite (inj_iff Some). by rewrite bool_decide_eq_true.
  - rewrite (inj_iff Some). by rewrite bool_decide_eq_false.
Qed.

Lemma calc_rx_core_spec i alloc vdevs core p stats :
  plan_wf p → length vdevs = MAX_VHOSTS → length core = MAX_VHOSTS → length stats = MAX_VHOSTS →
  ∃ o stats', calc_rx_core i alloc vdevs core p stats = Ok (o, stats') ∧
    stats_advanced vdevs p stats stats' ∧
    if alloc then ∃ p', o = Some p' ∧ plan_wf p' ∧ plan_list p' = rx_plan_spec i vdevs core p stats
    else o = None.
Proof.
  intros Hp Hv Hc Hs. unfold calc_rx_core.
  destruct (calc_rx_visits_spec vdevs p stats Hp Hv Hs) as ([ia st'] & -> & Hla & Hls & Hia & Hst).
  cbn [mbind res_bind fst snd] in *. destruct alloc; cbn [negb].
  - destruct (fill_plan_active i ia vdevs core (busy_in vdevs stats (plan_list p)) Hla Hv Hc Hia)
      as (p' & -> & Hwf & Hl).
    cbn [mbind res_bind]. eexists _, _. split_and!; [done|done|]. by exists p'.
  - by eexists _, _.
Qed.

Lemma calc_tx_core_spec i alloc vdevs core p :
  plan_wf p → length vdevs = MAX_VHOSTS → length core = MAX_VHOSTS →
  ∃ o, calc_tx_core i alloc vdevs core p = Ok o ∧
    if alloc then ∃ p', o = Some p' ∧ plan_wf p' ∧ plan_list p' = tx_plan_spec i vdevs core p
    else o = None.
Proof.
  intros Hp Hv Hc. unfold calc_tx_core.
  destruct (calc_tx_visits_spec vdevs p Hp Hv) as (ia & -> & Hla & Hia). cbn [mbind res_bind].
  destruct alloc; cbn [negb]; [|by eexists].
  destruct (fill_plan_active i ia vdevs core (tx_active vdevs p) Hla Hv Hc) as (p' & -> & Hwf & Hl).
  { intros v Hlt. rewrite Hia by done. done. }
  cbn [mbind res_bind]. eexists. split; [done|]. by exists p'.
Qed.

(** The plan of core [k] after a recomputation that started at core [i]: the
    specified one, unless an allocation failed on the way. *)
Definition replanned (alloc : nat → bool) (i n : nat) (p p' : vhost_plan) (l : list nat) : Prop :=
  plan_wf p' ∧ if forallb alloc (seq i n) then plan_list p' = l else p' = p.

Lemma calculate_rx_from_spec i alloc vdevs core plans stats :
  Forall plan_wf plans → length vdevs = MAX_VHOSTS → length core = MAX_VHOSTS →
  Forall (λ st, length st = MAX_VHOSTS) stats → length stats = length plans →
  ∃ plans' stats', calculate_rx_from i alloc vdevs core plans stats = Ok (plans', stats') ∧
    length plans' = length plans ∧ length stats' = length stats ∧
    ∀ k p st, plans !! k = Some p → stats !! k = Some st →
      ∃ p' st', plans' !! k = Some p' ∧ stats' !! k = Some st' ∧
        replanned alloc i (S k) p p' (rx_plan_spec (i + k) vdevs core p st) ∧
        if forallb alloc (seq i k) then stats_advanced vdevs p st st' else st' = st.
Proof.
  intros Hps Hv Hc. revert i stats.
  induction Hps as [|p plans Hp Hps IH]; intros i [|st stats] Hss Hl; try done.
  { exists [], []. split_and!; done. }
  apply Forall_cons in Hss as [Hs Hss]. cbn [length] in Hl. cbn [calculate_rx_from].
  destruct (calc_rx_core_spec i (alloc i) vdevs core p st Hp Hv Hc Hs) as (o & st' & -> & Hst & Ho).
  cbn [mbind res_bind]. destruct (alloc i) eqn:Ea.
  - destruct Ho as (p' & -> & Hwf & Hlist).
    destruct (IH (S i) stats Hss) as (plans' & stats' & -> & Hl1 & Hl2 & Hk); [lia|].
    cbn [mbind res_bind]. eexists _, _. split_and!; [done|cbn; lia|cbn; lia|].
    intros [|k] q sq Hq Hsq; cbn in Hq, Hsq; simplify_eq.
    + exists p', st'. unfold replanned. cbn [seq forallb]. rewrite Ea. cbn [andb].
      rewrite Nat.add_0_r. done.
    + unfold replanned in *. change (seq i (S (S k))) with (i :: seq (S i) (S k)).
      change (seq i (S k)) with (i :: seq (S i) k). cbn [forallb]. rewrite Ea. cbn [andb].
      rewrite <- Nat.add_succ_comm. by apply Hk.
  - subst o. eexists _, _. split_and!; [done|done|done|].
    intros [|k] q sq Hq Hsq; cbn in Hq, Hsq; simplify_eq; eexists _, _; unfold replanned;
      cbn [seq forallb]; rewrite ?Ea; cbn [andb]; split_and!; try done.
    by apply (Forall_lookup_1 _ plans k).
Qed.

Lemma calculate_tx_from_spec i alloc vdevs core plans :
  Forall plan_wf plans → length vdevs = MAX_VHOSTS → length core = MAX_VHOSTS →
  ∃ plans', calculate_tx_from i alloc vdevs core plans = Ok plans' ∧ length plans' = length plans ∧
    ∀ k p, plans !! k = Some p →
      ∃ p', plans' !! k = Some p' ∧
        replanned alloc i (S k) p p' (tx_plan_spec (i + k) vdevs core p).
Proof.
  intros Hps Hv Hc. revert i. induction Hps as [|p plans Hp Hps IH]; intros i.
  { exists []. split_and!; done. }
  cbn [calculate_tx_from].
  destruct (calc_tx_core_spec i (alloc i) vdevs core p Hp Hv Hc) as (o & -> & Ho).
  cbn [mbind res_bind]. destruct (alloc i) eqn:Ea.
  - destruct Ho as (p' & -> & Hwf & Hlist). destruct (IH (S i)) as (plans' & -> & Hl1 & Hk).
    cbn [mbind res_bind]. eexists. split_and!; [done|cbn; lia|].
    intros [|k] q Hq; cbn in Hq; simplify_eq.
    + exists p'. unfold replanned. cbn [seq forallb]. rewrite Ea, Nat.add_0_r. done.
    + unfold replanned in *. change (seq i (S (S k))) with (i :: seq (S i) (S k)). cbn [forallb].
      rewrite Ea. cbn [andb]. rewrite <- Nat.add_succ_comm. by apply Hk.
  - subst o. eexists. split_and!; [done|done|].
    intros [|k] q Hq; cbn in Hq; simplify_eq; eexists; unfold replanned;
      cbn [seq forallb]; rewrite Ea; cbn [andb]; split_and!; try done.
    by apply (Forall_lookup_1 _ plans k).
Qed.

(** ** Lemmas: the number of plans *)

Lemma plan_add_length vid alloc plans core r plans' core' :
  plan_add vid alloc plans core = Ok (r, plans', core') → length plans' = length plans.
Proof.
  unfold plan_add, plan_add_commit. intros Heq. destruct (select_core plans) as [i|]; [|by injection Heq as _ <- _].
  bind_step Heq as o E. bind_step E as old Eo.
  destruct (_ <=? _)%Z; [injection E as <-; by injection Heq as _ <- _|].
  destruct alloc; cbn [negb] in E; [|injection E as <-; by injection Heq as _ <- _].
  bind_step E as new En. injection E as <-. bind_step Heq as c Ec. injection Heq as _ <- _. by rewrite length_insert.
Qed.

Lemma plan_remove_length vid alloc plans core r plans' core' :
  plan_remove vid alloc plans core = Ok (r, plans', core') → length plans' = length plans.
Proof.
  unfold plan_remove, plan_remove_commit. intros Heq. bind_step Heq as oi Ei.
  destruct oi as [i|]; [|by injection Heq as _ <- _]. bind_step Heq as o E. bind_step E as old Eo.
  destruct alloc; cbn [negb] in E; [|injection E as <-; by injection Heq as _ <- _].
  bind_step E as new En. injection E as <-. bind_step Heq as c Ec. injection Heq as _ <- _. by rewrite length_insert.
Qed.

(** ** Lemmas: the add and remove operations *)

(** The least loaded core, the first one when there are several. *)
Definition least_loaded (plans : list vhost_plan) (i : nat) (p : vhost_plan) : Prop :=
  plans !! i = Some p ∧
  ∀ j p', plans !! j = Some p' →
    (plan_num p ≤ plan_num p')%Z ∧ (j < i → (plan_num p < plan_num p')%Z).

Definition plans_full (plans : list vhost_plan) : Prop :=
  Forall (λ p, (Z.of_nat MAX_VHOSTS ≤ plan_num p)%Z) plans.

Lemma plan_add_cases vid alloc plans core :
  Forall plan_shape plans → length core = MAX_VHOSTS → vid < MAX_VHOSTS →
  (plans_full plans ∧ plan_add vid alloc plans core = Ok ((-1)%Z, plans, core)) ∨
  (∃ i p p', least_loaded plans i p ∧ (plan_num p < Z.of_nat MAX_VHOSTS)%Z ∧
     plan_push vid p = Ok p' ∧ plan_shape p' ∧
     plan_list p' = plan_list p ++ [vid] ∧ plan_num p' = (plan_num p + 1)%Z ∧
     plan_add vid alloc plans core =
       Ok (if alloc then (0%Z, <[i:=p']> plans, <[vid:=i]> core) else ((-1)%Z, plans, core))).
Proof.
  intros Hs Hc Hv. unfold plan_add. destruct (select_core plans) as [i|] eqn:Ei.
  - right. apply select_core_Some in Ei as (p & Hp & Hlt & Hmin).
    destruct (plan_push_ok vid p) as (p' & Hpush & Hsh & Hl & Hn);
      [by eapply Forall_lookup_1|done|].
    exists i, p, p'. split_and!; try done. unfold plan_add_commit.
    rewrite (arr_get_Some _ _ _ Hp). cbn [mbind res_bind].
    replace (Z.of_nat MAX_VHOSTS <=? plan_num p)%Z with false by (symmetry; lia).
    destruct alloc; cbn [negb]; [|done]. rewrite Hpush. cbn [mbind res_bind].
    by rewrite arr_set_lt by lia.
  - left. split; [|done]. apply Forall_lookup. by apply select_core_None.
Qed.

(** The first plan that holds [vid]. *)
Definition first_plan_of (vid : nat) (plans : list vhost_plan) (i : nat) (p : vhost_plan) : Prop :=
  plans !! i = Some p ∧ vid ∈ plan_list p ∧
  ∀ j p', j < i → plans !! j = Some p' → vid ∉ plan_list p'.

Lemma plan_remove_cases vid alloc plans core :
  Forall plan_shape plans → length core = MAX_VHOSTS → vid < MAX_VHOSTS →
  ((∀ i p, plans !! i = Some p → vid ∉ plan_list p) ∧
     plan_remove vid alloc plans core = Ok ((-1)%Z, plans, core)) ∨
  (∃ i p p' k, first_plan_of vid plans i p ∧ plan_list p !! k = Some vid ∧
     plan_delete vid p = Ok p' ∧ plan_shape p' ∧
     plan_list p' = delete k (plan_list p) ∧ plan_num p' = (plan_num p - 1)%Z ∧
     plan_remove vid alloc plans core =
       Ok (if alloc then (0%Z, <[i:=p']> plans, <[vid:=0]> core) else ((-1)%Z, plans, core))).
Proof.
  intros Hs Hc Hv. unfold plan_remove.
  destruct (find_core_spec vid plans 0 Hs) as (o & -> & Ho). cbn [mbind res_bind].
  destruct o as [i|]; [right|left; done].
  destruct Ho as (j & p & -> & Hj & Hin & Hfirst). cbn [Nat.add].
  destruct (plan_delete_spec vid p) as (p' & k & Hd & Hsh & Hk & Hl & Hn);
    [by eapply Forall_lookup_1|done|].
  exists j, p, p', k. split_and!; try done. unfold plan_remove_commit.
  rewrite (arr_get_Some _ _ _ Hj). cbn [mbind res_bind].
  destruct alloc; cbn [negb]; [|done]. rewrite Hd. cbn [mbind res_bind].
  by rewrite arr_set_lt by lia.
Qed.

(** ** Specification: operations that do not overlap

    One direction (rx or tx) of the plans with the device table.  A step is a whole
    event: a VM is published and added, a VM is withdrawn and removed, or the slow
    path recomputes the plans.  [PlanRace] takes the events apart. *)

Record plan_sys := mk_sys {
  sys_vdevs : list (option nat);
  sys_plans : list vhost_plan;
  sys_core : list nat;
}.

Definition init_sys (cores : nat) : plan_sys :=
  mk_sys (replicate MAX_VHOSTS None) (replicate cores empty_plan) (replicate MAX_VHOSTS 0).

Inductive sys_step : plan_sys → plan_sys → Prop :=
  | sys_attach vdevs plans core v d plans' core' :
      vdevs !! v = Some None →
      plan_add v true plans core = Ok (0%Z, plans', core') →
      sys_step (mk_sys vdevs plans core) (mk_sys (<[v:=Some d]> vdevs) plans' core')
  | sys_detach vdevs plans core v d plans' core' :
      vdevs !! v = Some (Some d) →
      plan_remove v true plans core = Ok (0%Z, plans', core') →
      sys_step (mk_sys vdevs plans core) (mk_sys (<[v:=None]> vdevs) plans' core')
  | sys_calc_rx vdevs plans core alloc stats plans' stats' :
      Forall (λ st, length st = MAX_VHOSTS) stats → length stats = length plans →
      calculate_vhost_rx_plan alloc vdevs core plans stats = Ok (plans', stats') →
      sys_step (mk_sys vdevs plans core) (mk_sys vdevs plans' core)
  | sys_calc_tx vdevs plans core alloc plans' :
      calculate_vhost_tx_plan alloc vdevs core plans = Ok plans' →
      sys_step (mk_sys vdevs plans core) (mk_sys vdevs plans' core).

Inductive sys_reach (cores : nat) : plan_sys → Prop :=
  | sys_reach_init : sys_reach cores (init_sys cores)
  | sys_reach_step s s' : sys_reach cores s → sys_step s s' → sys_reach cores s'.

(** The plans partition the live VMs by their home core. *)
Definition homed (s : plan_sys) : Prop :=
  length (sys_vdevs s) = MAX_VHOSTS ∧ length (sys_core s) = MAX_VHOSTS ∧
  Forall plan_wf (sys_plans s) ∧
  (∀ i p v, sys_plans s !! i = Some p →
     v ∈ plan_list p ↔ vm_live (sys_vdevs s) v ∧ sys_core s !! v = Some i) ∧
  (∀ v, vm_live (sys_vdevs s) v → ∃ i, sys_core s !! v = Some i ∧ i < length (sys_plans s)).

Lemma plan_shape_Forall plans : Forall plan_wf plans → Forall plan_shape plans.
Proof. intros H. eapply Forall_impl; [exact H|exact plan_wf_shape]. Qed.

Lemma vm_live_insert_Some vdevs v d w :
  v < length vdevs → vm_live (<[v:=Some d]> vdevs) w ↔ w = v ∨ vm_live vdevs w.
Proof.
  intros Hv. unfold vm_live. destruct (decide (w = v)) as [->|Hne].
  - rewrite list_lookup_insert_eq by done. split; [by left|by exists d].
  - rewrite list_lookup_insert_ne by done. tauto.
Qed.

Lemma vm_live_insert_None vdevs v w :
  v < length vdevs → vm_live (<[v:=None]> vdevs) w ↔ w ≠ v ∧ vm_live vdevs w.
Proof.
  intros Hv. unfold vm_live. destruct (decide (w = v)) as [->|Hne].
  - rewrite list_lookup_insert_eq by done. split; [by intros [? ?]|tauto].
  - rewrite list_lookup_insert_ne by done. tauto.
Qed.

(** A wf plan that misses a vid has room for it. *)
Lemma plan_room p v :
  plan_wf p → v < MAX_VHOSTS → v ∉ plan_list p → (plan_num p < Z.of_nat MAX_VHOSTS)%Z.
Proof.
  intros Hwf Hv Hnin. destruct (plan_push_wf v p Hwf Hv Hnin) as (p' & _ & Hwf' & Hl).
  pose proof (length_plan_list p' (plan_wf_shape _ Hwf')) as H1.
  pose proof (length_plan_list p (plan_wf_shape _ Hwf)) as H2.
  rewrite Hl, length_app in H1. cbn [length] in H1.
  destruct Hwf' as (Hr & _), Hwf as (Hr' & _). lia.
Qed.

Lemma homed_attach vdevs plans core v d :
  homed (mk_sys vdevs plans core) → vdevs !! v = Some None → plans ≠ [] →
  ∃ plans' core', plan_add v true plans core = Ok (0%Z, plans', core') ∧
    length plans' = length plans ∧ homed (mk_sys (<[v:=Some d]> vdevs) plans' core').
Proof.
  intros (Hlv & Hlc & Hwf & Hpart & Hhome) Hv Hne. cbn [sys_vdevs sys_plans sys_core] in *.
  assert (v < MAX_VHOSTS) as Hlt by (rewrite <- Hlv; by eapply lookup_lt_Some).
  assert (∀ i p, plans !! i = Some p → v ∉ plan_list p) as Hnin.
  { intros i p Hp Hin. apply (Hpart i p v Hp) in Hin as [[d' Hd'] _]. congruence. }
  destruct (plan_add_cases v true plans core) as
    [[Hfull _]|(i & p & p' & [Hp _] & Hn & Hpush & _ & Hl & _ & ->)];
    [by apply plan_shape_Forall|done|done| |].
  { exfalso. destruct plans as [|p plans]; [done|]. apply Forall_cons in Hfull as [Hf _].
    apply Forall_cons in Hwf as [Hwf _].
    pose proof (plan_room p v Hwf Hlt (Hnin 0 p eq_refl)). lia. }
  exists (<[i:=p']> plans), (<[v:=i]> core). split_and!; [done|by rewrite length_insert|].
  pose proof (Forall_lookup_1 _ _ _ _ Hwf Hp) as Hwfp.
  destruct (plan_push_wf v p Hwfp Hlt (Hnin i p Hp)) as (q & Hq & Hwfq & _).
  assert (q = p') as -> by congruence.
  assert (i < length plans) as Hi by by eapply lookup_lt_Some.
  unfold homed. cbn [sys_vdevs sys_plans sys_core]. rewrite !length_insert.
  split_and!; [done|done|by apply Forall_insert| |].
  - intros j r w Hr. rewrite vm_live_insert_Some by lia.
    destruct (decide (w = v)) as [->|Hwv].
    + rewrite list_lookup_insert_eq by lia. destruct (decide (i = j)) as [<-|Hij].
      * rewrite list_lookup_insert_eq in Hr by done. simplify_eq. rewrite Hl.
        split; [auto|]. intros _. apply elem_of_snoc.
      * rewrite list_lookup_insert_ne in Hr by done. split; [|intros [_ ?]; congruence].
        intros Hin. by destruct (Hnin j r Hr).
    + rewrite list_lookup_insert_ne by done. destruct (decide (i = j)) as [<-|Hij].
      * rewrite list_lookup_insert_eq in Hr by done. simplify_eq. rewrite Hl.
        rewrite elem_of_app, list_elem_of_singleton, (Hpart i p w Hp). tauto.
      * rewrite list_lookup_insert_ne in Hr by done. rewrite (Hpart j r w Hr). tauto.
  - intros w Hw. apply vm_live_insert_Some in Hw; [|lia].
    destruct (decide (w = v)) as [->|Hwv].
    + exists i. by rewrite list_lookup_insert_eq by lia.
    + rewrite list_lookup_insert_ne by done. destruct Hw as [?|Hw]; [done|]. by apply Hhome.
Qed.

Lemma homed_detach vdevs plans core v d :
  homed (mk_sys vdevs plans core) → vdevs !! v = Some (Some d) →
  ∃ plans' core', plan_remove v true plans core = Ok (0%Z, plans', core') ∧
    length plans' = length plans ∧ homed (mk_sys (<[v:=None]> vdevs) plans' core').
Proof.
  intros (Hlv & Hlc & Hwf & Hpart & Hhome) Hv. cbn [sys_vdevs sys_plans sys_core] in *.
  assert (v < MAX_VHOSTS) as Hlt by (rewrite <- Hlv; by eapply lookup_lt_Some).
  destruct (Hhome v ltac:(by exists d)) as (i & Hci & Hi).
  destruct (lookup_lt_is_Some_2 plans i Hi) as [p Hp].
  assert (v ∈ plan_list p) as Hin by (apply (Hpart i p v Hp); split; [by exists d|done]).
  destruct (plan_remove_cases v true plans core) as
    [[Hnone _]|(j & q & q' & k & (Hq & Hinq & _) & _ & Hdel & _ & _ & _ & ->)];
    [by apply plan_shape_Forall|done|done|by destruct (Hnone i p Hp)|].
  assert (j = i) as ->.
  { apply (Hpart j q v Hq) in Hinq as [_ Hcj]. congruence. }
  assert (q = p) as -> by congruence.
  exists (<[i:=q']> plans), (<[v:=0]> core). split_and!; [done|by rewrite length_insert|].
  pose proof (Forall_lookup_1 _ _ _ _ Hwf Hp) as Hwfp.
  destruct (plan_delete_wf v p Hwfp Hin) as (r & Hr & Hwfr & Hmem).
  assert (r = q') as -> by congruence.
  unfold homed. cbn [sys_vdevs sys_plans sys_core]. rewrite !length_insert.
  split_and!; [done|done|by apply Forall_insert| |].
  - intros j r w Hj. rewrite vm_live_insert_None by lia.
    destruct (decide (i = j)) as [<-|Hij].
    + rewrite list_lookup_insert_eq in Hj by done. simplify_eq. rewrite Hmem, (Hpart i p w Hp).
      destruct (decide (w = v)) as [->|Hwv]; [tauto|]. rewrite list_lookup_insert_ne by done. tauto.
    + rewrite list_lookup_insert_ne in Hj by done. rewrite (Hpart j r w Hj).
      destruct (decide (w = v)) as [->|Hwv].
      * split; [intros [_ ?]; congruence|tauto].
      * rewrite list_lookup_insert_ne by done. tauto.
  - intros w Hw. apply vm_live_insert_None in Hw as [Hwv Hw]; [|lia].
    rewrite list_lookup_insert_ne by done. by apply Hhome.
Qed.

(** Recomputing the plans of a partition rebuilds it. *)
Lemma homed_replan vdevs plans core plans' :
  homed (mk_sys vdevs plans core) → length plans' = length plans →
  (∀ i p, plans !! i = Some p → ∃ p', plans' !! i = Some p' ∧ plan_wf p' ∧
     (p' = p ∨ ∃ active, ∃ d : ∀ v, Decision (active v), plan_list p' = spec_fill i vdevs core active ∧
        ∀ v, active v → v ∈ plan_list p)) →
  homed (mk_sys vdevs plans' core).
Proof.
  intros (Hlv & Hlc & Hwf & Hpart & Hhome) Hl Hnew. cbn [sys_vdevs sys_plans sys_core] in *.
  unfold homed. cbn [sys_vdevs sys_plans sys_core]. rewrite Hl.
  assert (∀ i p', plans' !! i = Some p' → ∃ p, plans !! i = Some p) as Hold.
  { intros i p' Hp'. apply lookup_lt_is_Some_2. rewrite <- Hl. by eapply lookup_lt_Some. }
  split_and!; [done|done| | |done].
  - apply Forall_lookup. intros i p' Hp'. destruct (Hold i p' Hp') as [p Hp].
    destruct (Hnew i p Hp) as (q & Hq & Hwfq & _). congruence.
  - intros i p' v Hp'. destruct (Hold i p' Hp') as [p Hp].
    destruct (Hnew i p Hp) as (q & Hq & _ & Hcase). assert (q = p') as -> by congruence.
    destruct Hcase as [->|(active & d & Hlist & Hact)]; [by apply Hpart|].
    rewrite Hlist, elem_of_spec_fill. split.
    + intros [_ [Ha|?]]; [|done]. by apply (Hpart i p v Hp), Hact.
    + intros [Hlive Hcore]. split; [|by right]. rewrite <- Hlc. by eapply lookup_lt_Some.
Qed.

Lemma homed_step s s' :
  homed s → sys_plans s ≠ [] → sys_step s s' → homed s' ∧ sys_plans s' ≠ [].
Proof.
  intros Hh Hne Hstep. cut (homed s' ∧ length (sys_plans s') = length (sys_plans s)).
  { intros [Hh' Hl]. split; [done|]. intros E. rewrite E in Hl. destruct (sys_plans s); done. }
  destruct Hstep as [vdevs plans core v d plans' core' Hv Hadd|vdevs plans core v d plans' core' Hv Hrem
    |vdevs plans core alloc stats plans' stats' Hst Hls Hcalc|vdevs plans core alloc plans' Hcalc];
    cbn [sys_plans] in *.
  - destruct (homed_attach vdevs plans core v d Hh Hv Hne) as (q & c & Hq & Hlen & Hh').
    rewrite Hadd in Hq. by simplify_eq.
  - destruct (homed_detach vdevs plans core v d Hh Hv) as (q & c & Hq & Hlen & Hh').
    rewrite Hrem in Hq. by simplify_eq.
  - pose proof Hh as (Hlv & Hlc & Hwf & _). cbn [sys_vdevs sys_plans sys_core] in *.
    destruct (calculate_rx_from_spec 0 alloc vdevs core plans stats Hwf Hlv Hlc Hst Hls)
      as (q & st & Hq & Hlen & _ & Hspec).
    unfold calculate_vhost_rx_plan in Hcalc. rewrite Hcalc in Hq. simplify_eq. split; [|done].
    apply (homed_replan vdevs plans core q Hh Hlen). intros i p Hp.
    destruct (lookup_lt_is_Some_2 stats i) as [sti Hsti];
      [rewrite Hls; by eapply lookup_lt_Some|].
    destruct (Hspec i p sti Hp Hsti) as (p' & _ & Hp' & _ & [Hwf' Hc] & _).
    exists p'. split_and!; [done|done|]. destruct (forallb _ _); [right|by left].
    eexists _, _. split; [exact Hc|]. by intros v (? & _).
  - pose proof Hh as (Hlv & Hlc & Hwf & _). cbn [sys_vdevs sys_plans sys_core] in *.
    destruct (calculate_tx_from_spec 0 alloc vdevs core plans Hwf Hlv Hlc) as (q & Hq & Hlen & Hspec).
    unfold calculate_vhost_tx_plan in Hcalc. rewrite Hcalc in Hq. simplify_eq. split; [|done].
    apply (homed_replan vdevs plans core q Hh Hlen). intros i p Hp.
    destruct (Hspec i p Hp) as (p' & Hp' & Hwf' & Hc).
    exists p'. split_and!; [done|done|]. destruct (forallb _ _); [right|by left].
    eexists _, _. split; [exact Hc|]. by intros v [? _].
Qed.

Lemma homed_init cores : homed (init_sys cores).
Proof.
  unfold homed, init_sys. cbn [sys_vdevs sys_plans sys_core].
  assert (∀ v, ¬ vm_live (replicate MAX_VHOSTS None) v) as Hdead.
  { intros v [d Hd]. by apply lookup_replicate in Hd as [? _]. }
  split_and!; [by rewrite length_replicate|by rewrite length_replicate| | |].
  - apply Forall_replicate, empty_plan_wf.
  - intros i p v Hp. apply lookup_replicate in Hp as [-> _].
    rewrite (proj2 empty_plan_shape). split; [intros Hin; by apply not_elem_of_nil in Hin|].
    intros [Hl _]. by destruct (Hdead v).
  - intros v Hl. by destruct (Hdead v).
Qed.

Lemma homed_reach cores s : 0 < cores → sys_reach cores s → homed s ∧ sys_plans s ≠ [].
Proof.
  intros Hc. induction 1 as [|s s' _ [IH1 IH2] Hstep].
  - split; [apply homed_init|]. cbn. by destruct cores; [lia|].
  - by apply (homed_step s s').
Qed.

(** Every window slot of a VM without traffic is cleared in turn. *)
Definition no_traffic (st : vdev_rx_stats) : Prop :=
  Forall (λ x, x = 0%Z) (byte_wnd st) ∧ Forall (λ x, x = 0%Z) (pkt_wnd st).

Definition stats_wf (st : vdev_rx_stats) : Prop :=
  length (byte_wnd st) = WINDOW_SIZE ∧ length (pkt_wnd st) = WINDOW_SIZE ∧ wnd_idx st < WINDOW_SIZE.

Lemma u32_sum_zero l : Forall (λ x, x = 0%Z) l → u32_sum l = 0%Z.
Proof. unfold u32_sum. induction 1 as [|x l -> _ IH]; [done|]. exact IH. Qed.

Lemma iter_advance_spec n st :
  stats_wf st →
  let st' := Nat.iter n advance_wnd st in
  stats_wf st' ∧ wnd_idx st' = (wnd_idx st + n) mod WINDOW_SIZE ∧
  ∀ k, 1 ≤ k ≤ n →
    byte_wnd st' !! ((wnd_idx st + k) mod WINDOW_SIZE) = Some 0%Z ∧
    pkt_wnd st' !! ((wnd_idx st + k) mod WINDOW_SIZE) = Some 0%Z.
Proof.
  intros (Hb & Hp & Hi). induction n as [|n IH].
  { split; [done|]. split; [|lia]. change (wnd_idx st = (wnd_idx st + 0) mod WINDOW_SIZE).
    by rewrite Nat.add_0_r, Nat.mod_small. }
  change (Nat.iter (S n) advance_wnd st) with (advance_wnd (Nat.iter n advance_wnd st)).
  destruct IH as ((Hb' & Hp' & Hi') & Hidx & Hz). set (s := Nat.iter n advance_wnd st) in *.
  assert ((wnd_idx s + 1) mod WINDOW_SIZE = (wnd_idx st + S n) mod WINDOW_SIZE) as Hnext.
  { rewrite Hidx, Nat.Div0.add_mod_idemp_l. f_equal. lia. }
  pose proof (Nat.mod_upper_bound (wnd_idx st + S n) WINDOW_SIZE ltac:(done)) as Hlt.
  unfold stats_wf, advance_wnd. cbn [byte_wnd pkt_wnd wnd_idx]. rewrite Hnext, !length_insert.
  split_and!; try done. intros k Hk. set (j := (wnd_idx st + k) mod WINDOW_SIZE).
  destruct (decide ((wnd_idx st + S n) mod WINDOW_SIZE = j)) as [Heq|Hne].
  - rewrite Heq, !list_lookup_insert_eq by (subst j; lia). done.
  - rewrite !list_lookup_insert_ne by done. apply Hz.
    destruct (decide (k = S n)) as [->|]; [done|lia].
Qed.

Lemma window_covered i j : i < WINDOW_SIZE → j < WINDOW_SIZE →
  ∃ k, 1 ≤ k ≤ WINDOW_SIZE ∧ (i + k) mod WINDOW_SIZE = j.
Proof.
  unfold WINDOW_SIZE. intros Hi Hj. destruct (decide (i < j)).
  - exists (j - i). split; [lia|]. rewrite Nat.mod_small by lia. lia.
  - exists (10 + j - i). split; [lia|]. replace (i + (10 + j - i)) with (j + 1 * 10) by lia.
    rewrite Nat.Div0.mod_add. by apply Nat.mod_small.
Qed.

Lemma full_window_zero (l : list Z) i :
  length l = WINDOW_SIZE → i < WINDOW_SIZE →
  (∀ k, 1 ≤ k ≤ WINDOW_SIZE → l !! ((i + k) mod WINDOW_SIZE) = Some 0%Z) → Forall (λ x, x = 0%Z) l.
Proof.
  intros Hl Hi Hz. apply Forall_lookup. intros j x Hj.
  destruct (window_covered i j Hi) as (k & Hk & <-); [rewrite <- Hl; by eapply lookup_lt_Some|].
  specialize (Hz k Hk). congruence.
Qed.

(** ** Properties *)

(** [C8] While device events and plan recomputations do not overlap, the plans of
    either direction always partition the VMs: in every reachable state each live
    VM is listed exactly once, in the plan of its home core, and nothing else is
    listed.  No event is ever refused or faults: adding an absent VM and removing a
    present one both return 0, and a recomputation returns, whatever its
    allocations do. *)
Theorem plans_partition (cores : nat) (s : plan_sys) :
  0 < cores → sys_reach cores s →
  (∀ i p v, sys_plans s !! i = Some p →
     plan_wf p ∧ (v ∈ plan_list p ↔ vm_live (sys_vdevs s) v ∧ sys_core s !! v = Some i)) ∧
  (∀ v, vm_live (sys_vdevs s) v →
     ∃ i p, sys_plans s !! i = Some p ∧ v ∈ plan_list p ∧
       ∀ j q, sys_plans s !! j = Some q → v ∈ plan_list q → j = i) ∧
  (∀ v d, sys_vdevs s !! v = Some None → ∃ plans' core',
     plan_add v true (sys_plans s) (sys_core s) = Ok (0%Z, plans', core') ∧
     sys_step s (mk_sys (<[v:=Some d]> (sys_vdevs s)) plans' core')) ∧
  (∀ v, vm_live (sys_vdevs s) v → ∃ plans' core',
     plan_remove v true (sys_plans s) (sys_core s) = Ok (0%Z, plans', core') ∧
     sys_step s (mk_sys (<[v:=None]> (sys_vdevs s)) plans' core')) ∧
  (∀ alloc, is_ok (calculate_vhost_tx_plan alloc (sys_vdevs s) (sys_core s) (sys_plans s)) = true).
Proof.
  intros Hc Hreach. destruct (homed_reach cores s Hc Hreach) as [Hh Hne].
  destruct s as [vdevs plans core]. cbn [sys_vdevs sys_plans sys_core] in *.
  pose proof Hh as (Hlv & Hlc & Hwf & Hpart & Hhome). cbn [sys_vdevs sys_plans sys_core] in *.
  splits.
  - intros i p v Hp. split; [by eapply Forall_lookup_1|by apply Hpart].
  - intros v Hv. destruct (Hhome v Hv) as (i & Hi & Hlt).
    destruct (lookup_lt_is_Some_2 plans i Hlt) as [p Hp]. exists i, p.
    split_and!; [done|by apply (Hpart i p)|]. intros j q Hq [_ Hj]%(Hpart j q v Hq). congruence.
  - intros v d Hv. destruct (homed_attach vdevs plans core v d Hh Hv Hne) as (q & c & Hq & _).
    exists q, c. split; [done|by constructor].
  - intros v [d Hd]. destruct (homed_detach vdevs plans core v d Hh Hd) as (q & c & Hq & _).
    exists q, c. split; [done|by econstructor].
  - intros alloc. destruct (calculate_tx_from_spec 0 alloc vdevs core plans Hwf Hlv Hlc) as (q & Hq & _).
    unfold calculate_vhost_tx_plan. by rewrite Hq.
Qed.

(** [C17] The slow path's recomputation of the rx plans.  It never faults; core [k]'s
    new plan is well formed (at most [MAX_VHOSTS] distinct vids) and lists first the
    busy live VMs of the old plan, then the other live VMs whose home is [k], each
    group in vid order; so a VM leaves a plan only by disappearing or by being idle
    on a core that is not its home.  Visited VMs have their window advanced.  When
    an allocation fails the plans of that and the later cores stay as they were. *)
Theorem calculate_vhost_rx_plan_correct alloc vdevs core plans stats :
  Forall plan_wf plans → length vdevs = MAX_VHOSTS → length core = MAX_VHOSTS →
  Forall (λ st, length st = MAX_VHOSTS) stats → length stats = length plans →
  ∃ plans' stats', calculate_vhost_rx_plan alloc vdevs core plans stats = Ok (plans', stats') ∧
    length plans' = length plans ∧
    ∀ k p st, plans !! k = Some p → stats !! k = Some st →
      ∃ p' st', plans' !! k = Some p' ∧ stats' !! k = Some st' ∧ plan_wf p' ∧
        (forallb alloc (seq 0 (S k)) = true →
           plan_list p' = rx_plan_spec k vdevs core p st ∧
           ∀ v, v ∈ plan_list p' ↔ v < MAX_VHOSTS ∧
             (busy_in vdevs st (plan_list p) v ∨ vm_live vdevs v ∧ core !! v = Some k)) ∧
        (forallb alloc (seq 0 (S k)) = false → p' = p) ∧
        (forallb alloc (seq 0 k) = true → stats_advanced vdevs p st st') ∧
        (forallb alloc (seq 0 k) = false → st' = st).
Proof.
  intros Hwf Hlv Hlc Hst Hls.
  destruct (calculate_rx_from_spec 0 alloc vdevs core plans stats Hwf Hlv Hlc Hst Hls)
    as (plans' & stats' & Hq & Hlen & _ & Hspec).
  exists plans', stats'. split_and!; [done|done|]. intros k p st Hp Hsk.
  destruct (Hspec k p st Hp Hsk) as (p' & st' & Hp' & Hst' & [Hwf' Hc] & Hs).
  exists p', st'. cbn [Nat.add] in Hc. split_and!; try done.
  - intros Ha. rewrite Ha in Hc. split; [done|]. intros v. rewrite Hc. apply elem_of_spec_fill.
  - intros Ha. by rewrite Ha in Hc.
  - intros Ha. by rewrite Ha in Hs.
  - intros Ha. by rewrite Ha in Hs.
Qed.

(** [C18] The recomputation of the tx plans: the same, with every live VM of the old
    plan kept. *)
Theorem calculate_vhost_tx_plan_correct alloc vdevs core plans :
  Forall plan_wf plans → length vdevs = MAX_VHOSTS → length core = MAX_VHOSTS →
  ∃ plans', calculate_vhost_tx_plan alloc vdevs core plans = Ok plans' ∧
    length plans' = length plans ∧
    ∀ k p, plans !! k = Some p → ∃ p', plans' !! k = Some p' ∧ plan_wf p' ∧
      (forallb alloc (seq 0 (S k)) = true →
         plan_list p' = tx_plan_spec k vdevs core p ∧
         ∀ v, v ∈ plan_list p' ↔ v < MAX_VHOSTS ∧
           vm_live vdevs v ∧ (v ∈ plan_list p ∨ core !! v = Some k)) ∧
      (forallb alloc (seq 0 (S k)) = false → p' = p).
Proof.
  intros Hwf Hlv Hlc.
  destruct (calculate_tx_from_spec 0 alloc vdevs core plans Hwf Hlv Hlc) as (plans' & Hq & Hlen & Hspec).
  exists plans'. split_and!; [done|done|]. intros k p Hp.
  destruct (Hspec k p Hp) as (p' & Hp' & Hwf' & Hc). exists p'. cbn [Nat.add] in Hc.
  split_and!; try done.
  - intros Ha. rewrite Ha in Hc. split; [done|]. intros v.
    rewrite Hc. unfold tx_plan_spec. rewrite elem_of_spec_fill. unfold tx_active. tauto.
  - intros Ha. by rewrite Ha in Hc.
Qed.

(** [C35] Adding a VM.  When every plan is full nothing changes and -1 is returned;
    otherwise the VM is appended to the first plan of the fewest VMs and that core
    is recorded as its home; when the allocation fails nothing changes and -1 is
    returned.  Plans that differ by at most one VM keep differing by at most one,
    so VMs that arrive are spread evenly. *)
Theorem plan_add_correct (vid : nat) (alloc : bool) (plans : list vhost_plan) (core : list nat) :
  Forall plan_shape plans → length core = MAX_VHOSTS → vid < MAX_VHOSTS →
  ∃ r plans' core', plan_add vid alloc plans core = Ok (r, plans', core') ∧
    (r = (-1)%Z ∨ r = 0%Z) ∧
    (r = (-1)%Z ↔ plans_full plans ∨ alloc = false) ∧
    (r = (-1)%Z → plans' = plans ∧ core' = core) ∧
    (r = 0%Z → ∃ i p p', least_loaded plans i p ∧ plan_shape p' ∧
       plan_list p' = plan_list p ++ [vid] ∧ plans' = <[i:=p']> plans ∧ core' = <[vid:=i]> core) ∧
    ((∀ p q, p ∈ plans → q ∈ plans → (plan_num p ≤ plan_num q + 1)%Z) →
       ∀ p q, p ∈ plans' → q ∈ plans' → (plan_num p ≤ plan_num q + 1)%Z).
Proof.
  intros Hs Hc Hv.
  destruct (plan_add_cases vid alloc plans core Hs Hc Hv) as
    [[Hfull ->]|(i & p & p' & Hll & Hlt & _ & Hsh & Hl & Hn & ->)].
  { eexists _, _, _. split; [done|]. splits; [by left| |done|done|auto]. split; [by left|done]. }
  assert (¬ plans_full plans) as Hnf.
  { destruct Hll as [Hp _]. intros Hf. pose proof (Forall_lookup_1 _ _ _ _ Hf Hp). cbn in *. lia. }
  destruct alloc; eexists _, _, _; (split; [done|]); splits; try done; try tauto.
  - split; [done|]. by intros [?|?].
  - intros _. by exists i, p, p'.
  - intros Hbal a b Ha Hb. destruct Hll as [Hp Hmin].
    assert (∀ q, q ∈ <[i:=p']> plans → q = p' ∨ q ∈ plans) as Hin.
    { intros q (j & Hj)%list_elem_of_lookup.
      destruct (decide (i = j)) as [<-|Hne].
      - rewrite list_lookup_insert_eq in Hj by by eapply lookup_lt_Some. left. congruence.
      - rewrite list_lookup_insert_ne in Hj by done. right. by eapply list_elem_of_lookup_2. }
    assert (p ∈ plans) as Hpin by by eapply list_elem_of_lookup_2.
    assert (∀ q, q ∈ plans → (plan_num p ≤ plan_num q)%Z) as Hall.
    { intros q (j & Hj)%list_elem_of_lookup. by apply (Hmin j q). }
    destruct (Hin a Ha) as [->|Ha'], (Hin b Hb) as [->|Hb']; rewrite ?Hn; try lia.
    + pose proof (Hall b Hb'). lia.
    + pose proof (Hbal a p Ha' Hpin). lia.
    + by apply Hbal.
Qed.

(** [C36] Removing a VM.  When no plan lists it nothing changes and -1 is returned;
    otherwise the first plan that lists it loses that one entry, the others keep
    their order, and the VM's home is reset to core 0 (with a failed allocation:
    nothing changes, -1).  Removing a VM right after adding it restores every plan. *)
Theorem plan_remove_correct (vid : nat) (alloc : bool) (plans : list vhost_plan) (core : list nat) :
  Forall plan_wf plans → length core = MAX_VHOSTS → vid < MAX_VHOSTS →
  (∃ r plans' core', plan_remove vid alloc plans core = Ok (r, plans', core') ∧
    (r = (-1)%Z ∨ r = 0%Z) ∧
    (r = (-1)%Z ↔ alloc = false ∨ Forall (λ p, vid ∉ plan_list p) plans) ∧
    (r = (-1)%Z → plans' = plans ∧ core' = core) ∧
    (r = 0%Z → ∃ i p p' k, first_plan_of vid plans i p ∧ plan_wf p' ∧
       plan_list p !! k = Some vid ∧ plan_list p' = delete k (plan_list p) ∧
       (vid ∉ plan_list p') ∧ plans' = <[i:=p']> plans ∧ core' = <[vid:=0]> core)) ∧
  (∀ plans' core', Forall (λ p, vid ∉ plan_list p) plans →
     plan_add vid true plans core = Ok (0%Z, plans', core') →
     ∃ plans'' core'', plan_remove vid true plans' core' = Ok (0%Z, plans'', core'') ∧
       plan_list <$> plans'' = plan_list <$> plans ∧ core'' = <[vid:=0]> core).
Proof.
  intros Hwf Hc Hv. pose proof (plan_shape_Forall plans Hwf) as Hs. split.
  - destruct (plan_remove_cases vid alloc plans core Hs Hc Hv) as
      [[Hnone ->]|(i & p & p' & k & Hfirst & Hk & Hdel & _ & Hl & _ & ->)].
    { eexists _, _, _. split; [done|]. splits; [by left| |done|done]. split; [|done].
      intros _. right. by apply Forall_lookup. }
    assert (¬ Forall (λ p, vid ∉ plan_list p) plans) as Hsome.
    { destruct Hfirst as (Hp & Hin & _). intros Hn. by apply (Forall_lookup_1 _ _ _ _ Hn Hp). }
    destruct alloc; eexists _, _, _; (split; [done|]); splits; try done; try tauto.
    + split; [done|]. by intros [?|?].
    + intros _. destruct Hfirst as (Hp & Hin & Hf).
      destruct (plan_delete_wf vid p (Forall_lookup_1 _ _ _ _ Hwf Hp) Hin) as (q & Hq & Hwfq & Hmem).
      assert (q = p') as -> by congruence. exists i, p, p', k.
      split_and!; try done. rewrite Hmem. tauto.
  - intros plans' core' Hnone Hadd. rewrite Forall_lookup in Hnone.
    destruct (plan_add_cases vid true plans core Hs Hc Hv) as
      [[_ Ha]|(i & p & p' & [Hp _] & _ & Hpush & Hsh & Hl & Hn & Ha)]; rewrite Ha in Hadd; simplify_eq.
    assert (i < length plans) as Hi by by eapply lookup_lt_Some.
    destruct (plan_remove_cases vid true (<[i:=p']> plans) (<[vid:=i]> core)) as
      [[Hnone' _]|(j & q & q' & k & (Hq & Hin & _) & Hk & _ & _ & Hlq & _ & ->)];
      [by apply Forall_insert|by rewrite length_insert|done| |].
    + exfalso. apply (Hnone' i p'); [by apply list_lookup_insert_eq|].
      rewrite Hl. apply elem_of_snoc.
    + destruct (decide (i = j)) as [<-|Hne].
      2:{ rewrite list_lookup_insert_ne in Hq by done. by destruct (Hnone j q Hq). }
      rewrite list_lookup_insert_eq in Hq by done. simplify_eq.
      rewrite Hl in Hk, Hlq. assert (k = length (plan_list p)) as ->.
      { destruct (decide (k < length (plan_list p))) as [Hlt|Hge].
        - rewrite lookup_app_l in Hk by done. destruct (Hnone i p Hp). by eapply list_elem_of_lookup_2.
        - apply lookup_lt_Some in Hk. rewrite length_app in Hk. cbn [length] in Hk. lia. }
      rewrite delete_middle, app_nil_r in Hlq.
      eexists _, _. split; [done|]. rewrite !list_insert_insert_eq. split; [|done].
      rewrite list_fmap_insert, Hlq. apply list_insert_id. by rewrite list_lookup_fmap, Hp.
Qed.

(** An idle VM is forgotten within [WINDOW_SIZE] recomputations: without traffic
    every window slot is cleared once per round, so the VM is no longer busy, and a
    core that is not its home drops it at the next recomputation. *)
Theorem idle_vm_leaves_plan (st : vdev_rx_stats) vdevs core p stats v k :
  stats_wf st → stats !! v = Some (Nat.iter WINDOW_SIZE advance_wnd st) →
  core !! v ≠ Some k →
  no_traffic (Nat.iter WINDOW_SIZE advance_wnd st) ∧
  is_busy (Nat.iter WINDOW_SIZE advance_wnd st) = false ∧
  v ∉ rx_plan_spec k vdevs core p stats.
Proof.
  intros Hst Hv Hk. destruct (iter_advance_spec WINDOW_SIZE st Hst) as ((Hb & Hp & _) & _ & Hz).
  generalize dependent (Nat.iter WINDOW_SIZE advance_wnd st). intros st' Hv Hb Hp Hz.
  destruct Hst as (_ & _ & Hi). assert (no_traffic st') as [Hzb Hzp].
  { split; [apply (full_window_zero _ (wnd_idx st) Hb Hi)|apply (full_window_zero _ (wnd_idx st) Hp Hi)];
      intros j Hj; apply (Hz j Hj). }
  assert (is_busy st' = false) as Hnb by (unfold is_busy; by rewrite !u32_sum_zero).
  split; [by split|]. split; [exact Hnb|]. unfold rx_plan_spec. rewrite elem_of_spec_fill.
  intros (_ & [(_ & _ & Hbusy)|[_ Hc]]); [|done]. rewrite Hv in Hbusy. cbn in Hbusy. congruence.
Qed.

(** ** Witnesses *)

Definition demo_plan (l : list nat) : vhost_plan :=
  mk_plan (Z.of_nat (length l)) (l ++ replicate (MAX_VHOSTS - length l) 0).
Definition demo_core (l : list nat) : list nat := l ++ replicate (MAX_VHOSTS - length l) 0.
Definition demo_vdevs (l : list (option nat)) : list (option nat) :=
  l ++ replicate (MAX_VHOSTS - length l) None.
Definition demo_stats (x : Z) : vdev_rx_stats :=
  mk_rx_stats 0 0 0 0 0 0 (replicate WINDOW_SIZE x) (replicate WINDOW_SIZE x)
    (replicate WINDOW_SIZE 0%Z) 3.

#[export] Instance plan_wf_dec p : Decision (plan_wf p).
Proof. unfold plan_wf. apply _. Defined.

#[export] Instance plan_shape_dec p : Decision (plan_shape p).
Proof. unfold plan_shape. apply _. Defined.

Lemma plans_partition_witness :
  ∃ plans' core', plan_add 5 true (sys_plans (init_sys 2)) (sys_core (init_sys 2)) = Ok (0%Z, plans', core') ∧
    ∃ i p, plans' !! i = Some p ∧ 5 ∈ plan_list p ∧ ∀ j q, plans' !! j = Some q → 5 ∈ plan_list q → j = i.
Proof.
  assert (sys_vdevs (init_sys 2) !! 5 = Some None) as Hv by reflexivity.
  destruct (plans_partition 2 (init_sys 2) ltac:(lia) (sys_reach_init 2)) as (_ & _ & Hadd & _).
  destruct (Hadd 5 100 Hv) as (plans' & core' & Ha & Hs).
  exists plans', core'. split; [exact Ha|].
  destruct (plans_partition 2 _ ltac:(lia) (sys_reach_step 2 _ _ (sys_reach_init 2) Hs)) as (_ & Hone & _).
  apply Hone. exists 100. reflexivity.
Defined.

Lemma calculate_vhost_rx_plan_correct_witness :
  ∃ plans' stats', calculate_vhost_rx_plan (λ _, true) (demo_vdevs [Some 100; Some 101; None])
      (demo_core [0; 1; 0]) [demo_plan [0; 2]; demo_plan [1]]
      (replicate 2 (replicate MAX_VHOSTS (demo_stats 1000))) = Ok (plans', stats') ∧
    plan_list <$> plans' = [[0]; [1]].
Proof.
  destruct (calculate_vhost_rx_plan_correct (λ _, true) (demo_vdevs [Some 100; Some 101; None])
    (demo_core [0; 1; 0]) [demo_plan [0; 2]; demo_plan [1]]
    (replicate 2 (replicate MAX_VHOSTS (demo_stats 1000)))) as (plans' & stats' & Hc & _ & _).
  - refine (bool_decide_unpack _ _). vm_compute. exact I.
  - reflexivity.
  - reflexivity.
  - apply Forall_replicate. reflexivity.
  - reflexivity.
  - exists plans', stats'. split; [exact Hc|]. vm_compute in Hc. injection Hc as <- _. reflexivity.
Defined.

Lemma calculate_vhost_tx_plan_correct_witness :
  ∃ plans', calculate_vhost_tx_plan (λ _, true) (demo_vdevs [Some 100; Some 101; None])
      (demo_core [0; 1; 0]) [demo_plan [1; 2]; demo_plan []] = Ok plans' ∧
    plan_list <$> plans' = [[1; 0]; [1]].
Proof.
  destruct (calculate_vhost_tx_plan_correct (λ _, true) (demo_vdevs [Some 100; Some 101; None])
    (demo_core [0; 1; 0]) [demo_plan [1; 2]; demo_plan []]) as (plans' & Hc & _ & _).
  - refine (bool_decide_unpack _ _). vm_compute. exact I.
  - reflexivity.
  - reflexivity.
  - exists plans'. split; [exact Hc|]. vm_compute in Hc. injection Hc as <-. reflexivity.
Defined.

Lemma plan_add_correct_witness :
  ∃ plans' core', plan_add 5 true [demo_plan [0; 2]; demo_plan [1]] (demo_core []) =
      Ok (0%Z, plans', core') ∧ plan_list <$> plans' = [[0; 2]; [1; 5]].
Proof.
  destruct (plan_add_correct 5 true [demo_plan [0; 2]; demo_plan [1]] (demo_core []))
    as (r & plans' & core' & Hc & Hr & _).
  - refine (bool_decide_unpack _ _). vm_compute. exact I.
  - reflexivity.
  - unfold MAX_VHOSTS. lia.
  - exists plans', core'. vm_compute in Hc. injection Hc as <- <- <-. split; reflexivity.
Defined.

Lemma plan_remove_correct_witness :
  ∃ plans' core', plan_remove 2 true [demo_plan [0; 2; 4]; demo_plan [1]] (demo_core []) =
      Ok (0%Z, plans', core') ∧ plan_list <$> plans' = [[0; 4]; [1]].
Proof.
  destruct (plan_remove_correct 2 true [demo_plan [0; 2; 4]; demo_plan [1]] (demo_core []))
    as [(r & plans' & core' & Hc & Hr & _) _].
  - refine (bool_decide_unpack _ _). vm_compute. exact I.
  - reflexivity.
  - unfold MAX_VHOSTS. lia.
  - exists plans', core'. vm_compute in Hc. injection Hc as <- <- <-. split; reflexivity.
Defined.

Lemma idle_vm_leaves_plan_witness :
  is_busy (demo_stats 1000) = true ∧
  is_busy (Nat.iter WINDOW_SIZE advance_wnd (demo_stats 1000)) = false.
Proof.
  split; [reflexivity|].
  apply (idle_vm_leaves_plan (demo_stats 1000) (demo_vdevs []) (demo_core []) empty_plan
    (replicate 1 (Nat.iter WINDOW_SIZE advance_wnd (demo_stats 1000))) 0 1).
  - split; [reflexivity|]. split; [reflexivity|]. cbn. unfold WINDOW_SIZE. lia.
  - reflexivity.
  - discriminate.
Defined.
