(* ===== verification/PlanRace.v ===== *)
(** * Plan updates against plan recomputation, step by step

    DPDK's vhost thread runs [new_device] and [destroy_device]; the slow path runs
    [calculate_vhost_tx_plan] once a second.  Nothing orders them but the atomic
    operations themselves, so here an event is a sequence of steps (publish the
    device; choose, extend and record; withdraw; search; commit) and a
    recomputation may happen between any two.  A recomputation itself is one step:
    that is enough to exhibit what can go wrong, and the refinement theorem shows
    that nothing goes wrong when no recomputation falls inside an event. *)

From S2P Require Import Prelude CInt Poll Plan.

(** Where the vhost thread is. *)
Inductive event_pc :=
  | Idle
  | Adding (v : nat)                (* published, before vhost_tx_plan_add *)
  | Removing (v : nat)              (* withdrawn, before the search *)
  | RemovingAt (v i : nat).         (* search done, before the commit *)

Record race_state := mk_race { race_sys : plan_sys; race_pc : event_pc }.

Inductive race_step : race_state → race_state → Prop :=
  | race_publish vdevs plans core v d :
      vdevs !! v = Some None →
      race_step (mk_race (mk_sys vdevs plans core) Idle)
                (mk_race (mk_sys (<[v:=Some d]> vdevs) plans core) (Adding v))
  | race_add vdevs plans core v alloc r plans' core' :
      plan_add v alloc plans core = Ok (r, plans', core') →
      race_step (mk_race (mk_sys vdevs plans core) (Adding v))
                (mk_race (mk_sys vdevs plans' core') Idle)
  | race_withdraw vdevs plans core v d :
      vdevs !! v = Some (Some d) →
      race_step (mk_race (mk_sys vdevs plans core) Idle)
                (mk_race (mk_sys (<[v:=None]> vdevs) plans core) (Removing v))
  | race_found vdevs plans core v i :
      find_core v plans 0 = Ok (Some i) →
      race_step (mk_race (mk_sys vdevs plans core) (Removing v))
                (mk_race (mk_sys vdevs plans core) (RemovingAt v i))
  | race_not_found vdevs plans core v :
      find_core v plans 0 = Ok None →
      race_step (mk_race (mk_sys vdevs plans core) (Removing v))
                (mk_race (mk_sys vdevs plans core) Idle)
  | race_commit vdevs plans core v i plans' core' :
      plan_remove_commit i v true plans = Ok (Some plans') →
      arr_set core v 0 = Ok core' →
      race_step (mk_race (mk_sys vdevs plans core) (RemovingAt v i))
                (mk_race (mk_sys vdevs plans' core') Idle)
  | race_calc vdevs plans core pc alloc plans' :
      calculate_vhost_tx_plan alloc vdevs core plans = Ok plans' →
      race_step (mk_race (mk_sys vdevs plans core) pc)
                (mk_race (mk_sys vdevs plans' core) pc).

(** ** Uninterrupted events *)

(** The steps of one event without a recomputation inside. *)
Inductive quiet_event : plan_sys → plan_sys → Prop :=
  | quiet_attach s1 s2 s3 v :
      race_step (mk_race s1 Idle) (mk_race s2 (Adding v)) →
      race_step (mk_race s2 (Adding v)) (mk_race s3 Idle) →
      quiet_event s1 s3
  | quiet_detach s1 s2 s4 v i :
      race_step (mk_race s1 Idle) (mk_race s2 (Removing v)) →
      race_step (mk_race s2 (Removing v)) (mk_race s2 (RemovingAt v i)) →
      race_step (mk_race s2 (RemovingAt v i)) (mk_race s4 Idle) →
      quiet_event s1 s4
  | quiet_calc s1 s2 :
      race_step (mk_race s1 Idle) (mk_race s2 Idle) →
      quiet_event s1 s2.

(** [vid] is polled by two cores. *)
Definition in_two_plans (v : nat) (plans : list vhost_plan) : Prop :=
  ∃ i j p q, i ≠ j ∧ plans !! i = Some p ∧ plans !! j = Some q ∧ v ∈ plan_list p ∧ v ∈ plan_list q.

(** ** Lemmas *)

Lemma plan_remove_phases v plans core i plans' core' :
  find_core v plans 0 = Ok (Some i) → plan_remove_commit i v true plans = Ok (Some plans') →
  arr_set core v 0 = Ok core' → plan_remove v true plans core = Ok (0%Z, plans', core').
Proof.
  intros Hf Hcm Hs. unfold plan_remove. rewrite Hf. cbn [mbind res_bind]. rewrite Hcm.
  cbn [mbind res_bind]. by rewrite Hs.
Qed.

(** A live VM never leaves a tx plan by recomputation. *)
Lemma tx_plan_keeps alloc vdevs core plans plans' k p v :
  Forall plan_wf plans → length vdevs = MAX_VHOSTS → length core = MAX_VHOSTS →
  calculate_vhost_tx_plan alloc vdevs core plans = Ok plans' →
  plans !! k = Some p → v ∈ plan_list p → vm_live vdevs v →
  Forall plan_wf plans' ∧ ∃ p', plans' !! k = Some p' ∧ v ∈ plan_list p'.
Proof.
  intros Hwf Hv Hc Hcalc Hp Hin Hlive.
  destruct (calculate_tx_from_spec 0 alloc vdevs core plans Hwf Hv Hc) as (q & Hq & Hl & Hspec).
  unfold calculate_vhost_tx_plan in Hcalc. rewrite Hcalc in Hq. simplify_eq. split.
  - apply Forall_lookup. intros j r Hj.
    destruct (lookup_lt_is_Some_2 plans j) as [r0 Hr0]; [rewrite <- Hl; by eapply lookup_lt_Some|].
    destruct (Hspec j r0 Hr0) as (r' & Hr' & Hwf' & _). congruence.
  - destruct (Hspec k p Hp) as (p' & Hp' & _ & Hcase). exists p'. split; [done|].
    destruct (forallb _ _); [|by subst p'].
    rewrite Hcase. unfold tx_plan_spec. rewrite elem_of_spec_fill. unfold tx_active. split; [|by auto].
    destruct Hlive as [d Hd]. rewrite <- Hv. by eapply lookup_lt_Some.
Qed.

(** Any number of recomputations in a row. *)
Inductive calcs (vdevs : list (option nat)) (core : list nat) : list vhost_plan → list vhost_plan → Prop :=
  | calcs_nil plans : calcs vdevs core plans plans
  | calcs_cons alloc plans plans' plans'' :
      calculate_vhost_tx_plan alloc vdevs core plans = Ok plans' →
      calcs vdevs core plans' plans'' → calcs vdevs core plans plans''.

Lemma calcs_keep vdevs core plans plans' k p v :
  calcs vdevs core plans plans' →
  Forall plan_wf plans → length vdevs = MAX_VHOSTS → length core = MAX_VHOSTS →
  plans !! k = Some p → v ∈ plan_list p → vm_live vdevs v →
  ∃ p', plans' !! k = Some p' ∧ v ∈ plan_list p'.
Proof.
  intros Hcs. revert p. induction Hcs as [plans|alloc plans plans1 plans2 Hcalc _ IH];
    intros p Hwf Hv Hc Hp Hin Hlive; [by exists p|].
  destruct (tx_plan_keeps alloc vdevs core plans plans1 k p v Hwf Hv Hc Hcalc Hp Hin Hlive)
    as [Hwf' (p' & Hp' & Hin')].
  by apply (IH p').
Qed.

(** The state of the first race: VM 0 is on core 0, VM 1 has just been published. *)
Definition race1_vdevs : list (option nat) := demo_vdevs [Some 100; Some 101].
Definition race1_start : race_state :=
  mk_race (mk_sys (demo_vdevs [Some 100]) [demo_plan [0]; demo_plan []] (demo_core [])) Idle.

(** The state of the second: only VM 3, on core 0, about to be destroyed. *)
Definition race2_start (l : list nat) : race_state :=
  mk_race (mk_sys (demo_vdevs [Some 100; None; None; Some 103]) [demo_plan l] (demo_core [])) Idle.

(** ** Properties *)

(** Refinement: an event whose steps are not interleaved with a recomputation is
    exactly one step of the sequential specification, so the partition of the plans
    survives every schedule in which recomputations fall between events (and the
    additions succeed). *)
Theorem quiet_events_refine (cores : nat) (s s' : plan_sys) :
  0 < cores → sys_reach cores s → quiet_event s s' →
  sys_plans s' = sys_plans s ∧ sys_core s' = sys_core s ∨ sys_step s s' ∧ homed s'.
Proof.
  intros Hc Hreach Hq. destruct (homed_reach cores s Hc Hreach) as [Hh Hne].
  cut (sys_plans s' = sys_plans s ∧ sys_core s' = sys_core s ∨ sys_step s s').
  { intros [?|Hstep]; [by left|right]. split; [done|]. by apply (homed_step s s'). }
  destruct Hq as [s1 s2 s3 v Hp Ha|s1 s2 s4 v i Hw Hf Hcm|s1 s2 Hcalc].
  - inversion Hp; subst.
    + inversion Ha; subst. destruct alloc.
      * right. destruct (homed_attach vdevs plans core v d Hh) as (q & c & Hq & _); [done|done|].
        match goal with H : plan_add _ _ _ _ = Ok (r, _, _) |- _ =>
          rewrite Hq in H; injection H as <- <- <- end.
        by apply sys_attach.
      * left. cbn [sys_plans sys_core].
        destruct Hh as (Hlv & Hlc & Hwf & _). cbn [sys_vdevs sys_plans sys_core] in *.
        destruct (plan_add_cases v false plans core) as [[_ E]|(i & p & p' & _ & _ & _ & _ & _ & _ & E)];
          [by apply plan_shape_Forall|done| | |]; rewrite ?E in *; simplify_eq; try done.
        rewrite <- Hlv. by eapply lookup_lt_Some.
  - right. inversion Hw; subst. inversion Hf; subst. inversion Hcm; subst.
    eapply sys_detach; [done|]. by eapply plan_remove_phases.
  - right. inversion Hcalc; subst. by eapply sys_calc_tx.
Qed.

(** Without that ordering the partition is lost.  A recomputation between the
    publication of a VM and its [vhost_tx_plan_add] lists the VM on core 0 (its
    home is still 0), the add then chooses the least loaded core, and the VM is in
    two plans, served by two cores at once; no number of later recomputations
    takes it out of either. *)
Theorem add_race_duplicates_vm :
  ∃ s1 s2 s3, race_step race1_start s1 ∧ race_step s1 s2 ∧ race_step s2 s3 ∧
    race_pc s3 = Idle ∧ in_two_plans 1 (sys_plans (race_sys s3)) ∧
    ∀ plans, calcs (sys_vdevs (race_sys s3)) (sys_core (race_sys s3)) (sys_plans (race_sys s3)) plans →
      in_two_plans 1 plans.
Proof.
  eexists _, _, _. split; [by apply (race_publish _ _ _ 1 101)|].
  split; [eapply (race_calc _ _ _ _ (λ _, true)); vm_compute; reflexivity|].
  split; [eapply (race_add _ _ _ _ true); vm_compute; reflexivity|].
  cbn [race_pc race_sys sys_plans sys_vdevs sys_core]. split; [done|].
  match goal with |- _ ∧ ∀ plans, calcs ?V ?C ?P plans → _ => set (vd := V); set (co := C); set (pl := P) end.
  assert (∃ p, pl !! 0 = Some p ∧ 1 ∈ plan_list p) as (p & Hp & Hp1).
  { eexists. split; [reflexivity|]. refine (bool_decide_unpack _ _). vm_compute. exact I. }
  assert (∃ p, pl !! 1 = Some p ∧ 1 ∈ plan_list p) as (q & Hq & Hq1).
  { eexists. split; [reflexivity|]. refine (bool_decide_unpack _ _). vm_compute. exact I. }
  assert (Forall plan_wf pl) as Hwf by (refine (bool_decide_unpack _ _); vm_compute; exact I).
  assert (vm_live vd 1) as Hlive by (exists 101; reflexivity).
  assert (length vd = MAX_VHOSTS ∧ length co = MAX_VHOSTS) as [Hv Hc] by (split; reflexivity).
  split; [by exists 0, 1, p, q|]. intros plans Hcs.
  destruct (calcs_keep _ _ _ _ 0 p 1 Hcs Hwf Hv Hc Hp Hp1 Hlive) as (p' & Hp' & Hin1).
  destruct (calcs_keep _ _ _ _ 1 q 1 Hcs Hwf Hv Hc Hq Hq1 Hlive) as (q' & Hq' & Hin2).
  by exists 0, 1, p', q'.
Qed.

(** Removal has a worse window.  A recomputation between the search of
    [vhost_tx_plan_remove] and its commit has already dropped the VM, and the
    commit, whose index defaults to 0, deletes another VM's entry; and if the plan
    has become empty its [uint16_t] count wraps to 65535, so the next reader of
    the plan runs off the end of [vids]. *)
Theorem remove_race_corrupts_plan :
  (∃ s1 s2 s3 s4 p, race_step (race2_start [0; 3]) s1 ∧ race_step s1 s2 ∧ race_step s2 s3 ∧
     race_step s3 s4 ∧ race_pc s4 = Idle ∧ vm_live (sys_vdevs (race_sys s4)) 0 ∧
     sys_plans (race_sys s4) = [p] ∧ plan_list p = []) ∧
  (∃ s1 s2 s3 s4 s5 s6 s7 p, race_step (race2_start [3; 0]) s1 ∧ race_step s1 s2 ∧
     race_step s2 s3 ∧ race_step s3 s4 ∧ race_step s4 s5 ∧ race_step s5 s6 ∧
     race_step s6 s7 ∧ race_pc s7 = Idle ∧
     sys_plans (race_sys s7) = [p] ∧ plan_num p = 65535%Z ∧
     calculate_vhost_tx_plan (λ _, true) (sys_vdevs (race_sys s7)) (sys_core (race_sys s7)) [p] =
       Fault OutOfBounds).
Proof.
  split.
  - eexists _, _, _, _, _.
    split; [by apply (race_withdraw _ _ _ 3 103)|].
    split; [apply (race_found _ _ _ 3 0); reflexivity|].
    split; [eapply (race_calc _ _ _ _ (λ _, true)); vm_compute; reflexivity|].
    split; [eapply race_commit; vm_compute; reflexivity|].
    split; [reflexivity|]. split; [exists 100; reflexivity|]. split; reflexivity.
  - eexists _, _, _, _, _, _, _, _.
    split; [by apply (race_withdraw _ _ _ 3 103)|].
    split; [apply (race_found _ _ _ 3 0); reflexivity|].
    split; [eapply race_commit; vm_compute; reflexivity|].
    split; [by apply (race_withdraw _ _ _ 0 100)|].
    split; [apply (race_found _ _ _ 0 0); reflexivity|].
    split; [eapply (race_calc _ _ _ _ (λ _, true)); vm_compute; reflexivity|].
    split; [eapply race_commit; vm_compute; reflexivity|].
    split; [reflexivity|]. split; [reflexivity|]. split; vm_compute; reflexivity.
Qed.

Lemma quiet_events_refine_witness :
  ∃ s', quiet_event (init_sys 2) s' ∧ homed s' ∧ plan_list <$> sys_plans s' = [[1]; []].
Proof.
  assert (∃ plans' core', plan_add 1 true (sys_plans (init_sys 2)) (sys_core (init_sys 2)) = Ok (0%Z, plans', core') ∧
    plan_list <$> plans' = [[1]; []] ∧ plans' ≠ sys_plans (init_sys 2)) as (plans' & core' & Ha & Hl & Hne).
  { eexists _, _. split; [vm_compute; reflexivity|]. split; [reflexivity|]. intros E. vm_compute in E. discriminate E. }
  set (s' := mk_sys (<[1:=Some 101]> (sys_vdevs (init_sys 2))) plans' core').
  assert (quiet_event (init_sys 2) s') as Hq.
  { eapply (quiet_attach _ _ _ 1); [by apply (race_publish _ _ _ 1 101)|]. exact (race_add _ _ _ _ true _ _ _ Ha). }
  exists s'. split; [exact Hq|]. split; [|exact Hl].
  destruct (quiet_events_refine 2 _ s' ltac:(lia) (sys_reach_init 2) Hq) as [[Hp _]|[_ Hh]]; [|exact Hh].
  destruct (Hne Hp).
Defined.
