(* ===== verification/PlanSteps.v ===== *)
(** * src/vhost/plan.c, src/slow/slowpath.c: both directions, one access per step

    The plans of one direction with the two threads that change them.  DPDK's vhost
    thread publishes a device and looks for the least loaded core, one plan per step; it
    replaces the plan of that core (by [PlanCas.publication_refines] an atomic update)
    and records the core; to remove a VM it withdraws the device, looks for its plan, and
    so on.  The slow path loads the device list once, and for every core loads the plan,
    reads [vhost_xx_core] element by element while it fills the new plan, and exchanges
    the pointer.  The steps of both threads interleave in any order, and every loaded
    value may be outdated when it is used.

    Whatever happens in between, the next recomputation that no device event disturbs
    repairs the plans, unless a removal has emptied a plan twice: a count that has wrapped
    around is what [PlanRace.remove_race_corrupts_plan] ends in. *)

From S2P Require Import Prelude CInt Poll Plan PlanRace.

Inductive direction := Receive | Transmit.

(** The vhost thread: in the loops of [vhost_xx_plan_add] and [vhost_xx_plan_remove] plan
    [i] is the next one to load. *)
Inductive event_at :=
  | AtRest
  | Selecting (v i : nat) (min_vdev : Z) (min_id : option nat)
  | Chosen (v k : nat)
  | Pushed (v k : nat)           (* the plan is replaced, the core not yet recorded *)
  | Finding (v i : nat)
  | Found (v k : nat)
  | Deleted (v : nat).

(** The slow path in the recomputation, with the device list it has loaded. *)
Inductive calc_at :=
  | CalcRest
  | CalcAt (vd : list (option nat)) (i : nat)
  | CalcFill (vd : list (option nat)) (i : nat) (p : vhost_plan) (view : list nat)
  | CalcSwap (vd : list (option nat)) (i : nat) (new : vhost_plan).

Record steps := mk_steps {
  st_vdevs : list (option nat);
  st_plans : list vhost_plan;
  st_core : list nat;
  st_event : event_at;
  st_calc : calc_at;
}.

Definition steps_sys (s : steps) : plan_sys := mk_sys (st_vdevs s) (st_plans s) (st_core s).

(** What the slow path computes for core [i] from plan [p], when the allocation succeeds. *)
Definition calc_core (dir : direction) (i : nat) (vd : list (option nat)) (core : list nat) (p : vhost_plan)
    (stats : list vdev_rx_stats) : res (option vhost_plan) :=
  match dir with
  | Receive => '(o, _) ← calc_rx_core i true vd core p stats; Ok o
  | Transmit => calc_tx_core i true vd core p
  end.

(** A recomputation that nothing disturbs. *)
Definition recompute (dir : direction) (stats : list (list vdev_rx_stats)) (s : plan_sys) : res (list vhost_plan) :=
  match dir with
  | Receive => '(plans, _) ← calculate_vhost_rx_plan (λ _, true) (sys_vdevs s) (sys_core s) (sys_plans s) stats; Ok plans
  | Transmit => calculate_vhost_tx_plan (λ _, true) (sys_vdevs s) (sys_core s) (sys_plans s)
  end.

(** ** The accesses of the two threads

    [alloc] is the success of the allocation of a new plan; the statistics are those that
    the slow path finds, whatever the receiving core has written. *)

Inductive access (dir : direction) : steps → steps → Prop :=
  | publish vd plans core ca v d :
      vd !! v = Some None →
      access dir (mk_steps vd plans core AtRest ca)
        (mk_steps (<[v := Some d]> vd) plans core (Selecting v 0 (Z.of_nat MAX_VHOSTS) None) ca)
  | select vd plans core ca v i m c p :
      plans !! i = Some p →
      access dir (mk_steps vd plans core (Selecting v i m c) ca)
        (mk_steps vd plans core (if (plan_num p <? m)%Z then Selecting v (S i) (plan_num p) (Some i) else Selecting v (S i) m c) ca)
  | selected vd plans core ca v i m c :
      i = length plans →
      access dir (mk_steps vd plans core (Selecting v i m c) ca)
        (mk_steps vd plans core (match c with Some k => Chosen v k | None => AtRest end) ca)
  | push vd plans core ca v k alloc o :
      plan_add_commit k v alloc plans = Ok o →
      access dir (mk_steps vd plans core (Chosen v k) ca)
        (mk_steps vd (default plans o) core (match o with Some _ => Pushed v k | None => AtRest end) ca)
  | record_core vd plans core core' ca v k :
      arr_set core v k = Ok core' →
      access dir (mk_steps vd plans core (Pushed v k) ca) (mk_steps vd plans core' AtRest ca)
  | withdraw vd plans core ca v d :
      vd !! v = Some (Some d) →
      access dir (mk_steps vd plans core AtRest ca) (mk_steps (<[v := None]> vd) plans core (Finding v 0) ca)
  | look_up vd plans core ca v i p b :
      plans !! i = Some p → plan_mem v p = Ok b →
      access dir (mk_steps vd plans core (Finding v i) ca)
        (mk_steps vd plans core (if b : bool then Found v i else Finding v (S i)) ca)
  | not_found vd plans core ca v i :
      i = length plans →
      access dir (mk_steps vd plans core (Finding v i) ca) (mk_steps vd plans core AtRest ca)
  | delete_vid vd plans core ca v k alloc o :
      plan_remove_commit k v alloc plans = Ok o →
      access dir (mk_steps vd plans core (Found v k) ca)
        (mk_steps vd (default plans o) core (match o with Some _ => Deleted v | None => AtRest end) ca)
  | forget_core vd plans core core' ca v :
      arr_set core v 0 = Ok core' →
      access dir (mk_steps vd plans core (Deleted v) ca) (mk_steps vd plans core' AtRest ca)
  | calc_start vd plans core ev :
      access dir (mk_steps vd plans core ev CalcRest) (mk_steps vd plans core ev (CalcAt vd 0))
  | calc_load vd plans core ev old i p :
      plans !! i = Some p →
      access dir (mk_steps vd plans core ev (CalcAt old i)) (mk_steps vd plans core ev (CalcFill old i p []))
  | calc_look vd plans core ev old i p view k :
      core !! length view = Some k →
      access dir (mk_steps vd plans core ev (CalcFill old i p view)) (mk_steps vd plans core ev (CalcFill old i p (view ++ [k])))
  | calc_done vd plans core ev old i p view stats new :
      length view = MAX_VHOSTS → length stats = MAX_VHOSTS → calc_core dir i old view p stats = Ok (Some new) →
      access dir (mk_steps vd plans core ev (CalcFill old i p view)) (mk_steps vd plans core ev (CalcSwap old i new))
  | calc_no_memory vd plans core ev old i p :
      access dir (mk_steps vd plans core ev (CalcFill old i p [])) (mk_steps vd plans core ev CalcRest)
  | calc_swap vd plans core ev old i new :
      access dir (mk_steps vd plans core ev (CalcSwap old i new)) (mk_steps vd (<[i := new]> plans) core ev (CalcAt old (S i)))
  | calc_end vd plans core ev old i :
      i = length plans →
      access dir (mk_steps vd plans core ev (CalcAt old i)) (mk_steps vd plans core ev CalcRest).

Definition steps_init (cores : nat) : steps :=
  mk_steps (replicate MAX_VHOSTS None) (replicate cores empty_plan) (replicate MAX_VHOSTS 0) AtRest CalcRest.

(** ** Specification *)

(** The vhost thread is about to take an entry out of an empty plan. *)
Definition underflows (s : steps) : Prop :=
  ∃ v k p, st_event s = Found v k ∧ st_plans s !! k = Some p ∧ plan_num p = 0%Z.

(** A step in a run without that. *)
Definition sound_access (dir : direction) (s s' : steps) : Prop := ¬ underflows s ∧ access dir s s'.

(** What keeps a listed VM [v] in the plan of core [k], apart from belonging there: in the
    receive direction some traffic in the window of its statistics. *)
Definition kept (dir : direction) (stats : list (list vdev_rx_stats)) (k v : nat) : Prop :=
  match dir with
  | Receive => ∃ row st, stats !! k = Some row ∧ row !! v = Some st ∧ ¬ no_traffic st
  | Transmit => True
  end.

(** A plan as it is under any interleaving: vids may be listed twice or be missing. *)
Definition plan_sound (p : vhost_plan) : Prop := plan_shape p ∧ Forall (λ v, v < MAX_VHOSTS) (plan_list p).

Definition event_ok (n : nat) (ev : event_at) : Prop :=
  match ev with
  | AtRest => True
  | Selecting v i _ c => v < MAX_VHOSTS ∧ i ≤ n ∧ ∀ k, c = Some k → k < n
  | Chosen v k | Pushed v k | Found v k => v < MAX_VHOSTS ∧ k < n
  | Finding v i => v < MAX_VHOSTS ∧ i ≤ n
  | Deleted v => v < MAX_VHOSTS
  end.

Definition calc_ok (n : nat) (ca : calc_at) : Prop :=
  match ca with
  | CalcRest => True
  | CalcAt vd i => length vd = MAX_VHOSTS ∧ i ≤ n
  | CalcFill vd i p view => length vd = MAX_VHOSTS ∧ i < n ∧ plan_sound p ∧ length view ≤ MAX_VHOSTS
  | CalcSwap vd i new => length vd = MAX_VHOSTS ∧ i < n ∧ plan_sound new
  end.

Definition steps_inv (n : nat) (s : steps) : Prop :=
  length (st_vdevs s) = MAX_VHOSTS ∧ length (st_core s) = MAX_VHOSTS ∧ Forall (λ k, k < n) (st_core s) ∧
  length (st_plans s) = n ∧ Forall plan_sound (st_plans s) ∧ event_ok n (st_event s) ∧ calc_ok n (st_calc s).

(** ** Lemmas: plans as they are *)

Lemma plan_wf_sound p : plan_wf p → plan_sound p.
Proof. intros Hwf. split; [by apply plan_wf_shape|apply Hwf]. Qed.

Lemma plan_push_sound v p : plan_sound p → v < MAX_VHOSTS → (plan_num p < Z.of_nat MAX_VHOSTS)%Z →
  ∃ p', plan_push v p = Ok p' ∧ plan_sound p'.
Proof.
  intros [Hs Hall] Hv Hn. destruct (plan_push_ok v p Hs Hn) as (p' & -> & Hs' & Hl & _).
  exists p'. split; [done|]. split; [done|]. rewrite Hl. apply Forall_app. split; [done|]. by apply Forall_singleton.
Qed.

(** Deleting from a plan that is not empty, whether it lists the vid or not. *)
Lemma plan_delete_sound v p : plan_sound p → plan_num p ≠ 0%Z → ∃ p', plan_delete v p = Ok p' ∧ plan_sound p'.
Proof.
  intros [[H1 H2] Hall] Hne. unfold plan_delete. set (idx := find_idx v _). clearbody idx.
  destruct (shift_down_spec idx (Z.to_nat (plan_num p)) (plan_vids p)) as (new & -> & Hl & Hlk); [lia|].
  cbn [mbind res_bind]. unfold u16. rewrite wrap_small by (unfold in_u, MAX_VHOSTS in *; lia).
  eexists. split; [done|]. split; [split; cbn [plan_num plan_vids]; lia|].
  apply Forall_lookup. intros j w. unfold plan_list. cbn [plan_num plan_vids]. intros Hj.
  pose proof (lookup_lt_Some _ _ _ Hj) as Hlt. rewrite length_take in Hlt. rewrite lookup_take_lt, Hlk in Hj by lia.
  rewrite Forall_lookup in Hall. unfold plan_list in Hall. case_decide as Hc.
  - apply (Hall (j + 1)). by rewrite lookup_take_lt by lia.
  - apply (Hall j). by rewrite lookup_take_lt by lia.
Qed.

Lemma no_traffic_idle st n : no_traffic st → is_busy (Nat.iter n advance_wnd st) = false.
Proof.
  intros Hst. assert (no_traffic (Nat.iter n advance_wnd st)) as [Hb Hp].
  { induction n as [|n [Hb Hp]]; [done|]. split; cbn; by apply Forall_insert. }
  unfold is_busy. by rewrite !u32_sum_zero.
Qed.

(** The flags after the visits, for plans that may list a VM twice. *)
Definition flagged (dir : direction) (vd : list (option nat)) (stats : list vdev_rx_stats) (pre : list nat) (ia : list bool) : Prop :=
  length ia = MAX_VHOSTS ∧
  ∀ v, ia !! v = Some true → v ∈ pre ∧ vm_live vd v ∧ (dir = Receive → ∃ st, stats !! v = Some st ∧ ¬ no_traffic st).

Lemma flagged_none dir vd stats : flagged dir vd stats [] (replicate MAX_VHOSTS false).
Proof. split; [by rewrite length_replicate|]. by intros v [? _]%lookup_replicate. Qed.

Lemma flagged_mono dir vd stats pre v ia : flagged dir vd stats pre ia → flagged dir vd stats (pre ++ [v]) ia.
Proof. intros [Hl Hia]. split; [done|]. intros w Hw. rewrite elem_of_app. destruct (Hia w Hw); tauto. Qed.

Lemma flagged_insert dir vd stats pre v b ia :
  flagged dir vd stats pre ia → v < MAX_VHOSTS → vm_live vd v →
  (b = true → dir = Receive → ∃ st, stats !! v = Some st ∧ ¬ no_traffic st) →
  flagged dir vd stats (pre ++ [v]) (<[v := b]> ia).
Proof.
  intros [Hl Hia] Hv Hlive Hb. split; [by rewrite length_insert|]. intros w.
  destruct (decide (v = w)) as [<-|Hne].
  - rewrite list_lookup_insert_eq by lia. intros [= ->]. split; [apply elem_of_snoc|]. auto.
  - rewrite list_lookup_insert_ne by done. intros Hw. rewrite elem_of_app. destruct (Hia w Hw); tauto.
Qed.

Lemma sound_entry p pre v post : plan_sound p → plan_list p = pre ++ v :: post → v < MAX_VHOSTS.
Proof. intros [_ Hall] Heq. rewrite Heq, Forall_forall in Hall. apply Hall, elem_of_app. right. by left. Qed.

Lemma rx_visits_flagged vd p stats :
  plan_sound p → length vd = MAX_VHOSTS → length stats = MAX_VHOSTS →
  ∃ ia stats', calc_rx_visits vd p (replicate MAX_VHOSTS false, stats) = Ok (ia, stats') ∧ flagged Receive vd stats (plan_list p) ia.
Proof.
  intros Hp Hv Hs. pose proof Hp as [[Hn Hl] _]. unfold calc_rx_visits.
  rewrite (foldM_arr_get _ (calc_rx_visit vd) (plan_vids p)) by (done || lia). fold (plan_list p).
  destruct (foldM_ind (calc_rx_visit vd) (λ pre s, flagged Receive vd stats pre s.1 ∧ length s.2 = MAX_VHOSTS ∧
    ∀ v st', s.2 !! v = Some st' → ∃ st n, stats !! v = Some st ∧ st' = Nat.iter n advance_wnd st) (plan_list p)
    (replicate MAX_VHOSTS false, stats)) as ([ia stats'] & -> & Hf & _); [| |by exists ia, stats'].
  - split; [apply flagged_none|]. split; [done|]. intros v st Hst. by exists st, 0.
  - intros pre v post [ia st] Heq (Hf & Hls & Hst). cbn [fst snd] in *. pose proof (sound_entry p pre v post Hp Heq) as Hlt.
    unfold calc_rx_visit. destruct (lookup_lt_is_Some_2 vd v) as [dev Hdev]; [lia|].
    rewrite (arr_get_Some _ _ _ Hdev). cbn [mbind res_bind]. destruct dev as [d|].
    2:{ eexists. split; [done|]. cbn [fst snd]. split; [by apply flagged_mono|done]. }
    destruct (lookup_lt_is_Some_2 st v) as [sv Hsv]; [lia|]. destruct (Hst v sv Hsv) as (s0 & n & Hs0 & ->).
    rewrite (arr_get_Some _ _ _ Hsv). cbn [mbind res_bind]. destruct Hf as [Hla Hia]. rewrite !arr_set_lt by lia.
    cbn [mbind res_bind]. eexists. split; [done|]. cbn [fst snd]. rewrite length_insert. split; [|split; [done|]].
    + apply flagged_insert; [done|done|by exists d|]. intros Hb _. exists s0. split; [done|]. intros Hno.
      by rewrite no_traffic_idle in Hb.
    + intros w sw. destruct (decide (v = w)) as [<-|Hne]; [|rewrite list_lookup_insert_ne by done; apply Hst].
      rewrite list_lookup_insert_eq by lia. intros [= <-]. by exists s0, (S n).
Qed.

Lemma tx_visits_flagged vd p stats :
  plan_sound p → length vd = MAX_VHOSTS →
  ∃ ia, calc_tx_visits vd p (replicate MAX_VHOSTS false) = Ok ia ∧ flagged Transmit vd stats (plan_list p) ia.
Proof.
  intros Hp Hv. pose proof Hp as [[Hn Hl] _]. unfold calc_tx_visits.
  rewrite (foldM_arr_get _ (calc_tx_visit vd) (plan_vids p)) by (done || lia). fold (plan_list p).
  apply foldM_ind; [apply flagged_none|]. intros pre v post ia Heq Hf. pose proof (sound_entry p pre v post Hp Heq) as Hlt.
  unfold calc_tx_visit. destruct (lookup_lt_is_Some_2 vd v) as [dev Hdev]; [lia|].
  rewrite (arr_get_Some _ _ _ Hdev). cbn [mbind res_bind]. destruct dev as [d|].
  - rewrite arr_set_lt by (destruct Hf; lia). eexists. split; [done|]. apply flagged_insert; [done|done|by exists d|done].
  - eexists. split; [done|]. by apply flagged_mono.
Qed.

(** What the slow path makes of any plan. *)
Lemma calc_core_sound dir i vd core p stats :
  plan_sound p → length vd = MAX_VHOSTS → length core = MAX_VHOSTS → length stats = MAX_VHOSTS →
  ∃ new, calc_core dir i vd core p stats = Ok (Some new) ∧ plan_wf new ∧
    (∀ v, vm_live vd v → core !! v = Some i → v ∈ plan_list new) ∧
    (∀ v, v ∈ plan_list new → vm_live vd v ∧
       (core !! v = Some i ∨ v ∈ plan_list p ∧ (dir = Receive → ∃ st, stats !! v = Some st ∧ ¬ no_traffic st))).
Proof.
  intros Hp Hv Hc Hs.
  cut (∃ ia new, calc_core dir i vd core p stats = Ok (Some new) ∧ flagged dir vd stats (plan_list p) ia ∧
    fill_plan i ia vd core = Ok new).
  { intros (ia & new & Hcalc & [Hla Hia] & Hfill). exists new. split; [done|].
    destruct (fill_plan_spec i ia vd core Hla Hv Hc) as (q & Hq & Hwf & Hl).
    assert (q = new) as -> by congruence. split; [done|].
    assert (∀ v, v ∈ plan_list new ↔ v < MAX_VHOSTS ∧ (ia !! v = Some true ∨ probe_cond i ia vd core v)) as Hin.
    { intros v. rewrite Hl, elem_of_app, !list_elem_of_filter, elem_of_seq_max. tauto. }
    split; intros v; rewrite Hin.
    - intros [d Hd] Hcv. pose proof (lookup_lt_Some _ _ _ Hd) as Hlt. split; [lia|].
      destruct (lookup_lt_is_Some_2 ia v) as [[|] Hb]; [lia|by left|]. right. split_and!; [done|by exists d|done].
    - intros (_ & [Ht|(_ & Hlive & Hcv)]); [destruct (Hia v Ht) as (? & ? & ?); tauto|tauto]. }
  destruct dir; unfold calc_core.
  - unfold calc_rx_core. destruct (rx_visits_flagged vd p stats Hp Hv Hs) as (ia & stats' & -> & Hf).
    cbn [mbind res_bind negb]. destruct (fill_plan_spec i ia vd core (proj1 Hf) Hv Hc) as (q & Hq & _).
    exists ia, q. rewrite Hq. done.
  - unfold calc_tx_core. destruct (tx_visits_flagged vd p stats Hp Hv) as (ia & -> & Hf).
    cbn [mbind res_bind negb]. destruct (fill_plan_spec i ia vd core (proj1 Hf) Hv Hc) as (q & Hq & _).
    exists ia, q. rewrite Hq. done.
Qed.

(** ** Lemmas: the invariant *)

Lemma steps_inv_init n : 0 < n → steps_inv n (steps_init n).
Proof.
  intros Hn. unfold steps_inv, steps_init. cbn [st_vdevs st_plans st_core st_event st_calc]. split_and!; try done.
  - by apply (Forall_replicate (λ k, k < n)).
  - by rewrite length_replicate.
  - apply Forall_replicate, plan_wf_sound, empty_plan_wf.
Qed.

Lemma push_sound n k v alloc plans o :
  Forall plan_sound plans → v < MAX_VHOSTS → plan_add_commit k v alloc plans = Ok o → length plans = n →
  Forall plan_sound (default plans o) ∧ length (default plans o) = n.
Proof.
  intros Hps Hv E Hl. unfold plan_add_commit in E. bind_step E as old Eold. apply arr_get_Ok in Eold.
  destruct (Z.leb_spec (Z.of_nat MAX_VHOSTS) (plan_num old)); [by injection E as <-|].
  destruct alloc; cbn [negb] in E; [|by injection E as <-].
  destruct (plan_push_sound v old) as (p' & Hp' & Hs'); [by eapply Forall_lookup_1|done|done|].
  rewrite Hp' in E. injection E as <-. cbn [default from_option id]. rewrite length_insert. split; [by apply Forall_insert|done].
Qed.

Lemma delete_sound n k v alloc plans o p :
  Forall plan_sound plans → plans !! k = Some p → plan_num p ≠ 0%Z → plan_remove_commit k v alloc plans = Ok o →
  length plans = n → Forall plan_sound (default plans o) ∧ length (default plans o) = n.
Proof.
  intros Hps Hk Hne E Hl. unfold plan_remove_commit in E. rewrite (arr_get_Some _ _ _ Hk) in E. cbn [mbind res_bind] in E.
  destruct alloc; cbn [negb] in E; [|by injection E as <-].
  destruct (plan_delete_sound v p) as (p' & Hp' & Hs'); [by eapply Forall_lookup_1|done|].
  rewrite Hp' in E. injection E as <-. cbn [default from_option id]. rewrite length_insert. split; [by apply Forall_insert|done].
Qed.

Lemma record_ok n (core core' : list nat) v k :
  arr_set core v k = Ok core' → k < n → length core = MAX_VHOSTS → Forall (λ k, k < n) core →
  length core' = MAX_VHOSTS ∧ Forall (λ k, k < n) core'.
Proof. intros [_ ->]%arr_set_Ok Hk Hl Hall. rewrite length_insert. split; [done|]. by apply Forall_insert. Qed.

Lemma steps_inv_event dir n s s' : steps_inv n s → sound_access dir s s' → 0 < n → st_calc s = st_calc s' → steps_inv n s'.
Proof.
  intros (Hv & Hc & Hcn & Hl & Hps & Hev & Hca) [Hno Hstep] Hn Eca.
  destruct Hstep; unfold steps_inv in *; cbn in *; try discriminate Eca.
  - pose proof (lookup_lt_Some _ _ _ H). rewrite length_insert. split_and!; try done; lia.
  - destruct Hev as (? & ? & Hm). pose proof (lookup_lt_Some _ _ _ H). destruct (_ <? _)%Z; cbn; split_and!; try done; try lia.
    intros k [= <-]. lia.
  - destruct Hev as (? & ? & Hm). destruct c as [k|]; cbn; split_and!; try done. by apply Hm.
  - destruct Hev as (? & ?). destruct (push_sound n k v alloc plans o) as [? ?]; [done..|]. destruct o; by split_and!.
  - destruct Hev as (? & ?). destruct (record_ok n core core' v k) as [? ?]; [done..|by split_and!].
  - pose proof (lookup_lt_Some _ _ _ H). rewrite length_insert. split_and!; try done; lia.
  - destruct Hev as (? & ?). pose proof (lookup_lt_Some _ _ _ H). destruct b; cbn; split_and!; try done; lia.
  - by split_and!.
  - destruct Hev as (? & ?). destruct (lookup_lt_is_Some_2 plans k) as [p Hp]; [lia|].
    destruct (delete_sound n k v alloc plans o p) as [? ?]; [done|done| |done|done|destruct o; by split_and!].
    intros E. apply Hno. by exists v, k, p.
  - destruct (record_ok n core core' v 0) as [? ?]; [done..|by split_and!].
  - injection Eca as E. apply (f_equal length) in E. rewrite length_app in E. cbn in E. lia.
Qed.

Lemma steps_inv_calc dir n s s' : steps_inv n s → access dir s s' → st_calc s ≠ st_calc s' → steps_inv n s'.
Proof.
  intros (Hv & Hc & Hcn & Hl & Hps & Hev & Hca) Hstep Hne.
  destruct Hstep; unfold steps_inv in *; cbn in *; try done.
  - split_and!; try done. lia.
  - destruct Hca. pose proof (lookup_lt_Some _ _ _ H). split_and!; try done; try lia. by eapply Forall_lookup_1.
  - destruct Hca as (? & ? & ? & ?). pose proof (lookup_lt_Some _ _ _ H). rewrite length_app. cbn. split_and!; try done. lia.
  - destruct Hca as (? & ? & ? & ?).
    destruct (calc_core_sound dir i old view p stats) as (q & Hq & Hwf & _); [done..|].
    assert (q = new) as -> by congruence. split_and!; try done. by apply plan_wf_sound.
  - destruct Hca as (? & ? & ?). rewrite length_insert. split_and!; try done; try lia. by apply Forall_insert.
Qed.

#[export] Instance vhost_plan_eq_dec : EqDecision vhost_plan.
Proof. solve_decision. Defined.

#[export] Instance calc_at_eq_dec : EqDecision calc_at.
Proof. solve_decision. Defined.

Lemma steps_inv_run dir n s s' : 0 < n → steps_inv n s → rtc (sound_access dir) s s' → steps_inv n s'.
Proof.
  intros Hn Hinv Hrun. induction Hrun as [|s1 s2 s3 Hs _ IH]; [done|]. apply IH.
  destruct (decide (st_calc s1 = st_calc s2)); [by eapply steps_inv_event|by eapply steps_inv_calc; [|apply Hs|]].
Qed.

Lemma sound_if dir s s' : (∀ v k, st_event s ≠ Found v k) → access dir s s' → sound_access dir s s'.
Proof. intros Hev Hs. split; [|done]. intros (v & k & p & E & _). by apply (Hev v k). Qed.

(** ** Lemmas: progress *)

Lemma push_returns k v plans p : plan_sound p → plans !! k = Some p → v < MAX_VHOSTS → ∃ o, plan_add_commit k v true plans = Ok o.
Proof.
  intros Hs Hp Hv. unfold plan_add_commit. rewrite (arr_get_Some _ _ _ Hp). cbn [mbind res_bind negb].
  destruct (Z.leb_spec (Z.of_nat MAX_VHOSTS) (plan_num p)); [by eexists|].
  destruct (plan_push_sound v p Hs Hv) as (q & -> & _); [lia|]. by eexists.
Qed.

Lemma event_progress dir n s : steps_inv n s → st_event s ≠ AtRest → ¬ underflows s →
  ∃ s', access dir s s' ∧ st_event s' ≠ st_event s.
Proof.
  intros (Hv & Hc & _ & Hl & Hps & Hev & _) Hne Hno. destruct s as [vd plans core ev ca]. cbn in *.
  assert (∀ i, i ≤ n → i = length plans ∨ ∃ p, plans !! i = Some p ∧ plan_sound p) as Hnext.
  { intros i Hi. destruct (decide (i = length plans)) as [->|]; [by left|right].
    destruct (lookup_lt_is_Some_2 plans i) as [p Hp]; [lia|]. exists p. split; [done|]. by eapply Forall_lookup_1. }
  destruct ev as [|v i m c|v k|v k|v i|v k|v]; [done|..]; cbn in Hev.
  - destruct Hev as (? & ? & _). destruct (Hnext i) as [->|(p & Hp & _)]; [done| |].
    + eexists. split; [by apply selected|]. cbn. by destruct c.
    + eexists. split; [by apply (select _ _ _ _ _ _ _ _ _ p)|]. cbn. destruct (_ <? _)%Z; intros [=]; lia.
  - destruct Hev. destruct (lookup_lt_is_Some_2 plans k) as [p Hp]; [lia|].
    destruct (push_returns k v plans p) as [o Ho]; [by eapply Forall_lookup_1|done|done|].
    eexists. split; [by apply (push _ _ _ _ _ _ _ true o)|]. cbn. by destruct o.
  - destruct Hev. eexists. split; [apply record_core; apply arr_set_lt; lia|done].
  - destruct Hev. destruct (Hnext i) as [->|(p & Hp & Hs)]; [done| |].
    + eexists. split; [by apply not_found|done].
    + eexists. split; [eapply look_up; [done|apply plan_mem_spec, Hs]|]. cbn. destruct (bool_decide _); intros [=]; lia.
  - destruct Hev. destruct (lookup_lt_is_Some_2 plans k) as [p Hp]; [lia|].
    destruct (plan_delete_sound v p) as (p' & Hp' & _); [by eapply Forall_lookup_1|intros E; apply Hno; by exists v, k, p|].
    eexists. split; [apply (delete_vid _ _ _ _ _ _ _ true (Some (<[k := p']> plans)))|done].
    unfold plan_remove_commit. rewrite (arr_get_Some _ _ _ Hp). cbn [mbind res_bind negb]. by rewrite Hp'.
  - eexists. split; [apply forget_core; apply arr_set_lt; lia|done].
Qed.

Lemma calc_progress dir n s : steps_inv n s → st_calc s ≠ CalcRest → ∃ s', access dir s s' ∧ st_calc s' ≠ st_calc s.
Proof.
  intros (Hv & Hc & _ & Hl & Hps & _ & Hca) Hne. destruct s as [vd plans core ev ca]. cbn in *.
  destruct ca as [|old i|old i p view|old i new]; [done|..]; cbn in Hca.
  - destruct Hca. destruct (decide (i = length plans)) as [->|]; [eexists; by split; [apply calc_end|]|].
    destruct (lookup_lt_is_Some_2 plans i) as [p Hp]; [lia|]. eexists. split; [by eapply calc_load|done].
  - destruct Hca as (? & ? & ? & ?). destruct (decide (length view = MAX_VHOSTS)) as [Hview|].
    + destruct (calc_core_sound dir i old view p (replicate MAX_VHOSTS (demo_stats 0))) as (new & Hnew & _); [done..|].
      eexists. split; [by eapply (calc_done _ _ _ _ _ _ _ _ _ (replicate MAX_VHOSTS (demo_stats 0)))|done].
    + destruct (lookup_lt_is_Some_2 core (length view)) as [k Hk]; [lia|].
      eexists. split; [by eapply calc_look|]. cbn. intros [= E]. apply (f_equal length) in E. rewrite length_app in E. cbn in E. lia.
  - eexists. split; [apply calc_swap|]. done.
Qed.

(** ** Lemmas: a recomputation that nothing disturbs *)

(** Each new plan is what the slow path computes for its core. *)
Definition each_core (dir : direction) (i : nat) (vd : list (option nat)) (core : list nat) (plans : list vhost_plan)
    (stats : list (list vdev_rx_stats)) (plans' : list vhost_plan) : Prop :=
  length plans' = length plans ∧
  ∀ k p row, plans !! k = Some p → stats !! k = Some row →
    ∃ p', plans' !! k = Some p' ∧ calc_core dir (i + k) vd core p row = Ok (Some p').

Lemma each_core_cons dir i vd core p plans row stats p' plans' :
  calc_core dir i vd core p row = Ok (Some p') → each_core dir (S i) vd core plans stats plans' →
  each_core dir i vd core (p :: plans) (row :: stats) (p' :: plans').
Proof.
  intros Hp [Hl Hk]. split; [cbn; lia|]. intros [|k] q r Hq Hr; cbn in Hq, Hr; simplify_eq.
  - exists p'. by rewrite Nat.add_0_r.
  - rewrite <- Nat.add_succ_comm. by apply Hk.
Qed.

Lemma rx_each_core i vd core plans stats :
  Forall plan_sound plans → length vd = MAX_VHOSTS → length core = MAX_VHOSTS →
  Forall (λ row, length row = MAX_VHOSTS) stats → length stats = length plans →
  ∃ plans' stats', calculate_rx_from i (λ _, true) vd core plans stats = Ok (plans', stats') ∧
    each_core Receive i vd core plans stats plans'.
Proof.
  intros Hps Hv Hc. revert i stats. induction Hps as [|p plans Hp _ IH]; intros i [|row stats] Hss Hl; try done.
  { exists [], []. done. }
  apply Forall_cons in Hss as [Hrow Hss]. injection Hl as Hl. cbn [calculate_rx_from].
  destruct (calc_core_sound Receive i vd core p row Hp Hv Hc Hrow) as (p' & Hp' & _). pose proof Hp' as Hcore.
  unfold calc_core in Hp'. bind_step Hp' as [o row'] E. injection Hp' as ->. cbn [mbind res_bind].
  destruct (IH (S i) stats Hss Hl) as (plans' & stats' & -> & Heach). cbn [mbind res_bind].
  eexists _, _. split; [done|]. by apply each_core_cons.
Qed.

Lemma tx_each_core i vd core plans stats :
  Forall plan_sound plans → length vd = MAX_VHOSTS → length core = MAX_VHOSTS →
  Forall (λ row, length row = MAX_VHOSTS) stats → length stats = length plans →
  ∃ plans', calculate_tx_from i (λ _, true) vd core plans = Ok plans' ∧ each_core Transmit i vd core plans stats plans'.
Proof.
  intros Hps Hv Hc. revert i stats. induction Hps as [|p plans Hp _ IH]; intros i [|row stats] Hss Hl; try done.
  { exists []. done. }
  apply Forall_cons in Hss as [Hrow Hss]. injection Hl as Hl. cbn [calculate_tx_from].
  destruct (calc_core_sound Transmit i vd core p row Hp Hv Hc Hrow) as (p' & Hp' & _). pose proof Hp' as Hcore.
  unfold calc_core in Hp'. rewrite Hp'. cbn [mbind res_bind].
  destruct (IH (S i) stats Hss Hl) as (plans' & -> & Heach). cbn [mbind res_bind].
  eexists. split; [done|]. by apply each_core_cons.
Qed.

Lemma recompute_each_core dir vd core plans stats :
  Forall plan_sound plans → length vd = MAX_VHOSTS → length core = MAX_VHOSTS →
  Forall (λ row, length row = MAX_VHOSTS) stats → length stats = length plans →
  ∃ plans', recompute dir stats (mk_sys vd plans core) = Ok plans' ∧ each_core dir 0 vd core plans stats plans'.
Proof.
  intros Hps Hv Hc Hss Hl. destruct dir; unfold recompute; cbn [sys_vdevs sys_core sys_plans].
  - destruct (rx_each_core 0 vd core plans stats Hps Hv Hc Hss Hl) as (plans' & stats' & E & Heach).
    unfold calculate_vhost_rx_plan. rewrite E. by exists plans'.
  - by apply tx_each_core.
Qed.

(** The accesses of the slow path for one core, and for all cores from [i] on, while the
    vhost thread is not about to delete. *)
Section calc_run.
Context (dir : direction) (ev : event_at) (Hev : ∀ v k, ev ≠ Found v k).

Lemma look_run vd plans core old i p :
  rtc (sound_access dir) (mk_steps vd plans core ev (CalcFill old i p [])) (mk_steps vd plans core ev (CalcFill old i p core)).
Proof.
  cut (∀ n, n ≤ length core → rtc (sound_access dir) (mk_steps vd plans core ev (CalcFill old i p []))
    (mk_steps vd plans core ev (CalcFill old i p (take n core)))).
  { intros Hn. specialize (Hn (length core)). rewrite firstn_all in Hn. by apply Hn. }
  induction n as [|n IH]; intros Hn; [by rewrite take_0|].
  destruct (lookup_lt_is_Some_2 core n) as [k Hk]; [lia|]. rewrite (take_S_r _ _ _ Hk).
  eapply rtc_r; [apply IH; lia|]. apply sound_if; [done|]. apply calc_look. by rewrite length_take_le by lia.
Qed.

Lemma core_run vd plans core old i p row p' :
  length core = MAX_VHOSTS → length row = MAX_VHOSTS → plans !! i = Some p → calc_core dir i old core p row = Ok (Some p') →
  rtc (sound_access dir) (mk_steps vd plans core ev (CalcAt old i)) (mk_steps vd (<[i := p']> plans) core ev (CalcAt old (S i))).
Proof.
  intros Hc Hr Hp Hcalc. eapply rtc_l; [apply sound_if; [done|by apply calc_load]|]. etrans; [apply look_run|].
  eapply rtc_l; [apply sound_if; [done|by eapply calc_done]|]. apply rtc_once, sound_if; [done|]. apply calc_swap.
Qed.

Lemma cores_run vd core stats plans plans' :
  length core = MAX_VHOSTS → Forall (λ row, length row = MAX_VHOSTS) stats → length stats = length plans →
  each_core dir 0 vd core plans stats plans' →
  rtc (sound_access dir) (mk_steps vd plans core ev CalcRest) (mk_steps vd plans' core ev CalcRest).
Proof.
  intros Hc Hss Hls [Hl Hk]. eapply rtc_l; [apply sound_if; [done|apply calc_start]|].
  cut (∀ n i, i + n = length plans → rtc (sound_access dir) (mk_steps vd (take i plans' ++ drop i plans) core ev (CalcAt vd i))
    (mk_steps vd plans' core ev CalcRest)); [intros Hn; by apply (Hn (length plans) 0)|].
  induction n as [|n IH]; intros i Hi.
  - rewrite firstn_all2, drop_ge, app_nil_r by lia. apply rtc_once, sound_if; [done|]. apply calc_end. lia.
  - destruct (lookup_lt_is_Some_2 plans i) as [p Hp]; [lia|]. destruct (lookup_lt_is_Some_2 stats i) as [row Hrow]; [lia|].
    destruct (Hk i p row Hp Hrow) as (p' & Hp' & Hcalc). rewrite (drop_S _ _ _ Hp).
    assert (length (take i plans') = i) as Hlt by (rewrite length_take; lia).
    etrans; [eapply (core_run _ _ _ _ _ p row p'); [done|exact (Forall_lookup_1 _ _ _ _ Hss Hrow)| |done]|].
    + rewrite lookup_app_r, Hlt, Nat.sub_diag by lia. done.
    + specialize (IH (S i) ltac:(lia)). rewrite (take_S_r _ _ _ Hp'), <- app_assoc in IH.
      rewrite insert_app_r_alt, Hlt, Nat.sub_diag by lia. exact IH.
Qed.
End calc_run.

(** The repaired plans of every core. *)
Lemma repaired dir vd core plans stats plans' :
  Forall plan_sound plans → length vd = MAX_VHOSTS → length core = MAX_VHOSTS →
  Forall (λ row, length row = MAX_VHOSTS) stats → length stats = length plans → each_core dir 0 vd core plans stats plans' →
  ∀ k p', plans' !! k = Some p' → ∃ p, plans !! k = Some p ∧ plan_wf p' ∧
    (∀ v, vm_live vd v → core !! v = Some k → v ∈ plan_list p') ∧
    (∀ v, v ∈ plan_list p' → vm_live vd v ∧ (core !! v = Some k ∨ v ∈ plan_list p ∧ kept dir stats k v)).
Proof.
  intros Hps Hv Hc Hss Hls [Hl Hk] k p' Hp'. pose proof (lookup_lt_Some _ _ _ Hp') as Hlt.
  destruct (lookup_lt_is_Some_2 plans k) as [p Hp]; [lia|]. destruct (lookup_lt_is_Some_2 stats k) as [row Hrow]; [lia|].
  exists p. split; [done|]. destruct (Hk k p row Hp Hrow) as (q & Hq & Hcalc). assert (q = p') as -> by congruence.
  destruct (calc_core_sound dir k vd core p row) as (new & Hnew & Hwf & Hin & Hout); [by eapply Forall_lookup_1|done|done|exact (Forall_lookup_1 _ _ _ _ Hss Hrow)|].
  cbn [Nat.add] in Hcalc. assert (new = p') as -> by congruence. split_and!; [done|done|]. intros v Hvin.
  destruct (Hout v Hvin) as (Hlive & [?|[Hin' Ht]]); [tauto|]. split; [done|]. right. split; [done|].
  destruct dir; [|done]. destruct (Ht eq_refl) as (st & Hst & Hno). by exists row, st.
Qed.

Lemma repaired_homed dir vd core plans stats plans' n :
  Forall plan_sound plans → length vd = MAX_VHOSTS → length core = MAX_VHOSTS → Forall (λ k, k < n) core → length plans = n →
  Forall (λ row, length row = MAX_VHOSTS) stats → length stats = length plans → each_core dir 0 vd core plans stats plans' →
  (∀ k p v, plans !! k = Some p → v ∈ plan_list p → core !! v ≠ Some k → ¬ kept dir stats k v) →
  homed (mk_sys vd plans' core).
Proof.
  intros Hps Hv Hc Hcn Hn Hss Hls Heach Haway. pose proof (repaired _ _ _ _ _ _ Hps Hv Hc Hss Hls Heach) as Hrep.
  unfold homed. cbn [sys_vdevs sys_plans sys_core]. split_and!; [done|done| | |].
  - apply Forall_lookup. intros k p' Hp'. by destruct (Hrep k p' Hp') as (p & _ & Hwf & _).
  - intros k p' v Hp'. destruct (Hrep k p' Hp') as (p & Hp & _ & Hin & Hout). split; [|intros [? ?]; by apply Hin].
    intros Hvin. destruct (Hout v Hvin) as (Hlive & Hcase). split; [done|].
    destruct (decide (core !! v = Some k)) as [|Hne]; [done|]. destruct Hcase as [?|[Hl Hk]]; [done|].
    by destruct (Haway k p v Hp Hl Hne).
  - intros v [d Hd]. pose proof (lookup_lt_Some _ _ _ Hd). destruct (lookup_lt_is_Some_2 core v) as [k Hk]; [lia|].
    exists k. split; [done|]. destruct Heach as [Hl _]. rewrite Hl, Hn. by apply (Forall_lookup_1 _ _ _ _ Hcn Hk).
Qed.

(** ** Lemmas: device events that nothing disturbs *)

Lemma select_run dir vd plans core ca v rest : ∀ i m c, drop i plans = rest → i ≤ length plans →
  rtc (access dir) (mk_steps vd plans core (Selecting v i m c) ca)
    (mk_steps vd plans core (match min_core rest i m c with Some k => Chosen v k | None => AtRest end) ca).
Proof.
  induction rest as [|p rest IH]; intros i m c Hd Hi; cbn [min_core].
  - apply rtc_once, selected. apply (f_equal length) in Hd. rewrite length_drop in Hd. cbn in Hd. lia.
  - assert (plans !! i = Some p) as Hp by (rewrite <- (Nat.add_0_r i), <- lookup_drop, Hd; done).
    pose proof (lookup_lt_Some _ _ _ Hp). rewrite (drop_S _ _ _ Hp) in Hd. injection Hd as Hd.
    eapply rtc_l; [by apply (select _ _ _ _ _ _ _ _ _ p)|]. destruct (_ <? _)%Z; apply IH; (done || lia).
Qed.

(** Adding a VM is what [plan_add] does, in one step. *)
Lemma attach_run dir vd plans core ca v d alloc r plans' core' :
  vd !! v = Some None → plan_add v alloc plans core = Ok (r, plans', core') →
  rtc (access dir) (mk_steps vd plans core AtRest ca) (mk_steps (<[v := Some d]> vd) plans' core' AtRest ca).
Proof.
  intros Hv Hadd. eapply rtc_l; [by apply (publish _ _ _ _ _ v d)|].
  etrans; [by apply (select_run _ _ plans _ _ _ plans); [|lia]|]. unfold plan_add, select_core in Hadd.
  destruct (min_core plans 0 (Z.of_nat MAX_VHOSTS) None) as [k|]; [|by simplify_eq].
  bind_step Hadd as o Eo. eapply rtc_l; [by eapply push|].
  destruct o as [ps|]; [|by simplify_eq]. bind_step Hadd as c Ec. simplify_eq. by apply rtc_once, record_core.
Qed.

Lemma find_run dir vd plans core ca v rest o : ∀ i, drop i plans = rest → i ≤ length plans → find_core v rest i = Ok o →
  rtc (access dir) (mk_steps vd plans core (Finding v i) ca)
    (mk_steps vd plans core (match o with Some k => Found v k | None => AtRest end) ca).
Proof.
  induction rest as [|p rest IH]; intros i Hd Hi Ho; cbn [find_core] in Ho.
  - injection Ho as <-. apply rtc_once, not_found. apply (f_equal length) in Hd. rewrite length_drop in Hd. cbn in Hd. lia.
  - assert (plans !! i = Some p) as Hp by (rewrite <- (Nat.add_0_r i), <- lookup_drop, Hd; done).
    pose proof (lookup_lt_Some _ _ _ Hp). rewrite (drop_S _ _ _ Hp) in Hd. injection Hd as Hd.
    bind_step Ho as b Eb. eapply rtc_l; [by eapply look_up|]. destruct b; [by simplify_eq|]. apply IH; (done || lia).
Qed.

(** Removing a VM is what [plan_remove] does. *)
Lemma detach_run dir vd plans core ca v d alloc r plans' core' :
  vd !! v = Some (Some d) → plan_remove v alloc plans core = Ok (r, plans', core') →
  rtc (access dir) (mk_steps vd plans core AtRest ca) (mk_steps (<[v := None]> vd) plans' core' AtRest ca).
Proof.
  intros Hv Hrem. eapply rtc_l; [by eapply withdraw|]. unfold plan_remove in Hrem. bind_step Hrem as oi Eo.
  etrans; [by apply (find_run _ _ plans _ _ _ plans oi); [|lia|]|]. destruct oi as [k|]; [|by simplify_eq].
  bind_step Hrem as o Ed. eapply rtc_l; [by eapply delete_vid|].
  destruct o as [ps|]; [|by simplify_eq]. bind_step Hrem as c Ec. simplify_eq. by apply rtc_once, forget_core.
Qed.

(** ** A VM on two cores

    VM 1 attaches on a host with two receiving cores; the slow path recomputes the plan of
    core 0 before the search looks at it. *)

Definition shared_vdevs : list (option nat) := demo_vdevs [None; Some 101].
Definition shared_vm : steps := mk_steps shared_vdevs [demo_plan [1]; demo_plan [1]] (demo_core [0; 1]) AtRest CalcRest.
Definition idle_row : list vdev_rx_stats := replicate MAX_VHOSTS (demo_stats 0).

Lemma shared_vm_run : rtc (sound_access Receive) (steps_init 2) shared_vm.
Proof.
  assert (each_core Receive 0 shared_vdevs (demo_core []) [demo_plan []; demo_plan []] [idle_row; idle_row] [demo_plan [1]; demo_plan []])
    as Heach.
  { split; [done|]. intros [|[|k]] p row Hp Hrow; cbn in Hp, Hrow; simplify_eq; eexists; (split; [reflexivity|vm_compute; reflexivity]). }
  eapply rtc_l; [apply sound_if; [done|by apply (publish _ _ _ _ _ 1 101)]|].
  etrans; [apply (cores_run Receive (Selecting 1 0 64 None) ltac:(done) _ _ [idle_row; idle_row] _ [demo_plan [1]; demo_plan []]); [done|by repeat constructor|done|exact Heach]|].
  eapply rtc_l; [apply sound_if; [done|by eapply (select _ _ _ _ _ _ _ _ _ (demo_plan [1]))]|].
  eapply rtc_l; [apply sound_if; [done|by eapply (select _ _ _ _ _ _ _ _ _ (demo_plan []))]|].
  eapply rtc_l; [apply sound_if; [done|by apply selected]|].
  eapply rtc_l; [apply sound_if; [done|by eapply (push _ _ _ _ _ _ _ true (Some [demo_plan [1]; demo_plan [1]]))]|].
  apply rtc_once, sound_if; [done|]. by eapply record_core.
Qed.

(** ** Properties *)

(** [C25] From start-up, under any interleaving of the accesses of the two threads in which no
    entry is taken out of an empty plan, neither thread ever faults: each can take its next
    step.  And however stale the values were that they used, when no device event is
    under way the next recomputation repairs the plans: it ends, and then every live VM is in
    the plan of its home core; another core lists it only if it did before and, in the
    receive direction, has seen its traffic in the last window; where no core keeps a VM
    that is not its own, the plans partition the live VMs again.  Run access by access, the
    slow path computes the same. *)
Theorem recomputation_repairs (dir : direction) (cores : nat) (s : steps) (stats : list (list vdev_rx_stats)) :
  0 < cores → rtc (sound_access dir) (steps_init cores) s →
  length stats = cores → Forall (λ row, length row = MAX_VHOSTS) stats →
  (st_event s ≠ AtRest → ¬ underflows s → ∃ s', access dir s s' ∧ st_event s' ≠ st_event s) ∧
  (st_calc s ≠ CalcRest → ∃ s', access dir s s' ∧ st_calc s' ≠ st_calc s) ∧
  (st_event s = AtRest → st_calc s = CalcRest → ∃ plans', recompute dir stats (steps_sys s) = Ok plans' ∧
    rtc (sound_access dir) s (mk_steps (st_vdevs s) plans' (st_core s) AtRest CalcRest) ∧
    (∀ v, vm_live (st_vdevs s) v → ∃ k p', st_core s !! v = Some k ∧ plans' !! k = Some p' ∧ v ∈ plan_list p') ∧
    (∀ k p' v, plans' !! k = Some p' → v ∈ plan_list p' → vm_live (st_vdevs s) v ∧
       (st_core s !! v = Some k ∨ ∃ p, st_plans s !! k = Some p ∧ v ∈ plan_list p ∧ kept dir stats k v)) ∧
    ((∀ k p v, st_plans s !! k = Some p → v ∈ plan_list p → st_core s !! v ≠ Some k → ¬ kept dir stats k v) →
       homed (mk_sys (st_vdevs s) plans' (st_core s)))).
Proof.
  intros Hn Hrun Hls Hss. pose proof (steps_inv_run dir cores _ s Hn (steps_inv_init cores Hn) Hrun) as Hinv.
  split; [by eapply event_progress|]. split; [by eapply calc_progress|]. intros Hev Hca.
  destruct Hinv as (Hv & Hc & Hcn & Hl & Hps & _). destruct s as [vd plans core ev ca]. cbn in *. subst ev ca.
  assert (length stats = length plans) as Hlp by lia.
  destruct (recompute_each_core dir vd core plans stats Hps Hv Hc Hss Hlp) as (plans' & Hrec & Heach).
  pose proof (repaired _ _ _ _ _ _ Hps Hv Hc Hss Hlp Heach) as Hrep. exists plans'. split_and!; [done| | | |].
  - by eapply cores_run.
  - intros v Hlive. pose proof Hlive as [d Hd]. pose proof (lookup_lt_Some _ _ _ Hd).
    destruct (lookup_lt_is_Some_2 core v) as [k Hk]; [lia|]. pose proof (Forall_lookup_1 _ _ _ _ Hcn Hk) as Hkn. cbn in Hkn.
    destruct (lookup_lt_is_Some_2 plans' k) as [p' Hp']; [destruct Heach as [-> _]; lia|]. exists k, p'.
    split_and!; [done|done|]. destruct (Hrep k p' Hp') as (_ & _ & _ & Hin & _). by apply Hin.
  - intros k p' v Hp' Hvin. destruct (Hrep k p' Hp') as (p & Hp & _ & _ & Hout). destruct (Hout v Hvin) as (? & [?|[? ?]]); [by auto|].
    split; [done|]. right. by exists p.
  - by eapply repaired_homed.
Qed.

(** In the receive direction the duplicate of [PlanRace.add_race_duplicates_vm] may stay as
    well: a recomputation between the publication of VM 1 and the search lists it on core
    0, the search prefers core 1, and as long as core 0 finds the VM busy, whose packets
    the two cores then share, no recomputation takes it out. *)
Theorem receive_race_shares_vm :
  ∃ s, rtc (sound_access Receive) (steps_init 2) s ∧ st_event s = AtRest ∧ st_calc s = CalcRest ∧
    vm_live (st_vdevs s) 1 ∧ st_core s !! 1 = Some 1 ∧ st_plans s = [demo_plan [1]; demo_plan [1]] ∧
    ∀ row0 row1 st, length row0 = MAX_VHOSTS → length row1 = MAX_VHOSTS → row0 !! 1 = Some st → is_busy st = true →
      ∃ plans', recompute Receive [row0; row1] (steps_sys s) = Ok plans' ∧ in_two_plans 1 plans'.
Proof.
  exists shared_vm. split; [exact shared_vm_run|]. do 4 (split; [done || by exists 101|]).
  split; [reflexivity|]. intros row0 row1 st H0 H1 Hst Hb. unfold recompute.
  destruct (calculate_rx_from_spec 0 (λ _, true) shared_vdevs (demo_core [0; 1]) [demo_plan [1]; demo_plan [1]] [row0; row1])
    as (plans' & stats' & E & _ & _ & Hk); [refine (bool_decide_unpack _ _); vm_compute; exact I|done|done|by repeat constructor|done|].
  unfold calculate_vhost_rx_plan. change (sys_vdevs _) with shared_vdevs.
  change (sys_core _) with (demo_core [0; 1]). change (sys_plans _) with [demo_plan [1]; demo_plan [1]]. rewrite E. exists plans'. split; [done|].
  destruct (Hk 0 (demo_plan [1]) row0 eq_refl eq_refl) as (p & _ & Hp & _ & [_ Hlp] & _).
  destruct (Hk 1 (demo_plan [1]) row1 eq_refl eq_refl) as (q & _ & Hq & _ & [_ Hlq] & _).
  exists 0, 1, p, q. split_and!; [done|done|done| |].
  - cbn [seq forallb andb Nat.add] in Hlp. rewrite Hlp. apply elem_of_spec_fill. split; [unfold MAX_VHOSTS; lia|]. left.
    split; [refine (bool_decide_unpack _ _); vm_compute; exact I|]. split; [by exists 101|]. rewrite Hst. cbn. by rewrite Hb.
  - cbn [seq forallb andb Nat.add] in Hlq. rewrite Hlq. apply elem_of_spec_fill. split; [unfold MAX_VHOSTS; lia|]. right. split; [by exists 101|done].
Qed.

(** ** Witness *)

(** The VM that two cores share is with its home core alone once it is idle. *)
Lemma recomputation_repairs_witness :
  ∃ s plans', rtc (sound_access Receive) (steps_init 2) s ∧ in_two_plans 1 (st_plans s) ∧
    recompute Receive [idle_row; idle_row] (steps_sys s) = Ok plans' ∧ homed (mk_sys (st_vdevs s) plans' (st_core s)) ∧
    plan_list <$> plans' = [[]; [1]].
Proof.
  destruct (recomputation_repairs Receive 2 shared_vm [idle_row; idle_row] ltac:(lia) shared_vm_run eq_refl ltac:(by repeat constructor))
    as (_ & _ & Hrep).
  destruct (Hrep eq_refl eq_refl) as (plans' & E & _ & _ & _ & Hhome). exists shared_vm, plans'.
  split; [exact shared_vm_run|]. split.
  { exists 0, 1, (demo_plan [1]), (demo_plan [1]). split_and!; try done; refine (bool_decide_unpack _ _); vm_compute; exact I. }
  split; [exact E|]. split.
  - apply Hhome. intros k p v _ _ _ (row & st & Hrow & Hst & Hno). apply Hno.
    assert (row = idle_row) as -> by (destruct k as [|[|k]]; cbn in Hrow; by simplify_eq).
    unfold idle_row in Hst. apply lookup_replicate in Hst as [-> _]. split; by apply Forall_replicate.
  - vm_compute in E. injection E as <-. reflexivity.
Defined.
