(* ===== verification/PlanCas.v ===== *)
(** * src/vhost/plan.c, src/slow/slowpath.c: publishing and freeing a plan

    The plan of one core behind its atomic pointer, at the level of memory.  Three threads
    meet there: the vhost core loads the pointer and walks the plan; DPDK's vhost thread
    loads it, copies the plan, changes the copy and publishes it by compare-and-swap, and
    tries again when that fails; the slow path reads the plan, exchanges the pointer for
    a new plan and frees the one it got back.  Each access to the pointer, each entry read
    and each allocation is a step.  [Plan] and [PlanRace] take the successful attempt of
    the loop for one atomic update of the plan; here that is a theorem, for a slow path
    that waits until nobody holds what it frees.  The one of the program does not wait. *)

From S2P Require Import Prelude CInt Poll Plan.

(** ** The attempts of vhost_xx_plan_add and vhost_xx_plan_remove

    What one attempt makes of the plan it loaded: [None] is a -1 return. *)

Definition attempt_add (vid : nat) (old : vhost_plan) : res (option vhost_plan) :=
  if (Z.of_nat MAX_VHOSTS <=? plan_num old)%Z then Ok None
  else new ← plan_push vid old; Ok (Some new).

Definition attempt_remove (vid : nat) (old : vhost_plan) : res (option vhost_plan) :=
  new ← plan_delete vid old; Ok (Some new).

(** ** The state *)

(** Where the vhost core is: in the plan at [p], with the vids read so far. *)
Inductive core_pc := CoreIdle | CoreIn (p : nat) (seen : list nat).

(** The slow path: it has read a plan and computed [new]; it has exchanged the pointer. *)
Inductive slow_pc := SlowIdle | SlowRead (new : vhost_plan) | SlowFree (old : nat).

(** The vhost thread: it has loaded the pointer; it has a changed copy at [n]. *)
Inductive thread_pc := ThreadIdle | ThreadLoaded (o : nat) | ThreadCopied (o n : nat).

(** [history] are the plans published so far, oldest first, and [passes] the vids of the
    core's finished passes; the program stores neither. *)
Record pub_state := mk_pub {
  allocated : gmap nat vhost_plan;
  published : nat;
  core_at : core_pc;
  slow_at : slow_pc;
  thread_at : thread_pc;
  history : list vhost_plan;
  passes : list (list nat);
}.

Definition pub_start (pl : vhost_plan) : pub_state := mk_pub {[0 := pl]} 0 CoreIdle SlowIdle ThreadIdle [pl] [].

(** Does the core or the vhost thread hold the pointer [o]? *)
Definition held (s : pub_state) (o : nat) : Prop :=
  (∃ seen, core_at s = CoreIn o seen) ∨ thread_at s = ThreadLoaded o ∨ ∃ n, thread_at s = ThreadCopied o n.

Section publish.
Context (attempt : vhost_plan → res (option vhost_plan)) (recompute : vhost_plan → vhost_plan → Prop).

(** [waits] tells whether the slow path waits before it frees; a compare-and-swap may fail
    for no reason, and so may the allocation of a new plan, on either side. *)
Inductive pub_step (waits : bool) : pub_state → pub_state → Prop :=
  | core_enter a p sl th h ps :
      pub_step waits (mk_pub a p CoreIdle sl th h ps) (mk_pub a p (CoreIn p []) sl th h ps)
  | core_entry a p q seen pl v sl th h ps :
      a !! q = Some pl → (Z.of_nat (length seen) < plan_num pl)%Z → plan_vids pl !! length seen = Some v →
      pub_step waits (mk_pub a p (CoreIn q seen) sl th h ps) (mk_pub a p (CoreIn q (seen ++ [v])) sl th h ps)
  | core_leave a p q seen pl sl th h ps :
      a !! q = Some pl → (plan_num pl ≤ Z.of_nat (length seen))%Z →
      pub_step waits (mk_pub a p (CoreIn q seen) sl th h ps) (mk_pub a p CoreIdle sl th h (ps ++ [seen]))
  | slow_read a p co th h ps pl new :
      a !! p = Some pl → recompute pl new →
      pub_step waits (mk_pub a p co SlowIdle th h ps) (mk_pub a p co (SlowRead new) th h ps)
  | slow_swap a p co th h ps new n :
      a !! n = None →
      pub_step waits (mk_pub a p co (SlowRead new) th h ps) (mk_pub (<[n := new]> a) n co (SlowFree p) th (h ++ [new]) ps)
  | slow_free a p co th h ps o :
      (waits = true → ¬ held (mk_pub a p co (SlowFree o) th h ps) o) →
      pub_step waits (mk_pub a p co (SlowFree o) th h ps) (mk_pub (delete o a) p co SlowIdle th h ps)
  | thread_load a p co sl h ps :
      pub_step waits (mk_pub a p co sl ThreadIdle h ps) (mk_pub a p co sl (ThreadLoaded p) h ps)
  | thread_refuse a p co sl h ps o pl :
      a !! o = Some pl → attempt pl = Ok None →
      pub_step waits (mk_pub a p co sl (ThreadLoaded o) h ps) (mk_pub a p co sl ThreadIdle h ps)
  | thread_copy a p co sl h ps o pl new n :
      a !! o = Some pl → attempt pl = Ok (Some new) → a !! n = None →
      pub_step waits (mk_pub a p co sl (ThreadLoaded o) h ps) (mk_pub (<[n := new]> a) p co sl (ThreadCopied o n) h ps)
  | thread_swap a co sl h ps o n new :
      a !! n = Some new →
      pub_step waits (mk_pub a o co sl (ThreadCopied o n) h ps) (mk_pub a n co sl ThreadIdle (h ++ [new]) ps)
  | thread_retry a p co sl h ps o n :
      pub_step waits (mk_pub a p co sl (ThreadCopied o n) h ps) (mk_pub (delete n a) p co sl (ThreadLoaded p) h ps)
  | thread_nomem a p co sl h ps o :
      pub_step waits (mk_pub a p co sl (ThreadLoaded o) h ps) (mk_pub a p co sl ThreadIdle h ps)
  | slow_nomem a p co th h ps new :
      pub_step waits (mk_pub a p co (SlowRead new) th h ps) (mk_pub a p co SlowIdle th h ps).

(** ** Specification *)

(** The core or the vhost thread is about to read a plan that was freed. *)
Definition use_after_free (s : pub_state) : Prop :=
  (∃ p seen, core_at s = CoreIn p seen ∧ allocated s !! p = None) ∨
  (∃ o, thread_at s = ThreadLoaded o ∧ allocated s !! o = None).

(** What is published in [s]. *)
Definition current (s : pub_state) : option vhost_plan := last (history s).

Definition core_ok (s : pub_state) : Prop :=
  match core_at s with
  | CoreIdle => True
  | CoreIn p seen => ∃ pl, allocated s !! p = Some pl ∧ pl ∈ history s ∧ seen `prefix_of` plan_list pl
  end.

Definition slow_ok (s : pub_state) : Prop :=
  match slow_at s with
  | SlowIdle => True
  | SlowRead new => ∃ pl, pl ∈ history s ∧ recompute pl new
  | SlowFree o => o ≠ published s ∧ is_Some (allocated s !! o)
  end.

Definition thread_ok (s : pub_state) : Prop :=
  match thread_at s with
  | ThreadIdle => True
  | ThreadLoaded o => is_Some (allocated s !! o)
  | ThreadCopied o n =>
      (∃ pl new, allocated s !! o = Some pl ∧ attempt pl = Ok (Some new) ∧ allocated s !! n = Some new) ∧
      n ≠ o ∧ n ≠ published s ∧ slow_at s ≠ SlowFree n ∧ ∀ seen, core_at s ≠ CoreIn n seen
  end.

Definition pub_inv (s : pub_state) : Prop :=
  (∃ pl, allocated s !! published s = Some pl ∧ current s = Some pl) ∧
  core_ok s ∧ slow_ok s ∧ thread_ok s ∧
  Forall (λ pass, ∃ pl, pl ∈ history s ∧ pass = plan_list pl) (passes s) ∧
  Forall plan_shape (history s).

(** ** Lemmas: the invariant *)

Context (Hattempt : ∀ pl new, plan_shape pl → attempt pl = Ok (Some new) → plan_shape new).
Context (Hrecompute : ∀ pl new, plan_shape pl → recompute pl new → plan_shape new).

Lemma last_in (h : list vhost_plan) pl : last h = Some pl → pl ∈ h.
Proof. apply last_Some_elem_of. Qed.

Lemma fresh_keep (a : gmap nat vhost_plan) n new p pl : a !! n = None → a !! p = Some pl → <[n := new]> a !! p = Some pl.
Proof. intros Hn Hp. rewrite lookup_insert_ne; [done|]. congruence. Qed.

Lemma fresh_keep_is (a : gmap nat vhost_plan) n new p : a !! n = None → is_Some (a !! p) → is_Some (<[n := new]> a !! p).
Proof. intros Hn [pl Hp]. exists pl. by apply fresh_keep. Qed.

Lemma delete_keep (a : gmap nat vhost_plan) n p pl : n ≠ p → a !! p = Some pl → delete n a !! p = Some pl.
Proof. intros Hn Hp. by rewrite lookup_delete_ne. Qed.

Lemma delete_keep_is (a : gmap nat vhost_plan) n p : n ≠ p → is_Some (a !! p) → is_Some (delete n a !! p).
Proof. intros Hn [pl Hp]. exists pl. by apply delete_keep. Qed.

Lemma seen_snoc pl seen v : plan_shape pl →
  (Z.of_nat (length seen) < plan_num pl)%Z → plan_vids pl !! length seen = Some v →
  seen `prefix_of` plan_list pl → seen ++ [v] `prefix_of` plan_list pl.
Proof.
  intros Hs Hlt Hv [k Hk]. assert (plan_list pl !! length seen = Some v) as Hl.
  { unfold plan_list. rewrite lookup_take_lt by lia. done. }
  rewrite Hk, lookup_app_r, Nat.sub_diag in Hl by lia. destruct k as [|w k]; [done|]. injection Hl as ->.
  exists k. rewrite Hk. by rewrite <- app_assoc.
Qed.

Lemma seen_all pl seen : plan_shape pl → (plan_num pl ≤ Z.of_nat (length seen))%Z →
  seen `prefix_of` plan_list pl → seen = plan_list pl.
Proof.
  intros Hs Hle [k Hk]. pose proof (length_plan_list pl Hs) as Hl. rewrite Hk, length_app in Hl.
  destruct k as [|w k]; [by rewrite app_nil_r in Hk|]. cbn in Hl. lia.
Qed.

Lemma pub_inv_start pl : plan_shape pl → pub_inv (pub_start pl).
Proof.
  intros Hs. unfold pub_inv, pub_start, current. cbn. split_and!; try done.
  - exists pl. by rewrite lookup_singleton_eq.
  - by apply Forall_singleton.
Qed.

Lemma core_ok_history a p co sl th h new ps : core_ok (mk_pub a p co sl th h ps) → core_ok (mk_pub a p co sl th (h ++ [new]) ps).
Proof.
  unfold core_ok. cbn. destruct co as [|q seen]; [done|]. intros (pl & Hq & Hin & Hpre). exists pl. split_and!; try done.
  apply elem_of_app. by left.
Qed.

Lemma passes_history h new ps : Forall (λ pass, ∃ pl, pl ∈ h ∧ pass = plan_list pl) ps →
  Forall (λ pass, ∃ pl, pl ∈ h ++ [new] ∧ pass = plan_list pl) ps.
Proof. intros Hps. eapply Forall_impl; [exact Hps|]. intros pass (pl & Hin & ->). exists pl. split; [|done]. apply elem_of_app. by left. Qed.

Lemma pub_inv_core waits s s' : pub_inv s → pub_step waits s s' → core_at s ≠ core_at s' → pub_inv s'.
Proof.
  intros (Hp & Hc & Hsl & Ht & Hps & Hh) Hstep Hne.
  destruct Hstep; unfold pub_inv, core_ok, slow_ok, thread_ok, current in *; cbn in *; try done.
  - destruct Hp as (pl & Hp & Hl). split_and!; try done.
    + by exists pl.
    + exists pl. split_and!; [done|by apply last_in|apply prefix_nil].
    + destruct th as [| |o n]; try done. destruct Ht as (Hon & ? & ? & ? & _). split_and!; try done. intros seen [= ->]; done.
  - destruct Hc as (pl' & Hq & Hin & Hpre). assert (pl' = pl) as -> by congruence.
    pose proof Hh as Hsh. rewrite Forall_forall in Hsh. split_and!; try done.
    + exists pl. split_and!; try done. by apply seen_snoc; [apply Hsh|..].
    + destruct th as [| |o n]; try done. destruct Ht as (Hon & ? & ? & ? & Hs). split_and!; try done. intros seen' [= -> _]. by eapply Hs.
  - destruct Hc as (pl' & Hq & Hin & Hpre). assert (pl' = pl) as -> by congruence.
    pose proof Hh as Hsh. rewrite Forall_forall in Hsh. split_and!; try done.
    + destruct th as [| |o n]; try done. destruct Ht as (Hon & ? & ? & ? & _). by split_and!.
    + apply Forall_app. split; [done|]. apply Forall_singleton. exists pl. split; [done|]. by apply seen_all; [apply Hsh|..].
Qed.

Lemma pub_inv_slow s s' : pub_inv s → pub_step true s s' → slow_at s ≠ slow_at s' → pub_inv s'.
Proof.
  intros (Hp & Hc & Hsl & Ht & Hps & Hh) Hstep Hne. destruct Hp as (pl0 & Hp & Hl). pose proof Hh as Hsh. rewrite Forall_forall in Hsh.
  destruct Hstep; try done; unfold pub_inv, slow_ok, thread_ok, current in *; cbn in *.
  - split_and!; try done.
    + by exists pl0.
    + exists pl. split; [|done]. assert (pl = pl0) as -> by congruence. by apply last_in.
    + destruct th as [| |o n]; try done. destruct Ht as (Hon & ? & ? & _ & ?). by split_and!.
  - destruct Hsl as (pl & Hin & Hrec). split_and!.
    + exists new. by rewrite lookup_insert_eq, last_snoc.
    + apply core_ok_history. unfold core_ok in *. cbn in *. destruct co as [|q seen]; [done|]. destruct Hc as (plq & Hq & ?).
      exists plq. split; [by apply fresh_keep|done].
    + congruence.
    + apply fresh_keep_is; [done|]. by exists pl0.
    + destruct th as [|o|o n']; [done|by apply fresh_keep_is|]. destruct Ht as ((plo & new' & Ho & Ha & Hn) & ? & ? & _ & ?).
      split_and!; try done; [|congruence|by intros [= ->]]. exists plo, new'. split_and!; try done; by apply fresh_keep.
    + by apply passes_history.
    + apply Forall_app. split; [done|]. apply Forall_singleton. eapply Hrecompute; [by apply Hsh|done].
  - destruct Hsl as (Hop & Ho). rename H into Hheld. specialize (Hheld eq_refl). split_and!; try done.
    + exists pl0. split; [by apply delete_keep|done].
    + unfold core_ok in *. cbn in *. destruct co as [|q seen]; [done|]. destruct Hc as (plq & Hq & ?).
      exists plq. split; [|done]. apply delete_keep; [|done]. intros ->. apply Hheld. left. by exists seen.
    + destruct th as [|o'|o' n]; [done| |].
      * apply delete_keep_is; [|done]. intros ->. apply Hheld. by right; left.
      * destruct Ht as ((plo & new' & Ho' & Ha & Hn) & ? & ? & Hsn & ?). split_and!; try done.
        exists plo, new'. split_and!; try done; apply delete_keep; try done; intros ->; [|done].
        apply Hheld. right; right. by exists n.
  - split_and!; try done; [by exists pl0|]. destruct th as [| |o n]; try done. destruct Ht as (? & ? & ? & _ & ?). by split_and!.
Qed.

Lemma pub_inv_thread waits s s' : pub_inv s → pub_step waits s s' → thread_at s ≠ thread_at s' → pub_inv s'.
Proof.
  intros (Hp & Hc & Hsl & Ht & Hps & Hh) Hstep Hne. destruct Hp as (pl0 & Hp & Hl). pose proof Hh as Hsh. rewrite Forall_forall in Hsh.
  destruct Hstep; try done; unfold pub_inv, slow_ok, thread_ok, current in *; cbn in *.
  - split_and!; try done; by exists pl0.
  - split_and!; try done. by exists pl0.
  - rename H into Ho, H0 into Ha, H1 into Hn. split_and!; try done.
    + exists pl0. split; [by apply fresh_keep|done].
    + unfold core_ok in *. cbn in *. destruct co as [|q seen]; [done|]. destruct Hc as (plq & Hq & ?).
      exists plq. split; [by apply fresh_keep|done].
    + destruct sl; try done. destruct Hsl. split; [done|by apply fresh_keep_is].
    + exists pl, new. split_and!; [by apply fresh_keep|done|by rewrite lookup_insert_eq].
    + congruence.
    + congruence.
    + intros ->. destruct Hsl as [_ [??]]. congruence.
    + intros seen ->. unfold core_ok in Hc. cbn in Hc. destruct Hc as (plq & Hq & _). congruence.
  - destruct Ht as ((plo & new' & Ho' & Ha & Hn) & Hno & _ & Hsn & Hcn). rename H into Hn'. assert (new' = new) as -> by congruence.
    split_and!.
    + exists new. by rewrite last_snoc.
    + by apply core_ok_history.
    + destruct sl as [|new'|o']; [done| |]; [|destruct Hsl; split; [congruence|done]].
      destruct Hsl as (plr & Hin & Hr). exists plr. split; [|done]. apply elem_of_app. by left.
    + done.
    + by apply passes_history.
    + apply Forall_app. split; [done|]. apply Forall_singleton. eapply Hattempt; [|done]. assert (plo = pl0) as -> by congruence.
      apply Hsh. by apply last_in.
  - destruct Ht as (_ & Hno & Hnp & Hsn & Hcn). split_and!; try done.
    + exists pl0. split; [by apply delete_keep|done].
    + unfold core_ok in *. cbn in *. destruct co as [|q seen]; [done|]. destruct Hc as (plq & Hq & ?).
      exists plq. split; [|done]. apply delete_keep; [|done]. intros ->. by apply (Hcn seen).
    + destruct sl as [| |o']; try done. destruct Hsl. split; [done|]. apply delete_keep_is; [|done]. intros ->. by apply Hsn.
    + exists pl0. by apply delete_keep.
  - split_and!; try done. by exists pl0.
Qed.

Lemma pub_inv_step s s' : pub_inv s → pub_step true s s' → pub_inv s'.
Proof.
  intros Hinv Hstep. assert (core_at s ≠ core_at s' ∨ slow_at s ≠ slow_at s' ∨ thread_at s ≠ thread_at s') as [?|[?|?]].
  { destruct Hstep; cbn; try (by left); try (by right; left); try (by right; right). left. intros [= E].
    apply (f_equal length) in E. rewrite length_app in E. cbn in E. lia. }
  - by eapply pub_inv_core.
  - by eapply pub_inv_slow.
  - by eapply pub_inv_thread.
Qed.

Lemma pub_inv_run s s' : pub_inv s → rtc (pub_step true) s s' → pub_inv s'.
Proof. intros Hinv Hrun. induction Hrun as [|s1 s2 s3 Hs _ IH]; [done|]. by apply IH, (pub_inv_step s1). Qed.

(** ** Properties of the protocol *)

(** [C23] Publication when the slow path waits before it frees.  In every reachable state, in
    any interleaving of the accesses of the three threads, nobody reads freed memory; a
    pass of the core saw all entries of one plan that was published as a whole, in order,
    and the core can always go on.  Every step either leaves the published plan alone, or
    publishes what the vhost thread makes of the very plan that is published at that
    moment, so its load, copy and compare-and-swap are one atomic update and the
    attempts that fail are no updates, or publishes what the slow path computed from a
    plan that was published, not necessarily the last one. *)
Theorem publication_refines (pl : vhost_plan) (s : pub_state) :
  plan_shape pl → rtc (pub_step true) (pub_start pl) s →
  ¬ use_after_free s ∧
  (∀ pass, pass ∈ passes s → ∃ old, old ∈ history s ∧ pass = plan_list old) ∧
  (core_at s ≠ CoreIdle → ∃ s', pub_step true s s' ∧ core_at s' ≠ core_at s) ∧
  ∀ s', pub_step true s s' → history s' = history s ∨
    (∃ old new, current s = Some old ∧ attempt old = Ok (Some new) ∧ history s' = history s ++ [new] ∧ slow_at s' = slow_at s) ∨
    (∃ old new, old ∈ history s ∧ recompute old new ∧ history s' = history s ++ [new] ∧ thread_at s' = thread_at s).
Proof.
  intros Hs Hrun. pose proof (pub_inv_run _ _ (pub_inv_start pl Hs) Hrun) as (Hp & Hc & Hsl & Ht & Hps & Hh). split_and!.
  - intros [(p & seen & E & Hn)|(o & E & Hn)].
    + unfold core_ok in Hc. rewrite E in Hc. destruct Hc as (q & Hq & _). congruence.
    + unfold thread_ok in Ht. rewrite E, Hn in Ht. by destruct Ht.
  - rewrite Forall_forall in Hps. exact Hps.
  - intros Hne. destruct s as [a p co sl th h ps]. cbn in *. destruct co as [|q seen]; [done|].
    unfold core_ok in Hc. cbn in Hc. destruct Hc as (plq & Hq & Hin & Hpre). rewrite Forall_forall in Hh. specialize (Hh _ Hin).
    destruct (Z_lt_dec (Z.of_nat (length seen)) (plan_num plq)) as [Hlt|Hge].
    + destruct (lookup_lt_is_Some_2 (plan_vids plq) (length seen)) as [v Hv]; [destruct Hh; lia|].
      eexists. split; [by eapply core_entry|]. cbn. intros [= E]. apply (f_equal length) in E. rewrite length_app in E. cbn in E. lia.
    + eexists. split; [eapply core_leave; [done|lia]|done].
  - intros s' Hstep. destruct Hstep; cbn in *; try by left.
    + right; right. destruct Hsl as (old & Hin & Hr). by exists old, new.
    + right; left. destruct Ht as ((old & new' & Ho & Ha & Hn) & _). destruct Hp as (pl0 & Hp & Hl).
      assert (new' = new) as -> by congruence. assert (old = pl0) as -> by congruence. by exists pl0, new.
Qed.

(** The slow path of the program does not wait: from every plan it can free the memory
    that the core is walking. *)
Lemma freed_under_core (pl new : vhost_plan) : recompute pl new →
  ∃ s p seen, rtc (pub_step false) (pub_start pl) s ∧ core_at s = CoreIn p seen ∧ allocated s !! p = None.
Proof.
  intros Hr. eexists _, 0, []. split.
  - eapply rtc_l; [apply core_enter|]. eapply rtc_l; [eapply (slow_read _ _ _ _ _ _ _ pl); [by rewrite lookup_singleton_eq|exact Hr]|].
    eapply rtc_l; [apply (slow_swap _ _ _ _ _ _ _ _ 1); by rewrite lookup_singleton_ne|]. apply rtc_once, slow_free. done.
  - split; [done|]. by apply lookup_delete_eq.
Qed.

Lemma freed_under_thread (pl new : vhost_plan) : recompute pl new →
  ∃ s o, rtc (pub_step false) (pub_start pl) s ∧ thread_at s = ThreadLoaded o ∧ allocated s !! o = None.
Proof.
  intros Hr. eexists _, 0. split.
  - eapply rtc_l; [apply thread_load|]. eapply rtc_l; [eapply (slow_read _ _ _ _ _ _ _ pl); [by rewrite lookup_singleton_eq|exact Hr]|].
    eapply rtc_l; [apply (slow_swap _ _ _ _ _ _ _ _ 1); by rewrite lookup_singleton_ne|]. apply rtc_once, slow_free. done.
  - split; [done|]. by apply lookup_delete_eq.
Qed.
End publish.

(** ** The program's instances *)

(** The plan that [calculate_vhost_tx_plan] computes for core [i] from [pl]. *)
Definition recompute_tx (i : nat) (pl new : vhost_plan) : Prop :=
  ∃ vdevs core, length vdevs = MAX_VHOSTS ∧ length core = MAX_VHOSTS ∧
    calc_tx_core i true vdevs core pl = Ok (Some new).

Lemma attempt_add_shape vid pl new : plan_shape pl → attempt_add vid pl = Ok (Some new) → plan_shape new.
Proof.
  intros Hs. unfold attempt_add. destruct (Z.leb_spec (Z.of_nat MAX_VHOSTS) (plan_num pl)); [done|].
  destruct (plan_push_ok vid pl Hs) as (p' & -> & Hs' & _); [done|]. by intros [= <-].
Qed.

Lemma calc_tx_visits_length vdevs pl a a' : calc_tx_visits vdevs pl a = Ok a' → length a' = length a.
Proof.
  unfold calc_tx_visits. generalize (seq 0 (Z.to_nat (plan_num pl))). intros l. revert a.
  induction l as [|j l IH]; intros a E; cbn [foldM] in E; [by injection E as ->|].
  res_inv. rewrite (IH _ E). unfold calc_tx_visit in E0. destruct (arr_get vdevs a1) as [[d|]|f]; cbn [mbind res_bind] in E0; try discriminate E0.
  - apply arr_set_Ok in E0 as [_ ->]. apply length_insert.
  - by injection E0 as ->.
Qed.

Lemma recompute_tx_shape i pl new : recompute_tx i pl new → plan_shape new.
Proof.
  intros (vdevs & core & Hv & Hc & E). unfold calc_tx_core in E.
  destruct (calc_tx_visits vdevs pl (replicate MAX_VHOSTS false)) as [ia|f] eqn:Ea; cbn [mbind res_bind negb] in E; [|discriminate E].
  pose proof (calc_tx_visits_length _ _ _ _ Ea) as Hl. rewrite length_replicate in Hl.
  destruct (fill_plan_spec i ia vdevs core Hl Hv Hc) as (p & Ep & Hwf & _). rewrite Ep in E. injection E as <-.
  by apply plan_wf_shape.
Qed.

(** The commits of [Plan] are successful attempts. *)
Lemma plan_add_commit_attempt i vid plans :
  plan_add_commit i vid true plans =
    (old ← arr_get plans i; o ← attempt_add vid old; Ok (option_map (λ new, <[i:=new]> plans) o)).
Proof.
  unfold plan_add_commit, attempt_add. destruct (arr_get plans i) as [old|f]; [|done]. cbn [mbind res_bind].
  destruct (_ <=? _)%Z; [done|]. cbn [negb]. by destruct (plan_push vid old).
Qed.

Lemma plan_remove_commit_attempt i vid plans :
  plan_remove_commit i vid true plans =
    (old ← arr_get plans i; o ← attempt_remove vid old; Ok (option_map (λ new, <[i:=new]> plans) o)).
Proof.
  unfold plan_remove_commit, attempt_remove. destruct (arr_get plans i) as [old|f]; [|done]. cbn [mbind res_bind negb].
  by destruct (plan_delete vid old).
Qed.

Lemma demo_recompute pl : pl ∈ [demo_plan [1]; demo_plan [1; 3]] → recompute_tx 0 pl (demo_plan [1; 3]).
Proof.
  intros Hpl. exists (demo_vdevs [None; Some 101; None; Some 103]), (demo_core []). split; [done|]. split; [done|].
  apply elem_of_cons in Hpl as [->|Hpl]; [|apply list_elem_of_singleton in Hpl as ->]; vm_compute; reflexivity.
Qed.

Lemma demo_attempt : attempt_add 5 (demo_plan [1]) = Ok (Some (demo_plan [1; 5])).
Proof. vm_compute. reflexivity. Qed.

(** The vhost thread copies; the slow path replaces the plan twice, and the second new
    plan gets the memory of the first one. *)
Lemma demo_aba : ∃ a h, rtc (pub_step (attempt_add 5) (recompute_tx 0) false) (pub_start (demo_plan [1]))
    (mk_pub a 0 CoreIdle (SlowFree 2) (ThreadCopied 0 1) h []) ∧
  a !! 1 = Some (demo_plan [1; 5]) ∧ last h = Some (demo_plan [1; 3]).
Proof.
  eexists _, _. split; [|split].
  - eapply rtc_l; [apply thread_load|].
    eapply rtc_l; [apply (thread_copy _ _ _ _ _ _ _ _ _ _ (demo_plan [1]) (demo_plan [1; 5]) 1); [reflexivity|apply demo_attempt|reflexivity]|].
    eapply rtc_l; [apply (slow_read _ _ _ _ _ _ _ _ _ (demo_plan [1]) (demo_plan [1; 3])); [reflexivity|apply demo_recompute; by left]|].
    eapply rtc_l; [apply (slow_swap _ _ _ _ _ _ _ _ _ _ 2); reflexivity|].
    eapply rtc_l; [apply slow_free; done|].
    eapply rtc_l; [apply (slow_read _ _ _ _ _ _ _ _ _ (demo_plan [1; 3]) (demo_plan [1; 3])); [reflexivity|apply demo_recompute; by right; left]|].
    apply rtc_once, (slow_swap _ _ _ _ _ _ _ _ _ _ 0). reflexivity.
  - reflexivity.
  - reflexivity.
Qed.

(** ** Properties *)

(** [C24] The slow path of the program does not wait until the plan it frees is unused.  From
    every published plan, one recomputation can free the memory that the core is walking,
    and likewise the memory that the vhost thread is about to copy.  And because the
    freed memory may be handed out again, an outdated attempt can succeed: the VM 3 that
    two recomputations brought into the plan is lost when the vhost thread publishes what
    it made of a plan that was replaced long ago. *)
Theorem reclamation_races (i : nat) (pl new : vhost_plan) :
  recompute_tx i pl new → ∀ vid,
  (∃ s p seen, rtc (pub_step (attempt_add vid) (recompute_tx i) false) (pub_start pl) s ∧
     core_at s = CoreIn p seen ∧ allocated s !! p = None) ∧
  (∃ s o, rtc (pub_step (attempt_add vid) (recompute_tx i) false) (pub_start pl) s ∧
     thread_at s = ThreadLoaded o ∧ allocated s !! o = None) ∧
  ∃ s s' old now, rtc (pub_step (attempt_add 5) (recompute_tx 0) false) (pub_start (demo_plan [1])) s ∧
    pub_step (attempt_add 5) (recompute_tx 0) false s s' ∧ slow_at s' = slow_at s ∧
    current s = Some old ∧ plan_list old = [1; 3] ∧ current s' = Some now ∧ plan_list now = [1; 5].
Proof.
  intros Hr vid. split; [|split].
  - destruct (freed_under_core (attempt_add vid) _ _ _ Hr) as (s & p & seen & Hrun & Hc & Ha). by exists s, p, seen.
  - destruct (freed_under_thread (attempt_add vid) _ _ _ Hr) as (s & o & Hrun & Ht & Ha). by exists s, o.
  - destruct demo_aba as (a & h & Hrun & Ha & Hl). eexists _, _, (demo_plan [1; 3]), (demo_plan [1; 5]). split; [exact Hrun|].
    split; [by eapply thread_swap|]. split; [done|]. unfold current. cbn. rewrite Hl, last_snoc. by split_and!.
Qed.

(** ** Witnesses *)

(** One pass of the core, while the vhost thread adds VM 5 to the plan of VM 1. *)
Lemma publication_refines_witness :
  ∃ s, rtc (pub_step (attempt_add 5) (recompute_tx 0) true) (pub_start (demo_plan [1])) s ∧
    ¬ use_after_free s ∧ current s = Some (demo_plan [1; 5]) ∧ passes s = [[1]].
Proof.
  assert (rtc (pub_step (attempt_add 5) (recompute_tx 0) true) (pub_start (demo_plan [1]))
    (mk_pub (<[1 := demo_plan [1; 5]]> {[0 := demo_plan [1]]}) 1 CoreIdle SlowIdle ThreadIdle
      [demo_plan [1]; demo_plan [1; 5]] [[1]])) as Hrun.
  { eapply rtc_l; [apply core_enter|]. eapply rtc_l; [apply thread_load|].
    eapply rtc_l; [apply (thread_copy _ _ _ _ _ _ _ _ _ _ (demo_plan [1]) (demo_plan [1; 5]) 1); [reflexivity|apply demo_attempt|reflexivity]|].
    eapply rtc_l; [apply (core_entry _ _ _ _ _ _ _ (demo_plan [1]) 1); reflexivity|].
    eapply rtc_l; [apply (thread_swap _ _ _ _ _ _ _ _ _ _ (demo_plan [1; 5])); reflexivity|].
    eapply rtc_l; [apply (core_leave _ _ _ _ _ _ _ (demo_plan [1])); [reflexivity|vm_compute; discriminate]|apply rtc_refl]. }
  eexists. split; [exact Hrun|].
  destruct (publication_refines (attempt_add 5) (recompute_tx 0) (λ pl new, attempt_add_shape 5 pl new)
    (λ pl new _, recompute_tx_shape 0 pl new) (demo_plan [1]) _ ltac:(split; vm_compute; [split; discriminate|reflexivity]) Hrun)
    as (Hno & _). split; [exact Hno|]. split; reflexivity.
Defined.

Lemma reclamation_races_witness :
  ∃ s p seen, rtc (pub_step (attempt_add 5) (recompute_tx 0) false) (pub_start (demo_plan [1])) s ∧
     core_at s = CoreIn p seen ∧ allocated s !! p = None.
Proof.
  exact (proj1 (reclamation_races 0 (demo_plan [1]) (demo_plan [1; 3]) (demo_recompute _ ltac:(by left)) 5)).
Defined.
