(* ===== verification/Config.v ===== *)
(** * src/config/config.h: the configuration record

    [config_t] with the widths of its fields in comments, and [init_config].  The
    command line that fills it is modelled in [ConfigParse]. *)

From S2P Require Import Prelude CInt.
From Stdlib Require Import Ascii.
Local Open Scope Z_scope.

(** A C string without its terminating NUL. *)
Abbreviation cstring := (list ascii).

Record config_t := mk_config {
  client_mode : Z;             (* uint32_t *)
  dequeue_zero_copy : Z;       (* uint32_t *)
  mergeable : Z;               (* uint32_t *)
  enable_retry : Z;            (* uint32_t *)
  enable_tx_csum : Z;          (* uint32_t *)
  enable_tso : Z;              (* uint32_t *)
  burst_rx_delay_time : Z;     (* uint32_t *)
  burst_rx_retry_num : Z;      (* uint32_t *)
  socket_dir : option cstring; (* None: NULL *)
  socket_files : option cstring;
  nb_sockets : Z;              (* uint32_t *)
  cfg_ip : Z;                  (* uint32_t *)
  ip_prefix : Z;               (* uint8_t *)
  cfg_mac : list Z;            (* 6 bytes *)
  other_node_mac : list Z;     (* 6 bytes *)
  eth_rx_cores : Z;            (* uint16_t *)
  eth_tx_cores : Z;            (* uint16_t *)
  eth_rx_queues : Z;           (* uint16_t *)
  eth_tx_queues : Z;           (* uint16_t *)
  vhost_rx_cores : Z;          (* uint16_t *)
  vhost_tx_cores : Z;          (* uint16_t *)
  show_dash : Z;               (* uint8_t *)
}.

Definition BURST_RX_WAIT_US : Z := 15.
Definition BURST_RX_RETRIES : Z := 4.

Definition init_config : config_t := {|
  client_mode := 0;
  dequeue_zero_copy := 0;
  mergeable := 0;
  enable_retry := 1;
  enable_tx_csum := 0;
  enable_tso := 0;
  burst_rx_delay_time := BURST_RX_WAIT_US;
  burst_rx_retry_num := BURST_RX_RETRIES;
  socket_dir := None;
  socket_files := None;
  nb_sockets := 0;
  cfg_ip := 0;
  ip_prefix := 0;
  cfg_mac := [0x02; 0x00; 0x00; 0x00; 0x00; 0xFE];
  other_node_mac := [0; 0; 0; 0; 0; 0];
  eth_rx_cores := 0;
  eth_tx_cores := 0;
  eth_rx_queues := 0;
  eth_tx_queues := 0;
  vhost_rx_cores := 0;
  vhost_tx_cores := 0;
  show_dash := 0;
|}.

(** Every field is in the range of its type and the addresses have six bytes. *)
Definition config_wf (c : config_t) : Prop :=
  Forall (in_u 32) [client_mode c; dequeue_zero_copy c; mergeable c; enable_retry c;
    enable_tx_csum c; enable_tso c; burst_rx_delay_time c; burst_rx_retry_num c;
    nb_sockets c; cfg_ip c] ∧
  Forall (in_u 16) [eth_rx_cores c; eth_tx_cores c; eth_rx_queues c; eth_tx_queues c;
    vhost_rx_cores c; vhost_tx_cores c] ∧
  Forall (in_u 8) [ip_prefix c; show_dash c] ∧
  (length (cfg_mac c) = 6%nat ∧ Forall is_byte (cfg_mac c)) ∧
  (length (other_node_mac c) = 6%nat ∧ Forall is_byte (other_node_mac c)).

#[export] Instance is_byte_dec b : Decision (is_byte b).
Proof. unfold is_byte. apply _. Defined.
#[export] Instance config_wf_dec c : Decision (config_wf c).
Proof. unfold config_wf. apply _. Defined.

Lemma init_config_wf : config_wf init_config.
Proof. refine (bool_decide_unpack _ _). vm_compute. exact I. Qed.
