(* ===== verification/Route.v ===== *)
(** * src/vhost/route.c: from IPv4 address to VM

    The table has one [int] per last octet, -1 for "no VM".  Its abstract view is
    a finite map from octets to vids, which the four operations implement; the
    upper three octets of an address play no part. *)

From S2P Require Import Prelude CInt.
Local Open Scope Z_scope.

Definition ROUTE_SIZE : nat := 256.

(** The static array before [init_route_table] has run: all zero. *)
Definition route_static : list Z := replicate ROUTE_SIZE 0.

Definition init_route_table (t : list Z) : list Z :=
  fold_left (λ t i, <[i:=-1]> t) (seq 0 ROUTE_SIZE) t.

(** [ip & 0xFF], as an index. *)
Definition last_octet (ip : Z) : nat := Z.to_nat (Z.land ip 0xFF).

Definition add_route_entry (vid ip : Z) (t : list Z) : res (Z * list Z) :=
  v ← arr_get t (last_octet ip);
  if negb (v =? -1) then Ok (-1, t)
  else t ← arr_set t (last_octet ip) vid; Ok (0, t).

Definition remove_route_entry (ip : Z) (t : list Z) : res (Z * list Z) :=
  v ← arr_get t (last_octet ip);
  if v =? -1 then Ok (-1, t)
  else t ← arr_set t (last_octet ip) (-1); Ok (0, t).

Definition find_vid_by_ip (ip : Z) (t : list Z) : res Z := arr_get t (last_octet ip).

(** ** Specification: a finite map from octets to vids *)

Definition routes (t : list Z) (m : gmap nat Z) : Prop :=
  length t = ROUTE_SIZE ∧ ∀ o, (o < ROUTE_SIZE)%nat → t !! o = Some (default (-1) (m !! o)) ∧ m !! o ≠ Some (-1).

(** ** Lemmas *)

Lemma last_octet_mod ip : last_octet ip = Z.to_nat (ip mod 256).
Proof. unfold last_octet. change 0xFF with (Z.ones 8). by rewrite Z.land_ones. Qed.

Lemma last_octet_lt ip : (last_octet ip < ROUTE_SIZE)%nat.
Proof.
  rewrite last_octet_mod. pose proof (Z.mod_pos_bound ip 256 eq_refl). unfold ROUTE_SIZE. lia.
Qed.

Lemma routes_lookup t m ip :
  routes t m → t !! last_octet ip = Some (default (-1) (m !! last_octet ip)).
Proof. intros [_ H]. by apply H, last_octet_lt. Qed.

Lemma routes_insert t m o v : routes t m → (o < ROUTE_SIZE)%nat → v ≠ -1 →
  routes (<[o:=v]> t) (<[o:=v]> m).
Proof.
  intros [Hl H] Ho Hv. split; [by rewrite length_insert|]. intros p Hp.
  destruct (decide (o = p)) as [<-|Hne].
  - rewrite list_lookup_insert_eq, lookup_insert_eq by lia. cbn. split; [done|congruence].
  - rewrite list_lookup_insert_ne, lookup_insert_ne by done. by apply H.
Qed.

Lemma routes_delete t m o : routes t m → (o < ROUTE_SIZE)%nat → routes (<[o:=-1]> t) (delete o m).
Proof.
  intros [Hl H] Ho. split; [by rewrite length_insert|]. intros p Hp.
  destruct (decide (o = p)) as [<-|Hne].
  - by rewrite list_lookup_insert_eq, lookup_delete_eq by lia.
  - rewrite list_lookup_insert_ne, lookup_delete_ne by done. by apply H.
Qed.

Lemma init_route_table_eq t : length t = ROUTE_SIZE → init_route_table t = replicate ROUTE_SIZE (-1).
Proof.
  intros Hl. unfold init_route_table. rewrite <- Hl.
  cut (∀ n, (n ≤ length t)%nat →
    fold_left (λ t i, <[i:=-1]> t) (seq 0 n) t = replicate n (-1) ++ drop n t).
  { intros H. rewrite H by lia. by rewrite drop_all, app_nil_r. }
  induction n as [|n IH]; intros Hn; [done|].
  rewrite seq_S, fold_left_app, IH by lia. cbn [fold_left Nat.add].
  destruct (lookup_lt_is_Some_2 t n) as [x Hx]; [lia|]. rewrite (drop_S t x n Hx).
  rewrite insert_app_r_alt by (rewrite length_replicate; lia).
  rewrite length_replicate, Nat.sub_diag. cbn [insert list_insert].
  rewrite replicate_S_end. by rewrite <- app_assoc.
Qed.

Lemma add_route_eq t m vid ip :
  routes t m → vid ≠ -1 →
  match m !! last_octet ip with
  | Some _ => add_route_entry vid ip t = Ok (-1, t)
  | None => add_route_entry vid ip t = Ok (0, <[last_octet ip:=vid]> t) ∧
            routes (<[last_octet ip:=vid]> t) (<[last_octet ip:=vid]> m)
  end.
Proof.
  intros Hr Hv. pose proof (last_octet_lt ip) as Ho. unfold add_route_entry.
  rewrite (arr_get_Some _ _ _ (routes_lookup t m ip Hr)). cbn [mbind res_bind].
  destruct (m !! last_octet ip) as [v|] eqn:E; cbn [from_option id].
  - destruct (Z.eqb_spec v (-1)) as [->|]; [|done]. by destruct Hr as [_ H], (H _ Ho).
  - cbn. rewrite arr_set_lt by (destruct Hr; lia). split; [done|]. by apply routes_insert.
Qed.

Lemma remove_route_eq t m ip :
  routes t m →
  match m !! last_octet ip with
  | Some _ => remove_route_entry ip t = Ok (0, <[last_octet ip:=-1]> t) ∧
              routes (<[last_octet ip:=-1]> t) (delete (last_octet ip) m)
  | None => remove_route_entry ip t = Ok (-1, t)
  end.
Proof.
  intros Hr. pose proof (last_octet_lt ip) as Ho. unfold remove_route_entry.
  rewrite (arr_get_Some _ _ _ (routes_lookup t m ip Hr)). cbn [mbind res_bind].
  destruct (m !! last_octet ip) as [v|] eqn:E; cbn [from_option id].
  - destruct (Z.eqb_spec v (-1)) as [->|]; [by destruct Hr as [_ H], (H _ Ho)|].
    rewrite arr_set_lt by (destruct Hr; lia). split; [done|]. by apply routes_delete.
  - done.
Qed.

(** ** Properties *)

(** [C19] The table implements a finite map keyed by the last octet.  After
    initialisation it is empty; adding an entry inserts it when the octet is free
    and is refused (-1, nothing changed) when it is taken, so a VM can never take
    over another's route; removing deletes it or reports -1; looking up yields the
    vid or -1.  No operation faults, whatever the address. *)
Theorem route_table_refines_map (t : list Z) (m : gmap nat Z) (vid ip : Z) :
  (length t = ROUTE_SIZE → routes (init_route_table t) ∅) ∧
  (routes t m → vid ≠ -1 →
     find_vid_by_ip ip t = Ok (default (-1) (m !! last_octet ip)) ∧
     (∃ r t', add_route_entry vid ip t = Ok (r, t') ∧
        if decide (m !! last_octet ip = None)
        then r = 0 ∧ routes t' (<[last_octet ip:=vid]> m) else r = -1 ∧ t' = t) ∧
     (∃ r t', remove_route_entry ip t = Ok (r, t') ∧
        if decide (m !! last_octet ip = None)
        then r = -1 ∧ t' = t else r = 0 ∧ routes t' (delete (last_octet ip) m))).
Proof.
  split.
  - intros Hl. rewrite init_route_table_eq by done. split; [by rewrite length_replicate|].
    intros o Ho. rewrite lookup_replicate_2, lookup_empty by done. done.
  - intros Hr Hv. pose proof (add_route_eq t m vid ip Hr Hv) as Ha.
    pose proof (remove_route_eq t m ip Hr) as Hd. splits.
    + unfold find_vid_by_ip. by apply arr_get_Some, routes_lookup.
    + destruct (m !! last_octet ip); [by eexists _, _|].
      destruct Ha as [-> ?]. by eexists _, _.
    + destruct (m !! last_octet ip); [|by eexists _, _].
      destruct Hd as [-> ?]. by eexists _, _.
Qed.

(** Round trip of a route and its scope: an entry that could be added is found
    under every address with the same last octet, whatever its subnet, other octets
    are unaffected, and removing it through any such address restores the table. *)
Theorem route_roundtrip (t : list Z) (m : gmap nat Z) (vid ip ip' : Z) :
  routes t m → vid ≠ -1 → m !! last_octet ip = None →
  ∃ t', add_route_entry vid ip t = Ok (0, t') ∧
    (ip' mod 256 = ip mod 256 →
       find_vid_by_ip ip' t' = Ok vid ∧ remove_route_entry ip' t' = Ok (0, t)) ∧
    (ip' mod 256 ≠ ip mod 256 → find_vid_by_ip ip' t' = find_vid_by_ip ip' t).
Proof.
  intros Hr Hv Hm. pose proof (add_route_eq t m vid ip Hr Hv) as Ha. rewrite Hm in Ha.
  destruct Ha as [Ha Hr']. eexists. split; [exact Ha|].
  pose proof (last_octet_lt ip) as Ho. pose proof Hr as [Hl _].
  assert (arr_get (<[last_octet ip:=vid]> t) (last_octet ip) = Ok vid) as Hget
    by (apply arr_get_Some, list_lookup_insert_eq; lia).
  split.
  - intros E. assert (last_octet ip' = last_octet ip) as Eo by by rewrite !last_octet_mod, E.
    unfold find_vid_by_ip, remove_route_entry. rewrite Eo, Hget. split; [done|].
    cbn [mbind res_bind]. destruct (Z.eqb_spec vid (-1)); [done|].
    rewrite arr_set_lt by (rewrite length_insert; lia). cbn. rewrite list_insert_insert_eq.
    pose proof (routes_lookup t m ip Hr) as Hlk. rewrite Hm in Hlk. by rewrite list_insert_id.
  - intros Hne. unfold find_vid_by_ip, arr_get. rewrite list_lookup_insert_ne; [done|].
    rewrite !last_octet_mod. pose proof (Z.mod_pos_bound ip 256 eq_refl).
    pose proof (Z.mod_pos_bound ip' 256 eq_refl). lia.
Qed.

Lemma route_table_refines_map_witness :
  routes (init_route_table route_static) ∅ ∧
  ∃ r t', add_route_entry 3 0xC0A86405 (init_route_table route_static) = Ok (r, t') ∧ r = 0.
Proof.
  assert (routes (init_route_table route_static) ∅) as Hr.
  { exact (proj1 (route_table_refines_map route_static ∅ 3 5) eq_refl). }
  split; [exact Hr|].
  destruct (proj2 (route_table_refines_map (init_route_table route_static) ∅ 3 0xC0A86405) Hr
    ltac:(discriminate)) as (_ & (r & t' & Ha & Hr0) & _).
  exists r, t'. split; [exact Ha|]. exact (proj1 Hr0).
Defined.

Lemma route_roundtrip_witness :
  ∃ t', add_route_entry 3 0xC0A86405 (replicate ROUTE_SIZE (-1)) = Ok (0, t') ∧
    find_vid_by_ip 0x0A000005 t' = Ok 3.
Proof.
  destruct (route_roundtrip (replicate ROUTE_SIZE (-1)) ∅ 3 0xC0A86405 0x0A000005) as (t' & Ha & Hf & _).
  - split; [reflexivity|]. intros o Ho. rewrite lookup_replicate_2 by exact Ho.
    split; [reflexivity|discriminate].
  - discriminate.
  - reflexivity.
  - exists t'. split; [exact Ha|]. exact (proj1 (Hf eq_refl)).
Defined.
