(* ===== verification/Device.v ===== *)
(** * src/vhost/device.c, src/vhost/vmdq.c, src/network/flow.c: life of a VM's device

    The state they share: the heap of [struct vhost_dev], the published
    [vdev_list], the route table, the NIC flow table [eth_rx_flows] and the plans
    of both directions.  Calls into the NIC are recorded in [nic] in order.
    Pointers are natural numbers; an allocation is an argument that says which
    fresh pointer it returned, or that it failed. *)

From S2P Require Import Prelude CInt Packet Dpdk Ecn Config Poll Plan Route.

Definition DEVICE_MAC_LEARNING : Z := 0.
Definition DEVICE_RX : Z := 1.
Definition DEVICE_SAFE_REMOVE : Z := 2.

Record vhost_dev := mk_dev {
  dev_vid : Z;      (* int *)
  vm_id : Z;        (* int *)
  dev_mac : list Z;
  dev_ip : Z;       (* uint32_t *)
  ready : Z;        (* uint8_t *)
}.

(** [None] is a NULL slot. *)
Record vdev_list := mk_vlist {
  vl_num : Z;       (* uint16_t *)
  vdevs : list (option nat);
}.

(** The calls that configure the NIC. *)
Inductive nic_call :=
  | rte_eth_dev_mac_addr_add (mac : list Z)
  | rte_eth_dev_mac_addr_remove (mac : list Z)
  | rte_flow_create (mac : list Z) (queue : Z)
  | rte_flow_destroy (flow : nat).

Record dstate := mk_dstate {
  devs : gmap nat vhost_dev;
  vlist : vdev_list;
  routing : list Z;
  eth_rx_flows : list (option nat);
  rx_plans : list vhost_plan;
  vhost_rx_core : list nat;
  tx_plans : list vhost_plan;
  vhost_tx_core : list nat;
  nic : list nic_call;
}.

Definition set_devs h s := mk_dstate h (vlist s) (routing s) (eth_rx_flows s)
  (rx_plans s) (vhost_rx_core s) (tx_plans s) (vhost_tx_core s) (nic s).
Definition set_vlist l s := mk_dstate (devs s) l (routing s) (eth_rx_flows s)
  (rx_plans s) (vhost_rx_core s) (tx_plans s) (vhost_tx_core s) (nic s).
Definition set_routing t s := mk_dstate (devs s) (vlist s) t (eth_rx_flows s)
  (rx_plans s) (vhost_rx_core s) (tx_plans s) (vhost_tx_core s) (nic s).
Definition set_flows f s := mk_dstate (devs s) (vlist s) (routing s) f
  (rx_plans s) (vhost_rx_core s) (tx_plans s) (vhost_tx_core s) (nic s).
Definition set_rx p c s := mk_dstate (devs s) (vlist s) (routing s) (eth_rx_flows s)
  p c (tx_plans s) (vhost_tx_core s) (nic s).
Definition set_tx p c s := mk_dstate (devs s) (vlist s) (routing s) (eth_rx_flows s)
  (rx_plans s) (vhost_rx_core s) p c (nic s).
Definition add_nic c s := mk_dstate (devs s) (vlist s) (routing s) (eth_rx_flows s)
  (rx_plans s) (vhost_rx_core s) (tx_plans s) (vhost_tx_core s) (nic s ++ [c]).

(** ** check_device_state: [None] is a NULL pointer *)

Definition check_device_state (vdev : option nat) (h : gmap nat vhost_dev) : res Z :=
  match vdev with
  | None => Ok (-1)%Z
  | Some p =>
      d ← heap_get h p;
      if ((dev_vid d <? 0) || (64 <=? dev_vid d))%Z then Ok (-1)%Z
      else if (ready d =? DEVICE_SAFE_REMOVE)%Z then Ok (-1)%Z
      else Ok 0%Z
  end.

(** ** link_vmdq: learn the addresses of the VM from its first packet [b]

    [vm_id = (ip & 0xff) - 2] is computed on [uint32_t] and converted to [int]. *)

Definition vm_id_of (ip : Z) : Z := i32 (u32 (Z.land ip 0xff - 2)).

Definition link_vmdq (p : nat) (b : list Z) (s : dstate) : res dstate :=
  d ← heap_get (devs s) p;
  let mac := eth_src_addr b in
  let d := mk_dev (dev_vid d) (vm_id d) mac (dev_ip d) (ready d) in
  let s := add_nic (rte_eth_dev_mac_addr_add mac) s in
  let learn d ip := mk_dev (dev_vid d) (vm_id_of ip) (dev_mac d) ip (ready d) in
  let d := if is_ipv4 b then learn d (rte_be_to_cpu_32 (ip_src_addr b))
           else if is_arp b then learn d (rte_be_to_cpu_32 (arp_sip b))
           else d in
  '(_, t) ← add_route_entry (dev_vid d) (dev_ip d) (routing s);
  let d := mk_dev (dev_vid d) (vm_id d) (dev_mac d) (dev_ip d) DEVICE_RX in
  h ← heap_set (devs s) p d;
  Ok (set_devs h (set_routing t s)).

Definition unlink_vmdq (p : nat) (s : dstate) : res dstate :=
  d ← heap_get (devs s) p;
  '(d, s) ← (if (ready d =? DEVICE_RX)%Z then
      let s := add_nic (rte_eth_dev_mac_addr_remove (dev_mac d)) s in
      '(_, t) ← remove_route_entry (dev_ip d) (routing s);
      Ok (mk_dev (dev_vid d) (vm_id d) (replicate 6 0%Z) 0 (ready d), set_routing t s)
    else Ok (d, s));
  h ← heap_set (devs s) p (mk_dev (dev_vid d) (vm_id d) (dev_mac d) (dev_ip d) DEVICE_SAFE_REMOVE);
  Ok (set_devs h s).

(** ** eth_rx_flows, indexed by [vm_id], an [int] *)

Definition flow_get (fs : list (option nat)) (i : Z) : res (option nat) :=
  if (i <? 0)%Z then Fault OutOfBounds else arr_get fs (Z.to_nat i).

(** [vm_id % config.eth_rx_queues], stored in a [uint16_t]. *)
Definition eth_queue_id (id queues : Z) : res Z :=
  if (queues =? 0)%Z then Fault DivisionByZero else Ok (u16 (Z.rem id queues)).

(** [flow] is what [rte_flow_create] returns, [None] for NULL. *)
Definition install_eth_rx_flow (queues : Z) (flow : option nat) (p : nat) (s : dstate)
    : res (Z * dstate) :=
  d ← heap_get (devs s) p;
  f ← flow_get (eth_rx_flows s) (vm_id d);
  match f with
  | Some _ => Ok ((-1)%Z, s)
  | None =>
      q ← eth_queue_id (vm_id d) queues;
      let s := add_nic (rte_flow_create (dev_mac d) q) s in
      match flow with
      | None => Ok ((-1)%Z, s)
      | Some fl =>
          fs ← arr_set (eth_rx_flows s) (Z.to_nat (vm_id d)) (Some fl);
          Ok (0%Z, set_flows fs s)
      end
  end.

(** [ok]: [rte_flow_destroy] returned 0. *)
Definition uninstall_eth_rx_flow (queues : Z) (ok : bool) (p : nat) (s : dstate)
    : res (Z * dstate) :=
  d ← heap_get (devs s) p;
  f ← flow_get (eth_rx_flows s) (vm_id d);
  match f with
  | None => Ok ((-1)%Z, s)
  | Some fl =>
      q ← eth_queue_id (vm_id d) queues;
      let s := add_nic (rte_flow_destroy fl) s in
      if ok then Ok (0%Z, s) else Ok ((-1)%Z, s)
  end.

(** ** new_device and destroy_device

    [alloc_dev] is the pointer of the new [struct vhost_dev]; the booleans say
    whether the allocation of the new list and of the new plans succeeded.  The
    compare-and-swap on [vdev_list] is its successful iteration. *)

Definition new_vhost_dev (vid : nat) : vhost_dev :=
  mk_dev (Z.of_nat vid) (-1) (replicate 6 0%Z) 0 DEVICE_MAC_LEARNING.

Definition add_to_vdev_list (vid p : nat) (l : vdev_list) : res vdev_list :=
  slots ← arr_set (vdevs l) vid (Some p);
  Ok (mk_vlist (u16 (vl_num l + 1)) slots).

Definition new_device (vid : nat) (alloc_dev : option nat) (alloc_list alloc_rx alloc_tx : bool)
    (s : dstate) : res (Z * dstate) :=
  match alloc_dev with
  | None => Ok ((-1)%Z, s)
  | Some p =>
      let s := set_devs (<[p := new_vhost_dev vid]> (devs s)) s in
      if (Z.of_nat MAX_VHOSTS <=? vl_num (vlist s))%Z then
        h ← heap_free (devs s) p; Ok ((-1)%Z, set_devs h s)
      else if negb alloc_list then Ok ((-1)%Z, s)
      else
        l ← add_to_vdev_list vid p (vlist s);
        let s := set_vlist l s in
        '(r, ps, c) ← vhost_rx_plan_add vid alloc_rx (rx_plans s) (vhost_rx_core s);
        let s := set_rx ps c s in
        if negb (r =? 0)%Z then h ← heap_free (devs s) p; Ok ((-1)%Z, set_devs h s)
        else
          '(r, ps, c) ← vhost_tx_plan_add vid alloc_tx (tx_plans s) (vhost_tx_core s);
          let s := set_tx ps c s in
          if negb (r =? 0)%Z then h ← heap_free (devs s) p; Ok ((-1)%Z, set_devs h s)
          else Ok (0%Z, s)
  end.

(** The body of the list update: [None] when the function returns early. *)
Definition remove_from_vdev_list (vid : nat) (alloc : bool) (h : gmap nat vhost_dev) (l : vdev_list)
    : res (option vdev_list) :=
  if negb alloc then Ok None
  else
    slot ← arr_get (vdevs l) vid;
    match slot with
    | None => Ok None
    | Some p =>
        d ← heap_get h p;
        if negb (ready d =? DEVICE_SAFE_REMOVE)%Z then Ok None
        else
          slots ← arr_set (vdevs l) vid None;
          Ok (Some (mk_vlist (u16 (vl_num l - 1)) slots))
    end.

Definition destroy_device (queues : Z) (vid : nat) (alloc_list alloc_rx alloc_tx destroy_ok : bool)
    (s : dstate) : res dstate :=
  slot ← arr_get (vdevs (vlist s)) vid;
  match slot with
  | None => Ok s
  | Some p =>
      s ← unlink_vmdq p s;
      o ← remove_from_vdev_list vid alloc_list (devs s) (vlist s);
      match o with
      | None => Ok s
      | Some l =>
          let s := set_vlist l s in
          '(r, ps, c) ← vhost_rx_plan_remove vid alloc_rx (rx_plans s) (vhost_rx_core s);
          let s := set_rx ps c s in
          if negb (r =? 0)%Z then Ok s
          else
            '(r, ps, c) ← vhost_tx_plan_remove vid alloc_tx (tx_plans s) (vhost_tx_core s);
            let s := set_tx ps c s in
            if negb (r =? 0)%Z then Ok s
            else '(_, s) ← uninstall_eth_rx_flow queues destroy_ok p s; Ok s
      end
  end.

(** The state [register_vhost_drivers] sets up, with [init_vhost_plans]. *)
Definition init_dstate (rx_cores tx_cores : nat) : dstate :=
  mk_dstate ∅ (mk_vlist 0 (replicate MAX_VHOSTS None)) (init_route_table route_static)
    (replicate MAX_VHOSTS None)
    (replicate rx_cores empty_plan) (replicate MAX_VHOSTS 0)
    (replicate tx_cores empty_plan) (replicate MAX_VHOSTS 0) [].

(** The learning message of the slow path: link, then install. *)
Definition learn_device (queues : Z) (flow : option nat) (vid : nat) (b : list Z) (s : dstate)
    : res dstate :=
  slot ← arr_get (vdevs (vlist s)) vid;
  match slot with
  | None => Ok s
  | Some p =>
      s ← link_vmdq p b s;
      '(_, s) ← install_eth_rx_flow queues flow p s;
      Ok s
  end.

(** ** Specification: one event after another

    [devices] are created with a fresh pointer, learn their address from a packet,
    and are destroyed; the slow path recomputes the plans in between.  The side
    conditions are what the code silently relies on: addresses end in 2 to 65, a VM
    that is already linked keeps its address, a VM is linked before it dies, and no
    allocation fails once the new [vdev_list] of an event has been allocated. *)

Definition slot_is (s : dstate) (vid p : nat) : Prop := vdevs (vlist s) !! vid = Some (Some p).

(** The source address a packet teaches, if any. *)
Definition learned_ip (b : list Z) : option Z :=
  if is_ipv4 b then Some (rte_be_to_cpu_32 (ip_src_addr b))
  else if is_arp b then Some (rte_be_to_cpu_32 (arp_sip b)) else None.

Definition usable_ip (ip : Z) : Prop := (2 ≤ ip mod 256 < 2 + Z.of_nat MAX_VHOSTS)%Z.

Definition learns (d : vhost_dev) (b : list Z) : Prop :=
  ∃ ip, learned_ip b = Some ip ∧ usable_ip ip ∧
    (ready d = DEVICE_RX → last_octet ip = last_octet (dev_ip d)).

Inductive life_step (queues : Z) : dstate → dstate → Prop :=
  | life_new s s' vid p :
      vdevs (vlist s) !! vid = Some None → devs s !! p = None →
      new_device vid (Some p) true true true s = Ok (0%Z, s') → life_step queues s s'
  | life_new_failed s s' vid o alloc_list alloc_rx alloc_tx :
      from_option (λ p, devs s !! p = None) True o → o = None ∨ alloc_list = false ∨ (Z.of_nat MAX_VHOSTS <= vl_num (vlist s))%Z →
      new_device vid o alloc_list alloc_rx alloc_tx s = Ok ((-1)%Z, s') → life_step queues s s'
  | life_learn s s' vid p d b flow :
      slot_is s vid p → devs s !! p = Some d → learns d b →
      learn_device queues flow vid b s = Ok s' → life_step queues s s'
  | life_destroy s s' vid p d ok :
      slot_is s vid p → devs s !! p = Some d → ready d = DEVICE_RX →
      destroy_device queues vid true true true ok s = Ok s' → life_step queues s s'
  | life_calc_rx s alloc stats plans' stats' :
      Forall (λ st, length st = MAX_VHOSTS) stats → length stats = length (rx_plans s) →
      calculate_vhost_rx_plan alloc (vdevs (vlist s)) (vhost_rx_core s) (rx_plans s) stats =
        Ok (plans', stats') →
      life_step queues s (set_rx plans' (vhost_rx_core s) s)
  | life_calc_tx s alloc plans' :
      calculate_vhost_tx_plan alloc (vdevs (vlist s)) (vhost_tx_core s) (tx_plans s) = Ok plans' →
      life_step queues s (set_tx plans' (vhost_tx_core s) s).

Inductive life_reach (queues : Z) (rx tx : nat) : dstate → Prop :=
  | life_init : life_reach queues rx tx (init_dstate rx tx)
  | life_next s s' : life_reach queues rx tx s → life_step queues s s' → life_reach queues rx tx s'.

(** The device of slot [vid]: unlearned, or linked with a usable flow index. *)
Definition dev_wf (vid : nat) (d : vhost_dev) : Prop :=
  dev_vid d = Z.of_nat vid ∧
  (ready d = DEVICE_MAC_LEARNING ∨
   ready d = DEVICE_RX ∧ (0 ≤ vm_id d < Z.of_nat MAX_VHOSTS)%Z).

Definition slots_wf (s : dstate) : Prop :=
  length (vdevs (vlist s)) = MAX_VHOSTS ∧
  vl_num (vlist s) = Z.of_nat (length (filter is_Some (vdevs (vlist s)))) ∧
  (∀ vid p, slot_is s vid p → ∃ d, devs s !! p = Some d ∧ dev_wf vid d) ∧
  (∀ i j p, slot_is s i p → slot_is s j p → i = j).

(** Every route leads to a linked VM that has the address. *)
Definition routes_wf (s : dstate) : Prop :=
  length (routing s) = ROUTE_SIZE ∧
  ∀ o v, routing s !! o = Some v → v = (-1)%Z ∨
    ∃ vid p d, v = Z.of_nat vid ∧ slot_is s vid p ∧ devs s !! p = Some d ∧
      ready d = DEVICE_RX ∧ last_octet (dev_ip d) = o.

Definition plans_wf (s : dstate) : Prop :=
  homed (mk_sys (vdevs (vlist s)) (rx_plans s) (vhost_rx_core s)) ∧ rx_plans s ≠ [] ∧
  homed (mk_sys (vdevs (vlist s)) (tx_plans s) (vhost_tx_core s)) ∧ tx_plans s ≠ [].

Definition dstate_wf (s : dstate) : Prop :=
  slots_wf s ∧ routes_wf s ∧ plans_wf s ∧ length (eth_rx_flows s) = MAX_VHOSTS.

(** ** Lemmas *)

Lemma vm_id_of_eq ip : vm_id_of ip = (ip mod 256 - 2)%Z.
Proof.
  unfold vm_id_of. change 0xff%Z with (Z.ones 8). rewrite Z.land_ones by lia.
  pose proof (Z.mod_pos_bound ip (2 ^ 8) eq_refl) as Hr. change (2 ^ 8)%Z with 256%Z in *.
  unfold i32, u32, swrap, wrap. change (2 ^ 32)%Z with 4294967296%Z. change (2 ^ (32 - 1))%Z with 2147483648%Z.
  Z.to_euclidean_division_equations. lia.
Qed.

Lemma usable_vm_id ip : usable_ip ip ↔ (0 ≤ vm_id_of ip < Z.of_nat MAX_VHOSTS)%Z.
Proof. rewrite vm_id_of_eq. unfold usable_ip. lia. Qed.

Lemma slot_lt s vid p : length (vdevs (vlist s)) = MAX_VHOSTS → slot_is s vid p → vid < MAX_VHOSTS.
Proof. intros Hl Hs. rewrite <- Hl. by eapply lookup_lt_Some. Qed.

Lemma vlist_room s vid :
  slots_wf s → vdevs (vlist s) !! vid = Some None → (vl_num (vlist s) < Z.of_nat MAX_VHOSTS)%Z.
Proof.
  intros (Hl & -> & _) Hv. pose proof (count_insert is_Some (vdevs (vlist s)) vid None (Some 0) Hv) as Hc.
  rewrite decide_False in Hc by by intros [? ?]. rewrite decide_True in Hc by by eexists.
  pose proof (length_filter is_Some (<[vid:=Some 0]> (vdevs (vlist s)))) as Hle.
  rewrite length_insert in Hle. lia.
Qed.

Lemma plans_wf_homed_attach vds plans core v p :
  homed (mk_sys vds plans core) → vds !! v = Some None → plans ≠ [] →
  ∃ plans' core', plan_add v true plans core = Ok (0%Z, plans', core') ∧
    homed (mk_sys (<[v:=Some p]> vds) plans' core') ∧ plans' ≠ [].
Proof.
  intros Hh Hv Hne. destruct (homed_attach vds plans core v p Hh Hv Hne) as (q & c & Ha & Hl & Hh').
  exists q, c. split_and!; [done|done|]. intros ->. by destruct plans.
Qed.

Lemma plans_wf_homed_detach vds plans core v p :
  homed (mk_sys vds plans core) → vds !! v = Some (Some p) → plans ≠ [] →
  ∃ plans' core', plan_remove v true plans core = Ok (0%Z, plans', core') ∧
    homed (mk_sys (<[v:=None]> vds) plans' core') ∧ plans' ≠ [].
Proof.
  intros Hh Hv Hne. destruct (homed_detach vds plans core v p Hh Hv) as (q & c & Ha & Hl & Hh').
  exists q, c. split_and!; [done|done|]. intros ->. by destruct plans.
Qed.

(** *** Creation *)

Lemma new_device_eq s vid p :
  dstate_wf s → vdevs (vlist s) !! vid = Some None → devs s !! p = None →
  ∃ rps rc tps tc,
    new_device vid (Some p) true true true s =
      Ok (0%Z, mk_dstate (<[p:=new_vhost_dev vid]> (devs s))
        (mk_vlist (vl_num (vlist s) + 1) (<[vid:=Some p]> (vdevs (vlist s))))
        (routing s) (eth_rx_flows s) rps rc tps tc (nic s)) ∧
    homed (mk_sys (<[vid:=Some p]> (vdevs (vlist s))) rps rc) ∧ rps ≠ [] ∧
    homed (mk_sys (<[vid:=Some p]> (vdevs (vlist s))) tps tc) ∧ tps ≠ [].
Proof.
  intros (Hs & _ & (Hrx & Hrn & Htx & Htn) & _) Hv Hp.
  destruct (plans_wf_homed_attach _ _ _ vid p Hrx Hv Hrn) as (rps & rc & Ha & Hh & Hn).
  destruct (plans_wf_homed_attach _ _ _ vid p Htx Hv Htn) as (tps & tc & Ha' & Hh' & Hn').
  exists rps, rc, tps, tc. split; [|done]. unfold new_device.
  pose proof (vlist_room s vid Hs Hv) as Hroom. pose proof Hs as (Hl & Hnum & _).
  cbn [vlist set_devs]. replace (_ <=? _)%Z with false by (symmetry; lia). cbn [negb].
  unfold add_to_vdev_list. rewrite arr_set_lt by (by eapply lookup_lt_Some). cbn [mbind res_bind].
  unfold vhost_rx_plan_add, vhost_tx_plan_add.
  cbn [rx_plans vhost_rx_core tx_plans vhost_tx_core set_vlist set_rx set_devs].
  rewrite Ha. cbn [mbind res_bind]. cbn [negb Z.eqb]. rewrite Ha'. cbn [mbind res_bind negb Z.eqb].
  unfold u16. rewrite wrap_small; [done|]. unfold in_u, MAX_VHOSTS in *. lia.
Qed.

Lemma dstate_wf_new s s' vid p :
  dstate_wf s → vdevs (vlist s) !! vid = Some None → devs s !! p = None →
  new_device vid (Some p) true true true s = Ok (0%Z, s') → dstate_wf s'.
Proof.
  intros Hwf Hv Hp Hnew.
  destruct (new_device_eq s vid p Hwf Hv Hp) as (rps & rc & tps & tc & E & Hplans).
  rewrite E in Hnew. injection Hnew as <-. clear E.
  destruct Hwf as ((Hl & Hnum & Hdev & Hinj) & (Hrl & Hroute) & _ & Hfl).
  assert (vid < length (vdevs (vlist s))) as Hlt by by eapply lookup_lt_Some.
  assert (∀ i q, slot_is s i q → q ≠ p) as Hfresh.
  { intros i q Hi ->. destruct (Hdev i p Hi) as (d & Hd & _). congruence. }
  assert (∀ i q, (<[vid:=Some p]> (vdevs (vlist s))) !! i = Some (Some q) ↔
    (i = vid ∧ q = p) ∨ (i ≠ vid ∧ slot_is s i q)) as Hslot.
  { intros i q. unfold slot_is. destruct (decide (i = vid)) as [->|Hne].
    - rewrite list_lookup_insert_eq by done. split; [intros [= ->]; by left|by intros [[_ ->]|[? _]]].
    - rewrite list_lookup_insert_ne by done. split; [by right|by intros [[? _]|[_ ?]]]. }
  unfold dstate_wf, slots_wf, routes_wf, plans_wf, slot_is.
  cbn [vlist devs routing eth_rx_flows rx_plans tx_plans vhost_rx_core vhost_tx_core vdevs vl_num].
  destruct Hplans as (Hh1 & Hn1 & Hh2 & Hn2). split_and!; try done.
  - by rewrite length_insert.
  - pose proof (count_insert is_Some (vdevs (vlist s)) vid None (Some p) Hv) as Hc.
    rewrite decide_False in Hc by by intros [? ?]. rewrite decide_True in Hc by by eexists.
    rewrite Hnum. lia.
  - intros i q [[-> ->]|[Hne Hi]]%Hslot.
    + exists (new_vhost_dev vid). rewrite lookup_insert_eq. split; [done|]. split; [done|by left].
    + rewrite lookup_insert_ne by (symmetry; by eapply Hfresh). by apply Hdev.
  - intros i j q [[-> ->]|[Hi1 Hi2]]%Hslot [[-> Hq]|[Hj1 Hj2]]%Hslot; try done.
    + by destruct (Hfresh j p Hj2).
    + subst q. by destruct (Hfresh i p Hi2).
    + by apply (Hinj i j q).
  - intros o v Ho. destruct (Hroute o v Ho) as [?|(i & q & d & -> & Hi & Hd & Hr & Hoct)]; [by left|].
    right. exists i, q, d. split_and!; try done.
    + apply Hslot. right. split; [|done]. intros ->. unfold slot_is in Hi. congruence.
    + by rewrite lookup_insert_ne by (symmetry; by eapply Hfresh).
Qed.

(** *** Flow rules *)

Definition flow_slot (d : vhost_dev) : nat := Z.to_nat (vm_id d).

Lemma flow_get_in s d :
  (0 ≤ vm_id d < Z.of_nat MAX_VHOSTS)%Z → length (eth_rx_flows s) = MAX_VHOSTS →
  ∃ f, flow_get (eth_rx_flows s) (vm_id d) = Ok f ∧ eth_rx_flows s !! flow_slot d = Some f.
Proof.
  intros Hr Hl. destruct (lookup_lt_is_Some_2 (eth_rx_flows s) (flow_slot d)) as [f Hf];
    [unfold flow_slot; lia|].
  exists f. split; [|done]. unfold flow_get.
  destruct (Z.ltb_spec (vm_id d) 0); [lia|]. by apply arr_get_Some.
Qed.

Lemma flow_get_out s d :
  ¬ (0 ≤ vm_id d < Z.of_nat MAX_VHOSTS)%Z → length (eth_rx_flows s) = MAX_VHOSTS →
  flow_get (eth_rx_flows s) (vm_id d) = Fault OutOfBounds.
Proof.
  intros Hr Hl. unfold flow_get, arr_get. destruct (Z.ltb_spec (vm_id d) 0); [done|].
  by rewrite lookup_ge_None_2 by lia.
Qed.

Lemma eth_queue_id_eq id queues :
  (0 ≤ id < Z.of_nat MAX_VHOSTS)%Z → (0 < queues)%Z → eth_queue_id id queues = Ok (id mod queues)%Z.
Proof.
  intros Hi Hq. unfold eth_queue_id. destruct (Z.eqb_spec queues 0); [lia|].
  rewrite Z.rem_mod_nonneg by lia. f_equal. apply wrap_small. unfold in_u, MAX_VHOSTS in *.
  pose proof (Z.mod_pos_bound id queues Hq). pose proof (Z.mod_le id queues). lia.
Qed.

Lemma install_cases queues flow p d s :
  devs s !! p = Some d → (0 ≤ vm_id d < Z.of_nat MAX_VHOSTS)%Z →
  length (eth_rx_flows s) = MAX_VHOSTS → (0 < queues)%Z →
  install_eth_rx_flow queues flow p s =
  let s1 := add_nic (rte_flow_create (dev_mac d) (vm_id d mod queues)) s in
  Ok (match eth_rx_flows s !! flow_slot d, flow with
      | Some (Some _), _ => ((-1)%Z, s)
      | _, None => ((-1)%Z, s1)
      | _, Some fl => (0%Z, set_flows (<[flow_slot d := Some fl]> (eth_rx_flows s)) s1)
      end).
Proof.
  intros Hd Hr Hl Hq. unfold install_eth_rx_flow. rewrite (heap_get_Some _ _ _ Hd). cbn [mbind res_bind].
  destruct (flow_get_in s d Hr Hl) as (f & -> & ->). cbn [mbind res_bind].
  destruct f; [done|]. rewrite eth_queue_id_eq by done. cbn [mbind res_bind].
  destruct flow; [|done]. rewrite arr_set_lt by (cbn; lia). done.
Qed.

Lemma uninstall_cases queues ok p d s :
  devs s !! p = Some d → (0 ≤ vm_id d < Z.of_nat MAX_VHOSTS)%Z →
  length (eth_rx_flows s) = MAX_VHOSTS → (0 < queues)%Z →
  uninstall_eth_rx_flow queues ok p s =
  Ok (match eth_rx_flows s !! flow_slot d with
      | Some (Some fl) => ((if ok then 0 else -1)%Z, add_nic (rte_flow_destroy fl) s)
      | _ => ((-1)%Z, s)
      end).
Proof.
  intros Hd Hr Hl Hq. unfold uninstall_eth_rx_flow. rewrite (heap_get_Some _ _ _ Hd). cbn [mbind res_bind].
  destruct (flow_get_in s d Hr Hl) as (f & -> & ->). cbn [mbind res_bind].
  destruct f; [|done]. rewrite eth_queue_id_eq by done. by destruct ok.
Qed.

(** Whatever it returns, only the list of NIC calls has changed. *)
Lemma uninstall_frame queues ok p d s :
  devs s !! p = Some d → (0 ≤ vm_id d < Z.of_nat MAX_VHOSTS)%Z →
  length (eth_rx_flows s) = MAX_VHOSTS → (0 < queues)%Z →
  ∃ r ns, uninstall_eth_rx_flow queues ok p s =
    Ok (r, mk_dstate (devs s) (vlist s) (routing s) (eth_rx_flows s)
      (rx_plans s) (vhost_rx_core s) (tx_plans s) (vhost_tx_core s) ns).
Proof.
  intros Hd Hr Hl Hq. rewrite (uninstall_cases queues ok p d s Hd Hr Hl Hq).
  destruct (eth_rx_flows s !! flow_slot d) as [[fl|]|]; [by eexists _, _| |]; exists (-1)%Z, (nic s); by destruct s.
Qed.

(** *** Learning *)

(** The device after [link_vmdq] on packet [b]. *)
Definition linked (b : list Z) (d : vhost_dev) : vhost_dev :=
  mk_dev (dev_vid d) (match learned_ip b with Some ip => vm_id_of ip | None => vm_id d end)
    (eth_src_addr b) (default (dev_ip d) (learned_ip b)) DEVICE_RX.

Definition route_added (vid : Z) (o : nat) (t : list Z) : list Z :=
  if decide (t !! o = Some (-1)%Z) then <[o:=vid]> t else t.

Lemma add_route_added vid ip t :
  length t = ROUTE_SIZE → ∃ r, add_route_entry vid ip t = Ok (r, route_added vid (last_octet ip) t).
Proof.
  intros Hl. unfold add_route_entry, route_added. pose proof (last_octet_lt ip).
  destruct (lookup_lt_is_Some_2 t (last_octet ip)) as [v Hv]; [lia|].
  rewrite (arr_get_Some _ _ _ Hv), Hv. cbn [mbind res_bind].
  destruct (Z.eqb_spec v (-1)) as [->|Hne]; cbn [negb].
  - rewrite arr_set_lt, decide_True by (done || lia). by eexists.
  - rewrite decide_False by congruence. by eexists.
Qed.

Lemma link_vmdq_eq p d b s :
  devs s !! p = Some d → length (routing s) = ROUTE_SIZE →
  link_vmdq p b s = Ok (mk_dstate (<[p := linked b d]> (devs s)) (vlist s)
    (route_added (dev_vid d) (last_octet (dev_ip (linked b d))) (routing s)) (eth_rx_flows s)
    (rx_plans s) (vhost_rx_core s) (tx_plans s) (vhost_tx_core s)
    (nic s ++ [rte_eth_dev_mac_addr_add (eth_src_addr b)])).
Proof.
  intros Hd Hl. unfold link_vmdq. rewrite (heap_get_Some _ _ _ Hd). cbn [mbind res_bind].
  unfold linked, learned_ip. destruct (is_ipv4 b); [|destruct (is_arp b)];
    cbn [dev_vid dev_ip dev_mac vm_id ready default from_option id routing add_nic devs];
    (edestruct (add_route_added (dev_vid d)) as (r & ->); [exact Hl|]);
    cbn [mbind res_bind]; rewrite (heap_set_Some _ _ _ _ Hd); done.
Qed.

Lemma length_route_added vid o t : length (route_added vid o t) = length t.
Proof. unfold route_added. case_decide; [apply length_insert|done]. Qed.

(** What [learn_device] does to a linkable VM. *)
Lemma learn_device_eq queues flow vid p d b s :
  slot_is s vid p → devs s !! p = Some d → length (routing s) = ROUTE_SIZE →
  length (eth_rx_flows s) = MAX_VHOSTS → (0 < queues)%Z →
  (0 ≤ vm_id (linked b d) < Z.of_nat MAX_VHOSTS)%Z →
  ∃ fs ns, length fs = MAX_VHOSTS ∧
    learn_device queues flow vid b s = Ok (mk_dstate (<[p := linked b d]> (devs s)) (vlist s)
      (route_added (dev_vid d) (last_octet (dev_ip (linked b d))) (routing s)) fs
      (rx_plans s) (vhost_rx_core s) (tx_plans s) (vhost_tx_core s) ns).
Proof.
  intros Hs Hd Hrl Hfl Hq Hr. unfold learn_device. rewrite (arr_get_Some _ _ _ Hs). cbn [mbind res_bind].
  rewrite (link_vmdq_eq p d b s Hd Hrl). cbn [mbind res_bind].
  rewrite (install_cases queues flow p (linked b d)); cbn [devs eth_rx_flows]; try done;
    [|apply lookup_insert_eq].
  cbv zeta. destruct (eth_rx_flows s !! flow_slot (linked b d)) as [[f|]|];
    [|destruct flow|destruct flow]; cbn [mbind res_bind]; eexists _, _; (split; [|reflexivity]);
    try done; by rewrite length_insert.
Qed.

Lemma dstate_wf_learn queues flow s s' vid p d b :
  (0 < queues)%Z → dstate_wf s → slot_is s vid p → devs s !! p = Some d → learns d b →
  learn_device queues flow vid b s = Ok s' → dstate_wf s'.
Proof.
  intros Hq ((Hl & Hnum & Hdev & Hinj) & (Hrl & Hroute) & Hplans & Hfl) Hs Hd (ip & Hip & Huse & Hsame) Hlearn.
  destruct (Hdev vid p Hs) as (d0 & Hd0 & (Hvid & Hst)). assert (d0 = d) as -> by congruence. clear Hd0.
  assert (dev_ip (linked b d) = ip ∧ vm_id (linked b d) = vm_id_of ip) as [Eip Evm]
    by (unfold linked; by rewrite Hip).
  destruct (learn_device_eq queues flow vid p d b s Hs Hd Hrl Hfl Hq) as (fs & ns & Hfs & E).
  { rewrite Evm. by apply usable_vm_id. }
  rewrite E, Eip in Hlearn. injection Hlearn as <-. clear E.
  assert (∀ i q e, slot_is s i q → (<[p:=linked b d]> (devs s)) !! q = Some e →
    (i = vid ∧ q = p ∧ e = linked b d) ∨ (q ≠ p ∧ devs s !! q = Some e)) as Hcase.
  { intros i q e Hi He. destruct (decide (p = q)) as [<-|Hne].
    - rewrite lookup_insert_eq in He. simplify_eq. left. split; [by eapply Hinj|done].
    - rewrite lookup_insert_ne in He by done. by right. }
  unfold dstate_wf, slots_wf, routes_wf, plans_wf, slot_is.
  cbn [vlist devs routing eth_rx_flows rx_plans tx_plans vhost_rx_core vhost_tx_core vdevs vl_num].
  destruct Hplans as (Hh1 & Hn1 & Hh2 & Hn2). split_and!; try done.
  - intros i q Hi. destruct (Hdev i q Hi) as (e & He & Hwfe). destruct (decide (p = q)) as [<-|Hne].
    + assert (i = vid) as -> by by eapply Hinj. exists (linked b d). rewrite lookup_insert_eq.
      split; [done|]. split; [done|]. right. split; [done|]. rewrite Evm. by apply usable_vm_id.
    + exists e. by rewrite lookup_insert_ne.
  - by rewrite length_route_added.
  - intros o v Ho.
    assert (v = dev_vid d ∧ o = last_octet ip ∨ routing s !! o = Some v) as [[-> ->]|Ho'].
    { unfold route_added in Ho. case_decide; [|by right].
      destruct (decide (o = last_octet ip)) as [->|Hne].
      - rewrite list_lookup_insert_eq in Ho by (pose proof (last_octet_lt ip); lia). left. by simplify_eq.
      - rewrite list_lookup_insert_ne in Ho by done. by right. }
    + right. exists vid, p, (linked b d). rewrite lookup_insert_eq, Eip. done.
    + destruct (Hroute o v Ho') as [?|(i & q & e & -> & Hi & He & Hr & Hoct)]; [by left|]. right.
      destruct (decide (p = q)) as [<-|Hne].
      * assert (i = vid) as -> by by eapply Hinj. assert (e = d) as -> by congruence.
        exists vid, p, (linked b d). rewrite lookup_insert_eq, Eip.
        split_and!; try done. rewrite <- Hoct. by apply Hsame.
      * exists i, q, e. by rewrite lookup_insert_ne.
Qed.

(** *** Destruction *)

Definition unlinked (d : vhost_dev) : vhost_dev :=
  if (ready d =? DEVICE_RX)%Z
  then mk_dev (dev_vid d) (vm_id d) (replicate 6 0%Z) 0 DEVICE_SAFE_REMOVE
  else mk_dev (dev_vid d) (vm_id d) (dev_mac d) (dev_ip d) DEVICE_SAFE_REMOVE.

Definition unlink_routing (d : vhost_dev) (t : list Z) : list Z :=
  if (ready d =? DEVICE_RX)%Z then <[last_octet (dev_ip d) := (-1)%Z]> t else t.

Definition unlink_nic (d : vhost_dev) : list nic_call :=
  if (ready d =? DEVICE_RX)%Z then [rte_eth_dev_mac_addr_remove (dev_mac d)] else [].

Lemma remove_route_removed ip t :
  length t = ROUTE_SIZE → ∃ r, remove_route_entry ip t = Ok (r, <[last_octet ip := (-1)%Z]> t).
Proof.
  intros Hl. unfold remove_route_entry. pose proof (last_octet_lt ip).
  destruct (lookup_lt_is_Some_2 t (last_octet ip)) as [v Hv]; [lia|].
  rewrite (arr_get_Some _ _ _ Hv). cbn [mbind res_bind].
  destruct (Z.eqb_spec v (-1)) as [->|Hne].
  - eexists. by rewrite list_insert_id.
  - rewrite arr_set_lt by lia. by eexists.
Qed.

Lemma unlink_vmdq_eq p d s :
  devs s !! p = Some d → length (routing s) = ROUTE_SIZE →
  unlink_vmdq p s = Ok (mk_dstate (<[p := unlinked d]> (devs s)) (vlist s)
    (unlink_routing d (routing s)) (eth_rx_flows s)
    (rx_plans s) (vhost_rx_core s) (tx_plans s) (vhost_tx_core s) (nic s ++ unlink_nic d)).
Proof.
  intros Hd Hl. unfold unlink_vmdq, unlinked, unlink_routing, unlink_nic.
  rewrite (heap_get_Some _ _ _ Hd). cbn [mbind res_bind].
  destruct (ready d =? DEVICE_RX)%Z.
  - cbn [routing add_nic]. destruct (remove_route_removed (dev_ip d) (routing s) Hl) as (r & ->).
    cbn [mbind res_bind devs set_routing add_nic]. by rewrite (heap_set_Some _ _ _ _ Hd).
  - cbn [mbind res_bind]. rewrite (heap_set_Some _ _ _ _ Hd). cbn. rewrite app_nil_r. by destruct s.
Qed.

(** The state [destroy_device] reaches before it removes the flow. *)
Lemma destroy_prefix queues vid p d ok s :
  dstate_wf s → slot_is s vid p → devs s !! p = Some d →
  ∃ rps rc tps tc,
    let s1 := mk_dstate (<[p := unlinked d]> (devs s))
      (mk_vlist (vl_num (vlist s) - 1) (<[vid:=None]> (vdevs (vlist s))))
      (unlink_routing d (routing s)) (eth_rx_flows s) rps rc tps tc (nic s ++ unlink_nic d) in
    destroy_device queues vid true true true ok s =
      ('(_, s2) ← uninstall_eth_rx_flow queues ok p s1; Ok s2) ∧
    homed (mk_sys (<[vid:=None]> (vdevs (vlist s))) rps rc) ∧ rps ≠ [] ∧
    homed (mk_sys (<[vid:=None]> (vdevs (vlist s))) tps tc) ∧ tps ≠ [].
Proof.
  intros ((Hl & Hnum & _ & _) & (Hrl & _) & (Hrx & Hrn & Htx & Htn) & _) Hs Hd.
  destruct (plans_wf_homed_detach _ _ _ vid p Hrx Hs Hrn) as (rps & rc & Ha & Hh & Hn).
  destruct (plans_wf_homed_detach _ _ _ vid p Htx Hs Htn) as (tps & tc & Ha' & Hh' & Hn').
  exists rps, rc, tps, tc. split; [|done]. unfold destroy_device.
  rewrite (arr_get_Some _ _ _ Hs). cbn [mbind res_bind].
  rewrite (unlink_vmdq_eq p d s Hd Hrl). cbn [mbind res_bind devs vlist].
  unfold remove_from_vdev_list. cbn [negb]. rewrite (arr_get_Some _ _ _ Hs). cbn [mbind res_bind].
  rewrite (heap_get_Some _ _ (unlinked d)) by apply lookup_insert_eq. cbn [mbind res_bind].
  replace (ready (unlinked d) =? DEVICE_SAFE_REMOVE)%Z with true by (unfold unlinked; by case_match).
  cbn [negb]. rewrite arr_set_lt by (by eapply lookup_lt_Some). cbn [mbind res_bind].
  unfold vhost_rx_plan_remove, vhost_tx_plan_remove.
  cbn [rx_plans vhost_rx_core tx_plans vhost_tx_core set_vlist set_rx set_devs vdevs].
  rewrite Ha. cbn [mbind res_bind negb Z.eqb]. rewrite Ha'. cbn [mbind res_bind negb Z.eqb].
  assert (0 < vl_num (vlist s) ≤ Z.of_nat MAX_VHOSTS)%Z as Hb.
  { pose proof (count_insert is_Some (vdevs (vlist s)) vid (Some p) None Hs) as Hc.
    rewrite decide_True in Hc by by eexists. rewrite decide_False in Hc by by intros [? ?].
    pose proof (length_filter is_Some (vdevs (vlist s))). lia. }
  unfold u16. rewrite wrap_small; [done|]. unfold in_u, MAX_VHOSTS in *. lia.
Qed.

Lemma destroy_device_eq queues vid p d ok s :
  dstate_wf s → slot_is s vid p → devs s !! p = Some d → (0 < queues)%Z → ready d = DEVICE_RX →
  ∃ rps rc tps tc ns,
    destroy_device queues vid true true true ok s =
      Ok (mk_dstate (<[p := unlinked d]> (devs s))
        (mk_vlist (vl_num (vlist s) - 1) (<[vid:=None]> (vdevs (vlist s))))
        (<[last_octet (dev_ip d) := (-1)%Z]> (routing s)) (eth_rx_flows s) rps rc tps tc ns) ∧
    homed (mk_sys (<[vid:=None]> (vdevs (vlist s))) rps rc) ∧ rps ≠ [] ∧
    homed (mk_sys (<[vid:=None]> (vdevs (vlist s))) tps tc) ∧ tps ≠ [].
Proof.
  intros Hwf Hs Hd Hq Hrx. destruct (destroy_prefix queues vid p d ok s Hwf Hs Hd)
    as (rps & rc & tps & tc & E & Hplans).
  pose proof Hwf as ((_ & _ & Hdev & _) & _ & _ & Hfl).
  destruct (Hdev vid p Hs) as (d0 & Hd0 & (_ & Hst)). assert (d0 = d) as -> by congruence.
  assert (0 ≤ vm_id d < Z.of_nat MAX_VHOSTS)%Z as Hr.
  { destruct Hst as [Hst|[_ ?]]; [|done]. rewrite Hst in Hrx. done. }
  cbv zeta in E. edestruct (uninstall_frame queues ok p (unlinked d)) as (r & ns & Hu);
    [| | | |rewrite Hu in E]; cbn [devs eth_rx_flows]; try done.
  - apply lookup_insert_eq.
  - unfold unlinked. by case_match.
  - exists rps, rc, tps, tc, ns. split; [|done]. rewrite E. cbn.
    unfold unlink_routing. by rewrite Hrx.
Qed.

Lemma dstate_wf_destroy queues s s' vid p d ok :
  (0 < queues)%Z → dstate_wf s → slot_is s vid p → devs s !! p = Some d → ready d = DEVICE_RX →
  destroy_device queues vid true true true ok s = Ok s' → dstate_wf s'.
Proof.
  intros Hq Hwf Hs Hd Hrx Hdes.
  destruct (destroy_device_eq queues vid p d ok s Hwf Hs Hd Hq Hrx)
    as (rps & rc & tps & tc & ns & E & Hh1 & Hn1 & Hh2 & Hn2).
  rewrite E in Hdes. injection Hdes as <-. clear E.
  destruct Hwf as ((Hl & Hnum & Hdev & Hinj) & (Hrl & Hroute) & _ & Hfl).
  assert (vid < length (vdevs (vlist s))) as Hlt by by eapply lookup_lt_Some.
  assert (∀ i q, (<[vid:=None]> (vdevs (vlist s))) !! i = Some (Some q) ↔ i ≠ vid ∧ slot_is s i q) as Hslot.
  { intros i q. unfold slot_is. destruct (decide (i = vid)) as [->|Hne].
    - rewrite list_lookup_insert_eq by done. split; [done|by intros [? _]].
    - rewrite list_lookup_insert_ne by done. split; [done|by intros [_ ?]]. }
  assert (∀ i q, i ≠ vid → slot_is s i q → q ≠ p) as Hother.
  { intros i q Hne Hi ->. by destruct (Hinj i vid p Hi Hs). }
  unfold dstate_wf, slots_wf, routes_wf, plans_wf, slot_is.
  cbn [vlist devs routing eth_rx_flows rx_plans tx_plans vhost_rx_core vhost_tx_core vdevs vl_num].
  split_and!; try done.
  - by rewrite length_insert.
  - pose proof (count_insert is_Some (vdevs (vlist s)) vid (Some p) None Hs) as Hc.
    rewrite decide_True in Hc by by eexists. rewrite decide_False in Hc by by intros [? ?].
    rewrite Hnum. lia.
  - intros i q [Hne Hi]%Hslot. destruct (Hdev i q Hi) as (e & He & Hwfe). exists e.
    rewrite lookup_insert_ne by (symmetry; by apply (Hother i)). done.
  - intros i j q [_ Hi]%Hslot [_ Hj]%Hslot. by apply (Hinj i j q).
  - by rewrite length_insert.
  - intros o v Ho. destruct (decide (o = last_octet (dev_ip d))) as [->|Hne].
    + rewrite list_lookup_insert_eq in Ho by (pose proof (last_octet_lt (dev_ip d)); lia).
      left. congruence.
    + rewrite list_lookup_insert_ne in Ho by done.
      destruct (Hroute o v Ho) as [?|(i & q & e & -> & Hi & He & Hr & Hoct)]; [by left|]. right.
      assert (i ≠ vid) as Hiv.
      { intros ->. unfold slot_is in Hi, Hs. rewrite Hs in Hi. injection Hi as ->.
        apply Hne. rewrite <- Hoct. congruence. }
      exists i, q, e. rewrite lookup_insert_ne by (symmetry; by apply (Hother i)).
      split_and!; try done. by apply Hslot.
Qed.

(** *** The number of plans *)

Lemma new_device_plans vid p s r s' :
  new_device vid (Some p) true true true s = Ok (r, s') → length (rx_plans s') = length (rx_plans s).
Proof.
  unfold new_device, vhost_rx_plan_add, vhost_tx_plan_add. cbn [negb]. intros Heq.
  destruct (_ <=? _)%Z; [bind_step Heq as h Eh; by injection Heq as _ <-|].
  bind_step Heq as l El. bind_step Heq as [[r1 ps] c] E1. apply plan_add_length in E1. cbn [rx_plans set_vlist set_devs] in E1.
  destruct (negb _); [bind_step Heq as h Eh; by injection Heq as _ <-|].
  bind_step Heq as [[r2 ps2] c2] E2. destruct (negb _); [bind_step Heq as h Eh|]; by injection Heq as _ <-.
Qed.

Lemma unlink_vmdq_plans p s s' : unlink_vmdq p s = Ok s' → rx_plans s' = rx_plans s.
Proof.
  unfold unlink_vmdq. intros Heq. bind_step Heq as d Ed. bind_step Heq as [d1 s1] E1. bind_step Heq as h Eh.
  injection Heq as <-. cbn [rx_plans set_devs]. destruct (ready d =? DEVICE_RX)%Z; [|by injection E1 as _ <-].
  bind_step E1 as [x t] Et. by injection E1 as _ <-.
Qed.

Lemma destroy_device_plans queues vid ok s s' :
  destroy_device queues vid true true true ok s = Ok s' → length (rx_plans s') = length (rx_plans s).
Proof.
  unfold destroy_device, vhost_rx_plan_remove, vhost_tx_plan_remove. intros Heq. bind_step Heq as slot Es.
  destruct slot as [p|]; [|by injection Heq as <-]. bind_step Heq as s1 E1. apply unlink_vmdq_plans in E1.
  bind_step Heq as o Eo. destruct o as [l|]; [|injection Heq as <-; by rewrite E1].
  bind_step Heq as [[r ps] c] E2. apply plan_remove_length in E2. cbn [rx_plans set_vlist] in E2.
  destruct (negb _); [injection Heq as <-; cbn; congruence|].
  bind_step Heq as [[r2 ps2] c2] E3. destruct (negb _); [injection Heq as <-; cbn; congruence|].
  bind_step Heq as [x s2] E4. injection Heq as <-. unfold uninstall_eth_rx_flow in E4.
  bind_step E4 as d Ed. bind_step E4 as f Ef. destruct f; [|injection E4 as _ <-; cbn; congruence].
  bind_step E4 as q Eq. destruct ok; injection E4 as _ <-; cbn; congruence.
Qed.

(** *** Recomputation and reachability *)

Lemma homed_calc_rx vds core plans alloc stats plans' stats' :
  homed (mk_sys vds plans core) → plans ≠ [] →
  Forall (λ st, length st = MAX_VHOSTS) stats → length stats = length plans →
  calculate_vhost_rx_plan alloc vds core plans stats = Ok (plans', stats') →
  homed (mk_sys vds plans' core) ∧ plans' ≠ [].
Proof.
  intros Hh Hne Hf Hl Hc. apply (homed_step (mk_sys vds plans core) (mk_sys vds plans' core) Hh Hne).
  by eapply sys_calc_rx.
Qed.

Lemma homed_calc_tx vds core plans alloc plans' :
  homed (mk_sys vds plans core) → plans ≠ [] →
  calculate_vhost_tx_plan alloc vds core plans = Ok plans' →
  homed (mk_sys vds plans' core) ∧ plans' ≠ [].
Proof.
  intros Hh Hne Hc. apply (homed_step (mk_sys vds plans core) (mk_sys vds plans' core) Hh Hne).
  by eapply sys_calc_tx.
Qed.

Lemma dstate_wf_init rx tx : 0 < rx → 0 < tx → dstate_wf (init_dstate rx tx).
Proof.
  intros Hrx Htx. unfold init_dstate. rewrite init_route_table_eq by done.
  unfold dstate_wf, slots_wf, routes_wf, plans_wf, slot_is.
  cbn [vlist devs routing eth_rx_flows rx_plans tx_plans vhost_rx_core vhost_tx_core vdevs vl_num].
  assert (∀ vid p, replicate MAX_VHOSTS None !! vid ≠ Some (Some p : option nat)) as Hno.
  { intros vid p H. by apply lookup_replicate in H as [? _]. }
  split_and!; try done.
  - intros vid p H. by destruct (Hno vid p).
  - intros i j p H. by destruct (Hno i p).
  - intros o v H. apply lookup_replicate in H as [-> _]. by left.
  - apply (homed_init rx).
  - by destruct rx; [lia|].
  - apply (homed_init tx).
  - by destruct tx; [lia|].
Qed.

(** A creation that fails early publishes nothing; at worst the device is leaked. *)
Lemma new_device_failed vid o al ar at_ (s : dstate) :
  from_option (λ p, devs s !! p = None) True o → o = None ∨ al = false ∨ (Z.of_nat MAX_VHOSTS <= vl_num (vlist s))%Z →
  new_device vid o al ar at_ s = Ok ((-1)%Z, s) ∨
  ∃ p, devs s !! p = None ∧ new_device vid o al ar at_ s = Ok ((-1)%Z, set_devs (<[p := new_vhost_dev vid]> (devs s)) s).
Proof.
  intros Ho Hf. unfold new_device. destruct o as [p|]; [|by left]. cbn [from_option] in Ho. cbn [vlist set_devs].
  destruct (Z.leb_spec (Z.of_nat MAX_VHOSTS) (vl_num (vlist s))).
  - left. unfold heap_free. cbn [devs set_devs]. rewrite lookup_insert_eq. cbn [mbind res_bind].
    rewrite delete_insert_id by done. by destruct s.
  - right. exists p. split; [done|]. destruct Hf as [?|[->|?]]; [done|done|lia].
Qed.

Lemma dstate_wf_leak p d (s : dstate) : devs s !! p = None → dstate_wf s → dstate_wf (set_devs (<[p := d]> (devs s)) s).
Proof.
  intros Hp ((Hl & Hnum & Hdev & Hinj) & (Hrl & Hroute) & Hpl & Hfl).
  assert (∀ q e, devs s !! q = Some e → <[p := d]> (devs s) !! q = Some e) as Hkeep
    by (intros q e He; rewrite lookup_insert_ne; [done|congruence]).
  split; [|split; [|by split]].
  - split_and!; try done. intros vid q Hs. destruct (Hdev vid q Hs) as (e & He & Hwf). exists e. auto.
  - split; [done|]. intros o v Ho. destruct (Hroute o v Ho) as [?|(vid & q & e & Hv)]; [by left|right].
    exists vid, q, e. destruct Hv as (? & ? & ? & ? & ?). split_and!; auto.
Qed.

Lemma dstate_wf_step queues s s' : (0 < queues)%Z → dstate_wf s → life_step queues s s' → dstate_wf s'.
Proof.
  intros Hq Hwf Hstep. destruct Hstep as [s s' vid p Hv Hp Hn|s s' vid o al ar at_ Ho Hf Hn|s s' vid p d b flow Hs Hd Hb Hl
    |s s' vid p d ok Hs Hd Hr Hdes|s alloc stats plans' stats' Hf Hl Hc|s alloc plans' Hc].
  - by eapply dstate_wf_new.
  - destruct (new_device_failed vid o al ar at_ s Ho Hf) as [E|(p & Hp & E)]; rewrite E in Hn; injection Hn as <-; [done|].
    by apply dstate_wf_leak.
  - by eapply dstate_wf_learn.
  - by eapply dstate_wf_destroy.
  - destruct Hwf as (? & ? & (Hh & Hn & ? & ?) & ?).
    destruct (homed_calc_rx _ _ _ _ _ _ _ Hh Hn Hf Hl Hc). by unfold dstate_wf, plans_wf.
  - destruct Hwf as (? & ? & (? & ? & Hh & Hn) & ?).
    destruct (homed_calc_tx _ _ _ _ _ Hh Hn Hc). by unfold dstate_wf, plans_wf.
Qed.

Lemma dstate_wf_reach queues rx tx s :
  (0 < queues)%Z → 0 < rx → 0 < tx → life_reach queues rx tx s → dstate_wf s.
Proof.
  intros Hq Hrx Htx. induction 1 as [|s s' _ IH Hstep]; [by apply dstate_wf_init|].
  by apply (dstate_wf_step queues s).
Qed.

(** ** Properties *)


(** [C37] What learning does.  The source MAC of the packet is stored and announced to
    the NIC; an IPv4 or ARP source address gives the address and [vm_id] (last octet
    minus 2), any other frame keeps the old ones; the route is added if its octet is
    free and is left to its owner otherwise; the device is published as ready either
    way.  When [vm_id] is within the flow table, a NIC rule to queue [vm_id mod
    eth_rx_queues] is requested unless one is recorded; when it is not (address
    ending in 0, 1 or above 65, or a first frame that is neither IPv4 nor ARP) the
    flow table is accessed out of bounds. *)
Theorem learn_device_correct queues flow vid p d b (s : dstate) :
  dstate_wf s → (0 < queues)%Z → slot_is s vid p → devs s !! p = Some d →
  let d' := linked b d in
  dev_mac d' = eth_src_addr b ∧ ready d' = DEVICE_RX ∧ dev_vid d' = dev_vid d ∧
  (∀ ip, learned_ip b = Some ip → dev_ip d' = ip ∧ vm_id d' = (ip mod 256 - 2)%Z) ∧
  (learned_ip b = None → dev_ip d' = dev_ip d ∧ vm_id d' = vm_id d) ∧
  ((0 ≤ vm_id d' < Z.of_nat MAX_VHOSTS)%Z →
     ∃ s', learn_device queues flow vid b s = Ok s' ∧
       devs s' = <[p := d']> (devs s) ∧ vlist s' = vlist s ∧
       (routing s !! last_octet (dev_ip d') = Some (-1)%Z →
          find_vid_by_ip (dev_ip d') (routing s') = Ok (Z.of_nat vid)) ∧
       (routing s !! last_octet (dev_ip d') ≠ Some (-1)%Z → routing s' = routing s) ∧
       match eth_rx_flows s !! flow_slot d', flow with
       | Some (Some _), _ =>
           eth_rx_flows s' = eth_rx_flows s ∧ nic s' = nic s ++ [rte_eth_dev_mac_addr_add (dev_mac d')]
       | _, _ =>
           eth_rx_flows s' = <[flow_slot d' := flow]> (eth_rx_flows s) ∧
           nic s' = nic s ++ [rte_eth_dev_mac_addr_add (dev_mac d');
                              rte_flow_create (dev_mac d') (vm_id d' mod queues)]
       end) ∧
  (¬ (0 ≤ vm_id d' < Z.of_nat MAX_VHOSTS)%Z → learn_device queues flow vid b s = Fault OutOfBounds).
Proof.
  intros ((Hl & _ & Hdev & _) & (Hrl & _) & _ & Hfl) Hq Hs Hd d'.
  destruct (Hdev vid p Hs) as (d0 & Hd0 & (Hvid & _)). assert (d0 = d) as -> by congruence.
  split; [done|]. split; [done|]. split; [done|].
  split; [intros ip Hip; unfold d', linked; rewrite Hip; by rewrite vm_id_of_eq|].
  split; [intros Hn; unfold d', linked; by rewrite Hn|].
  set (s1 := mk_dstate (<[p := d']> (devs s)) (vlist s)
    (route_added (dev_vid d) (last_octet (dev_ip d')) (routing s)) (eth_rx_flows s)
    (rx_plans s) (vhost_rx_core s) (tx_plans s) (vhost_tx_core s)
    (nic s ++ [rte_eth_dev_mac_addr_add (eth_src_addr b)])).
  assert (learn_device queues flow vid b s =
    ('(_, s2) ← install_eth_rx_flow queues flow p s1; Ok s2)) as ->.
  { unfold learn_device. rewrite (arr_get_Some _ _ _ Hs). cbn [mbind res_bind].
    by rewrite (link_vmdq_eq p d b s Hd Hrl). }
  assert (devs s1 !! p = Some d') as Hd1 by apply lookup_insert_eq. split.
  - intros Hr. pose proof (last_octet_lt (dev_ip d')) as Ho.
    assert (routing s !! last_octet (dev_ip d') = Some (-1)%Z →
      find_vid_by_ip (dev_ip d') (routing s1) = Ok (Z.of_nat vid)) as Hadd.
    { intros Hfree. apply arr_get_Some. cbn [routing s1]. unfold s1. cbn [routing].
      unfold route_added. rewrite decide_True, Hvid by done. apply list_lookup_insert_eq. lia. }
    assert (routing s !! last_octet (dev_ip d') ≠ Some (-1)%Z → routing s1 = routing s) as Hkeep.
    { intros Hnf. unfold s1. cbn [routing]. unfold route_added. by rewrite decide_False. }
    rewrite (install_cases queues flow p d' s1 Hd1 Hr Hfl Hq). cbv zeta.
    change (eth_rx_flows s1) with (eth_rx_flows s).
    destruct (flow_get_in s d' Hr Hfl) as (f & _ & Hf). rewrite Hf. destruct f as [f|].
    + eexists. split; [done|]. by split_and!.
    + destruct flow as [fl|]; (eexists; split; [done|]); split_and!; try done.
      * cbn [nic set_flows add_nic]. unfold s1. cbn [nic]. by rewrite <- app_assoc.
      * symmetry. by apply list_insert_id.
      * cbn [nic add_nic]. unfold s1. cbn [nic]. by rewrite <- app_assoc.
  - intros Hr. unfold install_eth_rx_flow. rewrite (heap_get_Some _ _ _ Hd1). cbn [mbind res_bind].
    by rewrite (flow_get_out s1 d').
Qed.

(** [C38] What destruction does.  A linked device is unpublished: its slot becomes
    NULL, its MAC is withdrawn from the NIC, the route of its octet is deleted, it
    leaves both plans, and the flow rule on record (if any) is destroyed in the NIC;
    every other device and route is untouched.  A device that never sent a packet
    still has [vm_id] -1, and destroying it reads [eth_rx_flows[-1]]. *)
Theorem destroy_device_correct queues vid p d ok (s : dstate) :
  dstate_wf s → (0 < queues)%Z → slot_is s vid p → devs s !! p = Some d →
  (ready d = DEVICE_RX →
     ∃ s', destroy_device queues vid true true true ok s = Ok s' ∧
       vdevs (vlist s') !! vid = Some None ∧
       (∀ i, i ≠ vid → vdevs (vlist s') !! i = vdevs (vlist s) !! i) ∧
       vl_num (vlist s') = (vl_num (vlist s) - 1)%Z ∧
       devs s' = <[p := unlinked d]> (devs s) ∧
       find_vid_by_ip (dev_ip d) (routing s') = Ok (-1)%Z ∧
       (∀ o, o ≠ last_octet (dev_ip d) → routing s' !! o = routing s !! o) ∧
       (∀ i q, (rx_plans s' !! i = Some q ∨ tx_plans s' !! i = Some q) → vid ∉ plan_list q) ∧
       eth_rx_flows s' = eth_rx_flows s ∧
       nic s' = nic s ++ rte_eth_dev_mac_addr_remove (dev_mac d) ::
         match eth_rx_flows s !! flow_slot d with Some (Some fl) => [rte_flow_destroy fl] | _ => [] end) ∧
  (d = new_vhost_dev vid → destroy_device queues vid true true true ok s = Fault OutOfBounds).
Proof.
  intros Hwf Hq Hs Hd. destruct (destroy_prefix queues vid p d ok s Hwf Hs Hd)
    as (rps & rc & tps & tc & E & Hh1 & _ & Hh2 & _). cbv zeta in E. rewrite E. clear E.
  set (s1 := mk_dstate _ _ _ _ _ _ _ _ _).
  pose proof Hwf as ((Hl & _ & Hdev & _) & (Hrl & _) & _ & Hfl).
  assert (devs s1 !! p = Some (unlinked d)) as Hd1 by apply lookup_insert_eq.
  assert (vm_id (unlinked d) = vm_id d) as Hid by (unfold unlinked; by case_match).
  assert (vid < length (vdevs (vlist s))) as Hlt by by eapply lookup_lt_Some.
  split.
  - intros Hr. destruct (Hdev vid p Hs) as (d0 & Hd0 & (_ & Hst)). assert (d0 = d) as -> by congruence.
    assert (0 ≤ vm_id d < Z.of_nat MAX_VHOSTS)%Z as Hrange.
    { destruct Hst as [Hst|[_ ?]]; [|done]. rewrite Hst in Hr. done. }
    rewrite (uninstall_cases queues ok p (unlinked d) s1) by (rewrite ?Hid; done).
    change (eth_rx_flows s1) with (eth_rx_flows s). unfold flow_slot. rewrite Hid. fold (flow_slot d).
    assert (∀ r s', (s' = s1 ∨ ∃ fl, s' = add_nic (rte_flow_destroy fl) s1) →
      ('(_, s2) ← Ok (r : Z, s'); Ok s2) = Ok s') as Hret by done.
    assert (routing s1 = <[last_octet (dev_ip d) := (-1)%Z]> (routing s)) as Hrt
      by (unfold s1, unlink_routing; by rewrite Hr).
    assert (nic s1 = nic s ++ [rte_eth_dev_mac_addr_remove (dev_mac d)]) as Hnic
      by (unfold s1, unlink_nic; by rewrite Hr).
    assert (∀ i q, rps !! i = Some q ∨ tps !! i = Some q → vid ∉ plan_list q) as Hplans.
    { intros i q Hor Hin. assert (vm_live (<[vid:=None]> (vdevs (vlist s))) vid) as Hlive.
      - destruct Hor as [Hi|Hi].
        + destruct Hh1 as (_ & _ & _ & Hp & _). by apply (Hp i q vid Hi) in Hin as [? _].
        + destruct Hh2 as (_ & _ & _ & Hp & _). by apply (Hp i q vid Hi) in Hin as [? _].
      - by apply vm_live_insert_None in Hlive as [? _]. }
    pose proof (last_octet_lt (dev_ip d)) as Ho.
    destruct (eth_rx_flows s !! flow_slot d) as [[fl|]|]; cbn [mbind res_bind]; eexists; (split; [done|]);
      cbn [vlist devs routing eth_rx_flows rx_plans tx_plans nic add_nic vdevs vl_num];
      rewrite ?Hrt, ?Hnic, <- ?app_assoc; split_and!; try done.
    all: try (intros; unfold s1; cbn [vlist vdevs]; first [by apply list_lookup_insert_eq|by apply list_lookup_insert_ne]).
    all: try (by apply arr_get_Some, list_lookup_insert_eq; lia).
    all: intros o Hne; by apply list_lookup_insert_ne.
  - intros ->. unfold uninstall_eth_rx_flow. rewrite (heap_get_Some _ _ _ Hd1). cbn [mbind res_bind].
    rewrite flow_get_out; [done|rewrite Hid; cbn; lia|done].
Qed.

(** A flow rule is installed at most once per VM number: after a successful
    [uninstall_eth_rx_flow] the table still records the destroyed handle, so the
    next VM with that number is refused a rule without any call to the NIC, and a
    second uninstall hands the dead handle to [rte_flow_destroy] again. *)
Theorem flow_handle_goes_stale queues fl p q d e flow (s s1 : dstate) :
  devs s !! p = Some d → devs s !! q = Some e → vm_id e = vm_id d →
  (0 ≤ vm_id d < Z.of_nat MAX_VHOSTS)%Z → length (eth_rx_flows s) = MAX_VHOSTS → (0 < queues)%Z →
  eth_rx_flows s !! flow_slot d = Some (Some fl) →
  uninstall_eth_rx_flow queues true p s = Ok (0%Z, s1) →
  nic s1 = nic s ++ [rte_flow_destroy fl] ∧
  install_eth_rx_flow queues flow q s1 = Ok ((-1)%Z, s1) ∧
  ∃ s2, uninstall_eth_rx_flow queues true q s1 = Ok (0%Z, s2) ∧ nic s2 = nic s1 ++ [rte_flow_destroy fl].
Proof.
  intros Hd He Hid Hr Hl Hq Hf Hun. rewrite (uninstall_cases queues true p d s Hd Hr Hl Hq), Hf in Hun.
  injection Hun as <-. split; [done|].
  assert (flow_slot e = flow_slot d) as Hslot by (unfold flow_slot; by rewrite Hid).
  rewrite <- Hid in Hr. split.
  - rewrite (install_cases queues flow q e) by done. cbn [eth_rx_flows add_nic]. by rewrite Hslot, Hf.
  - rewrite (uninstall_cases queues true q e) by done. cbn [eth_rx_flows add_nic]. rewrite Hslot, Hf.
    by eexists.
Qed.

(** The error returns of [new_device].  Without memory for the device, or with a
    full list (the new device is freed), nothing is published.  But the plans are
    extended after publication: when that fails the device is freed while its slot
    still points at it, so the next access through the slot is a use after free. *)
Theorem new_device_errors (vid p : nat) (s : dstate) :
  dstate_wf s → devs s !! p = None →
  (∀ al ar at_, new_device vid None al ar at_ s = Ok ((-1)%Z, s)) ∧
  ((Z.of_nat MAX_VHOSTS ≤ vl_num (vlist s))%Z →
     ∀ al ar at_, new_device vid (Some p) al ar at_ s = Ok ((-1)%Z, s)) ∧
  (vdevs (vlist s) !! vid = Some None →
     new_device vid (Some p) false true true s =
       Ok ((-1)%Z, set_devs (<[p := new_vhost_dev vid]> (devs s)) s) ∧
     ∃ s', new_device vid (Some p) true false true s = Ok ((-1)%Z, s') ∧
       slot_is s' vid p ∧ check_device_state (Some p) (devs s') = Fault UseAfterFree ∧
       ∀ queues ok, destroy_device queues vid true true true ok s' = Fault UseAfterFree).
Proof.
  intros Hwf Hp. split; [done|]. split.
  - intros Hfull al ar at_. unfold new_device. cbn [vlist set_devs].
    replace (_ <=? _)%Z with true by (symmetry; lia). unfold heap_free. cbn [devs set_devs].
    rewrite lookup_insert_eq. cbn. rewrite delete_insert_id by done. by destruct s.
  - intros Hv. pose proof Hwf as (Hs & _ & (Hh & _) & _). pose proof (vlist_room s vid Hs Hv) as Hroom.
    pose proof Hs as (Hl & _). unfold new_device. cbn [vlist set_devs].
    replace (_ <=? _)%Z with false by (symmetry; lia). cbn [negb]. split; [done|].
    assert (vid < length (vdevs (vlist s))) as Hlt by by eapply lookup_lt_Some.
    unfold add_to_vdev_list. rewrite arr_set_lt by done. cbn [mbind res_bind].
    cbn [rx_plans vhost_rx_core set_vlist set_devs]. unfold vhost_rx_plan_add.
    destruct Hh as (_ & Hlc & Hpw & _). cbn [sys_core sys_plans] in *.
    assert (plan_add vid false (rx_plans s) (vhost_rx_core s) =
      Ok ((-1)%Z, rx_plans s, vhost_rx_core s)) as ->.
    { destruct (plan_add_cases vid false (rx_plans s) (vhost_rx_core s)) as
        [[_ ?]|(i & r & r' & _ & _ & _ & _ & _ & _ & ?)]; [by apply plan_shape_Forall|done|lia|done|done]. }
    cbn [mbind res_bind]. unfold heap_free. cbn [devs set_rx set_vlist set_devs].
    rewrite lookup_insert_eq. cbn [mbind res_bind]. eexists. split; [done|].
    assert (delete p (<[p:=new_vhost_dev vid]> (devs s)) !! p = None) as Hgone by apply lookup_delete_eq.
    split_and!.
    + by apply list_lookup_insert_eq.
    + cbn [check_device_state devs set_devs]. unfold heap_get. by rewrite Hgone.
    + intros queues ok. unfold destroy_device. cbn [vlist vdevs set_devs set_rx set_vlist].
      unfold arr_get at 1. rewrite list_lookup_insert_eq by done. cbn [mbind res_bind].
      unfold unlink_vmdq, heap_get. cbn [devs set_devs]. by rewrite Hgone.
Qed.

(** A run of the events from the initial state, on one core in each direction. *)
Definition demo_ip_packet (octet : Z) : list Z :=
  demo_ip_buf 0 17 [192;168;100;octet]%Z [192;168;100;1]%Z.

Definition two_addresses_run : res dstate :=
  '(_, s) ← new_device 0 (Some 100) true true true (init_dstate 1 1);
  s ← learn_device 4 (Some 7) 0 (demo_ip_packet 5) s;
  s ← learn_device 4 (Some 8) 0 (demo_ip_packet 7) s;
  destroy_device 4 0 true true true true s.

(** A route is not tied to the VM that created it.  Destroying a VM deletes the
    route of its octet even when it belongs to another linked VM with the same last
    octet (which was refused, not rejected, when it learned); and a VM that learned
    two addresses, which happens when its second learning message is processed
    after it has changed address, leaves the first route behind: it then leads to an
    empty slot. *)
Theorem route_ownership_gaps :
  (∀ queues i j p q d e ok (s : dstate),
     dstate_wf s → (0 < queues)%Z → i ≠ j → slot_is s i p → slot_is s j q →
     devs s !! p = Some d → devs s !! q = Some e → ready d = DEVICE_RX → ready e = DEVICE_RX →
     last_octet (dev_ip d) = last_octet (dev_ip e) →
     ∃ s', destroy_device queues i true true true ok s = Ok s' ∧
       slot_is s' j q ∧ devs s' !! q = Some e ∧
       find_vid_by_ip (dev_ip e) (routing s') = Ok (-1)%Z) ∧
  (∃ s, two_addresses_run = Ok s ∧ vdevs (vlist s) !! 0 = Some None ∧
     find_vid_by_ip 0xC0A86405%Z (routing s) = Ok 0%Z ∧
     find_vid_by_ip 0xC0A86407 (routing s) = Ok (-1)%Z).
Proof.
  split.
  - intros queues i j p q d e ok s Hwf Hq Hij Hi Hj Hd He Hrd Hre Hoct.
    destruct (destroy_device_eq queues i p d ok s Hwf Hi Hd Hq Hrd)
      as (rps & rc & tps & tc & ns & E & _). rewrite E. eexists. split; [done|].
    pose proof Hwf as ((_ & _ & _ & Hinj) & (Hrl & _) & _).
    unfold slot_is. cbn [vlist vdevs devs routing]. split_and!.
    + rewrite list_lookup_insert_ne by done. exact Hj.
    + rewrite lookup_insert_ne; [done|]. intros ->. by apply Hij, (Hinj i j q).
    + apply arr_get_Some. rewrite Hoct. apply list_lookup_insert_eq.
      pose proof (last_octet_lt (dev_ip e)). lia.
  - eexists. split; [vm_compute; reflexivity|]. split_and!; vm_compute; reflexivity.
Qed.

(** ** Witnesses *)

Lemma demo_dstate_new :
  ∃ s, new_device 0 (Some 100) true true true (init_dstate 1 1) = Ok (0%Z, s) ∧
    life_reach 4 1 1 s ∧ slot_is s 0 100 ∧ devs s !! 100 = Some (new_vhost_dev 0).
Proof.
  destruct (new_device_eq (init_dstate 1 1) 0 100) as (rps & rc & tps & tc & E & _);
    [by apply dstate_wf_init; lia|done|done|].
  eexists. split; [exact E|]. split; [|done]. eapply life_next; [apply life_init|].
  eapply life_new; [| |exact E]; done.
Qed.

(** A reachable state with one linked VM, 192.168.100.5, on slot 0. *)
Definition demo_linked_run : res dstate :=
  '(_, s) ← new_device 0 (Some 100) true true true (init_dstate 1 1); learn_device 4 None 0 (demo_ip_packet 5) s.

Lemma demo_linked :
  ∃ s, demo_linked_run = Ok s ∧ life_reach 4 1 1 s ∧ slot_is s 0 100 ∧
    devs s !! 100 = Some (linked (demo_ip_packet 5) (new_vhost_dev 0)).
Proof.
  destruct demo_dstate_new as (s & Hnew & Hreach & Hs & Hd).
  pose proof (dstate_wf_reach 4 1 1 s eq_refl Nat.lt_0_1 Nat.lt_0_1 Hreach) as (_ & (Hrl & _) & _ & Hfl).
  destruct (learn_device_eq 4 None 0 100 (new_vhost_dev 0) (demo_ip_packet 5) s Hs Hd Hrl Hfl eq_refl)
    as (fs & ns & _ & E).
  { split; vm_compute; congruence. }
  unfold demo_linked_run. rewrite Hnew. cbn [mbind res_bind].
  eexists. split; [exact E|]. split; [eapply life_next; [exact Hreach|]|].
  - eapply life_learn; [exact Hs|exact Hd| |exact E]. eexists. split; [vm_compute; reflexivity|].
    split; [split; vm_compute; congruence|]. intros Hr. discriminate Hr.
  - split; [done|]. apply lookup_insert_eq.
Qed.


Lemma learn_device_correct_witness :
  ∃ s s', slot_is s 0 100 ∧ learn_device 4 (Some 7) 0 (demo_ip_packet 5) s = Ok s' ∧
    vm_id (linked (demo_ip_packet 5) (new_vhost_dev 0)) = 3%Z.
Proof.
  destruct demo_dstate_new as (s & _ & Hreach & Hs & Hd).
  pose proof (dstate_wf_reach 4 1 1 s eq_refl Nat.lt_0_1 Nat.lt_0_1 Hreach) as Hwf.
  destruct (learn_device_correct 4 (Some 7) 0 100 (new_vhost_dev 0) (demo_ip_packet 5) s Hwf eq_refl Hs Hd)
    as (_ & _ & _ & _ & _ & Hok & _).
  destruct Hok as (s' & E & _); [split; vm_compute; congruence|].
  exists s, s'. split; [exact Hs|]. split; [exact E|]. vm_compute. reflexivity.
Defined.

Lemma destroy_device_correct_witness :
  ∃ s s', destroy_device 4 0 true true true true s = Ok s' ∧ vdevs (vlist s') !! 0 = Some None.
Proof.
  destruct demo_linked as (s & _ & Hreach & Hs & Hd).
  pose proof (dstate_wf_reach 4 1 1 s eq_refl Nat.lt_0_1 Nat.lt_0_1 Hreach) as Hwf.
  destruct (destroy_device_correct 4 0 100 _ true s Hwf eq_refl Hs Hd) as [Hok _].
  destruct (Hok eq_refl) as (s' & E & Hnone & _). exists s, s'. split; [exact E|exact Hnone].
Defined.

Lemma flow_handle_goes_stale_witness :
  ∃ s1, uninstall_eth_rx_flow 4 true 100
      (mk_dstate {[100 := mk_dev 0 3 [] 5 1]} (mk_vlist 1 []) [] (<[3:=Some 7]> (replicate MAX_VHOSTS None))
         [] [] [] [] []) = Ok (0%Z, s1) ∧
    install_eth_rx_flow 4 (Some 8) 100 s1 = Ok ((-1)%Z, s1).
Proof.
  eexists. split; [vm_compute; reflexivity|].
  apply (flow_handle_goes_stale 4 7 100 100 (mk_dev 0 3 [] 5 1) (mk_dev 0 3 [] 5 1) (Some 8)
    (mk_dstate {[100 := mk_dev 0 3 [] 5 1]} (mk_vlist 1 []) [] (<[3:=Some 7]> (replicate MAX_VHOSTS None))
       [] [] [] [] [])); try reflexivity. split; vm_compute; congruence.
Defined.

Lemma new_device_errors_witness :
  new_device 0 None true true true (init_dstate 1 1) = Ok ((-1)%Z, init_dstate 1 1).
Proof.
  exact (proj1 (new_device_errors 0 100 (init_dstate 1 1)
    (dstate_wf_init 1 1 Nat.lt_0_1 Nat.lt_0_1) eq_refl) true true true).
Defined.
