(* ===== verification/VhostTx.v ===== *)
(** * src/fast/vhost_tx.c: delivering packets to the VMs

    The arrays of the [struct vhost_tx_ctx] of one core, all indexed by vid, are one array
    of records here.  The mbufs the program owns are the live keys of [pool];
    [guest] is what each VM has received, in order: [rte_vhost_enqueue_burst]
    copies a prefix of the burst into the guest and leaves the mbufs with the
    caller.  Its return value is an argument of the model. *)

From S2P Require Import Prelude CInt Packet Dpdk Poll Plan.
Local Open Scope Z_scope.

Inductive vm_state := VM_ACTIVE | VM_BLOCKED_TX | VM_IDLE_RX.

#[export] Instance vm_state_eq_dec : EqDecision vm_state.
Proof. solve_decision. Defined.

Definition BACKOFF_TSC : Z := 100000.

Record vm_bp := mk_bp { bp_state : vm_state; bp_blocked_until_tsc : Z }.

(** All counters are [uint32_t]. *)
Record vdev_tx_stats := mk_tx_stats {
  txs_call_count : Z;
  txs_pkt_count : Z;
  txs_max_send_count : Z;
  txs_requeue_pkt_count : Z;
  txs_ring_deq_max_count : Z;
}.

(** The elements of index vid of the arrays of [struct vhost_tx_ctx]. *)
Record vhost_tx_vm := mk_tx_vm {
  tx_stats : vdev_tx_stats;
  retry_pkts : list nat;   (* MAX_PKT_BURST elements *)
  retry_cnt : nat;         (* uint32_t *)
  tx_bp : vm_bp;
}.

(** ** free_pkts of src/network/network.h: from the last packet to the first *)

Definition free_pkts (pkts : list nat) (n : nat) (pool : gmap nat mbuf) : res (gmap nat mbuf) :=
  foldM (λ i pool, p ← arr_get pkts i; heap_free pool p) (rev (seq 0 n)) pool.

(** ** Statistics: [STATS_ADD] on [uint32_t] counters *)

Definition add_call (st : vdev_tx_stats) : vdev_tx_stats :=
  mk_tx_stats (u32 (txs_call_count st + 1)) (txs_pkt_count st) (txs_max_send_count st)
    (txs_requeue_pkt_count st) (txs_ring_deq_max_count st).
Definition add_pkt (n : Z) (st : vdev_tx_stats) : vdev_tx_stats :=
  mk_tx_stats (txs_call_count st) (u32 (txs_pkt_count st + n)) (txs_max_send_count st)
    (txs_requeue_pkt_count st) (txs_ring_deq_max_count st).
Definition add_max_send (st : vdev_tx_stats) : vdev_tx_stats :=
  mk_tx_stats (txs_call_count st) (txs_pkt_count st) (u32 (txs_max_send_count st + 1))
    (txs_requeue_pkt_count st) (txs_ring_deq_max_count st).
Definition add_requeue (n : Z) (st : vdev_tx_stats) : vdev_tx_stats :=
  mk_tx_stats (txs_call_count st) (txs_pkt_count st) (txs_max_send_count st)
    (u32 (txs_requeue_pkt_count st + n)) (txs_ring_deq_max_count st).
Definition add_deq_max (st : vdev_tx_stats) : vdev_tx_stats :=
  mk_tx_stats (txs_call_count st) (txs_pkt_count st) (txs_max_send_count st)
    (txs_requeue_pkt_count st) (u32 (txs_ring_deq_max_count st + 1)).

(** [if (ret < 0) ret = 0], as an array length. *)
Definition sent_count (ret : Z) : nat := Z.to_nat (if ret <? 0 then 0 else ret).

(** [for (i = 0; i < num - ret; i++) retry_pkts[i] = pkts[ret + i]] *)
Definition save_retry (ret num : nat) (pkts retry : list nat) : res (list nat) :=
  foldM (λ i retry, p ← arr_get pkts (ret + i)%nat; arr_set retry i p) (seq 0 (num - ret)) retry.

(** [ret] is the result of [rte_vhost_enqueue_burst], [tsc] of [rte_rdtsc]. *)
Definition vhost_send (ret tsc : Z) (num : nat) (pkts : list nat) (vm : vhost_tx_vm)
    (pool : gmap nat mbuf) : res (nat * vhost_tx_vm * gmap nat mbuf) :=
  let st := add_call (tx_stats vm) in
  let ret := sent_count ret in
  vm ← (if decide (ret < num)%nat then
      retry ← save_retry ret num pkts (retry_pkts vm);
      Ok (mk_tx_vm st retry (num - ret) (mk_bp VM_BLOCKED_TX (u64 (tsc + BACKOFF_TSC))))
    else Ok (mk_tx_vm st (retry_pkts vm) (retry_cnt vm)
               (mk_bp VM_ACTIVE (bp_blocked_until_tsc (tx_bp vm)))));
  let st := add_pkt (Z.of_nat ret) (tx_stats vm) in
  let st := if decide (ret = MAX_PKT_BURST) then add_max_send st else st in
  pool ← free_pkts pkts ret pool;
  Ok (ret, mk_tx_vm st (retry_pkts vm) (retry_cnt vm) (tx_bp vm), pool).

(** [pkts] is [ctx->retry_pkts[vid]] itself. *)
Definition vhost_resend (ret tsc : Z) (num : nat) (vm : vhost_tx_vm) (pool : gmap nat mbuf)
    : res (nat * vhost_tx_vm * gmap nat mbuf) :=
  let st := add_call (tx_stats vm) in
  let ret := sent_count ret in
  let st := if decide (ret = MAX_PKT_BURST) then add_max_send st else st in
  let bp := if decide (ret < num)%nat then mk_bp VM_BLOCKED_TX (u64 (tsc + BACKOFF_TSC))
            else mk_bp VM_ACTIVE (bp_blocked_until_tsc (tx_bp vm)) in
  let st := add_requeue (Z.of_nat ret) st in
  pool ← free_pkts (retry_pkts vm) num pool;
  Ok (ret, mk_tx_vm st (retry_pkts vm) 0 bp, pool).

Section vhost_tx.
Context `{RteRing}.

Record tx_world := mk_tx_world {
  tx_vms : list vhost_tx_vm;            (* MAX_VHOSTS *)
  vhost_tx_rings : list (ring nat);     (* MAX_VHOSTS *)
  tx_pool : gmap nat mbuf;
  guest : list (list nat);              (* MAX_VHOSTS *)
}.

(** What the environment answers during one visit: the clock at the test, the
    result of enqueueing a burst of a given size, and the clock when the back-off is
    set. *)
Record tx_env := mk_tx_env { env_now : Z; env_ret : nat → Z; env_tsc : Z }.

(** The packets the guest receives from a burst. *)
Definition delivered (ret : nat) (pkts : list nat) : list nat := take ret pkts.

(** The body of the loop of [vhost_tx_loop] for the plan entry [vid]. *)
Definition vhost_tx_visit (e : tx_env) (vid : nat) (w : tx_world) : res tx_world :=
  if decide (MAX_VHOSTS ≤ vid)%nat then Ok w
  else
    vm ← arr_get (tx_vms w) vid;
    if bool_decide (bp_state (tx_bp vm) = VM_BLOCKED_TX)
       && (env_now e <? bp_blocked_until_tsc (tx_bp vm)) then Ok w
    else
      g ← arr_get (guest w) vid;
      if decide (0 < retry_cnt vm)%nat then
        let num := retry_cnt vm in
        let pkts := take num (retry_pkts vm) in
        '(ret, vm, pool) ← vhost_resend (env_ret e num) (env_tsc e) num vm (tx_pool w);
        Ok (mk_tx_world (<[vid:=vm]> (tx_vms w)) (vhost_tx_rings w) pool
              (<[vid:=g ++ delivered ret pkts]> (guest w)))
      else
        r ← arr_get (vhost_tx_rings w) vid;
        let '(pkts, r) := rte_ring_dequeue_burst r MAX_PKT_BURST in
        let rings := <[vid:=r]> (vhost_tx_rings w) in
        let deq_num := length pkts in
        let vm := if decide (deq_num = MAX_PKT_BURST)
                  then mk_tx_vm (add_deq_max (tx_stats vm)) (retry_pkts vm) (retry_cnt vm) (tx_bp vm)
                  else vm in
        if decide (0 < deq_num)%nat then
          '(ret, vm, pool) ← vhost_send (env_ret e deq_num) (env_tsc e) deq_num pkts vm (tx_pool w);
          Ok (mk_tx_world (<[vid:=vm]> (tx_vms w)) rings pool
                (<[vid:=g ++ delivered ret pkts]> (guest w)))
        else Ok (mk_tx_world (<[vid:=vm]> (tx_vms w)) rings (tx_pool w) (guest w)).

(** One iteration of the infinite loop over a plan; entry [i] sees [env i]. *)
Definition vhost_tx_iter (env : nat → tx_env) (plan : vhost_plan) (w : tx_world) : res tx_world :=
  foldM (λ i w, vid ← arr_get (plan_vids plan) i; vhost_tx_visit (env i) vid w)
    (seq 0 (Z.to_nat (plan_num plan))) w.

(** ** Specification *)

(** What is waiting for VM [vid]: the packets kept for a retry, then its ring. *)
Definition vm_queue (w : tx_world) (vid : nat) : list nat :=
  match tx_vms w !! vid, vhost_tx_rings w !! vid with
  | Some vm, Some r => take (retry_cnt vm) (retry_pkts vm) ++ ring_items r
  | _, _ => []
  end.

Definition all_queues (w : tx_world) : list nat := concat (vm_queue w <$> seq 0 MAX_VHOSTS).

Definition tx_vm_wf (vm : vhost_tx_vm) : Prop :=
  length (retry_pkts vm) = MAX_PKT_BURST ∧ (retry_cnt vm ≤ MAX_PKT_BURST)%nat ∧
  ((0 < retry_cnt vm)%nat → bp_state (tx_bp vm) = VM_BLOCKED_TX).

Definition tx_wf (w : tx_world) : Prop :=
  length (tx_vms w) = MAX_VHOSTS ∧ length (vhost_tx_rings w) = MAX_VHOSTS ∧
  length (guest w) = MAX_VHOSTS ∧ Forall tx_vm_wf (tx_vms w) ∧
  NoDup (all_queues w) ∧ live (tx_pool w) (all_queues w).

(** The answers of [rte_vhost_enqueue_burst] to a burst of [n]: -1, or at most [n]. *)
Definition env_ok (e : tx_env) : Prop := ∀ n, -1 ≤ env_ret e n ≤ Z.of_nat n.

(** ** Lemmas *)

Lemma sent_count_le e n : env_ok e → (sent_count (env_ret e n) ≤ n)%nat.
Proof. intros He. specialize (He n). unfold sent_count. case_match; lia. Qed.

Lemma free_pkts_spec pkts n (pool : gmap nat mbuf) :
  (n ≤ length pkts)%nat → NoDup (take n pkts) → live pool (take n pkts) →
  ∃ pool', free_pkts pkts n pool = Ok pool' ∧
    ∀ q, pool' !! q = if decide (q ∈ take n pkts) then None else pool !! q.
Proof.
  intros Hn Hnd Hl. unfold free_pkts.
  rewrite (foldM_arr_get_rev _ (λ p pool, heap_free pool p) pkts) by (done || lia).
  destruct (heap_free_all_spec (rev (take n pkts)) pool) as (pool' & Hf & Hp).
  - by rewrite <- Permutation_rev.
  - intros q Hq. apply Hl. by rewrite <- Permutation_rev in Hq.
  - exists pool'. split; [exact Hf|]. intros q. rewrite Hp. apply decide_ext_if. by rewrite <- Permutation_rev.
Qed.

Lemma save_retry_spec ret pkts retry :
  (ret ≤ length pkts)%nat → (length pkts ≤ length retry)%nat →
  ∃ retry', save_retry ret (length pkts) pkts retry = Ok retry' ∧ length retry' = length retry ∧
    take (length pkts - ret) retry' = drop ret pkts.
Proof.
  intros Hr Hl. unfold save_retry.
  destruct (foldM_ind (λ i retry, p ← arr_get pkts (ret + i)%nat; arr_set retry i p)
    (λ pre retry', length retry' = length retry ∧
       take (length pre) retry' = take (length pre) (drop ret pkts))
    (seq 0 (length pkts - ret)) retry) as (retry' & Hf & Hlen & Htake).
  - done.
  - intros pre i post rt Heq [Hlen Htake].
    assert (i = length pre ∧ (i < length pkts - ret)%nat) as [-> Hi].
    { assert (seq 0 (length pkts - ret) !! length pre = Some i) as Hlk
        by (rewrite Heq; by apply list_lookup_middle).
      apply lookup_seq in Hlk. lia. }
    destruct (lookup_lt_is_Some_2 pkts (ret + length pre)) as [p Hp]; [lia|].
    rewrite (arr_get_Some _ _ _ Hp). cbn [mbind res_bind]. rewrite arr_set_lt by lia.
    eexists. split; [done|]. rewrite length_insert, length_app. cbn [length]. split; [done|].
    rewrite Nat.add_1_r. rewrite !(take_S_r _ _ p).
    + rewrite take_insert_ge by done. by rewrite Htake.
    + by rewrite lookup_drop.
    + apply list_lookup_insert_eq. lia.
  - exists retry'. rewrite length_seq in Htake. split_and!; [done|done|].
    rewrite Htake. apply take_ge. rewrite length_drop. lia.
Qed.

(** Replacing one queue by a suffix of it. *)
Lemma concat_split (f g : nat → list nat) vid (gone : list nat) n :
  (vid < n)%nat → f vid = gone ++ g vid → (∀ v, v ≠ vid → g v = f v) →
  concat (f <$> seq 0 n) ≡ₚ gone ++ concat (g <$> seq 0 n).
Proof.
  intros Hv Hf Hg. replace n with (vid + S (n - S vid))%nat by lia.
  rewrite seq_app. cbn [seq Nat.add]. rewrite !fmap_app, !concat_app. cbn [fmap list_fmap concat].
  assert (∀ s m, (∀ x, x ∈ seq s m → x ≠ vid) → f <$> seq s m = g <$> seq s m) as Hext.
  { intros s m Hx. apply list_fmap_ext. intros i x Hi. symmetry. apply Hg, Hx.
    by eapply list_elem_of_lookup_2. }
  rewrite !Hext, Hf by (intros x Hx; apply elem_of_seq in Hx; lia).
  rewrite <- !app_assoc. rewrite (Permutation_app_comm (concat _) (gone ++ _)).
  rewrite <- !app_assoc. apply Permutation_app_head.
  rewrite app_assoc. rewrite (Permutation_app_comm (g vid ++ _)). done.
Qed.

(** The back-off state after sending [ret] of [num] packets. *)
Definition bp_after (ret num : nat) (tsc : Z) (bp : vm_bp) : Prop :=
  if decide (ret < num)%nat
  then bp_state bp = VM_BLOCKED_TX ∧ bp_blocked_until_tsc bp = u64 (tsc + BACKOFF_TSC)
  else bp_state bp = VM_ACTIVE.

Lemma vhost_send_spec ret tsc pkts vm pool :
  -1 ≤ ret ≤ Z.of_nat (length pkts) → (length pkts ≤ MAX_PKT_BURST)%nat →
  tx_vm_wf vm → retry_cnt vm = 0%nat → NoDup pkts → live pool pkts →
  ∃ k vm' pool', vhost_send ret tsc (length pkts) pkts vm pool = Ok (k, vm', pool') ∧
    k = sent_count ret ∧ tx_vm_wf vm' ∧ bp_after k (length pkts) tsc (tx_bp vm') ∧
    take (retry_cnt vm') (retry_pkts vm') = drop k pkts ∧
    ∀ q, pool' !! q = if decide (q ∈ take k pkts) then None else pool !! q.
Proof.
  intros Hret Hlen (Hrl & Hrc & Hrb) Hr0 Hnd Hl. unfold vhost_send.
  assert (sent_count ret ≤ length pkts)%nat as Hk by (unfold sent_count; case_match; lia).
  set (k := sent_count ret) in *.
  assert (NoDup (take k pkts) ∧ live pool (take k pkts)) as [Hnd' Hl'].
  { rewrite <- (take_drop k pkts) in Hnd, Hl. apply NoDup_app in Hnd as (? & _ & _).
    by apply live_app in Hl as [? _]. }
  destruct (free_pkts_spec pkts k pool Hk Hnd' Hl') as (pool' & Hfree & Hpool).
  unfold bp_after. destruct (decide (k < length pkts)%nat) as [Hlt|Hge].
  - destruct (save_retry_spec k pkts (retry_pkts vm)) as (retry' & -> & Hl2 & Htake); [done|lia|].
    cbn [mbind res_bind]. rewrite Hfree. cbn [mbind res_bind]. eexists _, _, _. split; [done|].
    cbn [tx_bp retry_cnt retry_pkts bp_state bp_blocked_until_tsc].
    split_and!; try done; [unfold tx_vm_wf; cbn; split_and!; [lia|lia|done]|by rewrite decide_True].
  - cbn [mbind res_bind]. rewrite Hfree. cbn [mbind res_bind]. eexists _, _, _. split; [done|].
    cbn [tx_bp retry_cnt retry_pkts bp_state bp_blocked_until_tsc].
    split_and!; try done.
    + unfold tx_vm_wf. cbn. split_and!; [done|lia|lia].
    + by rewrite decide_False.
    + rewrite Hr0. symmetry. apply drop_ge. lia.
Qed.

Lemma vhost_resend_spec ret tsc vm pool :
  -1 ≤ ret ≤ Z.of_nat (retry_cnt vm) → tx_vm_wf vm →
  NoDup (take (retry_cnt vm) (retry_pkts vm)) → live pool (take (retry_cnt vm) (retry_pkts vm)) →
  ∃ k vm' pool', vhost_resend ret tsc (retry_cnt vm) vm pool = Ok (k, vm', pool') ∧
    k = sent_count ret ∧ (k ≤ retry_cnt vm)%nat ∧ tx_vm_wf vm' ∧ retry_cnt vm' = 0%nat ∧
    bp_after k (retry_cnt vm) tsc (tx_bp vm') ∧
    ∀ q, pool' !! q = if decide (q ∈ take (retry_cnt vm) (retry_pkts vm)) then None else pool !! q.
Proof.
  intros Hret (Hrl & Hrc & Hrb) Hnd Hl. unfold vhost_resend.
  destruct (free_pkts_spec (retry_pkts vm) (retry_cnt vm) pool) as (pool' & -> & Hpool); [lia|done|done|].
  cbn [mbind res_bind]. eexists _, _, _. split; [done|]. cbn [tx_bp retry_cnt].
  split_and!; try done.
  - unfold sent_count. case_match; lia.
  - unfold tx_vm_wf. cbn. split_and!; [done|lia|lia].
  - unfold bp_after. by destruct (decide (_ < _)%nat).
Qed.

(** What a visit of [vid] may change: [gone] left its queue, [sent] of it for the
    guest. *)
Definition visited (vid : nat) (gone sent : list nat) (w w' : tx_world) : Prop :=
  vm_queue w vid = gone ++ vm_queue w' vid ∧
  (∀ v, v ≠ vid → vm_queue w' v = vm_queue w v ∧ guest w' !! v = guest w !! v) ∧
  guest w' !! vid = (λ g, g ++ sent) <$> guest w !! vid ∧
  sent `prefix_of` gone ∧
  (∀ q, tx_pool w' !! q = if decide (q ∈ gone) then None else tx_pool w !! q).

Lemma visited_refl vid w : visited vid [] [] w w.
Proof.
  unfold visited. split_and!; try done.
  - destruct (guest w !! vid) as [g|]; cbn; [by rewrite app_nil_r|done].
Qed.

Lemma all_queues_visited vid gone sent w w' :
  (vid < MAX_VHOSTS)%nat → visited vid gone sent w w' → all_queues w ≡ₚ gone ++ all_queues w'.
Proof.
  intros Hv (Hq & Ho & _). apply (concat_split _ _ vid gone); [done|done|].
  intros v Hne. by apply Ho.
Qed.

Lemma tx_wf_visited vid gone sent w w' :
  (vid < MAX_VHOSTS)%nat → tx_wf w → visited vid gone sent w w' →
  length (tx_vms w') = MAX_VHOSTS → length (vhost_tx_rings w') = MAX_VHOSTS →
  length (guest w') = MAX_VHOSTS → Forall tx_vm_wf (tx_vms w') → tx_wf w'.
Proof.
  intros Hv (_ & _ & _ & _ & Hnd & Hl) Hvis Hl1 Hl2 Hl3 Hf.
  pose proof (all_queues_visited vid gone sent w w' Hv Hvis) as Hperm.
  rewrite Hperm in Hnd. apply NoDup_app in Hnd as (_ & Hdisj & Hnd).
  destruct Hvis as (_ & _ & _ & _ & Hpool). unfold tx_wf. split_and!; try done.
  intros q Hq. rewrite Hpool, decide_False by (intros Hg; by apply (Hdisj q)).
  apply Hl. rewrite Hperm. apply elem_of_app. by right.
Qed.

Lemma vm_queue_sublist vid w : (vid < MAX_VHOSTS)%nat → ∃ l1 l2, all_queues w ≡ₚ l1 ++ vm_queue w vid ++ l2.
Proof.
  intros Hv. unfold all_queues. replace MAX_VHOSTS with (vid + S (MAX_VHOSTS - S vid))%nat by lia.
  rewrite seq_app. cbn [seq Nat.add]. rewrite fmap_app, concat_app. cbn [fmap list_fmap concat].
  eexists _, _. reflexivity.
Qed.

(** A queue of a well-formed world holds distinct live packets. *)
Lemma vm_queue_ok vid w :
  (vid < MAX_VHOSTS)%nat → tx_wf w → NoDup (vm_queue w vid) ∧ live (tx_pool w) (vm_queue w vid).
Proof.
  intros Hv (_ & _ & _ & _ & Hnd & Hl). destruct (vm_queue_sublist vid w Hv) as (l1 & l2 & Hp).
  rewrite Hp in Hnd. split.
  - by apply NoDup_app in Hnd as (_ & _ & (? & _ & _)%NoDup_app).
  - intros q Hq. apply Hl. rewrite Hp, !elem_of_app. auto.
Qed.

(** The new world of a visit, and its queues. *)
Lemma visited_update vid w vm vm' r r' g sent gone pool' :
  tx_vms w !! vid = Some vm → vhost_tx_rings w !! vid = Some r → guest w !! vid = Some g →
  take (retry_cnt vm) (retry_pkts vm) ++ ring_items r =
    gone ++ take (retry_cnt vm') (retry_pkts vm') ++ ring_items r' →
  sent `prefix_of` gone →
  (∀ q, pool' !! q = if decide (q ∈ gone) then None else tx_pool w !! q) →
  visited vid gone sent w
    (mk_tx_world (<[vid:=vm']> (tx_vms w)) (<[vid:=r']> (vhost_tx_rings w)) pool'
       (<[vid:=g ++ sent]> (guest w))).
Proof.
  intros Hvm Hr Hg Hq Hpre Hpool. unfold visited, vm_queue. cbn [tx_vms vhost_tx_rings guest tx_pool].
  rewrite Hvm, Hr, Hg. rewrite !list_lookup_insert_eq by (by eapply lookup_lt_Some).
  split_and!; try done. intros v Hv. by rewrite !list_lookup_insert_ne by done.
Qed.

(** The wf part of the same update. *)
Lemma tx_wf_update vid w vm vm' r r' g sent gone pool' :
  tx_wf w → tx_vms w !! vid = Some vm → vhost_tx_rings w !! vid = Some r → guest w !! vid = Some g →
  tx_vm_wf vm' →
  let w' := mk_tx_world (<[vid:=vm']> (tx_vms w)) (<[vid:=r']> (vhost_tx_rings w)) pool'
              (<[vid:=g ++ sent]> (guest w)) in
  visited vid gone sent w w' → tx_wf w'.
Proof.
  intros Hwf Hvm Hr Hg Hvm' w' Hvis. pose proof Hwf as (Hl1 & Hl2 & Hl3 & Hf & _).
  assert (vid < MAX_VHOSTS)%nat as Hv by (rewrite <- Hl1; by eapply lookup_lt_Some).
  apply (tx_wf_visited vid gone sent w w' Hv Hwf Hvis); subst w'; cbn [tx_vms vhost_tx_rings guest];
    rewrite ?length_insert; try done. by apply Forall_insert.
Qed.

(** Is VM [vid] backed off at the time of the visit? *)
Definition backed_off (e : tx_env) (vm : vhost_tx_vm) : bool :=
  bool_decide (bp_state (tx_bp vm) = VM_BLOCKED_TX) && (env_now e <? bp_blocked_until_tsc (tx_bp vm)).

(** The three ways a visit can go. *)
Inductive visit_case (e : tx_env) (vid : nat) (w : tx_world) (vm : vhost_tx_vm) (r : ring nat)
    : list nat → list nat → tx_world → Prop :=
  | visit_backed_off : backed_off e vm = true → visit_case e vid w vm r [] [] w
  | visit_retry k w' :
      backed_off e vm = false → (0 < retry_cnt vm)%nat →
      k = sent_count (env_ret e (retry_cnt vm)) →
      (∃ vm', tx_vms w' !! vid = Some vm' ∧ retry_cnt vm' = 0%nat ∧
              bp_after k (retry_cnt vm) (env_tsc e) (tx_bp vm')) →
      visit_case e vid w vm r (take (retry_cnt vm) (retry_pkts vm))
        (take k (take (retry_cnt vm) (retry_pkts vm))) w'
  | visit_send k w' :
      backed_off e vm = false → retry_cnt vm = 0%nat →
      let burst := take MAX_PKT_BURST (ring_items r) in
      k = (if decide (burst = []) then 0%nat else sent_count (env_ret e (length burst))) →
      (∃ vm', tx_vms w' !! vid = Some vm' ∧ retry_cnt vm' = (length burst - k)%nat ∧
         (burst ≠ [] → bp_after k (length burst) (env_tsc e) (tx_bp vm'))) →
      visit_case e vid w vm r (take k burst) (take k burst) w'.

Lemma vhost_tx_visit_spec e vid w vm r :
  tx_wf w → env_ok e → tx_vms w !! vid = Some vm → vhost_tx_rings w !! vid = Some r →
  ∃ w' gone sent, vhost_tx_visit e vid w = Ok w' ∧ tx_wf w' ∧
    visited vid gone sent w w' ∧ visit_case e vid w vm r gone sent w'.
Proof.
  intros Hwf He Hvm Hr. pose proof Hwf as (Hl1 & Hl2 & Hl3 & Hf & _).
  assert (vid < MAX_VHOSTS)%nat as Hv by (rewrite <- Hl1; by eapply lookup_lt_Some).
  destruct (lookup_lt_is_Some_2 (guest w) vid) as [g Hg]; [lia|].
  pose proof (Forall_lookup_1 _ _ _ _ Hf Hvm) as Hvmwf.
  destruct (vm_queue_ok vid w Hv Hwf) as [Hnd Hl]. unfold vm_queue in Hnd, Hl. rewrite Hvm, Hr in Hnd, Hl.
  apply NoDup_app in Hnd as (Hnd1 & _ & Hnd2). apply live_app in Hl as [Hlv1 Hlv2].
  unfold vhost_tx_visit. rewrite decide_False by lia. rewrite (arr_get_Some _ _ _ Hvm).
  cbn [mbind res_bind]. fold (backed_off e vm). destruct (backed_off e vm) eqn:Eb.
  { exists w, [], []. split_and!; [done|done|apply visited_refl|by constructor]. }
  rewrite (arr_get_Some _ _ _ Hg). cbn [mbind res_bind].
  destruct (decide (0 < retry_cnt vm)%nat) as [Hc|Hc].
  - destruct (vhost_resend_spec (env_ret e (retry_cnt vm)) (env_tsc e) vm (tx_pool w))
      as (k & vm' & pool' & -> & Hk & Hkle & Hvm' & Hrc' & Hbp & Hpool); [apply He|done|done|done|].
    cbn [mbind res_bind]. unfold delivered. rewrite <- (list_insert_id (vhost_tx_rings w) vid r) by done.
    eexists _, _, _. split; [done|].
    pose proof (visited_update vid w vm vm' r r g (take k (take (retry_cnt vm) (retry_pkts vm)))
      (take (retry_cnt vm) (retry_pkts vm)) pool' Hvm Hr Hg) as Hvis.
    rewrite Hrc' in Hvis. specialize (Hvis eq_refl (prefix_take _ _) Hpool).
    split; [by eapply tx_wf_update|]. split; [done|]. apply (visit_retry _ _ _ _ _ k); try done.
    exists vm'. cbn [tx_vms]. rewrite list_lookup_insert_eq by lia. done.
  - rewrite (arr_get_Some _ _ _ Hr). cbn [mbind res_bind].
    destruct (rte_ring_dequeue_burst r MAX_PKT_BURST) as [burst r'] eqn:Ed.
    destruct (ring_dequeue_eq _ _ _ _ _ Ed) as (Hburst & Hitems & _).
    assert (retry_cnt vm = 0%nat) as Hc0 by lia.
    assert (length burst ≤ MAX_PKT_BURST)%nat as Hbl by (rewrite Hburst, length_take; lia).
    set (vm1 := if decide (length burst = MAX_PKT_BURST) then _ else vm).
    assert (tx_vm_wf vm1 ∧ retry_cnt vm1 = 0%nat) as [Hvm1 Hc1].
    { destruct Hvmwf as (H1 & H2 & H3). unfold vm1, tx_vm_wf.
      destruct (decide (length burst = MAX_PKT_BURST)); cbn; split_and!; done || lia. }
    assert (ring_items r = burst ++ ring_items r') as Hsplit
      by (rewrite Hburst, Hitems; by rewrite take_drop).
    assert (NoDup burst) as Hndb by (rewrite Hsplit in Hnd2; by apply NoDup_app in Hnd2 as [? _]).
    assert (live (tx_pool w) burst) as Hlb
      by (intros q Hq; apply Hlv2; rewrite Hsplit; apply elem_of_app; by left).
    destruct (decide (0 < length burst)%nat) as [Hne|Hz].
    + destruct (vhost_send_spec (env_ret e (length burst)) (env_tsc e) burst vm1 (tx_pool w))
        as (k & vm' & pool' & -> & Hk & Hvm' & Hbp & Hretry & Hpool); [apply He|done|done|done|done|done|].
      cbn [mbind res_bind]. unfold delivered. eexists _, _, _. split; [done|].
      assert (visited vid (take k burst) (take k burst) w
        (mk_tx_world (<[vid:=vm']> (tx_vms w)) (<[vid:=r']> (vhost_tx_rings w)) pool'
           (<[vid:=g ++ take k burst]> (guest w)))) as Hvis.
      { apply (visited_update vid w vm vm' r r'); try done. rewrite Hc0, Hretry, Hsplit. cbn [take app].
        by rewrite (app_assoc (take k burst)), (take_drop k burst). }
      split; [by eapply tx_wf_update|]. split; [done|]. rewrite Hburst.
      apply (visit_send _ _ _ _ _ k); [done|done| |]; rewrite <- Hburst.
      * rewrite decide_False; [done|]. intros ->. cbn in Hne. lia.
      * exists vm'. cbn [tx_vms]. rewrite list_lookup_insert_eq by lia. split_and!; [done| |done].
        destruct Hvm' as (Hrl & Hrc & _). apply (f_equal length) in Hretry.
        rewrite length_take, length_drop in Hretry. lia.
    + assert (burst = []) as Hb0 by (destruct burst; [done|cbn in Hz; lia]).
      exists (mk_tx_world (<[vid:=vm1]> (tx_vms w)) (<[vid:=r']> (vhost_tx_rings w)) (tx_pool w)
         (<[vid:=g ++ []]> (guest w))), [], [].
      split; [do 2 f_equal; rewrite app_nil_r; symmetry; by apply list_insert_id|].
      assert (visited vid [] [] w
        (mk_tx_world (<[vid:=vm1]> (tx_vms w)) (<[vid:=r']> (vhost_tx_rings w)) (tx_pool w)
           (<[vid:=g ++ []]> (guest w)))) as Hvis.
      { apply (visited_update vid w vm vm1 r r'); try done. by rewrite Hc0, Hc1, Hsplit, Hb0. }
      split; [by eapply tx_wf_update|]. split; [done|].
      pose proof (visit_send e vid w vm r 0 (mk_tx_world (<[vid:=vm1]> (tx_vms w))
        (<[vid:=r']> (vhost_tx_rings w)) (tx_pool w) (<[vid:=g ++ []]> (guest w))) Eb Hc0) as Hcase.
      cbv zeta in Hcase. rewrite <- Hburst, Hb0 in Hcase. cbn [take] in Hcase. apply Hcase; [done|].
      exists vm1. cbn [tx_vms]. rewrite list_lookup_insert_eq by lia. done.
Qed.

(** A guest that takes everything. *)
Definition accepts (e : tx_env) : Prop := ∀ n, env_ret e n = Z.of_nat n.

Lemma accepts_ok e : accepts e → env_ok e.
Proof. intros He n. rewrite He. lia. Qed.

Lemma accepts_sent e n : accepts e → sent_count (env_ret e n) = n.
Proof. intros He. unfold sent_count. rewrite He. case_match; lia. Qed.

(** It gets what a visit takes from the queue: the kept packets, or a burst of the ring. *)
Lemma accepting_visit e vid w vm r :
  tx_wf w → accepts e → tx_vms w !! vid = Some vm → vhost_tx_rings w !! vid = Some r → backed_off e vm = false → vm_queue w vid ≠ [] →
  let gone := if decide (retry_cnt vm = 0)%nat then take MAX_PKT_BURST (ring_items r) else take (retry_cnt vm) (retry_pkts vm) in
  ∃ w' vm', vhost_tx_visit e vid w = Ok w' ∧ vm_queue w vid = gone ++ vm_queue w' vid ∧
    guest w' !! vid = (λ g, g ++ gone) <$> guest w !! vid ∧
    tx_vms w' !! vid = Some vm' ∧ retry_cnt vm' = 0%nat ∧ bp_state (tx_bp vm') = VM_ACTIVE.
Proof.
  intros Hwf He Hvm Hr Hb Hne. pose proof Hwf as (_ & _ & _ & Hf & _). destruct (Forall_lookup_1 _ _ _ _ Hf Hvm) as (Hl & Hc & _).
  destruct (vhost_tx_visit_spec e vid w vm r Hwf (accepts_ok e He) Hvm Hr) as (w' & gone & sent & Hrun & _ & (Hq & _ & Hg & _) & Hcase).
  exists w'. unfold vm_queue in Hne. rewrite Hvm, Hr in Hne.
  inversion Hcase as [Hb'|k w0 _ Hc0 Hk (vm' & Hvm' & Hc' & Hbp)|k w0 _ Hc0 burst Hk (vm' & Hvm' & Hc' & Hbp)]; subst; [congruence| |]; exists vm'.
  - rewrite decide_False by lia. rewrite accepts_sent in * by done. rewrite (take_ge (take _ _)) in Hg by (rewrite length_take; lia).
    unfold bp_after in Hbp. rewrite decide_False in Hbp by lia. by split_and!.
  - rewrite Hc0, take_0 in Hne. cbn [app] in Hne. rewrite decide_True by done. change (take MAX_PKT_BURST (ring_items r)) with burst.
    assert (burst ≠ []) as Hbne by (unfold burst; by destruct (ring_items r)).
    rewrite decide_False in * by done. rewrite accepts_sent in * by done. rewrite (take_ge burst) in Hq, Hg by done.
    unfold bp_after in Hbp. rewrite decide_False in Hbp by lia. split_and!; try done; [lia|by apply Hbp].
Qed.

(** A visit of another VM. *)
Lemma vhost_tx_visit_other e vid v w w' : vid ≠ v → vhost_tx_visit e vid w = Ok w' →
  tx_vms w' !! v = tx_vms w !! v ∧ guest w' !! v = guest w !! v ∧ vhost_tx_rings w' !! v = vhost_tx_rings w !! v.
Proof.
  intros Hne E. unfold vhost_tx_visit in E. repeat (case_decide || case_match || res_step; simplify_eq); try done;
    cbn [tx_vms guest vhost_tx_rings]; by rewrite ?list_lookup_insert_ne by done.
Qed.

(** *** Several visits *)

(** From [w] to [w']: every queue has lost a prefix, of which a subsequence went to
    the guest in order, and exactly the packets that left the queues are freed. *)
Definition tx_progress (w w' : tx_world) : Prop :=
  (∀ vid, (vid < MAX_VHOSTS)%nat → ∃ gone sent,
     vm_queue w vid = gone ++ vm_queue w' vid ∧ sent `sublist_of` gone ∧
     guest w' !! vid = (λ g, g ++ sent) <$> guest w !! vid) ∧
  (∀ q, q ∈ all_queues w' → q ∈ all_queues w) ∧
  (∀ q, tx_pool w' !! q = if decide (q ∈ all_queues w ∧ q ∉ all_queues w') then None else tx_pool w !! q).

Lemma tx_progress_refl w : tx_progress w w.
Proof.
  split_and!; [|done|].
  - intros vid _. exists [], []. split_and!; [done|done|].
    destruct (guest w !! vid) as [g|]; cbn; [by rewrite app_nil_r|done].
  - intros q. rewrite decide_False; [done|]. by intros [? ?].
Qed.

Lemma tx_progress_trans w1 w2 w3 : tx_progress w1 w2 → tx_progress w2 w3 → tx_progress w1 w3.
Proof.
  intros (H1 & H2 & H3) (H4 & H5 & H6). split_and!; [|auto|].
  - intros vid Hv. destruct (H1 vid Hv) as (g1 & s1 & Hq1 & Hs1 & Hg1).
    destruct (H4 vid Hv) as (g2 & s2 & Hq2 & Hs2 & Hg2). exists (g1 ++ g2), (s1 ++ s2).
    split_and!; [by rewrite Hq1, Hq2, app_assoc|by apply sublist_app|].
    rewrite Hg2, Hg1. destruct (guest w1 !! vid); cbn; [by rewrite app_assoc|done].
  - intros q. rewrite H6, H3. pose proof (H2 q) as Hq2. pose proof (H5 q) as Hq5.
    destruct (decide (q ∈ all_queues w2)); repeat case_decide; try done; tauto.
Qed.

#[export] Instance tx_progress_preorder : PreOrder tx_progress.
Proof. split; [exact tx_progress_refl|exact tx_progress_trans]. Qed.

Lemma visited_progress vid gone sent w w' :
  (vid < MAX_VHOSTS)%nat → tx_wf w → visited vid gone sent w w' → tx_progress w w'.
Proof.
  intros Hv Hwf Hvis. pose proof (all_queues_visited vid gone sent w w' Hv Hvis) as Hperm.
  pose proof Hwf as (_ & _ & _ & _ & Hnd & _). rewrite Hperm in Hnd.
  apply NoDup_app in Hnd as (_ & Hdisj & _). destruct Hvis as (Hq & Ho & Hg & Hpre & Hpool).
  split_and!.
  - intros v _. destruct (decide (v = vid)) as [->|Hne].
    + exists gone, sent. split_and!; [done| |done]. destruct Hpre as [rest ->]. by apply sublist_inserts_r.
    + destruct (Ho v Hne) as [Hqv Hgv]. exists [], []. split_and!; [done|done|].
      rewrite Hgv. destruct (guest w !! v) as [g|]; cbn; [by rewrite app_nil_r|done].
  - intros q Hin. rewrite Hperm. apply elem_of_app. by right.
  - intros q. rewrite Hpool. apply decide_ext_if. rewrite Hperm, elem_of_app. split.
    + intros Hin. split; [by left|]. by apply Hdisj.
    + by intros [[?|?] ?].
Qed.

Lemma visit_progress e vid w :
  tx_wf w → env_ok e → ∃ w', vhost_tx_visit e vid w = Ok w' ∧ tx_wf w' ∧ tx_progress w w'.
Proof.
  intros Hwf He. pose proof Hwf as (Hl1 & Hl2 & _). destruct (decide (vid < MAX_VHOSTS)%nat) as [Hv|Hv].
  - destruct (lookup_lt_is_Some_2 (tx_vms w) vid) as [vm Hvm]; [lia|].
    destruct (lookup_lt_is_Some_2 (vhost_tx_rings w) vid) as [r Hr]; [lia|].
    destruct (vhost_tx_visit_spec e vid w vm r Hwf He Hvm Hr) as (w' & gone & sent & -> & Hwf' & Hvis & _).
    exists w'. split_and!; [done|done|]. by eapply visited_progress.
  - exists w. unfold vhost_tx_visit. rewrite decide_True by lia. by split_and!.
Qed.

(** *** Draining *)

(** Visits of VM [vid], one after another. *)
Definition vhost_tx_visits (es : list tx_env) (vid : nat) : tx_world → res tx_world :=
  foldM (λ e w, vhost_tx_visit e vid w) es.

(** A measure of what waits: a kept burst takes one visit, 64 packets of the ring two. *)
Definition drain_bound (w : tx_world) (vid : nat) : nat :=
  match tx_vms w !! vid, vhost_tx_rings w !! vid with
  | Some vm, Some r => (if decide (retry_cnt vm = 0) then 0 else 1) + 2 * ((length (ring_items r) + 63) `div` 64)
  | _, _ => 0
  end%nat.

(** Visits at least a back-off apart, before the clock wraps. *)
Fixpoint spaced (es : list tx_env) : Prop :=
  match es with
  | e :: (e' :: _) as rest => (0 ≤ env_tsc e ∧ env_tsc e + BACKOFF_TSC ≤ env_now e' < 2 ^ 64) ∧ spaced rest
  | _ => True
  end.

(** The first visit is not held back. *)
Definition due (e : tx_env) (vid : nat) (w : tx_world) : Prop := ∀ vm, tx_vms w !! vid = Some vm → backed_off e vm = false.

Lemma bp_after_due k n e e' vm :
  bp_after k n (env_tsc e) (tx_bp vm) → 0 ≤ env_tsc e → env_tsc e + BACKOFF_TSC ≤ env_now e' < 2 ^ 64 → backed_off e' vm = false.
Proof.
  unfold bp_after, backed_off. intros Hbp H0 Hn. destruct (decide (k < n)%nat).
  - destruct Hbp as [-> ->]. unfold u64. rewrite wrap_small by (unfold in_u, BACKOFF_TSC in *; lia).
    apply andb_false_iff. right. apply Z.ltb_ge. lia.
  - rewrite Hbp. done.
Qed.

Lemma bursts_left n m : (m = S n - 64 → 1 + 2 * ((m + 63) / 64) < 2 * ((S n + 63) / 64))%nat.
Proof.
  intros ->. destruct (decide (64 ≤ S n)%nat) as [Hle|Hlt].
  - replace (S n + 63)%nat with (S n - 64 + 63 + 1 * 64)%nat by lia. rewrite Nat.div_add by lia. lia.
  - replace (S n - 64)%nat with 0%nat by lia. change ((0 + 63) / 64)%nat with 0%nat.
    assert (1 ≤ (S n + 63) / 64)%nat; [|lia]. apply Nat.div_le_lower_bound; lia.
Qed.

(** A visit that is due makes the measure smaller while something waits, and leaves the
    VM due after a back-off. *)
Lemma visit_drains e vid w :
  tx_wf w → env_ok e → (vid < MAX_VHOSTS)%nat → due e vid w → vm_queue w vid ≠ [] →
  ∃ w', vhost_tx_visit e vid w = Ok w' ∧ tx_wf w' ∧ tx_progress w w' ∧ (drain_bound w' vid < drain_bound w vid)%nat ∧
    ∀ e', 0 ≤ env_tsc e → env_tsc e + BACKOFF_TSC ≤ env_now e' < 2 ^ 64 → due e' vid w'.
Proof.
  intros Hwf He Hvid Hdue Hne. pose proof Hwf as (Hl1 & Hl2 & _).
  destruct (lookup_lt_is_Some_2 (tx_vms w) vid) as [vm Hvm]; [lia|].
  destruct (lookup_lt_is_Some_2 (vhost_tx_rings w) vid) as [r Hr]; [lia|].
  destruct (vhost_tx_visit_spec e vid w vm r Hwf He Hvm Hr) as (w' & gone & sent & Hrun & Hwf' & Hvis & Hcase).
  exists w'. split; [done|]. split; [done|]. split; [by eapply visited_progress|].
  pose proof (Hdue vm Hvm) as Hbo. pose proof Hwf' as (_ & Hl2' & _ & Hf' & _).
  destruct Hvis as (Hq & _). unfold vm_queue in Hq, Hne. rewrite Hvm, Hr in Hq, Hne. unfold drain_bound. rewrite Hvm, Hr.
  destruct (lookup_lt_is_Some_2 (vhost_tx_rings w') vid) as [r' Hr']; [lia|].
  inversion Hcase as [Hb|k w0 _ Hc Hk (vm' & Hvm' & Hc' & Hbp)|k w0 _ Hc burst Hk (vm' & Hvm' & Hc' & Hbp)]; subst; [congruence| |];
    rewrite Hvm', Hr' in *; clear Hcase.
  - rewrite Hc', take_0 in Hq. cbn [app] in Hq. apply app_inv_head in Hq. rewrite Hq, Hc'.
    rewrite (decide_False (P := retry_cnt vm = 0%nat)) by lia.
    rewrite (decide_True (P := 0%nat = 0%nat)) by done. split; [lia|].
    intros e' H0 Hn vm2 Hvm2. rewrite Hvm' in Hvm2. injection Hvm2 as <-. by eapply bp_after_due.
  - rewrite Hc, take_0 in Hq, Hne. cbn [app] in Hq, Hne. pose proof (Forall_lookup_1 _ _ _ _ Hf' Hvm') as (Hlr & Hcl & _).
    apply (f_equal length) in Hq. rewrite !length_app, !length_take, Hlr, Hc' in Hq. rewrite Hc in *.
    assert (burst ≠ []) as Hbne.
    { unfold burst. by destruct (ring_items r). }
    destruct (decide (burst = [])) as [?|_]; [done|]. set (k := sent_count _) in *. clearbody k.
    assert (length burst = MAX_PKT_BURST `min` length (ring_items r))%nat as Hlb by apply length_take.
    rewrite Hc'. split.
    + rewrite (decide_True (P := 0%nat = 0%nat)) by done.
      destruct (ring_items r) as [|x l] eqn:El; [done|]. cbn [length] in *.
      assert (1 + 2 * ((length (ring_items r') + 63) / 64) < 2 * ((S (length l) + 63) / 64))%nat; [|case_decide; lia].
      apply bursts_left. unfold MAX_PKT_BURST in *. lia.
    + intros e' H0 Hn vm2 Hvm2. rewrite Hvm' in Hvm2. injection Hvm2 as <-. by eapply bp_after_due; [apply Hbp|..].
Qed.

Lemma drained_stays e vid w :
  tx_wf w → env_ok e → (vid < MAX_VHOSTS)%nat → vm_queue w vid = [] →
  ∃ w', vhost_tx_visit e vid w = Ok w' ∧ tx_wf w' ∧ tx_progress w w' ∧ vm_queue w' vid = [].
Proof.
  intros Hwf He Hv Hq. destruct (visit_progress e vid w Hwf He) as (w' & Hrun & Hwf' & Hp). exists w'. split_and!; try done.
  destruct Hp as (Hp & _). destruct (Hp vid Hv) as (gone & sent & E & _). rewrite Hq in E. by destruct gone.
Qed.

Lemma drained_visits es vid w :
  tx_wf w → Forall env_ok es → (vid < MAX_VHOSTS)%nat → vm_queue w vid = [] →
  ∃ w', vhost_tx_visits es vid w = Ok w' ∧ tx_wf w' ∧ vm_queue w' vid = [] ∧ tx_progress w w'.
Proof.
  intros Hwf Hes Hv. revert w Hwf. induction Hes as [|e es He _ IH]; intros w Hwf Hq; [by exists w|].
  destruct (drained_stays e vid w Hwf He Hv Hq) as (w1 & E & Hwf1 & Hp & Hq1).
  destruct (IH w1 Hwf1 Hq1) as (w' & Hrun & ? & ? & ?). exists w'. unfold vhost_tx_visits. cbn [foldM]. rewrite E.
  split_and!; try done. by transitivity w1.
Qed.

Lemma drain_bound_0 w vid : tx_wf w → (vid < MAX_VHOSTS)%nat → drain_bound w vid = 0%nat → vm_queue w vid = [].
Proof.
  intros (Hl1 & Hl2 & _) Hv. unfold drain_bound, vm_queue.
  destruct (lookup_lt_is_Some_2 (tx_vms w) vid) as [vm ->]; [lia|].
  destruct (lookup_lt_is_Some_2 (vhost_tx_rings w) vid) as [r ->]; [lia|].
  destruct (decide (retry_cnt vm = 0%nat)) as [->|]; [|lia]. destruct (ring_items r) as [|x l]; [done|]. cbn [length].
  intros E. assert (1 ≤ (S (length l) + 63) / 64)%nat; [|lia]. apply Nat.div_le_lower_bound; lia.
Qed.

(** ** Properties *)

(** [C14] One visit of a VM never faults and conserves packets: what leaves the VM's
    queue (retry buffer, then ring) is a prefix of it, is freed exactly once, and a
    prefix of that reaches the guest in order; other VMs are untouched.  While the
    back-off lasts nothing happens.  A kept burst is offered once more and then
    dropped, so no packet is offered more than twice; a fresh burst (at most 64)
    loses nothing: what the guest does not take is kept, in order, and the VM backs
    off until [tsc + BACKOFF_TSC]. *)
Theorem vhost_tx_visit_correct (e : tx_env) (vid : nat) (w : tx_world) (vm : vhost_tx_vm) (r : ring nat) :
  tx_wf w → env_ok e → tx_vms w !! vid = Some vm → vhost_tx_rings w !! vid = Some r →
  ∃ w' gone sent, vhost_tx_visit e vid w = Ok w' ∧ tx_wf w' ∧
    visited vid gone sent w w' ∧ visit_case e vid w vm r gone sent w'.
Proof. apply vhost_tx_visit_spec. Qed.

(** [C15] A vhost_tx core empties the queue of a VM whatever the guest does.  Visits that are a
    back-off apart, and to which no new packets come, leave nothing waiting for the VM
    after one visit for a kept burst and two for each 64 packets of the ring, even if the
    guest takes no packet at all; none of them faults, and what the guest did take it got
    in order. *)
Theorem vhost_tx_drains (e : tx_env) (es : list tx_env) (vid : nat) (w : tx_world) :
  tx_wf w → Forall env_ok (e :: es) → (vid < MAX_VHOSTS)%nat → spaced (e :: es) → due e vid w →
  (drain_bound w vid ≤ length (e :: es))%nat →
  ∃ w', vhost_tx_visits (e :: es) vid w = Ok w' ∧ tx_wf w' ∧ vm_queue w' vid = [] ∧ tx_progress w w'.
Proof.
  revert e w. induction es as [|e' es IH]; intros e w Hwf [He Hes]%Forall_cons Hv Hsp Hdue Hb; unfold vhost_tx_visits; cbn [foldM].
  - destruct (decide (vm_queue w vid = [])) as [Hq|Hq].
    + destruct (drained_stays e vid w Hwf He Hv Hq) as (w' & -> & ? & ? & ?). exists w'. by split_and!.
    + destruct (visit_drains e vid w Hwf He Hv Hdue Hq) as (w' & -> & Hwf' & Hp & Hlt & _). exists w'. split_and!; try done.
      apply drain_bound_0; [done|done|]. cbn [length] in Hb. lia.
  - destruct Hsp as [[H0 Hn] Hsp]. destruct (decide (vm_queue w vid = [])) as [Hq|Hq].
    + destruct (drained_visits (e :: e' :: es) vid w) as (w' & Hrun & ?); try done; [by constructor|]. by exists w'.
    + destruct (visit_drains e vid w Hwf He Hv Hdue Hq) as (w1 & E & Hwf1 & Hp & Hlt & Hdue').
      destruct (IH e' w1) as (w' & Hrun & ? & ? & ?); try done; [by apply Hdue'|cbn [length] in *; lia|].
      exists w'. rewrite E. split_and!; try done. by transitivity w1.
Qed.

(** A whole iteration over any plan, even one that lists a VM twice or lists
    invalid vids: no fault; each VM's queue loses a prefix, of which the guest gets
    a subsequence, in ring order; and the mbufs freed are exactly those that left
    the queues, so none leaks and none is freed twice. *)
Theorem vhost_tx_iter_correct (env : nat → tx_env) (plan : vhost_plan) (w : tx_world) :
  tx_wf w → (∀ i, env_ok (env i)) → plan_shape plan →
  ∃ w', vhost_tx_iter env plan w = Ok w' ∧ tx_wf w' ∧ tx_progress w w'.
Proof.
  intros Hwf He [Hn Hl]. unfold vhost_tx_iter.
  apply (foldM_ind _ (λ _ w', tx_wf w' ∧ tx_progress w w')); [by split|].
  intros pre i post w1 Heq [Hwf1 Hp1].
  assert (i < length (plan_vids plan))%nat as Hi.
  { assert (i ∈ seq 0 (Z.to_nat (plan_num plan))) as Hin
      by (rewrite Heq; apply elem_of_app; right; by left).
    apply elem_of_seq in Hin. lia. }
  destruct (lookup_lt_is_Some_2 (plan_vids plan) i Hi) as [vid Hvid].
  rewrite (arr_get_Some _ _ _ Hvid). cbn [mbind res_bind].
  destruct (visit_progress (env i) vid w1 Hwf1 (He i)) as (w' & -> & Hwf' & Hp').
  exists w'. split_and!; [done|done|]. by transitivity w1.
Qed.
End vhost_tx.

(** ** Witnesses *)

Definition demo_tx_vm : vhost_tx_vm :=
  mk_tx_vm (mk_tx_stats 0 0 0 0 0) (replicate MAX_PKT_BURST 0%nat) 0 (mk_bp VM_ACTIVE 0).

(** Three packets wait in the ring of VM 2; the guest takes at most one. *)
Definition demo_tx_world : tx_world :=
  mk_tx_world (replicate MAX_VHOSTS demo_tx_vm)
    (<[2%nat := (127%nat, [10;11;12]%nat)]> (replicate MAX_VHOSTS (127%nat, [])))
    (list_to_map ((λ p, (p, mk_mbuf [] 60 1 0 0 0 0 0 0 0 0)) <$> [10;11;12]%nat))
    (replicate MAX_VHOSTS []).

Definition demo_tx_env : tx_env := mk_tx_env 0 (λ n, Z.min 1 (Z.of_nat n)) 5.

Lemma demo_tx_wf : tx_wf demo_tx_world.
Proof.
  unfold tx_wf. split_and!; try done.
  - apply Forall_replicate. unfold tx_vm_wf, demo_tx_vm. cbn. split_and!; [done|lia|lia].
  - refine (bool_decide_unpack _ _). vm_compute. exact I.
  - change (all_queues demo_tx_world) with [10;11;12]%nat. intros p Hp.
    repeat (apply elem_of_cons in Hp as [->|Hp]; [by eexists|]). by apply not_elem_of_nil in Hp.
Qed.

Lemma demo_tx_env_ok : env_ok demo_tx_env.
Proof. intros n. cbn. lia. Qed.

Lemma vhost_tx_visit_correct_witness :
  ∃ w' gone sent, vhost_tx_visit demo_tx_env 2 demo_tx_world = Ok w' ∧
    guest w' !! 2%nat = Some [10%nat] ∧ vm_queue w' 2 = [11;12]%nat ∧ visited 2 gone sent demo_tx_world w'.
Proof.
  destruct (vhost_tx_visit_correct demo_tx_env 2 demo_tx_world demo_tx_vm (127%nat, [10;11;12]%nat)
    demo_tx_wf demo_tx_env_ok eq_refl eq_refl) as (w' & gone & sent & E & _ & Hvis & _).
  exists w', gone, sent. split; [exact E|]. vm_compute in E. injection E as <-.
  split; [reflexivity|]. split; [reflexivity|exact Hvis].
Defined.

(** VM 2 is visited twice: the second time it is backed off. *)
Lemma vhost_tx_iter_correct_witness :
  ∃ w', vhost_tx_iter (λ _, demo_tx_env) (demo_plan [2; 0; 2]%nat) demo_tx_world = Ok w' ∧
    guest w' !! 2%nat = Some [10%nat].
Proof.
  destruct (vhost_tx_iter_correct (λ _, demo_tx_env) (demo_plan [2; 0; 2]%nat) demo_tx_world demo_tx_wf
    (λ _, demo_tx_env_ok)) as (w' & E & _).
  - split; [vm_compute; split; congruence|reflexivity].
  - exists w'. split; [exact E|]. vm_compute in E. injection E as <-. reflexivity.
Defined.

(** The guest takes nothing in two visits. *)
Definition stuck_env (now tsc : Z) : tx_env := mk_tx_env now (λ _, -1) tsc.

Lemma vhost_tx_drains_witness :
  ∃ w', vhost_tx_visits [stuck_env 0 5; stuck_env 200000 200005] 2 demo_tx_world = Ok w' ∧
    vm_queue demo_tx_world 2 = [10;11;12]%nat ∧ vm_queue w' 2 = [].
Proof.
  destruct (vhost_tx_drains (stuck_env 0 5) [stuck_env 200000 200005] 2 demo_tx_world demo_tx_wf) as (w' & E & _ & Hq & _).
  - repeat (constructor; [intros n; cbn; lia|]). constructor.
  - unfold MAX_VHOSTS. lia.
  - split; [|exact I]. unfold stuck_env, BACKOFF_TSC. cbn. lia.
  - intros vm Hvm. change (Some demo_tx_vm = Some vm) in Hvm. injection Hvm as <-. reflexivity.
  - vm_compute. lia.
  - exists w'. split_and!; [exact E|reflexivity|exact Hq].
Defined.
