(* ===== verification/EthTx.v ===== *)
(** * src/fast/eth_tx.c: sending packets to the wire

    One visit of a NIC queue by its eth_tx core: dequeue a burst from the ring of
    the queue, rewrite the Ethernet addresses, request offloads, and hand the burst
    to the NIC.  [rte_eth_tx_burst] takes ownership of a prefix of the burst, whose
    contents go to [wire]; its result is an argument.  The log lines of the first 50
    calls are not modelled. *)

From S2P Require Import Prelude CInt Packet Dpdk Ecn Offload Config Poll VhostTx.
Local Open Scope Z_scope.

(** ** The queues of a core

    [for (i = r; i < n; i += step)], used by every loop over NIC queues.  With
    [step > 0], [n] iterations of fuel are enough. *)

Fixpoint strided_from (fuel i n step : nat) : list nat :=
  match fuel with
  | O => []
  | S fuel => if decide (i < n)%nat then i :: strided_from fuel (i + step) n step else []
  end.
Definition strided (r n step : nat) : list nat := strided_from n r n step.

(** The counters of [struct eth_tx_stats]. *)
Record eth_tx_stats := mk_eth_tx_stats {
  ets_call_count : Z;
  ets_pkt_count : Z;
  ets_requeue_pkt_count : Z;
  ets_max_send_count : Z;
  ets_ring_deq_max_count : Z;
}.

Section eth_tx.
Context `{RteRing} `{RteEther} `{RteFlags}.
Context (config : config_t) (eth_addr : list Z).

(** The body of the loop over the burst: source = the NIC; a unicast frame sent to
    the data plane's address goes to the other node. *)
Definition eth_rewrite (b : list Z) : list Z :=
  let b := set_eth_src eth_addr b in
  if rte_is_broadcast_ether_addr (eth_dst_addr b) || rte_is_multicast_ether_addr (eth_dst_addr b)
  then b
  else if rte_is_same_ether_addr (eth_dst_addr b) (cfg_mac config)
  then set_eth_dst (other_node_mac config) b
  else b.

Record eth_world := mk_eth_world {
  eth_tx_queue_rings : list (ring nat);
  eth_pool : gmap nat mbuf;
  wire : list (nat * mbuf);
  eth_stats : eth_tx_stats;
}.

(** [ret] is the result of [rte_eth_tx_burst]. *)
Definition network_send (ret : Z) (q num : nat) (pkts : list nat) (w : eth_world) : res (nat * eth_world) :=
  let st := eth_stats w in
  pool ← pkts_set_tso_flags pkts (eth_pool w);
  let ret := sent_count ret in
  (* the NIC takes pkts[0 .. ret-1] *)
  sent ← foldM (λ p out, m ← heap_get pool p; Ok (out ++ [(q, m)])) (take ret pkts) [];
  pool ← foldM (λ p pool, heap_free pool p) (take ret pkts) pool;
  '(rings, pool, requeued) ← (if decide (ret < num)%nat then
      r ← arr_get (eth_tx_queue_rings w) q;
      let '(enq_num, r) := rte_ring_enqueue_burst r (drop ret pkts) in
      pool ← (if decide (enq_num < num - ret)%nat
              then free_pkts (drop (ret + enq_num) pkts) (num - ret - enq_num) pool else Ok pool);
      Ok (<[q:=r]> (eth_tx_queue_rings w), pool, enq_num)
    else Ok (eth_tx_queue_rings w, pool, 0%nat));
  let st := mk_eth_tx_stats (u32 (ets_call_count st + 1)) (u32 (ets_pkt_count st + Z.of_nat ret))
    (u32 (ets_requeue_pkt_count st + Z.of_nat requeued))
    (if decide (ret = num) then u32 (ets_max_send_count st + 1) else ets_max_send_count st)
    (ets_ring_deq_max_count st) in
  Ok (ret, mk_eth_world rings pool (wire w ++ sent) st).

(** What happens around one visit: how many packets of a burst the NIC takes, and
    the packets that vhost_rx cores put on the ring between the dequeue and the
    requeue. *)
Record eth_env := mk_eth_env { env_take : nat → Z; env_arrive : list nat }.

(** The body of the loop of [eth_tx_loop] for queue [q]. *)
Definition eth_tx_visit (e : eth_env) (q : nat) (w : eth_world) : res eth_world :=
  r ← arr_get (eth_tx_queue_rings w) q;
  let '(pkts, r) := rte_ring_dequeue_burst r MAX_PKT_BURST in
  let '(_, r) := rte_ring_enqueue_burst r (env_arrive e) in
  let rings := <[q:=r]> (eth_tx_queue_rings w) in
  let st := eth_stats w in
  let st := if decide (length pkts = MAX_PKT_BURST)
    then mk_eth_tx_stats (ets_call_count st) (ets_pkt_count st) (ets_requeue_pkt_count st)
           (ets_max_send_count st) (u32 (ets_ring_deq_max_count st + 1))
    else st in
  pool ← heap_update_all (λ m, set_buf (eth_rewrite (buf m)) m) pkts (eth_pool w);
  let w := mk_eth_world rings pool (wire w) st in
  if decide (0 < length pkts)%nat then
    '(_, w) ← network_send (env_take e (length pkts)) q (length pkts) pkts w; Ok w
  else Ok w.

(** One iteration of the infinite loop of core [r]. *)
Definition eth_tx_iter (env : nat → eth_env) (r : nat) (w : eth_world) : res eth_world :=
  foldM (λ q w, eth_tx_visit (env q) q w)
    (strided r (Z.to_nat (eth_tx_queues config)) (Z.to_nat (eth_tx_cores config))) w.

(** ** Specification *)

(** What happens to a packet on its way to the NIC. *)
Definition eth_out (m : mbuf) : mbuf := pkt_set_tso_flags (set_buf (eth_rewrite (buf m)) m).

(** All the packets waiting for the wire. *)
Definition eth_queued (w : eth_world) : list nat := concat (ring_items <$> eth_tx_queue_rings w).

Definition eth_wf (w : eth_world) : Prop :=
  NoDup (eth_queued w) ∧ live (eth_pool w) (eth_queued w) ∧
  Forall (λ r, (length (ring_items r) ≤ ring_capacity r)%nat) (eth_tx_queue_rings w).

(** [rte_eth_tx_burst] takes at most the burst, and the packets that arrive are live
    and new. *)
Definition eth_env_ok (e : eth_env) (w : eth_world) : Prop :=
  (∀ n, 0 ≤ env_take e n ≤ Z.of_nat n) ∧
  NoDup (env_arrive e ++ eth_queued w) ∧ live (eth_pool w) (env_arrive e).

Definition mac_wf (a : list Z) : Prop := length a = 6%nat ∧ Forall is_byte a.

(** ** Lemmas *)

Lemma heap_update_all_lookup {A} (f : A → A) ps (h h' : gmap nat A) :
  NoDup ps → live h ps → heap_update_all f ps h = Ok h' →
  live h' ps ∧ ∀ p, h' !! p = (if decide (p ∈ ps) then f else id) <$> h !! p.
Proof.
  intros Hnd Hl Hu. destruct (heap_update_all_spec f ps h Hnd Hl) as (h2 & Hu2 & Hd & Hlk).
  assert (h2 = h') as -> by congruence. split; [by eapply live_dom|done].
Qed.

(** Reading the packets handed to the NIC. *)
Lemma read_out_spec (q : nat) ps (pool : gmap nat mbuf) :
  live pool ps →
  ∃ ms, foldM (λ p out, m ← heap_get pool p; Ok (out ++ [(q, m)])) ps [] = Ok ((λ m, (q, m)) <$> ms) ∧
    Forall2 (λ p m, pool !! p = Some m) ps ms.
Proof.
  intros Hl. cut (∀ out, ∃ ms,
    foldM (λ p out, m ← heap_get pool p; Ok (out ++ [(q, m)])) ps out = Ok (out ++ ((λ m, (q, m)) <$> ms)) ∧
    Forall2 (λ p m, pool !! p = Some m) ps ms).
  { intros Hc. by apply (Hc []). }
  induction ps as [|p ps IH]; intros out.
  { exists []. by rewrite app_nil_r. }
  apply live_cons in Hl as [[m Hm] Hl]. destruct (IH Hl (out ++ [(q, m)])) as (ms & E & HF).
  exists (m :: ms). cbn [foldM]. rewrite (heap_get_Some _ _ _ Hm). cbn [mbind res_bind]. rewrite E.
  rewrite <- app_assoc. by repeat constructor.
Qed.

Lemma elem_of_take_of {A} (n : nat) (l : list A) x : x ∈ take n l → x ∈ l.
Proof. intros Hx. rewrite <- (take_drop n l). apply elem_of_app. by left. Qed.

(** Reading through an update of the heap. *)
Lemma read_through {A} (f : A → A) (ps qs : list nat) (h h' : gmap nat A) ms :
  (∀ p, p ∈ qs → p ∈ ps) →
  (∀ p, h' !! p = (if decide (p ∈ ps) then f else id) <$> h !! p) →
  Forall2 (λ p m, h' !! p = Some m) qs ms →
  ∃ ms0, Forall2 (λ p m, h !! p = Some m) qs ms0 ∧ ms = f <$> ms0.
Proof.
  intros Hsub Hh. induction 1 as [|q m qs ms Hm _ IH]; [by exists []|].
  destruct IH as (ms0 & HF & ->); [intros p Hp; apply Hsub; by right|].
  rewrite Hh, decide_True in Hm by (apply Hsub; by left).
  apply fmap_Some in Hm as (m0 & Hm0 & ->). exists (m0 :: ms0). split; [by constructor|done].
Qed.

(** The fate of a burst of which the NIC took [k] and [e] went back to the ring. *)
Definition burst_fate (pkts : list nat) (k e : nat) (pool pool' : gmap nat mbuf) : Prop :=
  ∀ p, pool' !! p =
    if decide (p ∈ take k pkts ++ drop (k + e) pkts) then None
    else (if decide (p ∈ pkts) then pkt_set_tso_flags else id) <$> pool !! p.

(** Freeing the packets that found no room. *)
Lemma free_rest_spec pkts k e (pool : gmap nat mbuf) :
  NoDup (drop k pkts) → live pool (drop k pkts) → (e ≤ length pkts - k)%nat →
  ∃ pool', (if decide (e < length pkts - k)%nat
            then free_pkts (drop (k + e) pkts) (length pkts - k - e) pool else Ok pool) = Ok pool' ∧
    ∀ p, pool' !! p = if decide (p ∈ drop (k + e) pkts) then None else pool !! p.
Proof.
  intros Hnd Hl He. rewrite <- (take_drop e (drop k pkts)), drop_drop in Hnd, Hl.
  apply NoDup_app in Hnd as (_ & _ & Hnd). apply live_app in Hl as [_ Hl].
  assert (take (length pkts - k - e) (drop (k + e) pkts) = drop (k + e) pkts) as Ht
    by (apply take_ge; rewrite length_drop; lia).
  case_decide as Hlt.
  - destruct (free_pkts_spec (drop (k + e) pkts) (length pkts - k - e) pool) as (pool' & E & Hp).
    + rewrite length_drop. lia.
    + by rewrite Ht.
    + by rewrite Ht.
    + exists pool'. split; [exact E|]. intros p. by rewrite Hp, Ht.
  - exists pool. split; [done|]. intros p. rewrite decide_False; [done|].
    rewrite drop_ge by lia. apply not_elem_of_nil.
Qed.

Lemma network_send_spec ret q pkts w r :
  0 ≤ ret ≤ Z.of_nat (length pkts) → NoDup pkts → live (eth_pool w) pkts →
  eth_tx_queue_rings w !! q = Some r →
  ∃ k e w' r' ms, network_send ret q (length pkts) pkts w = Ok (k, w') ∧
    k = Z.to_nat ret ∧ e = ((length pkts - k) `min` rte_ring_free_count r)%nat ∧
    eth_tx_queue_rings w' = <[q:=r']> (eth_tx_queue_rings w) ∧
    ring_items r' = ring_items r ++ take e (drop k pkts) ∧ ring_capacity r' = ring_capacity r ∧
    Forall2 (λ p m, eth_pool w !! p = Some m) (take k pkts) ms ∧
    wire w' = wire w ++ ((λ m, (q, pkt_set_tso_flags m)) <$> ms) ∧
    burst_fate pkts k e (eth_pool w) (eth_pool w').
Proof.
  intros Hret Hnd Hl Hr. unfold network_send.
  destruct (heap_update_all_spec pkt_set_tso_flags pkts (eth_pool w) Hnd Hl) as (pool1 & Hu & Hd1 & Hp1).
  unfold pkts_set_tso_flags. rewrite Hu. cbn [mbind res_bind].
  assert (sent_count ret = Z.to_nat ret) as -> by (unfold sent_count; case_match; lia).
  set (k := Z.to_nat ret). assert (k ≤ length pkts)%nat as Hk by lia.
  assert (live pool1 pkts) as Hl1 by by eapply live_dom.
  assert (NoDup (take k pkts) ∧ NoDup (drop k pkts) ∧ ∀ p, p ∈ take k pkts → p ∉ drop k pkts)
    as (Hndt & Hndd & Hdisj).
  { rewrite <- (take_drop k pkts) in Hnd. apply NoDup_app in Hnd as (? & ? & ?). auto. }
  assert (live pool1 (take k pkts) ∧ live pool1 (drop k pkts)) as [Hlt Hld].
  { rewrite <- (take_drop k pkts) in Hl1. by apply live_app in Hl1. }
  destruct (read_out_spec q (take k pkts) pool1 Hlt) as (ms1 & -> & Hms1). cbn [mbind res_bind].
  destruct (heap_free_all_spec (take k pkts) pool1 Hndt Hlt) as (pool2 & -> & Hp2). cbn [mbind res_bind].
  assert (live pool2 (drop k pkts)) as Hld2.
  { intros p Hp. rewrite Hp2, decide_False by (intros Hin; by apply (Hdisj p)). by apply Hld. }
  assert (∃ ms, Forall2 (λ p m, eth_pool w !! p = Some m) (take k pkts) ms ∧
            ms1 = pkt_set_tso_flags <$> ms) as (ms & Hms & ->).
  { apply (read_through pkt_set_tso_flags pkts (take k pkts) (eth_pool w) pool1); [|done|done].
    intros p. apply elem_of_take_of. }
  set (e := ((length pkts - k) `min` rte_ring_free_count r)%nat).
  destruct (free_rest_spec pkts k e pool2 Hndd Hld2) as (pool3 & Hfree & Hp3); [lia|].
  assert (burst_fate pkts k e (eth_pool w) pool3) as Hfate.
  { intros p. rewrite Hp3, Hp2, Hp1. rewrite (decide_ext_if (p ∈ _ ++ _) _ _ _ (elem_of_app _ _ p)).
    destruct (decide (p ∈ drop (k + e) pkts)) as [Hd|Hd]; [by rewrite decide_True by by right|].
    destruct (decide (p ∈ take k pkts)) as [Ht|Ht]; [by rewrite decide_True by by left|].
    rewrite (decide_False (P := p ∈ take k pkts ∨ _)) by tauto. done. }
  rewrite <- list_fmap_compose in *. destruct (decide (k < length pkts)%nat) as [Hlt'|Hge].
  - rewrite (arr_get_Some _ _ _ Hr). cbn [mbind res_bind].
    destruct (rte_ring_enqueue_burst r (drop k pkts)) as [enq r'] eqn:Ee.
    destruct (ring_enqueue_eq _ _ _ _ _ Ee) as (Henq & Hitems & Hcap).
    rewrite length_drop in Henq. fold e in Henq. subst enq. rewrite Hfree. cbn [mbind res_bind].
    eexists k, e, _, r', ms. split; [done|]. by split_and!.
  - cbn [mbind res_bind]. assert (e = 0%nat) as He by lia.
    rewrite He, decide_False in Hfree by lia. injection Hfree as <-.
    eexists k, e, _, r, ms. split; [done|]. cbn [eth_tx_queue_rings wire eth_pool].
    split_and!; try done.
    + by rewrite list_insert_id.
    + rewrite He. cbn. by rewrite app_nil_r.
Qed.

(** Replacing one ring of the array. *)
Lemma concat_insert_items (rings : list (ring nat)) q r :
  rings !! q = Some r →
  ∃ L, concat (ring_items <$> rings) ≡ₚ ring_items r ++ L ∧
    ∀ r', concat (ring_items <$> <[q:=r']> rings) ≡ₚ ring_items r' ++ L.
Proof.
  intros Hq. exists (concat (ring_items <$> (take q rings ++ drop (S q) rings))).
  assert (∀ r', concat (ring_items <$> <[q:=r']> rings) ≡ₚ
    ring_items r' ++ concat (ring_items <$> (take q rings ++ drop (S q) rings))) as Hins.
  { intros r'. rewrite insert_take_drop by (by eapply lookup_lt_Some).
    rewrite !fmap_app, !concat_app. cbn [fmap list_fmap concat].
    rewrite Permutation_app_swap_app. done. }
  split; [|exact Hins]. rewrite <- (Hins r). by rewrite list_insert_id.
Qed.

(** The new queue contents of a visit. *)
Definition requeued (burst : list nat) (k b : nat) : list nat := take b (drop k burst).

Lemma burst_perm (burst : list nat) k b :
  burst ≡ₚ (take k burst ++ drop (k + b) burst) ++ requeued burst k b.
Proof.
  rewrite <- (take_drop k burst) at 1. rewrite <- (take_drop b (drop k burst)) at 1.
  rewrite drop_drop, <- app_assoc. apply Permutation_app_head, Permutation_app_comm.
Qed.

Lemma eth_tx_visit_spec e q w r :
  eth_wf w → eth_env_ok e w → eth_tx_queue_rings w !! q = Some r →
  let burst := take MAX_PKT_BURST (ring_items r) in
  let rest := drop MAX_PKT_BURST (ring_items r) in
  ∃ k a b w' r' ms, eth_tx_visit e q w = Ok w' ∧
    k = Z.to_nat (env_take e (length burst)) ∧
    a = (length (env_arrive e) `min` (ring_capacity r - length rest))%nat ∧
    b = ((length burst - k) `min` (ring_capacity r - (length rest + a)))%nat ∧
    eth_tx_queue_rings w' = <[q:=r']> (eth_tx_queue_rings w) ∧
    ring_items r' = rest ++ take a (env_arrive e) ++ requeued burst k b ∧
    ring_capacity r' = ring_capacity r ∧
    Forall2 (λ p m, eth_pool w !! p = Some m) (take k burst) ms ∧
    wire w' = wire w ++ ((λ m, (q, eth_out m)) <$> ms) ∧
    ∀ p, eth_pool w' !! p =
      if decide (p ∈ take k burst ++ drop (k + b) burst) then None
      else (if decide (p ∈ burst) then eth_out else id) <$> eth_pool w !! p.
Proof.
  intros (Hnd & Hl & Hcap) (Htake & _ & _) Hr burst rest. unfold eth_tx_visit.
  rewrite (arr_get_Some _ _ _ Hr). cbn [mbind res_bind].
  destruct (rte_ring_dequeue_burst r MAX_PKT_BURST) as [pkts r1] eqn:Ed.
  destruct (ring_dequeue_eq _ _ _ _ _ Ed) as (Hpk & Hi1 & Hc1). fold burst in Hpk. fold rest in Hi1.
  destruct (rte_ring_enqueue_burst r1 (env_arrive e)) as [a r2] eqn:Ee.
  destruct (ring_enqueue_eq _ _ _ _ _ Ee) as (Ha & Hi2 & Hc2). subst pkts.
  rewrite ring_free_count_eq, Hc1, Hi1 in Ha.
  destruct (concat_insert_items _ q r Hr) as (L & HL & _). unfold eth_queued in Hnd, Hl.
  assert (NoDup burst ∧ live (eth_pool w) burst) as [Hndb Hlb].
  { rewrite HL in Hnd. apply NoDup_app in Hnd as (Hnd & _). split.
    - by eapply sublist_NoDup; [exact Hnd|]; apply sublist_take.
    - intros p Hp. apply Hl. rewrite HL. apply elem_of_app. left. by eapply elem_of_take_of. }
  destruct (heap_update_all_spec (λ m, set_buf (eth_rewrite (buf m)) m) burst (eth_pool w) Hndb Hlb)
    as (pool1 & -> & Hd1 & Hp1). cbn [mbind res_bind].
  set (w1 := mk_eth_world (<[q:=r2]> (eth_tx_queue_rings w)) pool1 (wire w) _).
  assert (q < length (eth_tx_queue_rings w))%nat as Hq by by eapply lookup_lt_Some.
  assert (eth_tx_queue_rings w1 !! q = Some r2) as Hr2 by by apply list_lookup_insert_eq.
  assert (live pool1 burst) as Hlb1 by by eapply live_dom.
  destruct (network_send_spec (env_take e (length burst)) q burst w1 r2 (Htake _) Hndb Hlb1 Hr2)
    as (k & b & w' & r' & ms & Hsend & Hk & Hb & Hrings & Hi3 & Hc3 & Hms & Hwire & Hfate).
  rewrite ring_free_count_eq, Hc2, Hc1, Hi2, Hi1, length_app, length_take in Hb.
  replace (a `min` length (env_arrive e))%nat with a in Hb by lia.
  cbn [eth_tx_queue_rings w1] in Hrings. rewrite list_insert_insert_eq in Hrings.
  destruct (read_through (λ m, set_buf (eth_rewrite (buf m)) m) burst (take k burst) (eth_pool w) pool1 ms)
    as (ms0 & Hms0 & ->); [intros p; apply elem_of_take_of|exact Hp1|exact Hms|].
  assert (∀ p, eth_pool w' !! p =
      if decide (p ∈ take k burst ++ drop (k + b) burst) then None
      else (if decide (p ∈ burst) then eth_out else id) <$> eth_pool w !! p) as Hpool.
  { intros p. rewrite (Hfate p). cbn [eth_pool w1]. rewrite Hp1. case_decide; [done|].
    case_decide; rewrite <- option_fmap_compose; [done|]. by rewrite !option_fmap_id. }
  destruct (decide (0 < length burst)%nat) as [Hne|Hz].
  - rewrite Hsend. cbn [mbind res_bind]. exists k, a, b, w', r', ms0. split_and!; try done.
    + by rewrite Hi3, Hi2, Hi1, <- app_assoc.
    + congruence.
    + rewrite Hwire, <- list_fmap_compose. done.
  - assert (burst = []) as Hb0 by (destruct burst; [done|cbn in Hz; lia]).
    pose proof (Htake 0%nat) as Ht0. rewrite Hb0 in *. cbn [length] in *.
    assert (k = 0%nat ∧ b = 0%nat) as [-> ->] by lia.
    exists 0%nat, a, 0%nat, w1, r2, []. split_and!; try done.
    + cbn. by rewrite app_nil_r, Hi2, Hi1.
    + congruence.
    + cbn. by rewrite app_nil_r.
Qed.

Lemma eth_wf_visit e q w r k a b w' r' :
  eth_wf w → eth_env_ok e w → eth_tx_queue_rings w !! q = Some r →
  let burst := take MAX_PKT_BURST (ring_items r) in
  let rest := drop MAX_PKT_BURST (ring_items r) in
  a = (length (env_arrive e) `min` (ring_capacity r - length rest))%nat →
  b = ((length burst - k) `min` (ring_capacity r - (length rest + a)))%nat →
  eth_tx_queue_rings w' = <[q:=r']> (eth_tx_queue_rings w) →
  ring_items r' = rest ++ take a (env_arrive e) ++ requeued burst k b →
  ring_capacity r' = ring_capacity r →
  (∀ p, eth_pool w' !! p =
    if decide (p ∈ take k burst ++ drop (k + b) burst) then None
    else (if decide (p ∈ burst) then eth_out else id) <$> eth_pool w !! p) →
  eth_wf w'.
Proof.
  intros (Hnd & Hl & Hcap) (_ & Hnda & Hla) Hr burst rest Ha Hb Hrings Hi Hc Hpool.
  destruct (concat_insert_items _ q r Hr) as (L & HL & HL'). specialize (HL' r').
  rewrite <- Hrings in HL'. fold (eth_queued w) in HL. fold (eth_queued w') in HL'.
  set (gone := take k burst ++ drop (k + b) burst) in *.
  assert (ring_items r = burst ++ rest) as Hsplit by (symmetry; apply take_drop).
  assert (take a (env_arrive e) ++ eth_queued w ≡ₚ gone ++ eth_queued w') as Hperm.
  { rewrite HL, HL', Hi, Hsplit. rewrite (burst_perm burst k b) at 1. fold gone.
    generalize (take a (env_arrive e)) (requeued burst k b). intros A R. solve_Permutation. }
  assert (NoDup (take a (env_arrive e) ++ eth_queued w)) as Hnd1.
  { eapply sublist_NoDup; [exact Hnda|]. apply sublist_app; [apply sublist_take|done]. }
  rewrite Hperm in Hnd1. apply NoDup_app in Hnd1 as (_ & Hdisj & Hnd').
  split_and!; [done| |].
  - intros p Hp. rewrite Hpool, decide_False by (intros Hg; by apply (Hdisj p)).
    apply fmap_is_Some. assert (p ∈ take a (env_arrive e) ++ eth_queued w) as Hin
      by (rewrite Hperm; apply elem_of_app; by right).
    apply elem_of_app in Hin as [Hin|Hin]; [apply Hla; by eapply elem_of_take_of|by apply Hl].
  - rewrite Hrings. apply Forall_insert; [done|]. rewrite Hi, Hc.
    pose proof (Forall_lookup_1 _ _ _ _ Hcap Hr) as Hcr. cbn in Hcr.
    unfold requeued. rewrite !length_app, !length_take, length_drop. rewrite Hsplit, length_app in Hcr. lia.
Qed.

(** *** Rewriting twice *)

Lemma put_put_same off (a a' b : list Z) :
  length a = length a' → put_bytes off a (put_bytes off a' b) = put_bytes off a b.
Proof.
  intros Hl. unfold put_bytes. apply list_eq. intros i.
  destruct (decide (i < length b)%nat) as [Hi|Hi].
  - destruct (decide (i < off)%nat); [by rewrite !list_lookup_inserts_lt|].
    destruct (decide (i < off + length a)%nat).
    + by rewrite !list_lookup_inserts by (rewrite ?length_inserts; lia).
    + by rewrite !list_lookup_inserts_ge by lia.
  - by rewrite !lookup_ge_None_2 by (rewrite ?length_inserts; lia).
Qed.

Lemma put_put_comm off off' (a a' b : list Z) :
  (off + length a ≤ off')%nat →
  put_bytes off a (put_bytes off' a' b) = put_bytes off' a' (put_bytes off a b).
Proof.
  intros Hd. unfold put_bytes. apply list_eq. intros i.
  destruct (decide (i < length b)%nat) as [Hi|Hi];
    [|by rewrite !lookup_ge_None_2 by (rewrite ?length_inserts; lia)].
  destruct (decide (i < off)%nat); [by rewrite !list_lookup_inserts_lt by lia|].
  destruct (decide (i < off + length a)%nat).
  { rewrite list_lookup_inserts by (rewrite ?length_inserts; lia).
    rewrite (list_lookup_inserts_lt _ off') by lia. by rewrite list_lookup_inserts by lia. }
  rewrite (list_lookup_inserts_ge _ off) by lia.
  destruct (decide (i < off')%nat).
  { rewrite !(list_lookup_inserts_lt _ off') by lia. by rewrite list_lookup_inserts_ge by lia. }
  destruct (decide (i < off' + length a')%nat).
  { by rewrite !list_lookup_inserts by (rewrite ?length_inserts; lia). }
  by rewrite !list_lookup_inserts_ge by lia.
Qed.

Lemma eth_dst_set_src a b : length a = 6%nat → eth_dst_addr (set_eth_src a b) = eth_dst_addr b.
Proof. intros. apply get_put_other. lia. Qed.

Lemma eth_dst_set_dst a b :
  length a = 6%nat → (6 ≤ length b)%nat → eth_dst_addr (set_eth_dst a b) = a.
Proof. intros Ha Hb. unfold eth_dst_addr. rewrite <- Ha at 1. apply get_put_same. lia. Qed.

Lemma eth_rewrite_idem b :
  mac_wf eth_addr → mac_wf (other_node_mac config) → (12 ≤ length b)%nat →
  eth_rewrite (eth_rewrite b) = eth_rewrite b.
Proof.
  intros [He _] [Ho _] Hb. unfold eth_rewrite at 2 3.
  set (b1 := set_eth_src eth_addr b).
  assert (set_eth_src eth_addr b1 = b1) as Hb1 by by apply put_put_same.
  destruct (_ || _) eqn:E1; [unfold eth_rewrite; by rewrite Hb1, E1|].
  destruct (rte_is_same_ether_addr (eth_dst_addr b1) (cfg_mac config)) eqn:E2.
  - set (b2 := set_eth_dst (other_node_mac config) b1).
    assert (set_eth_src eth_addr b2 = b2) as Hb2.
    { unfold b2, set_eth_src, set_eth_dst. rewrite <- put_put_comm by lia.
      fold (set_eth_src eth_addr b1). by rewrite Hb1. }
    unfold eth_rewrite. rewrite Hb2. clear E1 E2.
    destruct (rte_is_broadcast_ether_addr (eth_dst_addr b2) || rte_is_multicast_ether_addr (eth_dst_addr b2));
      [done|].
    destruct (rte_is_same_ether_addr (eth_dst_addr b2) (cfg_mac config)); [|done].
    by apply put_put_same.
  - unfold eth_rewrite. by rewrite Hb1, E1, E2.
Qed.

Lemma tso_flags_buf m : buf (pkt_set_tso_flags m) = buf m.
Proof. unfold pkt_set_tso_flags. by repeat case_match. Qed.

Lemma lor_again x f : Z.lor (Z.lor x f) f = Z.lor x f.
Proof. by rewrite <- Z.lor_assoc, Z.lor_diag. Qed.

Lemma lor_clear_again x f g : clear_flags (Z.lor (clear_flags (Z.lor x f) g) f) g = clear_flags (Z.lor x f) g.
Proof. unfold clear_flags. bitwise. Qed.

Lemma lor_set_again x f g : Z.lor (Z.lor (Z.lor (Z.lor x f) g) f) g = Z.lor (Z.lor x f) g.
Proof. bitwise. Qed.

(** [pkt_set_tso_flags] in closed form. *)
Definition hdr_l2 : Z := wrap 7 (Z.of_nat sizeof_ether_hdr).
Definition hdr_l3 (b : list Z) : Z := wrap 9 (ip_ihl b * 4).
Definition hdr_l4 (b : list Z) : Z := wrap 8 (Z.shiftr (tcp_data_off b) 4 * 4).
Definition tcp_req (fl : Z) : Z :=
  Z.lor fl (Z.lor RTE_MBUF_F_TX_IPV4 (Z.lor RTE_MBUF_F_TX_TCP_CKSUM RTE_MBUF_F_TX_IP_CKSUM)).
Definition udp_req (fl : Z) : Z :=
  Z.lor fl (Z.lor RTE_MBUF_F_TX_IPV4 (Z.lor RTE_MBUF_F_TX_IP_CKSUM RTE_MBUF_F_TX_UDP_CKSUM)).
Definition ip_req (fl : Z) : Z := Z.lor fl (Z.lor RTE_MBUF_F_TX_IPV4 RTE_MBUF_F_TX_IP_CKSUM).

Lemma tso_flags_eq b pl ns fl pt l2 l3 l4 ts o2 o3 :
  pkt_set_tso_flags (mk_mbuf b pl ns fl pt l2 l3 l4 ts o2 o3) =
  if rte_be_to_cpu_16 (eth_type b) =? RTE_ETHER_TYPE_IPV4 then
    if ip_proto b =? IPPROTO_TCP then
      if ns >? 1 then
        mk_mbuf b pl ns (Z.lor (tcp_req fl) RTE_MBUF_F_TX_TCP_SEG) pt hdr_l2 (hdr_l3 b) (hdr_l4 b)
          (u16 (PKT_MTU - hdr_l3 b - hdr_l4 b)) o2 o3
      else mk_mbuf b pl ns (clear_flags (tcp_req fl) RTE_MBUF_F_TX_TCP_SEG) pt hdr_l2 (hdr_l3 b) (hdr_l4 b) 0 o2 o3
    else if ip_proto b =? IPPROTO_UDP then mk_mbuf b pl ns (udp_req fl) pt hdr_l2 (hdr_l3 b) l4 ts o2 o3
    else mk_mbuf b pl ns (ip_req fl) pt hdr_l2 (hdr_l3 b) l4 ts o2 o3
  else mk_mbuf b pl ns 0 pt l2 l3 l4 ts o2 o3.
Proof. reflexivity. Qed.

Lemma tso_flags_idem m : pkt_set_tso_flags (pkt_set_tso_flags m) = pkt_set_tso_flags m.
Proof.
  destruct m as [b pl ns fl pt l2 l3 l4 ts o2 o3]. rewrite tso_flags_eq.
  destruct (rte_be_to_cpu_16 (eth_type b) =? RTE_ETHER_TYPE_IPV4) eqn:E0;
    [destruct (ip_proto b =? IPPROTO_TCP) eqn:E1;
      [destruct (ns >? 1) eqn:E2|destruct (ip_proto b =? IPPROTO_UDP) eqn:E2]|];
    rewrite tso_flags_eq, E0, ?E1, ?E2; f_equal; unfold tcp_req, udp_req, ip_req;
    [apply lor_set_again|apply lor_clear_again|apply lor_again|apply lor_again].
Qed.

Lemma eth_out_idem m :
  mac_wf eth_addr → mac_wf (other_node_mac config) → (12 ≤ length (buf m))%nat →
  eth_out (eth_out m) = eth_out m.
Proof.
  intros He Ho Hb. unfold eth_out at 1 2 3. rewrite tso_flags_buf. cbn [buf set_buf].
  rewrite eth_rewrite_idem by done.
  assert (∀ m0, set_buf (buf m0) m0 = m0) as Hid by by intros [].
  set (m1 := set_buf (eth_rewrite (buf m)) m).
  replace (eth_rewrite (buf m)) with (buf (pkt_set_tso_flags m1)) by by rewrite tso_flags_buf.
  by rewrite Hid, tso_flags_idem.
Qed.

(** ** Properties *)

(** [C16] One visit of a NIC queue never faults and conserves packets.  Of the first 64
    packets of the ring the NIC takes the first [k], in order, with rewritten
    addresses and offload requests on the wire; what fits of the rest goes back to
    the tail of the ring, behind what has arrived meanwhile (so only a partial send
    reorders a queue); what does not fit is freed.  Each packet of the burst is in
    exactly one of the three groups, no other packet or queue changes, and the
    rings stay within capacity. *)
Theorem eth_tx_visit_correct (e : eth_env) (q : nat) (w : eth_world) (r : ring nat) :
  eth_wf w → eth_env_ok e w → eth_tx_queue_rings w !! q = Some r →
  let burst := take MAX_PKT_BURST (ring_items r) in
  let rest := drop MAX_PKT_BURST (ring_items r) in
  ∃ k a b w' r' ms, eth_tx_visit e q w = Ok w' ∧ eth_wf w' ∧
    k = Z.to_nat (env_take e (length burst)) ∧
    a = (length (env_arrive e) `min` (ring_capacity r - length rest))%nat ∧
    b = ((length burst - k) `min` (ring_capacity r - (length rest + a)))%nat ∧
    eth_tx_queue_rings w' = <[q:=r']> (eth_tx_queue_rings w) ∧
    ring_items r' = rest ++ take a (env_arrive e) ++ requeued burst k b ∧
    burst ≡ₚ (take k burst ++ drop (k + b) burst) ++ requeued burst k b ∧
    Forall2 (λ p m, eth_pool w !! p = Some m) (take k burst) ms ∧
    wire w' = wire w ++ ((λ m, (q, eth_out m)) <$> ms) ∧
    ∀ p, eth_pool w' !! p =
      if decide (p ∈ take k burst ++ drop (k + b) burst) then None
      else (if decide (p ∈ burst) then eth_out else id) <$> eth_pool w !! p.
Proof.
  intros Hwf He Hr burst rest.
  destruct (eth_tx_visit_spec e q w r Hwf He Hr)
    as (k & a & b & w' & r' & ms & E & Hk & Ha & Hb & Hrings & Hi & Hc & Hms & Hwire & Hpool).
  exists k, a, b, w', r', ms. split_and!; try done; [|apply burst_perm].
  by apply (eth_wf_visit e q w r k a b w' r').
Qed.

(** The frame that leaves.  Its source address is the NIC's; a broadcast or
    multicast destination, and a unicast one other than the data plane's, is kept;
    the data plane's own address becomes the other node's; all bytes from the
    EtherType on are unchanged.  Preparing a packet again after a requeue changes
    nothing, header and offload requests included. *)
Theorem eth_rewrite_correct (m : mbuf) :
  mac_wf eth_addr → mac_wf (other_node_mac config) → wf_buf (buf m) →
  let b := buf m in
  let b' := buf (eth_out m) in
  length b' = length b ∧ eth_src_addr b' = eth_addr ∧
  (eth_dst_addr b = replicate 6 255 ∨ Z.testbit (nth 0 b 0) 0 = true → eth_dst_addr b' = eth_dst_addr b) ∧
  (Z.testbit (nth 0 b 0) 0 = false → eth_dst_addr b = cfg_mac config →
     eth_dst_addr b' = other_node_mac config) ∧
  (eth_dst_addr b ≠ cfg_mac config → eth_dst_addr b' = eth_dst_addr b) ∧
  (∀ n off, (12 ≤ off)%nat → get_bytes n off b' = get_bytes n off b) ∧
  eth_out (eth_out m) = eth_out m.
Proof.
  intros [He Heb] [Ho Hob] [_ Hlen] b b'.
  assert (b' = eth_rewrite b) as -> by (unfold b', eth_out; by rewrite tso_flags_buf).
  assert (eth_dst_addr (set_eth_src eth_addr b) = eth_dst_addr b) as Hdst by by apply eth_dst_set_src.
  assert (length (set_eth_src eth_addr b) = length b) as Hl1 by apply length_put_bytes.
  assert (rte_is_multicast_ether_addr (eth_dst_addr b) = Z.testbit (nth 0 b 0) 0) as Hmc.
  { unfold eth_dst_addr, get_bytes. fold b in Hlen. destruct b as [|x b0]; [cbn in Hlen; lia|].
    apply is_multicast_spec. }
  unfold eth_rewrite. rewrite Hdst, Hmc. split_and!.
  - repeat case_match; unfold set_eth_dst; rewrite ?length_put_bytes; done.
  - assert (∀ c, length c = 6%nat → eth_src_addr (set_eth_dst c (set_eth_src eth_addr b)) = eth_addr) as Hs2.
    { intros c Hc. unfold eth_src_addr, set_eth_dst. rewrite get_put_other by lia.
      rewrite <- He at 1. apply get_put_same. fold b in Hlen. lia. }
    assert (eth_src_addr (set_eth_src eth_addr b) = eth_addr) as Hs1.
    { unfold eth_src_addr. rewrite <- He at 1. apply get_put_same. fold b in Hlen. lia. }
    repeat case_match; auto.
  - intros [Hbc|Hmc'].
    + rewrite (proj2 (is_broadcast_spec _)) by done. done.
    + by rewrite Hmc', orb_true_r.
  - intros Huni Hme. rewrite Huni, orb_false_r.
    destruct (rte_is_broadcast_ether_addr (eth_dst_addr b)) eqn:Hbc.
    + apply is_broadcast_spec in Hbc. exfalso. rewrite <- Hmc, Hbc in Huni.
      change (replicate 6 255) with (255 :: replicate 5 255) in Huni.
      rewrite is_multicast_spec in Huni. done.
    + rewrite (proj2 (is_same_spec _ _)) by done. apply eth_dst_set_dst; [done|]. fold b in Hlen. lia.
  - intros Hne. destruct (_ || _); [done|].
    destruct (rte_is_same_ether_addr (eth_dst_addr b) (cfg_mac config)) eqn:E; [|done].
    apply is_same_spec in E. done.
  - intros n off Hoff. unfold set_eth_dst, set_eth_src.
    repeat case_match; rewrite ?get_put_other by lia; done.
  - apply eth_out_idem; [done|done|]. fold b. fold b in Hlen. lia.
Qed.
End eth_tx.

(** *** Queues of a core *)

Lemma strided_from_spec fuel i n step j :
  (0 < step)%nat → (n ≤ i + fuel)%nat →
  j ∈ strided_from fuel i n step ↔ (i ≤ j < n ∧ ∃ k, j = i + k * step)%nat.
Proof.
  intros Hs. revert i. induction fuel as [|fuel IH]; intros i Hf; cbn [strided_from].
  { split; [intros H; by apply not_elem_of_nil in H|intros [? _]; lia]. }
  case_decide as Hi.
  - rewrite elem_of_cons, IH by lia. split.
    + intros [->|[Hr (k & ->)]]; [split; [lia|exists 0%nat; lia]|].
      split; [lia|]. exists (S k). lia.
    + intros [Hr ([|k] & ->)]; [left; lia|]. right. split; [lia|]. exists k. lia.
  - split; [intros H; by apply not_elem_of_nil in H|intros [? _]; lia].
Qed.

Lemma strided_from_sorted fuel i n step :
  (0 < step)%nat → NoDup (strided_from fuel i n step).
Proof.
  intros Hs. revert i. induction fuel as [|fuel IH]; intros i; cbn [strided_from]; [constructor|].
  case_decide; constructor; [|apply IH].
  intros Hin. assert (∀ fuel i j, j ∈ strided_from fuel i n step → (i ≤ j)%nat) as Hge.
  { clear -Hs. induction fuel as [|fuel IH]; intros i j; cbn [strided_from]; [intros H; by apply not_elem_of_nil in H|].
    case_decide; [|intros H'; by apply not_elem_of_nil in H'].
    intros [->|Hj]%elem_of_cons; [done|]. specialize (IH _ _ Hj). lia. }
  specialize (Hge _ _ _ Hin). lia.
Qed.

Lemma strided_spec r n step j :
  (r < step)%nat → j ∈ strided r n step ↔ (j < n ∧ j mod step = r)%nat.
Proof.
  intros Hr. unfold strided. rewrite strided_from_spec by lia. split.
  - intros [Hj (k & ->)]. split; [lia|]. rewrite Nat.Div0.mod_add. by apply Nat.mod_small.
  - intros [Hj <-]. split.
    + split; [by apply Nat.Div0.mod_le|done].
    + exists (j / step)%nat. rewrite Nat.add_comm, Nat.mul_comm. apply Nat.div_mod_eq.
Qed.

(** The cores of one kind split the NIC queues among them: with [step] cores,
    each queue is served by exactly one core, its number modulo [step], which visits
    it exactly once per iteration. *)
Theorem strided_partition (n step q : nat) :
  (0 < step)%nat → (q < n)%nat →
  (∃ r, (r < step)%nat ∧ q ∈ strided r n step ∧ ∀ r', (r' < step)%nat → q ∈ strided r' n step → r' = r) ∧
  (∀ r, (r < step)%nat → NoDup (strided r n step) ∧ ∀ j, j ∈ strided r n step → (j < n)%nat).
Proof.
  intros Hs Hq. split.
  - exists (q mod step)%nat. pose proof (Nat.mod_upper_bound q step).
    split_and!; [lia|by apply strided_spec; [lia|]|].
    intros r' Hr' Hin. apply strided_spec in Hin as [_ <-]; done.
  - intros r Hr. split; [by apply strided_from_sorted|].
    intros j Hj. by apply strided_spec in Hj as [? _].
Qed.

(** ** Witnesses *)

Definition demo_config : config_t :=
  mk_config 0 0 0 1 0 0 15 4 None None 3 0xC0A86401 24 [2;0;0;0;0;254] [2;0;0;0;1;254] 1 1 4 4 1 1 0.

Definition demo_eth_world : eth_world :=
  mk_eth_world [(127%nat, [5;6;7]%nat); (127%nat, [])]
    (list_to_map ((λ p, (p, demo_mbuf (demo_ip_buf 0 17 [192;168;100;5] [10;0;0;1]))) <$> [5;6;7;8]%nat))
    [] (mk_eth_tx_stats 0 0 0 0 0).

(** The NIC takes at most two packets, and packet 8 arrives meanwhile. *)
Definition demo_eth_env : eth_env := mk_eth_env (λ n, Z.min 2 (Z.of_nat n)) [8%nat].

Lemma eth_tx_visit_correct_witness :
  ∃ w', eth_tx_visit demo_config [2;0;0;0;0;9] demo_eth_env 0 demo_eth_world = Ok w' ∧
    eth_queued w' = [8;7]%nat ∧ fst <$> wire w' = [0;0]%nat.
Proof.
  destruct (eth_tx_visit_correct demo_config [2;0;0;0;0;9] demo_eth_env 0 demo_eth_world
    (127%nat, [5;6;7]%nat)) as (k & a & b & w' & r' & ms & E & _).
  - split; [refine (bool_decide_unpack _ _); vm_compute; exact I|]. split.
    + intros p Hp. change (eth_queued demo_eth_world) with [5;6;7]%nat in Hp.
      repeat (apply elem_of_cons in Hp as [->|Hp]; [by eexists|]). by apply not_elem_of_nil in Hp.
    + refine (bool_decide_unpack _ _). vm_compute. exact I.
  - split; [intros n; cbn; lia|]. split; [refine (bool_decide_unpack _ _); vm_compute; exact I|].
    intros p Hp. apply list_elem_of_singleton in Hp as ->. by eexists.
  - reflexivity.
  - exists w'. split; [exact E|]. vm_compute in E. injection E as <-. split; reflexivity.
Defined.

Lemma eth_rewrite_correct_witness :
  eth_dst_addr (buf (eth_out demo_config [2;0;0;0;0;9]
    (demo_mbuf (demo_ip_buf 0 17 [192;168;100;5] [10;0;0;1])))) = [2;0;0;0;1;254].
Proof.
  refine (proj1 (proj2 (proj2 (proj2 (eth_rewrite_correct demo_config [2;0;0;0;0;9]
    (demo_mbuf (demo_ip_buf 0 17 [192;168;100;5] [10;0;0;1])) _ _ _)))) _ _).
  - split; [reflexivity|]. refine (bool_decide_unpack _ _). vm_compute. exact I.
  - split; [reflexivity|]. refine (bool_decide_unpack _ _). vm_compute. exact I.
  - refine (bool_decide_unpack _ _). vm_compute. exact I.
  - reflexivity.
  - reflexivity.
Defined.

Lemma strided_partition_witness :
  (∃ r, (r < 3)%nat ∧ 7%nat ∈ strided r 15 3) ∧ strided 1 15 3 = [1;4;7;10;13]%nat.
Proof.
  split; [|reflexivity].
  destruct (proj1 (strided_partition 15 3 7 ltac:(lia) ltac:(lia))) as (r & Hr & Hin & _).
  exists r. split; [exact Hr|exact Hin].
Defined.
