(* ===== verification/Batch.v ===== *)
(** * Batching by destination, shared by eth_rx.c and vhost_rx.c

    Both receive loops sort a polled burst into per-VM batches
    [vm_pkts[vid][vm_cnt[vid]++]], remember the distinct destinations in
    [dst_vids] with a 64-bit mask, and then enqueue each batch on the ring of its
    VM.  A batch is represented by its live prefix of [vm_cnt] packets; the arrays
    have [MAX_VHOSTS] batches of [MAX_PKT_BURST] packets. *)

From S2P Require Import Prelude CInt Packet Dpdk Config Poll Plan.
Local Open Scope nat_scope.

(** ** struct slow_msg of src/slow/slowpath.h *)

Inductive slow_reason := SLOW_ARP_REQ | SLOW_MAC_LEARNING | SLOW_ETH_TX_FLOW.
Inductive slow_src := SLOW_SRC_ETH | SLOW_SRC_VHOST.

#[export] Instance slow_reason_eq_dec : EqDecision slow_reason.
Proof. solve_decision. Defined.
#[export] Instance slow_src_eq_dec : EqDecision slow_src.
Proof. solve_decision. Defined.

(** Messages are owned by one queue at a time, so they are passed by value; a
    message from the pool still has the fields of its last use. *)
Record slow_msg := mk_slow_msg {
  reason : slow_reason;
  src : slow_src;
  msg_eth_queue_id : nat;  (* uint16_t *)
  msg_vid : nat;           (* uint16_t *)
  msg_mbuf : nat;
}.

(** [rte_mempool_get(control_ctx->msg_pool, &slow_msg)]: the result is not checked,
    so after a failure the pointer that is written through is indeterminate. *)
Definition get_slow_msg `{RteMempool slow_msg} (mp : mempool) : res (slow_msg * mempool) :=
  match rte_mempool_get mp with Some r => Ok r | None => Fault Uninitialised end.

(** The messages of the two receive loops. *)
Definition eth_arp_msg (queue p : nat) (m : slow_msg) : slow_msg :=
  mk_slow_msg SLOW_ARP_REQ SLOW_SRC_ETH queue (msg_vid m) p.
Definition vhost_msg (why : slow_reason) (vid p : nat) (m : slow_msg) : slow_msg :=
  mk_slow_msg why SLOW_SRC_VHOST (msg_eth_queue_id m) vid p.

(** An ARP request for the address of the data plane. *)
Definition arp_req_for_us (config : config_t) (b : list Z) : bool :=
  is_arp b && (arp_opcode b =? rte_cpu_to_be_16 RTE_ARP_OP_REQUEST)%Z
  && (rte_be_to_cpu_32 (arp_tip b) =? cfg_ip config)%Z.

Record batch := mk_batch {
  vm_pkts : list (list nat);
  vid_seen_mask : Z;    (* uint64_t *)
  dst_vids : list nat;  (* the first dst_cnt elements *)
}.

(** The arrays before the first burst, and at the start of each. *)
Definition empty_batch : batch := mk_batch (replicate MAX_VHOSTS []) 0 [].

(** [vid_seen_mask = 0; dst_cnt = 0]: the batches themselves are carried over. *)
Definition start_burst (pkts : list (list nat)) : batch := mk_batch pkts 0 [].

Definition batch_add (dst p : nat) (b : batch) : res batch :=
  l ← arr_get (vm_pkts b) dst;
  l ← arr_push MAX_PKT_BURST l p;
  let pkts := <[dst:=l]> (vm_pkts b) in
  if negb (Z.land (vid_seen_mask b) (Z.shiftl 1 (Z.of_nat dst)) =? 0)%Z
  then Ok (mk_batch pkts (vid_seen_mask b) (dst_vids b))
  else
    let mask := Z.lor (vid_seen_mask b) (Z.shiftl 1 (Z.of_nat dst)) in
    if decide (MAX_VHOSTS ≤ length (dst_vids b)) then Ok (mk_batch pkts mask (dst_vids b))
    else Ok (mk_batch pkts mask (dst_vids b ++ [dst])).

Section flush.
Context `{RteRing} {X : Type}.

(** What each loop does around the enqueue: [pre v free l] before it, when the ring
    of VM [v] has [free] places, and [fail v lost] when [lost] packets did not fit. *)
Context (pre : nat → nat → list nat → X → res X) (fail : nat → nat → X → res X).

(** The loop over the destinations; it stops at an empty batch. *)
Fixpoint flush (dsts : list nat) (pkts : list (list nat)) (rings : list (ring nat)) (x : X)
    : res (list (list nat) * list (ring nat) * X) :=
  match dsts with
  | [] => Ok (pkts, rings, x)
  | v :: dsts =>
      l ← arr_get pkts v;
      if decide (l = []) then Ok (pkts, rings, x)
      else
        r ← arr_get rings v;
        x ← pre v (rte_ring_free_count r) l x;
        let '(enq_num, r) := rte_ring_enqueue_burst r l in
        x ← (if decide (enq_num < length l) then fail v (length l - enq_num) x else Ok x);
        flush dsts (<[v:=[]]> pkts) (<[v:=r]> rings) x
  end.

(** [if (slow_cnt) rte_ring_enqueue_burst(slowpath_ring, ...)]: how many did not fit. *)
Definition flush_slow (slow : list slow_msg) (r : ring slow_msg) : nat * ring slow_msg :=
  match slow with
  | [] => (0%nat, r)
  | _ => let '(enq_num, r) := rte_ring_enqueue_burst r slow in ((length slow - enq_num)%nat, r)
  end.

End flush.

(** ** Specification *)

(** What a receive loop decides about a packet. *)
Inductive verdict := ToSlow | ToVm (v : nat) | ToEth (q : nat) | Drop.

#[export] Instance verdict_eq_dec : EqDecision verdict.
Proof. solve_decision. Defined.

(** The packets of a burst with a given verdict, in order. *)
Definition with_verdict (V : nat → verdict) (o : verdict) (pkts : list nat) : list nat :=
  filter (λ p, V p = o) pkts.

Definition pool_verdict (classify : list Z → verdict) (pool : gmap nat mbuf) (p : nat) : verdict :=
  match pool !! p with Some m => classify (buf m) | None => Drop end.

(** The batch after the packets [pre] of a burst. *)
Definition batch_ok (V : nat → verdict) (pre : list nat) (b : batch) : Prop :=
  length (vm_pkts b) = MAX_VHOSTS ∧
  (∀ v, v < MAX_VHOSTS → vm_pkts b !! v = Some (with_verdict V (ToVm v) pre)) ∧
  NoDup (dst_vids b) ∧
  (∀ v, v ∈ dst_vids b ↔ v < MAX_VHOSTS ∧ with_verdict V (ToVm v) pre ≠ []) ∧
  (∀ v, v < MAX_VHOSTS → Z.testbit (vid_seen_mask b) (Z.of_nat v) = bool_decide (v ∈ dst_vids b)).

(** A batch array between two bursts. *)
Definition batch_clean (pkts : list (list nat)) : Prop := pkts = replicate MAX_VHOSTS [].

(** The ring of each VM after a burst: what fits of its packets, in order. *)
Definition enqueued `{RteRing} (V : nat → verdict) (pkts : list nat) (rings rings' : list (ring nat)) : Prop :=
  length rings' = length rings ∧
  ∀ v r, rings !! v = Some r → ∃ r', rings' !! v = Some r' ∧ ring_capacity r' = ring_capacity r ∧
    ring_items r' = ring_items r ++ take (rte_ring_free_count r) (with_verdict V (ToVm v) pkts).

(** The packets that did not fit, for one VM and over all. *)
Definition lost_pkts `{RteRing} (V : nat → verdict) (burst : list nat) (rings : list (ring nat)) (v : nat) : nat :=
  match rings !! v with
  | Some r => length (with_verdict V (ToVm v) burst) - rte_ring_free_count r
  | None => 0
  end.
Definition total_lost `{RteRing} V burst rings : nat :=
  sum_list_with (lost_pkts V burst rings) (seq 0 MAX_VHOSTS).

(** The messages [slow] were made by [f] from the requests [reqs] and messages of the
    pool [mp], which is now [mp']. *)
Definition slow_ok `{RteMempool slow_msg} {A} (f : A → slow_msg → slow_msg) (reqs : list A)
    (slow : list slow_msg) (mp mp' : mempool) : Prop :=
  ∃ stale, length stale = length reqs ∧ slow = zip_with f reqs stale ∧
    pool_objs mp ≡ₚ stale ++ pool_objs mp'.

(** ** Lemmas *)

Lemma slow_ok_nil `{RteMempool slow_msg} {A} (f : A → slow_msg → slow_msg) mp : slow_ok f [] [] mp mp.
Proof. by exists []. Qed.

Lemma slow_ok_length `{RteMempool slow_msg} {A} (f : A → slow_msg → slow_msg) reqs slow mp mp' :
  slow_ok f reqs slow mp mp' → length slow = length reqs.
Proof. intros (stale & Hl & -> & _). rewrite length_zip_with. lia. Qed.

Lemma slow_ok_push `{RteMempool slow_msg} {A} (f : A → slow_msg → slow_msg) reqs slow mp mp1 a :
  slow_ok f reqs slow mp mp1 → length reqs < length (pool_objs mp) → length reqs < MAX_PKT_BURST →
  ∃ msg mp2, get_slow_msg mp1 = Ok (msg, mp2) ∧
    arr_push MAX_PKT_BURST slow (f a msg) = Ok (slow ++ [f a msg]) ∧
    slow_ok f (reqs ++ [a]) (slow ++ [f a msg]) mp mp2.
Proof.
  intros Hok Hp Hm. pose proof (slow_ok_length _ _ _ _ _ Hok) as Hlen.
  destruct Hok as (stale & Hl & -> & Hperm). unfold get_slow_msg.
  destruct (rte_mempool_get mp1) as [[msg mp2]|] eqn:E.
  - exists msg, mp2. split; [done|]. split; [apply arr_push_lt; lia|].
    exists (stale ++ [msg]). rewrite !length_app, zip_with_app by done. split_and!; [cbn; lia|done|].
    rewrite Hperm, (pool_get_Some _ _ _ E). by rewrite <- app_assoc.
  - apply pool_get_None in E. rewrite E, app_nil_r in Hperm. rewrite Hperm in Hp. lia.
Qed.

Lemma flush_slow_eq `{RteRing} slow (r : ring slow_msg) :
  ∃ r', flush_slow slow r = (length slow - rte_ring_free_count r, r') ∧
    ring_items r' = ring_items r ++ take (rte_ring_free_count r) slow ∧ ring_capacity r' = ring_capacity r.
Proof.
  destruct slow as [|m slow]; [exists r; by rewrite take_nil, app_nil_r|].
  unfold flush_slow. destruct (rte_ring_enqueue_burst r (m :: slow)) as [k r'] eqn:E.
  destruct (ring_enqueue_eq _ _ _ _ _ E) as (-> & Hi & Hc). exists r'. split_and!; [f_equal; lia| |done].
  rewrite Hi. f_equal. destruct (decide (length (m :: slow) ≤ rte_ring_free_count r)).
  - rewrite !take_ge; done || lia.
  - f_equal. lia.
Qed.

(** Losses can only be at the destinations of the burst. *)
Lemma total_lost_dsts `{RteRing} V burst b rings :
  batch_ok V burst b → sum_list_with (lost_pkts V burst rings) (dst_vids b) = total_lost V burst rings.
Proof.
  intros (_ & _ & Hnd & Hd & _). unfold total_lost.
  assert (dst_vids b ≡ₚ filter (.∈ dst_vids b) (seq 0 MAX_VHOSTS)) as Hperm.
  { apply NoDup_Permutation; [done|by apply NoDup_filter, NoDup_seq|].
    intros v. rewrite list_elem_of_filter, elem_of_seq. split; [|tauto]. intros Hv.
    split; [done|]. apply Hd in Hv as [? _]. lia. }
  rewrite Hperm at 1.
  assert (∀ v, v ∈ seq 0 MAX_VHOSTS → v ∉ dst_vids b → lost_pkts V burst rings v = 0) as Hz.
  { intros v Hv Hn. apply elem_of_seq in Hv. rewrite Hd in Hn. unfold lost_pkts.
    destruct (rings !! v); [|done]. destruct (with_verdict V (ToVm v) burst); [done|].
    exfalso. apply Hn. split; [lia|done]. }
  clear Hperm. induction (seq 0 MAX_VHOSTS) as [|v l IH]; [done|]. rewrite filter_cons.
  assert (∀ w, w ∈ l → w ∉ dst_vids b → lost_pkts V burst rings w = 0) as Hz'
    by (intros w Hw; apply Hz; by right).
  case_decide as Hin; cbn [sum_list_with]; rewrite IH by done; [done|].
  rewrite (Hz v); [done|by left|done].
Qed.

Lemma with_verdict_snoc V o pre p :
  with_verdict V o (pre ++ [p]) = with_verdict V o pre ++ (if decide (V p = o) then [p] else []).
Proof. unfold with_verdict. by rewrite filter_app. Qed.

Lemma with_verdict_app V o l1 l2 : with_verdict V o (l1 ++ l2) = with_verdict V o l1 ++ with_verdict V o l2.
Proof. apply filter_app. Qed.

Lemma with_verdict_all V o l : (∀ p, p ∈ l → V p = o) → with_verdict V o l = l.
Proof.
  induction l as [|p l IH]; intros Hl; [done|]. unfold with_verdict in *.
  rewrite filter_cons, decide_True by (apply Hl; by left). f_equal. apply IH. intros q Hq. apply Hl. by right.
Qed.

Lemma length_with_verdict V o pkts : length (with_verdict V o pkts) ≤ length pkts.
Proof. apply length_filter. Qed.

Lemma with_verdict_mem V o pkts p : p ∈ with_verdict V o pkts ↔ V p = o ∧ p ∈ pkts.
Proof. unfold with_verdict. by rewrite list_elem_of_filter. Qed.

Lemma start_burst_ok V pkts : batch_clean pkts → batch_ok V [] (start_burst pkts).
Proof.
  intros ->. unfold batch_ok, start_burst. cbn [vm_pkts dst_vids vid_seen_mask].
  split_and!; [by rewrite length_replicate| |constructor| |].
  - intros v Hv. by rewrite lookup_replicate_2.
  - intros v. split; [intros Hin; by apply not_elem_of_nil in Hin|intros [_ Hne]; by destruct Hne].
  - intros v Hv. by rewrite Z.bits_0.
Qed.

Lemma mask_test m v : (0 ≤ m)%Z →
  negb (Z.land m (Z.shiftl 1 (Z.of_nat v)) =? 0)%Z = Z.testbit m (Z.of_nat v).
Proof.
  intros Hm. destruct (Z.testbit m (Z.of_nat v)) eqn:E.
  - apply negb_true_iff, Z.eqb_neq. intros Hz.
    assert (Z.testbit (Z.land m (Z.shiftl 1 (Z.of_nat v))) (Z.of_nat v) = true) as Ht.
    { rewrite Z.land_spec, E, Z.shiftl_spec by lia. by rewrite Z.sub_diag. }
    by rewrite Hz, Z.bits_0 in Ht.
  - apply negb_false_iff, Z.eqb_eq. apply Z.bits_inj'. intros n Hn.
    rewrite Z.land_spec, Z.bits_0, Z.shiftl_spec by lia.
    destruct (decide (n = Z.of_nat v)) as [->|Hne]; [by rewrite E|].
    replace (Z.testbit 1 (n - Z.of_nat v)) with false; [apply andb_false_r|].
    destruct (Z_lt_le_dec (n - Z.of_nat v) 0); [by rewrite Z.testbit_neg_r|].
    symmetry. apply (Z.bits_above_log2 1); cbn; lia.
Qed.

Lemma mask_set m v w :
  Z.testbit (Z.lor m (Z.shiftl 1 (Z.of_nat v))) (Z.of_nat w) = Z.testbit m (Z.of_nat w) || bool_decide (w = v).
Proof.
  rewrite Z.lor_spec, Z.shiftl_spec by lia. f_equal. case_bool_decide as Hc.
  - by rewrite Hc, Z.sub_diag.
  - destruct (Z_lt_le_dec (Z.of_nat w - Z.of_nat v) 0); [by rewrite Z.testbit_neg_r|].
    apply (Z.bits_above_log2 1); cbn; lia.
Qed.

Lemma batch_skip_ok V pre p b :
  batch_ok V pre b → (∀ v, V p ≠ ToVm v) → batch_ok V (pre ++ [p]) b.
Proof.
  intros (Hl & Hp & Hnd & Hd & Hm) Hne.
  assert (∀ v, with_verdict V (ToVm v) (pre ++ [p]) = with_verdict V (ToVm v) pre) as Heq.
  { intros v. rewrite with_verdict_snoc, decide_False by done. apply app_nil_r. }
  unfold batch_ok. split_and!; try done; intros v; rewrite Heq; auto.
Qed.

Lemma batch_add_ok V pre p v b :
  batch_ok V pre b → (0 ≤ vid_seen_mask b)%Z → V p = ToVm v → v < MAX_VHOSTS → length pre < MAX_PKT_BURST →
  ∃ b', batch_add v p b = Ok b' ∧ (0 ≤ vid_seen_mask b')%Z ∧ batch_ok V (pre ++ [p]) b'.
Proof.
  intros (Hl & Hp & Hnd & Hd & Hm) Hpos HV Hv Hlen. unfold batch_add.
  rewrite (arr_get_Some _ _ _ (Hp v Hv)). cbn [mbind res_bind].
  pose proof (length_with_verdict V (ToVm v) pre).
  rewrite arr_push_lt by lia. cbn [mbind res_bind]. rewrite mask_test, (Hm v Hv) by done.
  set (pkts := <[v:=_]> (vm_pkts b)).
  assert (∀ w, w < MAX_VHOSTS → pkts !! w = Some (with_verdict V (ToVm w) (pre ++ [p]))) as Hpk.
  { intros w Hw. unfold pkts. rewrite with_verdict_snoc. destruct (decide (v = w)) as [<-|Hne].
    - by rewrite list_lookup_insert_eq, decide_True by (done || lia).
    - rewrite list_lookup_insert_ne, decide_False, app_nil_r by (done || congruence). by apply Hp. }
  assert (∀ w, with_verdict V (ToVm w) (pre ++ [p]) ≠ [] ↔ w = v ∨ with_verdict V (ToVm w) pre ≠ []) as Hne.
  { intros w. rewrite with_verdict_snoc. case_decide as Hw.
    - assert (w = v) as -> by congruence. split; [by left|]. intros _ Hn. by destruct (with_verdict _ _ _).
    - rewrite app_nil_r. split; [by right|]. intros [->|?]; done. }
  assert (length pkts = MAX_VHOSTS) as Hlp by (unfold pkts; by rewrite length_insert).
  case_bool_decide as Hin.
  - eexists. split; [done|]. cbn [vid_seen_mask]. split; [done|].
    unfold batch_ok. cbn [vm_pkts dst_vids vid_seen_mask]. split_and!; try done.
    intros w. rewrite Hne, Hd. split; [tauto|]. intros [? [-> | ?]]; [|done]. by apply Hd.
  - assert (length (dst_vids b) < MAX_VHOSTS) as Hroom.
    { assert (length (v :: dst_vids b) ≤ length (seq 0 MAX_VHOSTS)) as Hle.
      { apply submseteq_length, NoDup_submseteq; [by constructor|].
        intros w Hw. apply elem_of_seq. apply elem_of_cons in Hw as [->|Hw]; [lia|].
        apply Hd in Hw as [? _]. lia. }
      rewrite length_seq in Hle. cbn [length] in Hle. lia. }
    rewrite decide_False by lia. eexists. split; [done|]. cbn [vid_seen_mask]. split.
    { apply Z.lor_nonneg. split; [done|]. apply Z.shiftl_nonneg. lia. }
    unfold batch_ok. cbn [vm_pkts dst_vids vid_seen_mask]. split_and!; try done.
    + apply NoDup_app. split_and!; [done| |apply NoDup_singleton].
      by intros w Hw ->%list_elem_of_singleton.
    + intros w. rewrite elem_of_app, list_elem_of_singleton, Hne, Hd. split; [|tauto].
      intros [[? ?] | ->]; auto.
    + intros w Hw. rewrite mask_set, (Hm w Hw), <- bool_decide_or. apply bool_decide_ext.
      by rewrite elem_of_app, list_elem_of_singleton.
Qed.

(** Flushing a complete burst: every batch is enqueued and emptied. *)
Lemma flush_ok `{RteRing} {X} (pre : nat → nat → list nat → X → res X) (fail : nat → nat → X → res X)
    V burst b rings x (P : list nat → X → Prop) :
  batch_ok V burst b → length rings = MAX_VHOSTS →
  P [] x →
  (∀ done v todo r x, dst_vids b = done ++ v :: todo → rings !! v = Some r → P done x →
     ∃ x', (x ← pre v (rte_ring_free_count r) (with_verdict V (ToVm v) burst) x;
            if decide (length (with_verdict V (ToVm v) burst) `min` rte_ring_free_count r <
                       length (with_verdict V (ToVm v) burst))
            then fail v (length (with_verdict V (ToVm v) burst) -
                         length (with_verdict V (ToVm v) burst) `min` rte_ring_free_count r) x
            else Ok x) = Ok x' ∧ P (done ++ [v]) x') →
  ∃ pkts' rings' x', flush pre fail (dst_vids b) (vm_pkts b) rings x = Ok (pkts', rings', x') ∧
    batch_clean pkts' ∧ enqueued V burst rings rings' ∧ P (dst_vids b) x'.
Proof.
  intros (Hl & Hp & Hnd & Hd & _) Hlr HP0 Hstep.
  cut (∀ todo done pkts rings1 x, dst_vids b = done ++ todo → P done x →
    length pkts = MAX_VHOSTS → length rings1 = length rings →
    (∀ v, v < MAX_VHOSTS → pkts !! v = Some (if decide (v ∈ done) then [] else with_verdict V (ToVm v) burst)) →
    (∀ v r, rings !! v = Some r → ∃ r', rings1 !! v = Some r' ∧ ring_capacity r' = ring_capacity r ∧
       ring_items r' = ring_items r ++
         if decide (v ∈ done) then take (rte_ring_free_count r) (with_verdict V (ToVm v) burst) else []) →
    (∀ v, v ∉ done → rings1 !! v = rings !! v) →
    ∃ pkts' rings' x', flush pre fail todo pkts rings1 x = Ok (pkts', rings', x') ∧
      batch_clean pkts' ∧ enqueued V burst rings rings' ∧ P (dst_vids b) x').
  { intros Hcut. apply (Hcut (dst_vids b) [] (vm_pkts b) rings x); try done.
    intros v r Hr. exists r. rewrite decide_False by apply not_elem_of_nil. by rewrite app_nil_r. }
  clear HP0 x. intros todo. induction todo as [|v todo IH]; intros dn pkts rings1 x Heq HP Hlp Hl1 Hpk Hrg Hsame.
  - rewrite app_nil_r in Heq. exists pkts, rings1, x. split; [done|].
    assert (∀ v, v < MAX_VHOSTS → v ∉ dn → with_verdict V (ToVm v) burst = []) as Hempty.
    { intros v Hv Hn. rewrite <- Heq, Hd in Hn. destruct (with_verdict V (ToVm v) burst); [done|].
      exfalso. apply Hn. by split. }
    split_and!; [| |by rewrite Heq].
    + unfold batch_clean. apply list_eq. intros v. destruct (decide (v < MAX_VHOSTS)) as [Hv|Hv].
      * rewrite lookup_replicate_2, Hpk by done. case_decide; [done|]. by rewrite Hempty.
      * rewrite !lookup_ge_None_2; [done|rewrite length_replicate; lia|lia].
    + split; [done|]. intros v r Hr. destruct (Hrg v r Hr) as (r' & Hr' & Hc & Hi). exists r'.
      split_and!; [done|done|]. rewrite Hi. case_decide; [done|].
      rewrite Hempty; [by rewrite take_nil| |done]. rewrite <- Hlr. by eapply lookup_lt_Some.
  - assert (v ∈ dst_vids b) as Hin by (rewrite Heq; apply elem_of_app; right; by left).
    apply Hd in Hin as [Hv Hne].
    assert (v ∉ dn) as Hnin.
    { rewrite Heq in Hnd. apply NoDup_app in Hnd as (_ & Hdis & _). intros Hi. apply (Hdis v Hi). by left. }
    cbn [flush]. rewrite (arr_get_Some _ _ _ (Hpk v Hv)). cbn [mbind res_bind].
    rewrite (decide_False (P := v ∈ dn)) by done. rewrite decide_False by done.
    destruct (lookup_lt_is_Some_2 rings v) as [r Hr]; [lia|].
    rewrite (arr_get_Some rings1 v r) by (by rewrite Hsame). cbn [mbind res_bind].
    destruct (Hstep dn v todo r x Heq Hr HP) as (x' & Hx & HP').
    destruct (pre v (rte_ring_free_count r) (with_verdict V (ToVm v) burst) x) as [x1|f];
      cbn [mbind res_bind] in *; [|done].
    destruct (rte_ring_enqueue_burst r (with_verdict V (ToVm v) burst)) as [k r'] eqn:Ee.
    destruct (ring_enqueue_eq _ _ _ _ _ Ee) as (-> & Hi & Hc). rewrite Hx. cbn [mbind res_bind].
    apply (IH (dn ++ [v])); try done.
    + by rewrite <- app_assoc.
    + by rewrite length_insert.
    + by rewrite length_insert.
    + intros w Hw. destruct (decide (v = w)) as [<-|Hvw].
      * rewrite list_lookup_insert_eq, decide_True by (lia || apply elem_of_snoc). done.
      * rewrite list_lookup_insert_ne, Hpk by done. f_equal. apply decide_ext_if.
        rewrite elem_of_app, list_elem_of_singleton. split; [auto|intros [?| ->]; done].
    + intros w r0 Hr0. destruct (decide (v = w)) as [<-|Hvw].
      * assert (r0 = r) as -> by congruence. exists r'.
        rewrite list_lookup_insert_eq by (rewrite Hl1; by eapply lookup_lt_Some).
        split_and!; [done|done|]. rewrite decide_True by apply elem_of_snoc. rewrite Hi. f_equal.
        destruct (decide (length (with_verdict V (ToVm v) burst) ≤ rte_ring_free_count r)).
        -- rewrite !take_ge; done || lia.
        -- f_equal. lia.
      * rewrite list_lookup_insert_ne by done. destruct (Hrg w r0 Hr0) as (r2 & Hr2 & Hc2 & Hi2).
        exists r2. split_and!; [done|done|]. rewrite Hi2. f_equal. apply decide_ext_if.
        rewrite elem_of_app, list_elem_of_singleton. split; [auto|intros [?| ->]; done].
    + intros w Hw. rewrite list_lookup_insert_ne; [apply Hsame|]; intros Hx'.
      * apply Hw. apply elem_of_app. by left.
      * subst w. apply Hw, elem_of_snoc.
Qed.
