(* ===== verification/EthRx.v ===== *)
(** * src/fast/eth_rx.c: receiving from the wire

    One visit of a NIC queue: poll a burst, hand ARP requests for the data plane to
    the slow path, rewrite and batch the packets for local VMs, and flush.  The
    received mbufs, the published [vdev_list] and the route table during a visit are
    arguments ([rx_env]).  Not modelled: prefetches and the log of the first 50 polls. *)

From S2P Require Import Prelude CInt Packet Dpdk Ecn Offload Config Poll Plan Route Device VhostTx EthTx Batch.
Local Open Scope Z_scope.

Record eth_rx_stats := mk_eth_rx_stats {
  ers_call_count : Z;
  ers_pkt_count : Z;
  ers_empty_poll_count : Z;
  ers_max_poll_count : Z;
  ers_ring_enq_fail_count : Z;
}.

(** What a visit finds: the burst, [None] for a NULL [vdev_list], the devices, and
    the route table. *)
Record rx_env := mk_rx_env {
  env_burst : list (nat * mbuf);
  env_vdevs : option (list (option nat));
  env_devs : gmap nat vhost_dev;
  env_routing : list Z;
}.

Section eth_rx.
Context `{RteRing} `{RteMempool slow_msg} `{RteFlags} `{RteCksum}.
Context (config : config_t).

(** The destination address if it is in the local /24 subnet, else 0. *)
Definition eth_dst_is_local_subnet (b : list Z) : Z :=
  let subnet := Z.land (cfg_ip config) 0xFFFFFF00 in
  if is_ipv4 b then
    let dst_ip := rte_be_to_cpu_32 (ip_dst_addr b) in
    if Z.land dst_ip 0xFFFFFF00 =? subnet then i32 dst_ip else 0
  else if is_arp b then
    let dst_ip := rte_be_to_cpu_32 (arp_tip b) in
    if Z.land dst_ip 0xFFFFFF00 =? subnet then i32 dst_ip else 0
  else 0.

(** [slow_msgs] is the live prefix of the array of [MAX_PKT_BURST] pointers. *)
Record rx_local := mk_rx_local {
  l_pool : gmap nat mbuf;
  l_batch : batch;
  l_slow : list slow_msg;
  l_msgs : mempool;
}.

(** The packet a local VM gets: from the data plane, to the VM, checksums valid. *)
Definition to_vm (mac : list Z) (m : mbuf) : mbuf :=
  fix_cksum (set_buf (set_eth_src (cfg_mac config) (set_eth_dst mac (buf m))) m).

(** The body of the loop over the burst; [queue] is the NIC queue polled. *)
Definition eth_rx_packet (e : rx_env) (queue p : nat) (s : rx_local) : res rx_local :=
  m ← heap_get (l_pool s) p;
  let b := buf m in
  if arp_req_for_us config b then
    '(msg, mp) ← get_slow_msg (l_msgs s);
    slow ← arr_push MAX_PKT_BURST (l_slow s) (eth_arp_msg queue p msg);
    Ok (mk_rx_local (l_pool s) (l_batch s) slow mp)
  else
    let local_dst_ip := eth_dst_is_local_subnet b in
    if local_dst_ip =? 0 then Ok s
    else
      dst_vid ← find_vid_by_ip (u32 local_dst_ip) (env_routing e);
      if (dst_vid <? 0) || (Z.of_nat MAX_VHOSTS <=? dst_vid) then Ok s
      else
        vdevs ← match env_vdevs e with Some l => Ok l | None => Fault NullDeref end;
        slot ← arr_get vdevs (Z.to_nat dst_vid);
        ptr ← match slot with Some ptr => Ok ptr | None => Fault NullDeref end;
        d ← heap_get (env_devs e) ptr;
        pool ← heap_set (l_pool s) p (to_vm (dev_mac d) m);
        b ← batch_add (Z.to_nat dst_vid) p (l_batch s);
        Ok (mk_rx_local pool b (l_slow s) (l_msgs s)).

Record rx_world := mk_rx_world {
  rx_pool : gmap nat mbuf;
  rx_rings : list (ring nat);     (* global->vhost_tx_rings *)
  slowpath_ring : ring slow_msg;
  msg_pool : mempool;
  rx_stats : eth_rx_stats;
  rx_batch : list (list nat);     (* vm_pkts, carried over between bursts *)
}.

Definition add_fail (lost : nat) (x : Z) : Z := u32 (x + Z.of_nat lost).

(** The counters of [network_poll], which got [nb_rx] packets. *)
Definition network_poll (nb_rx : nat) (st : eth_rx_stats) : eth_rx_stats :=
  let calls := u32 (ers_call_count st + 1) in
  if decide (nb_rx = 0%nat)
  then mk_eth_rx_stats calls (ers_pkt_count st) (u32 (ers_empty_poll_count st + 1)) (ers_max_poll_count st) (ers_ring_enq_fail_count st)
  else mk_eth_rx_stats calls (u32 (ers_pkt_count st + Z.of_nat nb_rx)) (ers_empty_poll_count st) (ers_max_poll_count st)
         (ers_ring_enq_fail_count st).

Definition set_fails (n : Z) (st : eth_rx_stats) : eth_rx_stats :=
  mk_eth_rx_stats (ers_call_count st) (ers_pkt_count st) (ers_empty_poll_count st) (ers_max_poll_count st) n.

(** The body of the loop of [eth_rx_loop] for NIC queue [queue]. *)
Definition eth_rx_visit (e : rx_env) (queue : nat) (w : rx_world) : res rx_world :=
  let pkts := (env_burst e).*1 in
  let st := network_poll (length pkts) (rx_stats w) in
  if decide (length pkts = 0%nat) then Ok (mk_rx_world (rx_pool w) (rx_rings w) (slowpath_ring w) (msg_pool w) st (rx_batch w))
  else
    let pool := list_to_map (env_burst e) ∪ rx_pool w in
    s ← foldM (eth_rx_packet e queue) pkts (mk_rx_local pool (start_burst (rx_batch w)) [] (msg_pool w));
    '(batch, rings, fails) ←
      flush (λ _ _ _ x, Ok x) (λ _ lost x, Ok (add_fail lost x))
        (dst_vids (l_batch s)) (vm_pkts (l_batch s)) (rx_rings w) (ers_ring_enq_fail_count st);
    let '(lost, sring) := flush_slow (l_slow s) (slowpath_ring w) in
    Ok (mk_rx_world (l_pool s) rings sring (l_msgs s)
      (set_fails (if decide (0 < lost)%nat then add_fail lost fails else fails) st) batch).

(** One iteration of the infinite loop of core [r]. *)
Definition eth_rx_iter (env : nat → rx_env) (r : nat) (w : rx_world) : res rx_world :=
  foldM (λ q w, eth_rx_visit (env q) q w)
    (strided r (Z.to_nat (eth_rx_queues config)) (Z.to_nat (eth_rx_cores config))) w.

(** ** Specification *)

(** The decision about a frame, given the route table. *)
Definition eth_verdict (routing : list Z) (b : list Z) : verdict :=
  if arp_req_for_us config b then ToSlow
  else if eth_dst_is_local_subnet b =? 0 then Drop
  else match routing !! last_octet (u32 (eth_dst_is_local_subnet b)) with
       | Some v => if (0 <=? v) && (v <? Z.of_nat MAX_VHOSTS) then ToVm (Z.to_nat v) else Drop
       | None => Drop
       end.

Definition received (e : rx_env) (w : rx_world) : gmap nat mbuf := list_to_map (env_burst e) ∪ rx_pool w.
Definition rx_verdict (e : rx_env) : nat → verdict :=
  pool_verdict (eth_verdict (env_routing e)) (list_to_map (env_burst e)).

(** The MAC address of VM [v]. *)
Definition vm_mac (e : rx_env) (v : nat) : list Z :=
  match (l ← env_vdevs e; slot ← (l : list (option nat)) !! v; ptr ← slot; env_devs e !! ptr) with
  | Some d => dev_mac d
  | None => []
  end.

(** What the visit does to a packet of the burst. *)
Definition rx_rewrite (e : rx_env) (p : nat) (m : mbuf) : mbuf :=
  match rx_verdict e p with ToVm v => to_vm (vm_mac e v) m | _ => m end.

(** Routes lead to published, live devices. *)
Definition routes_live (e : rx_env) : Prop :=
  length (env_routing e) = ROUTE_SIZE ∧
  ∀ o v, env_routing e !! o = Some v → 0 ≤ v < Z.of_nat MAX_VHOSTS →
    ∃ l ptr d, env_vdevs e = Some l ∧ l !! Z.to_nat v = Some (Some ptr) ∧ env_devs e !! ptr = Some d.

Definition rx_env_ok (e : rx_env) : Prop :=
  routes_live e ∧ NoDup (env_burst e).*1 ∧ (length (env_burst e) ≤ MAX_PKT_BURST)%nat.

Definition rx_wf (w : rx_world) : Prop :=
  length (rx_rings w) = MAX_VHOSTS ∧ batch_clean (rx_batch w) ∧ in_u 32 (ers_ring_enq_fail_count (rx_stats w)).


(** The state of the loop after the packets [pre] of the burst. *)
Definition rx_inv (e : rx_env) (queue : nat) (w : rx_world) (pre : list nat) (s : rx_local) : Prop :=
  (∀ p, l_pool s !! p = (if decide (p ∈ pre) then rx_rewrite e p else id) <$> received e w !! p) ∧
  batch_ok (rx_verdict e) pre (l_batch s) ∧ 0 ≤ vid_seen_mask (l_batch s) ∧
  slow_ok (eth_arp_msg queue) (with_verdict (rx_verdict e) ToSlow pre) (l_slow s) (msg_pool w) (l_msgs s).

(** ** Lemmas *)

Lemma received_burst e w p m :
  NoDup (env_burst e).*1 → (p, m) ∈ env_burst e →
  (list_to_map (env_burst e) : gmap nat mbuf) !! p = Some m ∧ received e w !! p = Some m.
Proof.
  intros Hnd Hin. assert ((list_to_map (env_burst e) : gmap nat mbuf) !! p = Some m) as Hm
    by by apply elem_of_list_to_map.
  split; [done|]. unfold received. by rewrite lookup_union, Hm, union_Some_l.
Qed.

Lemma erx_received_live e w p : NoDup (env_burst e).*1 → p ∈ (env_burst e).*1 → is_Some (received e w !! p).
Proof. intros Hnd ([q m] & -> & Hin)%list_elem_of_fmap. destruct (received_burst e w q m Hnd Hin) as [_ Hm]. by exists m. Qed.

(** The pool after one more packet, whose contents become [f m]. *)
Lemma pool_snoc e w pre p (pool pool' : gmap nat mbuf) :
  p ∉ pre →
  (∀ q, pool !! q = (if decide (q ∈ pre) then rx_rewrite e q else id) <$> received e w !! q) →
  (∀ q, q ≠ p → pool' !! q = pool !! q) → pool' !! p = rx_rewrite e p <$> received e w !! p →
  ∀ q, pool' !! q = (if decide (q ∈ pre ++ [p]) then rx_rewrite e q else id) <$> received e w !! q.
Proof.
  intros Hp Hpool Ho Hn q. destruct (decide (q = p)) as [->|Hne].
  - by rewrite decide_True by apply elem_of_snoc.
  - rewrite Ho, Hpool by done. f_equal. apply decide_ext_if.
    rewrite elem_of_app, list_elem_of_singleton. tauto.
Qed.

Lemma elem_of_snoc_self {A} (l : list A) x : x ∈ l ++ [x].
Proof. apply elem_of_app. right. by left. Qed.

Lemma eth_rx_packet_spec e queue w pre p post s :
  rx_env_ok e → (env_burst e).*1 = pre ++ p :: post →
  (length (with_verdict (rx_verdict e) ToSlow (env_burst e).*1) ≤ length (pool_objs (msg_pool w)))%nat →
  rx_inv e queue w pre s →
  ∃ s', eth_rx_packet e queue p s = Ok s' ∧ rx_inv e queue w (pre ++ [p]) s'.
Proof.
  intros ((Hrl & Hroute) & Hnd & Hlen) Heq Hsup (Hpool & Hb & Hmask & Hslow).
  assert (length pre < MAX_PKT_BURST)%nat as Hpre.
  { rewrite <- (length_fmap fst), Heq, length_app in Hlen. cbn [length] in Hlen. lia. }
  assert (p ∉ pre) as Hp.
  { rewrite Heq in Hnd. apply NoDup_app in Hnd as (_ & Hd & _). intros Hin. apply (Hd p Hin). by left. }
  assert (p ∈ (env_burst e).*1) as Hin by (rewrite Heq; apply elem_of_app; right; by left).
  apply list_elem_of_fmap in Hin as ([p' m] & Hp' & Hin). cbn in Hp'. subst p'.
  destruct (received_burst e w p m Hnd Hin) as [Hm Hrm].
  assert (rx_verdict e p = eth_verdict (env_routing e) (buf m)) as HV
    by (unfold rx_verdict, pool_verdict; by rewrite Hm).
  assert (∀ b, rx_verdict e p = b → (∀ v, b ≠ ToVm v) → rx_rewrite e p = id) as Hid.
  { intros b Hb' Hne. unfold rx_rewrite. rewrite Hb'. destruct b; try done. by destruct (Hne v). }
  assert (∀ pool', pool' = l_pool s → rx_rewrite e p = id →
    ∀ q, pool' !! q = (if decide (q ∈ pre ++ [p]) then rx_rewrite e q else id) <$> received e w !! q) as Hsame.
  { intros pool' -> Hi. apply (pool_snoc e w pre p (l_pool s)); try done.
    rewrite Hi, Hpool, decide_False by done. done. }
  assert (∀ o, rx_verdict e p = o → o ≠ ToSlow →
    with_verdict (rx_verdict e) ToSlow (pre ++ [p]) = with_verdict (rx_verdict e) ToSlow pre) as Hns.
  { intros o Ho Hne. rewrite with_verdict_snoc, decide_False by congruence. apply app_nil_r. }
  unfold eth_rx_packet. rewrite (heap_get_Some _ p m) by (rewrite Hpool, decide_False by done; by rewrite Hrm).
  cbn [mbind res_bind]. unfold eth_verdict in HV.
  destruct (arp_req_for_us config (buf m)).
  { destruct (slow_ok_push (eth_arp_msg queue) _ _ _ _ p Hslow) as (msg & mp2 & -> & E2 & Hslow').
    - rewrite Heq in Hsup. eapply Nat.lt_le_trans; [|exact Hsup]. unfold with_verdict.
      rewrite filter_app, length_app, filter_cons, HV, decide_True by done. cbn [length]. lia.
    - pose proof (length_with_verdict (rx_verdict e) ToSlow pre). lia.
    - cbn [mbind res_bind]. rewrite E2. cbn [mbind res_bind]. eexists. split; [done|].
      unfold rx_inv. cbn [l_pool l_batch l_slow l_msgs]. split_and!; [|by apply batch_skip_ok; rewrite ?HV|done|].
      + apply Hsame; [done|]. by eapply Hid.
      + by rewrite with_verdict_snoc, decide_True. }
  assert (rx_verdict e p = Drop → rx_inv e queue w (pre ++ [p]) s) as Hdrop.
  { intros Hd. unfold rx_inv. rewrite (Hns Drop) by done.
    split_and!; [|by apply batch_skip_ok; rewrite ?Hd|done|done]. apply Hsame; [done|]. by eapply Hid. }
  destruct (eth_dst_is_local_subnet (buf m) =? 0); [exists s; by split; [|apply Hdrop]|].
  destruct (lookup_lt_is_Some_2 (env_routing e) (last_octet (u32 (eth_dst_is_local_subnet (buf m)))))
    as [v Hv]; [rewrite Hrl; apply last_octet_lt|].
  rewrite Hv in HV. unfold find_vid_by_ip. rewrite (arr_get_Some _ _ _ Hv). cbn [mbind res_bind].
  replace ((0 <=? v) && (v <? Z.of_nat MAX_VHOSTS)) with
    (negb ((v <? 0) || (Z.of_nat MAX_VHOSTS <=? v))) in HV
    by (rewrite negb_orb, <- Z.leb_antisym, <- Z.ltb_antisym; done).
  destruct ((v <? 0) || (Z.of_nat MAX_VHOSTS <=? v)) eqn:Er; cbn [negb] in HV;
    [exists s; by split; [|apply Hdrop]|].
  apply orb_false_iff in Er as [Er1%Z.ltb_ge Er2%Z.leb_gt].
  destruct (Hroute _ _ Hv) as (l & ptr & d & El & Ep & Ed); [lia|]. rewrite El. cbn [mbind res_bind].
  rewrite (arr_get_Some _ _ _ Ep). cbn [mbind res_bind]. rewrite (heap_get_Some _ _ _ Ed). cbn [mbind res_bind].
  rewrite (heap_set_Some _ p _ m) by (rewrite Hpool, decide_False by done; by rewrite Hrm). cbn [mbind res_bind].
  destruct (batch_add_ok (rx_verdict e) pre p (Z.to_nat v) (l_batch s) Hb Hmask HV) as (b' & -> & Hmask' & Hb');
    [unfold MAX_VHOSTS in *; lia|done|].
  cbn [mbind res_bind]. eexists. split; [done|]. unfold rx_inv. cbn [l_pool l_batch l_slow l_msgs].
  rewrite (Hns (ToVm (Z.to_nat v))) by done. split_and!; [|done|done|done].
  apply (pool_snoc e w pre p (l_pool s)); [done|done| |].
  - intros q Hq. by rewrite lookup_insert_ne.
  - rewrite lookup_insert_eq, Hrm. unfold rx_rewrite, vm_mac. rewrite HV, El. cbn. rewrite Ep. cbn. by rewrite Ed.
Qed.

(** The effect of a visit. *)
Definition eth_rx_visited (e : rx_env) (queue : nat) (w w' : rx_world) : Prop :=
  let pkts := (env_burst e).*1 in
  let V := rx_verdict e in
  enqueued V pkts (rx_rings w) (rx_rings w') ∧
  (∀ p, rx_pool w' !! p = (if decide (p ∈ pkts) then rx_rewrite e p else id) <$> received e w !! p) ∧
  (∃ slow, slow_ok (eth_arp_msg queue) (with_verdict V ToSlow pkts) slow (msg_pool w) (msg_pool w') ∧
     ring_items (slowpath_ring w') =
       ring_items (slowpath_ring w) ++ take (rte_ring_free_count (slowpath_ring w)) slow ∧
     let lost := (total_lost V pkts (rx_rings w) + (length slow - rte_ring_free_count (slowpath_ring w)))%nat in
     rx_stats w' = let st := rx_stats w in
       mk_eth_rx_stats (u32 (ers_call_count st + 1))
         (if decide (pkts = []) then ers_pkt_count st else u32 (ers_pkt_count st + Z.of_nat (length pkts)))
         (if decide (pkts = []) then u32 (ers_empty_poll_count st + 1) else ers_empty_poll_count st)
         (ers_max_poll_count st) (u32 (ers_ring_enq_fail_count st + Z.of_nat lost))).

Lemma u32_id x : in_u 32 x → u32 x = x.
Proof. intros H'. unfold u32, wrap. by apply Z.mod_small. Qed.

Lemma add_fail_add a b x : u32 (u32 (x + Z.of_nat a) + Z.of_nat b) = u32 (x + Z.of_nat (a + b)).
Proof. unfold u32, wrap. rewrite Z.add_mod_idemp_l by lia. f_equal. lia. Qed.

(** Adding no failure at all is the same as skipping the addition. *)
Lemma add_fail_opt a b x :
  (if decide (0 < b)%nat then add_fail b (u32 (x + Z.of_nat a)) else u32 (x + Z.of_nat a)) =
  u32 (x + Z.of_nat (a + b)).
Proof. case_decide; [apply add_fail_add|]. do 3 f_equal. lia. Qed.

Lemma eth_flush_ok V burst b rings x :
  batch_ok V burst b → length rings = MAX_VHOSTS → in_u 32 x →
  ∃ pkts' rings', flush (λ _ _ _ x, Ok x) (λ _ lost x, Ok (add_fail lost x)) (dst_vids b) (vm_pkts b) rings x
      = Ok (pkts', rings', u32 (x + Z.of_nat (total_lost V burst rings))) ∧
    batch_clean pkts' ∧ enqueued V burst rings rings'.
Proof.
  intros Hb Hl Hx. destruct (flush_ok (λ _ _ _ x, Ok x) (λ _ lost x, Ok (add_fail lost x)) V burst b rings x
    (λ done x', x' = u32 (x + Z.of_nat (sum_list_with (lost_pkts V burst rings) done))) Hb Hl)
    as (pkts' & rings' & x' & Hf & Hc & He & ->).
  - cbn. by rewrite Z.add_0_r, u32_id.
  - intros dn v todo r x1 _ Hr ->. cbn [mbind res_bind].
    exists (u32 (x + Z.of_nat (sum_list_with (lost_pkts V burst rings) (dn ++ [v])))). split; [|done].
    rewrite sum_list_with_app. cbn [sum_list_with]. rewrite Nat.add_0_r.
    replace (lost_pkts V burst rings v) with (length (with_verdict V (ToVm v) burst) - rte_ring_free_count r)%nat
      by (unfold lost_pkts; by rewrite Hr).
    case_decide as Hlt; [unfold add_fail; rewrite add_fail_add|]; do 4 f_equal; lia.
  - exists pkts', rings'. rewrite (total_lost_dsts V burst b rings Hb) in Hf. done.
Qed.

(** Nothing is enqueued for an empty burst. *)
Lemma enqueued_nil V rings : enqueued V [] rings rings.
Proof. split; [done|]. intros v r Hr. exists r. change (with_verdict V (ToVm v) []) with (@nil nat). by rewrite take_nil, app_nil_r. Qed.

Lemma total_lost_nil V rings : total_lost V [] rings = 0%nat.
Proof.
  unfold total_lost. induction (seq 0 MAX_VHOSTS) as [|v l IH]; [done|]. cbn [sum_list_with].
  rewrite IH. unfold lost_pkts. by destruct (rings !! v).
Qed.

Lemma network_poll_fails n st : ers_ring_enq_fail_count (network_poll n st) = ers_ring_enq_fail_count st.
Proof. unfold network_poll. by case_decide. Qed.

(** The loop over a burst. *)
Lemma erx_loop e queue w :
  rx_env_ok e → batch_clean (rx_batch w) →
  (length (with_verdict (rx_verdict e) ToSlow (env_burst e).*1) ≤ length (pool_objs (msg_pool w)))%nat →
  ∃ s, foldM (eth_rx_packet e queue) (env_burst e).*1
      (mk_rx_local (received e w) (start_burst (rx_batch w)) [] (msg_pool w)) = Ok s ∧
    rx_inv e queue w (env_burst e).*1 s.
Proof.
  intros He Hclean Hsup. apply (foldM_ind (eth_rx_packet e queue) (rx_inv e queue w)).
  - split_and!; [|by apply start_burst_ok|done|apply slow_ok_nil].
    intros p. cbn [l_pool]. rewrite decide_False by apply not_elem_of_nil. by rewrite option_fmap_id.
  - intros pre p post s Heq Hinv. by apply (eth_rx_packet_spec e queue w pre p post s).
Qed.

Lemma eth_rx_visit_spec e queue w :
  rx_env_ok e → rx_wf w →
  (length (with_verdict (rx_verdict e) ToSlow (env_burst e).*1) ≤ length (pool_objs (msg_pool w)))%nat →
  ∃ w', eth_rx_visit e queue w = Ok w' ∧ rx_wf w' ∧ eth_rx_visited e queue w w'.
Proof.
  intros He (Hl & Hclean & Hst) Hsup. unfold eth_rx_visit. destruct (decide (length (env_burst e).*1 = 0%nat)) as [Hnil%length_zero_iff_nil|Hne].
  - eexists. split; [done|]. unfold eth_rx_visited. rewrite Hnil. split; [done|]. split_and!.
    + apply enqueued_nil.
    + intros p. cbn [rx_pool]. rewrite decide_False by apply not_elem_of_nil. rewrite option_fmap_id.
      apply fmap_nil_inv in Hnil. unfold received. rewrite Hnil. by rewrite list_to_map_nil, map_empty_union.
    + exists []. split; [apply slow_ok_nil|]. cbn [slowpath_ring]. rewrite take_nil, app_nil_r. split; [done|].
      rewrite total_lost_nil. cbv zeta. cbn [rx_stats]. unfold network_poll. rewrite !decide_True by done. cbn [length].
      rewrite Nat.sub_0_l, Nat.add_0_r, Z.add_0_r. by rewrite (u32_id (ers_ring_enq_fail_count _)) by done.
  - destruct (erx_loop e queue w He Hclean Hsup) as (s & Hs & Hpool & Hb & _ & Hslow).
    fold (received e w). rewrite Hs. cbn [mbind res_bind].
    assert ((env_burst e).*1 ≠ []) as Hne' by (intros E; apply Hne; by rewrite E).
    unfold network_poll. rewrite (decide_False (P := length _ = 0%nat)) by done. cbn [ers_ring_enq_fail_count].
    destruct (eth_flush_ok _ _ (l_batch s) (rx_rings w) (ers_ring_enq_fail_count (rx_stats w)) Hb Hl Hst)
      as (pkts' & rings' & -> & Hc & Henq).
    cbn [mbind res_bind]. destruct (flush_slow_eq (l_slow s) (slowpath_ring w)) as (r' & -> & Hi & _).
    eexists. split; [done|]. split.
    + split_and!; cbn [rx_rings rx_batch rx_stats set_fails ers_ring_enq_fail_count]; [|done|].
      * destruct Henq as [? _]. congruence.
      * rewrite add_fail_opt. unfold in_u, u32, wrap. by apply Z.mod_pos_bound.
    + split_and!; [done|done|]. exists (l_slow s). split_and!; [done|done|].
      cbn [rx_stats]. rewrite add_fail_opt. by rewrite !decide_False by done.
Qed.

(** *** Addresses *)

Lemma mask24 z : 0 ≤ z < 2 ^ 32 → Z.land z 0xFFFFFF00 = z / 256 * 256.
Proof.
  intros Hz. change 256 with (2 ^ 8). rewrite <- Z.shiftr_div_pow2, <- Z.shiftl_mul_pow2 by lia.
  change 0xFFFFFF00 with (Z.shiftl (Z.ones 24) 8).
  apply Z.bits_inj'. intros n Hn. rewrite Z.land_spec, !Z.shiftl_spec by done.
  destruct (Z_lt_le_dec n 8); [do 2 rewrite (Z.testbit_neg_r _ (n - 8)) by lia; apply andb_false_r|].
  rewrite Z.shiftr_spec by lia. replace (n - 8 + 8) with n by lia.
  destruct (Z_lt_le_dec n 32).
  - rewrite (Z.ones_spec_low 24) by lia. apply andb_true_r.
  - rewrite (Z.ones_spec_high 24) by lia. rewrite andb_false_r. symmetry.
    destruct (decide (z = 0)) as [->|]; [apply Z.bits_0|].
    apply Z.bits_above_log2; [lia|]. apply Z.log2_lt_pow2; [lia|].
    apply (Z.lt_le_trans _ (2 ^ 32)); [lia|]. apply Z.pow_le_mono_r; lia.
Qed.

Lemma subnet_eq x y : 0 ≤ x < 2 ^ 32 → 0 ≤ y < 2 ^ 32 →
  (Z.land x 0xFFFFFF00 =? Z.land y 0xFFFFFF00) = (x / 256 =? y / 256).
Proof.
  intros Hx Hy. rewrite !mask24 by done. apply eq_true_iff_eq. rewrite !Z.eqb_eq. lia.
Qed.

Lemma i32_zero x : 0 ≤ x < 2 ^ 32 → (i32 x =? 0) = (x =? 0).
Proof.
  intros Hx. apply eq_true_iff_eq. rewrite !Z.eqb_eq. unfold i32, swrap.
  change (2 ^ 32) with 4294967296 in *. change (2 ^ (32 - 1)) with 2147483648.
  Z.to_euclidean_division_equations. lia.
Qed.

Lemma u32_i32 x : u32 (i32 x) = u32 x.
Proof.
  unfold u32, i32, wrap, swrap. change (2 ^ 32) with 4294967296. change (2 ^ (32 - 1)) with 2147483648.
  Z.to_euclidean_division_equations. lia.
Qed.

(** The destination address a frame names, if it is IPv4 or ARP. *)
Definition frame_dst (b : list Z) : option Z :=
  if is_ipv4 b then Some (rte_be_to_cpu_32 (ip_dst_addr b))
  else if is_arp b then Some (rte_be_to_cpu_32 (arp_tip b)) else None.

Lemma frame_dst_range b dst : frame_dst b = Some dst → 0 ≤ dst < 2 ^ 32.
Proof.
  unfold frame_dst, rte_be_to_cpu_32, bswap32. change (2 ^ 32) with (256 ^ Z.of_nat 4).
  repeat case_match; intros [= <-]; apply bswap_range.
Qed.

(** The VM a route table names for an address. *)
Definition route_verdict (routing : list Z) (dst : Z) : verdict :=
  match routing !! Z.to_nat (dst mod 256) with
  | Some v => if (0 <=? v) && (v <? Z.of_nat MAX_VHOSTS) then ToVm (Z.to_nat v) else Drop
  | None => Drop
  end.

Lemma eth_local_eq b :
  in_u 32 (cfg_ip config) →
  eth_dst_is_local_subnet b =
    match frame_dst b with
    | Some dst => if dst / 256 =? cfg_ip config / 256 then i32 dst else 0
    | None => 0
    end.
Proof.
  intros Hc. unfold eth_dst_is_local_subnet. pose proof (frame_dst_range b) as Hr. unfold frame_dst in *.
  destruct (is_ipv4 b); [|destruct (is_arp b); [|done]]; by rewrite subnet_eq by (done || by apply Hr).
Qed.

(** *** Several queues *)

(** Two enqueues in a row are one enqueue of both bursts. *)
Lemma enqueue_twice (items items1 l1 l2 : list nat) cap :
  items1 = items ++ take (cap - length items) l1 →
  items1 ++ take (cap - length items1) l2 = items ++ take (cap - length items) (l1 ++ l2).
Proof.
  intros ->. rewrite <- app_assoc. f_equal. rewrite length_app, length_take, take_app.
  do 2 f_equal. lia.
Qed.

(** The packets that the visits of the queues [qs] want to give to VM [v]. *)
Definition wanted (env : nat → rx_env) (qs : list nat) (v : nat) : list nat :=
  concat ((λ q, with_verdict (rx_verdict (env q)) (ToVm v) (env_burst (env q)).*1) <$> qs).

Definition arp_count (env : nat → rx_env) (q : nat) : nat :=
  length (with_verdict (rx_verdict (env q)) ToSlow (env_burst (env q)).*1).

Definition rx_progress (env : nat → rx_env) (qs : list nat) (w w' : rx_world) : Prop :=
  rx_wf w' ∧
  (length (pool_objs (msg_pool w)) = sum_list_with (arp_count env) qs + length (pool_objs (msg_pool w')))%nat ∧
  ∀ v r, rx_rings w !! v = Some r → ∃ r', rx_rings w' !! v = Some r' ∧ ring_capacity r' = ring_capacity r ∧
    ring_items r' = ring_items r ++ take (rte_ring_free_count r) (wanted env qs v).

Lemma rx_progress_snoc env qs q w w1 w' :
  rx_progress env qs w w1 → rx_wf w' → eth_rx_visited (env q) q w1 w' →
  rx_progress env (qs ++ [q]) w w'.
Proof.
  intros (_ & Hm & Hr) Hwf ((_ & He) & _ & slow & (stale & Hl & _ & Hperm) & _).
  split_and!; [done| |].
  - rewrite Hm, Hperm, length_app, Hl, sum_list_with_app. cbn [sum_list_with]. unfold arp_count at 3. lia.
  - intros v r Hv. destruct (Hr v r Hv) as (r1 & Hv1 & Hc1 & Hi1).
    destruct (He v r1 Hv1) as (r' & Hv' & Hc' & Hi'). exists r'. split_and!; [done|congruence|].
    rewrite Hi'. rewrite !ring_free_count_eq in *. rewrite Hc1. unfold wanted.
    rewrite fmap_app, concat_app. cbn [fmap list_fmap concat]. rewrite app_nil_r. by apply enqueue_twice.
Qed.

(** ** Properties *)

(** [C13] One visit of a NIC queue: no fault, and the batching is invisible.  Every
    VM's ring gains, in arrival order, exactly the packets of the burst routed to
    that VM, up to its free space; their contents are rewritten for the VM and no
    other packet is touched; ARP requests for the data plane become messages, in
    order, taken from the pool; the batches are empty again; and the counters count
    the call, the packets, the empty poll and every packet that did not fit. *)
Theorem eth_rx_visit_correct (e : rx_env) (queue : nat) (w : rx_world) :
  rx_env_ok e → rx_wf w →
  (length (with_verdict (rx_verdict e) ToSlow (env_burst e).*1) ≤ length (pool_objs (msg_pool w)))%nat →
  ∃ w', eth_rx_visit e queue w = Ok w' ∧ rx_wf w' ∧ eth_rx_visited e queue w w'.
Proof. apply eth_rx_visit_spec. Qed.

(** A whole iteration over the queues of a core: no fault as long as the message
    pool covers the ARP requests, each of which takes one message; and the ring of
    every VM gains, queue by queue and in order, the packets routed to it, cut only
    when the ring is full. *)
Theorem eth_rx_iter_correct (env : nat → rx_env) (r : nat) (w : rx_world) :
  let qs := strided r (Z.to_nat (eth_rx_queues config)) (Z.to_nat (eth_rx_cores config)) in
  (∀ q, q ∈ qs → rx_env_ok (env q)) → rx_wf w →
  (sum_list_with (arp_count env) qs ≤ length (pool_objs (msg_pool w)))%nat →
  ∃ w', eth_rx_iter env r w = Ok w' ∧ rx_progress env qs w w'.
Proof.
  intros qs Henv Hwf Hsup. unfold eth_rx_iter. fold qs.
  apply (foldM_ind _ (λ qs w', rx_progress env qs w w')).
  - split_and!; [done|done|]. intros v r0 Hr. exists r0. cbn. by rewrite take_nil, app_nil_r.
  - intros pre q post w1 Heq Hp. pose proof Hp as (Hwf1 & Hm & _).
    assert (q ∈ qs) as Hq by (rewrite Heq; apply elem_of_app; right; by left).
    rewrite Heq, sum_list_with_app in Hsup. cbn [sum_list_with] in Hsup.
    destruct (eth_rx_visit_spec (env q) q w1 (Henv q Hq) Hwf1) as (w' & -> & Hwf' & Hv).
    { fold (arp_count env q). lia. }
    exists w'. split; [done|]. by apply (rx_progress_snoc env pre q w w1 w').
Qed.

(** Packets for nobody are leaked: a received frame that is neither an ARP
    request for the data plane nor routed to a VM is still allocated after the visit
    and no ring holds it, so nothing will ever free it. *)
Theorem eth_rx_leaks (e : rx_env) (queue : nat) (w w' : rx_world) (p : nat) :
  rx_env_ok e → rx_wf w →
  (length (with_verdict (rx_verdict e) ToSlow (env_burst e).*1) ≤ length (pool_objs (msg_pool w)))%nat →
  (∀ v r, rx_rings w !! v = Some r → p ∉ ring_items r) →
  p ∈ (env_burst e).*1 → rx_verdict e p = Drop → eth_rx_visit e queue w = Ok w' →
  is_Some (rx_pool w' !! p) ∧ ∀ v r, rx_rings w' !! v = Some r → p ∉ ring_items r.
Proof.
  intros He Hwf Hsup Hnew Hp HV Hvis. destruct (eth_rx_visit_spec e queue w He Hwf Hsup) as (w2 & Hv2 & _ & Henq & Hpool & _).
  assert (w2 = w') as -> by congruence. split.
  - rewrite Hpool. apply fmap_is_Some, erx_received_live; [by destruct He as (_ & ? & _)|done].
  - intros v r' Hr'. destruct Henq as [Hl He'].
    destruct (lookup_lt_is_Some_2 (rx_rings w) v) as [r Hr]; [rewrite <- Hl; by eapply lookup_lt_Some|].
    destruct (He' v r Hr) as (r2 & Hr2 & _ & Hi). assert (r2 = r') as -> by congruence.
    rewrite Hi, not_elem_of_app. split; [by eapply Hnew|]. intros Hin%elem_of_take_of%with_verdict_mem.
    destruct Hin as [Hin _]. congruence.
Qed.

(** [C27] How a frame is classified, in terms of addresses.  An ARP request for the
    data plane's own address goes to the slow path; otherwise an IPv4 or ARP frame
    whose destination (or ARP target) is a nonzero address of the configured /24 goes
    to the VM that the route table has for its last octet, and all others are
    dropped. *)
Theorem eth_verdict_correct (routing b : list Z) :
  in_u 32 (cfg_ip config) →
  eth_verdict routing b =
    if arp_req_for_us config b then ToSlow
    else match frame_dst b with
         | Some dst => if (dst / 256 =? cfg_ip config / 256) && negb (dst =? 0)
                       then route_verdict routing dst else Drop
         | None => Drop
         end.
Proof.
  intros Hc. unfold eth_verdict. destruct (arp_req_for_us config b); [done|]. rewrite eth_local_eq by done.
  destruct (frame_dst b) as [dst|] eqn:Ed; [|done]. apply frame_dst_range in Ed.
  destruct (dst / 256 =? cfg_ip config / 256); [|done]. rewrite i32_zero by done. cbn [andb].
  destruct (dst =? 0); [done|]. cbn [negb]. unfold route_verdict. rewrite last_octet_mod, u32_i32.
  unfold u32, wrap. by rewrite (Z.mod_small dst) by done.
Qed.

(** What a local VM receives: the frame is addressed to the VM and comes from
    the data plane, an IPv4 header checksum is valid whatever the sender left in it,
    no transmit offload is pending, and outside the addresses and the checksum
    fields every byte is the received one. *)
Theorem to_vm_correct (mac : list Z) (m : mbuf) :
  mac_wf mac → mac_wf (cfg_mac config) → wf_buf (buf m) →
  let m' := to_vm mac m in
  eth_dst_addr (buf m') = mac ∧ eth_src_addr (buf m') = cfg_mac config ∧
  (is_ipv4 (buf m) = true → 5 ≤ ip_ihl (buf m) → ip_cksum_ok (buf m')) ∧
  Z.land (ol_flags m') tx_offload_flags = 0 ∧ tso_segsz m' = 0 ∧
  (∀ n off, (12 ≤ off)%nat → (off + n ≤ 24 ∨ 26 ≤ off)%nat →
     (off + n ≤ l4_off (buf m) + 6 ∨ l4_off (buf m) + 8 ≤ off)%nat →
     (off + n ≤ l4_off (buf m) + 16 ∨ l4_off (buf m) + 18 ≤ off)%nat →
     get_bytes n off (buf m') = get_bytes n off (buf m)).
Proof.
  intros [Hm Hmb] [Hc Hcb] Hwf m'. pose proof Hwf as [_ Hlen].
  set (b := set_eth_src (cfg_mac config) (set_eth_dst mac (buf m))).
  set (m1 := set_buf b m). assert (m' = fix_cksum m1) as -> by done.
  assert (l4_off b = l4_off (buf m)) as Hl4
    by (unfold b, set_eth_src, set_eth_dst; rewrite !l4_off_put by lia; done).
  assert (wf_buf b) as Hwfb by (unfold b, set_eth_src, set_eth_dst; auto with umanet).
  assert (∀ n off, (12 ≤ off)%nat → get_bytes n off b = get_bytes n off (buf m)) as Hb
    by (intros n off Hoff; unfold b, set_eth_src, set_eth_dst; by rewrite !get_put_other by lia).
  assert (eth_dst_addr b = mac) as Hd.
  { unfold b. rewrite eth_dst_set_src by done. apply eth_dst_set_dst; [done|lia]. }
  assert (eth_src_addr b = cfg_mac config) as Hs.
  { unfold b, eth_src_addr, set_eth_src. rewrite <- Hc at 1. apply get_put_same.
    unfold set_eth_dst. rewrite length_put_bytes. lia. }
  pose proof (l4_off_bound (buf m)). split_and!.
  - unfold eth_dst_addr. rewrite fix_cksum_frame by (change (buf m1) with b; lia). exact Hd.
  - unfold eth_src_addr. rewrite fix_cksum_frame by (change (buf m1) with b; lia). exact Hs.
  - intros Hip Hihl. apply fix_cksum_ip_ok; [done| |].
    + unfold is_ipv4, eth_type, load in *. change (buf m1) with b. by rewrite Hb by lia.
    + unfold ip_ihl, load in *. change (buf m1) with b. by rewrite Hb by lia.
  - rewrite fix_cksum_flags. apply clear_flags_gone, Z.land_diag.
  - apply fix_cksum_segsz.
  - intros n off Ho Ho1 Ho2 Ho3. rewrite fix_cksum_frame; change (buf m1) with b; rewrite ?Hl4; auto.
Qed.
End eth_rx.

(** ** Witnesses *)

(** An ARP request of 192.168.100.[n] for 192.168.100.[t]. *)
Definition demo_arp_buf (op n t : Z) : list Z :=
  [255;255;255;255;255;255; 2;0;0;0;0;n; 8;6;
   0;1;8;0;6;4;0;op; 2;0;0;0;0;n; 192;168;100;n; 0;0;0;0;0;0; 192;168;100;t] ++ replicate 100 0.

(** VM 2 has 192.168.100.5; packet 10 is for it, 11 asks for the data plane's MAC
    address, 12 leaves the subnet. *)
Definition demo_rx_env : rx_env :=
  mk_rx_env
    [(10%nat, demo_mbuf (demo_ip_buf 0 17 [192;168;100;9] [192;168;100;5]));
     (11%nat, demo_mbuf (demo_arp_buf 1 9 1));
     (12%nat, demo_mbuf (demo_ip_buf 0 17 [192;168;100;9] [10;0;0;1]))]
    (Some (<[2%nat:=Some 100%nat]> (replicate MAX_VHOSTS None)))
    {[100%nat := mk_dev 2 3 [2;0;0;0;0;7] 0xC0A86405 1]}
    (<[5%nat:=2]> (replicate ROUTE_SIZE (-1))).

Definition demo_rx_world : rx_world :=
  mk_rx_world ∅ (replicate MAX_VHOSTS (127%nat, [])) (127%nat, [])
    [mk_slow_msg SLOW_ETH_TX_FLOW SLOW_SRC_VHOST 3 7 0] (mk_eth_rx_stats 0 0 0 0 0) (replicate MAX_VHOSTS []).

Lemma demo_rx_env_ok : rx_env_ok demo_rx_env.
Proof.
  split_and!; [|refine (bool_decide_unpack _ _); vm_compute; exact I|cbn; unfold MAX_PKT_BURST; lia].
  split; [reflexivity|]. intros o v Ho Hv. cbn [env_routing demo_rx_env] in Ho.
  destruct (decide (5%nat = o)) as [<-|Hne].
  - rewrite list_lookup_insert_eq in Ho by (rewrite length_replicate; unfold ROUTE_SIZE; lia).
    injection Ho as <-. by eexists _, _, _.
  - rewrite list_lookup_insert_ne in Ho by done. apply lookup_replicate in Ho as [-> _]. lia.
Qed.

Lemma demo_rx_wf : rx_wf demo_rx_world.
Proof. split_and!; done. Qed.

Lemma eth_rx_visit_correct_witness :
  ∃ w', eth_rx_visit demo_config demo_rx_env 3 demo_rx_world = Ok w' ∧
    rx_rings w' !! 2%nat = Some (127%nat, [10%nat]) ∧
    ring_items (slowpath_ring w') = [mk_slow_msg SLOW_ARP_REQ SLOW_SRC_ETH 3 7 11].
Proof.
  destruct (eth_rx_visit_correct demo_config demo_rx_env 3 demo_rx_world demo_rx_env_ok demo_rx_wf)
    as (w' & E & _); [vm_compute; lia|].
  exists w'. split; [exact E|]. vm_compute in E. injection E as <-. split; reflexivity.
Defined.

(** The core polls queues 0 to 3; only the first has packets. *)
Lemma eth_rx_iter_correct_witness :
  ∃ w', eth_rx_iter demo_config (λ q, if decide (q = 0%nat) then demo_rx_env
      else mk_rx_env [] (env_vdevs demo_rx_env) (env_devs demo_rx_env) (env_routing demo_rx_env))
      0 demo_rx_world = Ok w' ∧ rx_rings w' !! 2%nat = Some (127%nat, [10%nat]).
Proof.
  destruct (eth_rx_iter_correct demo_config (λ q, if decide (q = 0%nat) then demo_rx_env
    else mk_rx_env [] (env_vdevs demo_rx_env) (env_devs demo_rx_env) (env_routing demo_rx_env))
    0 demo_rx_world) as (w' & E & _).
  - intros q _. destruct demo_rx_env_ok as (H1 & H2 & H3).
    destruct (decide (q = 0%nat)); [by split_and!|]. split; [exact H1|]. split; [constructor|cbn; lia].
  - exact demo_rx_wf.
  - vm_compute. lia.
  - exists w'. split; [exact E|]. vm_compute in E. injection E as <-. reflexivity.
Defined.

Lemma eth_rx_leaks_witness :
  ∃ w', eth_rx_visit demo_config demo_rx_env 3 demo_rx_world = Ok w' ∧ is_Some (rx_pool w' !! 12%nat).
Proof.
  destruct (eth_rx_visit demo_config demo_rx_env 3 demo_rx_world) as [w'|f] eqn:E;
    [|vm_compute in E; discriminate E].
  exists w'. split; [reflexivity|].
  refine (proj1 (eth_rx_leaks demo_config demo_rx_env 3 demo_rx_world w' 12 demo_rx_env_ok demo_rx_wf _ _ _ _ E)).
  - vm_compute. lia.
  - intros v r Hr. apply lookup_replicate in Hr as [-> _]. apply not_elem_of_nil.
  - refine (bool_decide_unpack _ _). vm_compute. exact I.
  - vm_compute. reflexivity.
Defined.

Lemma eth_verdict_correct_witness :
  in_u 32 (cfg_ip demo_config) ∧
  eth_verdict demo_config (env_routing demo_rx_env) (demo_ip_buf 0 17 [192;168;100;9] [192;168;100;5]) = ToVm 2.
Proof.
  assert (in_u 32 (cfg_ip demo_config)) as Hc by (refine (bool_decide_unpack _ _); vm_compute; exact I).
  split; [exact Hc|]. rewrite (eth_verdict_correct demo_config _ _ Hc). vm_compute. reflexivity.
Defined.

Lemma to_vm_correct_witness :
  eth_dst_addr (buf (to_vm demo_config [2;0;0;0;0;7]
    (demo_mbuf (demo_ip_buf 0 17 [192;168;100;9] [192;168;100;5])))) = [2;0;0;0;0;7].
Proof.
  refine (proj1 (to_vm_correct demo_config [2;0;0;0;0;7]
    (demo_mbuf (demo_ip_buf 0 17 [192;168;100;9] [192;168;100;5])) _ _ _)).
  - split; [reflexivity|]. refine (bool_decide_unpack _ _). vm_compute. exact I.
  - split; [reflexivity|]. refine (bool_decide_unpack _ _). vm_compute. exact I.
  - refine (bool_decide_unpack _ _). vm_compute. exact I.
Defined.
