(* ===== verification/VhostRx.v ===== *)
(** * src/fast/vhost_rx.c: receiving from the VMs

    One visit of a VM of the plan: the adaptive polling gate, the poll, batching by
    destination VM or NIC queue, ECN marking and enqueueing.  As in [EthRx] the burst,
    the [vdev_list], the devices and the route table are arguments of a visit. *)

From S2P Require Import Prelude CInt Packet Dpdk Ecn Offload Config Poll Plan Route Device VhostTx EthTx Batch EthRx.
Local Open Scope Z_scope.

Definition MAX_ETH_TX_QUEUES : nat := 20.

Definition default_rss_key : list Z :=
  [0x6d; 0x5a; 0x56; 0xda; 0x25; 0x5b; 0x0e; 0xc2; 0x41; 0x67;
   0x25; 0x3d; 0x43; 0xa3; 0x8f; 0xb0; 0xd0; 0xca; 0x2b; 0xcb;
   0xae; 0x7b; 0x30; 0xb4; 0x77; 0xcb; 0x2d; 0xa3; 0x80; 0x30;
   0xf2; 0x0c; 0x6a; 0x42; 0xb7; 0x3b; 0xbe; 0xac; 0x01; 0xfa].

(** ** Statistics of [struct vdev_rx_stats] *)

Definition wnd_add (n : Z) (i : nat) (l : list Z) : res (list Z) :=
  x ← arr_get l i; Ok (<[i := u32 (x + n)]> l).

(** [STATS_ADD(st, byte_wnd[st->wnd_idx], n)] *)
Definition add_bytes (n : Z) (st : vdev_rx_stats) : res vdev_rx_stats :=
  w ← wnd_add n (wnd_idx st) (byte_wnd st);
  Ok (mk_rx_stats (rxs_call_count st) (rxs_pkt_count st) (rxs_empty_poll_count st) (rxs_max_poll_count st)
    (rxs_vhost_tx_ring_enq_fail_count st) (rxs_eth_tx_ring_enq_fail_count st) w (pkt_wnd st) (empty_wnd st) (wnd_idx st)).

Definition add_vhost_fail (n : nat) (st : vdev_rx_stats) : vdev_rx_stats :=
  mk_rx_stats (rxs_call_count st) (rxs_pkt_count st) (rxs_empty_poll_count st) (rxs_max_poll_count st)
    (u32 (rxs_vhost_tx_ring_enq_fail_count st + Z.of_nat n)) (rxs_eth_tx_ring_enq_fail_count st)
    (byte_wnd st) (pkt_wnd st) (empty_wnd st) (wnd_idx st).
Definition add_eth_fail (n : nat) (st : vdev_rx_stats) : vdev_rx_stats :=
  mk_rx_stats (rxs_call_count st) (rxs_pkt_count st) (rxs_empty_poll_count st) (rxs_max_poll_count st)
    (rxs_vhost_tx_ring_enq_fail_count st) (u32 (rxs_eth_tx_ring_enq_fail_count st + Z.of_nat n))
    (byte_wnd st) (pkt_wnd st) (empty_wnd st) (wnd_idx st).

(** [vhost_poll] when [rte_vhost_dequeue_burst] returned [ret] packets. *)
Definition vhost_poll (ret : nat) (st : vdev_rx_stats) : res vdev_rx_stats :=
  let calls := u32 (rxs_call_count st + 1) in
  if decide (ret = 0%nat) then
    w ← wnd_add 1 (wnd_idx st) (empty_wnd st);
    Ok (mk_rx_stats calls (rxs_pkt_count st) (u32 (rxs_empty_poll_count st + 1)) (rxs_max_poll_count st)
      (rxs_vhost_tx_ring_enq_fail_count st) (rxs_eth_tx_ring_enq_fail_count st)
      (byte_wnd st) (pkt_wnd st) w (wnd_idx st))
  else
    w ← wnd_add (Z.of_nat ret) (wnd_idx st) (pkt_wnd st);
    Ok (mk_rx_stats calls (u32 (rxs_pkt_count st + Z.of_nat ret)) (rxs_empty_poll_count st)
      (if decide (ret = MAX_PKT_BURST) then u32 (rxs_max_poll_count st + 1) else rxs_max_poll_count st)
      (rxs_vhost_tx_ring_enq_fail_count st) (rxs_eth_tx_ring_enq_fail_count st)
      (byte_wnd st) w (empty_wnd st) (wnd_idx st)).

(** ** Classification *)

(** The five variables that [dst_is_local_subnet] fills, all zero before. *)
Record flow_tuple := mk_flow { f_src_ip : Z; f_dst_ip : Z; f_src_port : Z; f_dst_port : Z; f_proto : Z }.

Section vhost_rx.
Context `{RteRing} `{RteMempool slow_msg} `{RteCksum} `{RteThash}.
Context (config : config_t).

Definition dst_is_local_subnet (b : list Z) : bool * flow_tuple :=
  let subnet := Z.land (cfg_ip config) 0xFFFFFF00 in
  let f :=
    if is_ipv4 b then
      let src_ip := rte_be_to_cpu_32 (ip_src_addr b) in
      let dst_ip := rte_be_to_cpu_32 (ip_dst_addr b) in
      let proto := ip_proto b in
      if (proto =? IPPROTO_TCP) || (proto =? IPPROTO_UDP)
      then mk_flow src_ip dst_ip (rte_be_to_cpu_16 (l4_src_port b)) (rte_be_to_cpu_16 (l4_dst_port b)) proto
      else mk_flow src_ip dst_ip 0 0 proto
    else if is_arp b then mk_flow (rte_be_to_cpu_32 (arp_sip b)) (rte_be_to_cpu_32 (arp_tip b)) 0 0 0
    else mk_flow 0 0 0 0 0 in
  (Z.land (f_dst_ip f) 0xFFFFFF00 =? subnet, f).

(** The words hashed; [a << 16 | b] is an [int] expression converted to [uint32_t]. *)
Definition flow_words (f : flow_tuple) : list Z :=
  [rte_cpu_to_be_32 (f_src_ip f); rte_cpu_to_be_32 (f_dst_ip f);
   u32 (Z.lor (Z.shiftl (rte_cpu_to_be_16 (f_src_port f)) 16) (rte_cpu_to_be_16 (f_dst_port f)));
   rte_cpu_to_be_32 (f_proto f)].

Definition flow_pick_tx (f : flow_tuple) : res nat :=
  let h := rte_softrss_be (flow_words f) default_rss_key in
  if eth_tx_queues config =? 0 then Fault DivisionByZero
  else Ok (Z.to_nat (h mod eth_tx_queues config)).

(** The arrays of the loop over a burst: [eth_pkts] with its counters, and the
    statistics of the VM polled, besides those of [rx_local]. *)
Record vrx_local := mk_vrx_local {
  v_batch : batch;
  v_eth : list (list nat);   (* MAX_ETH_TX_QUEUES *)
  v_slow : list slow_msg;
  v_msgs : mempool;
  v_st : vdev_rx_stats;
}.

(** The body of the loop over the burst for a packet [p] of VM [vid]. *)
Definition vhost_rx_packet (e : rx_env) (pool : gmap nat mbuf) (vid p : nat) (s : vrx_local) : res vrx_local :=
  m ← heap_get pool p;
  let b := buf m in
  st ← add_bytes (pkt_len m) (v_st s);
  if arp_req_for_us config b then
    '(msg, mp) ← get_slow_msg (v_msgs s);
    slow ← arr_push MAX_PKT_BURST (v_slow s) (vhost_msg SLOW_ARP_REQ vid p msg);
    Ok (mk_vrx_local (v_batch s) (v_eth s) slow mp st)
  else
    let '(local, f) := dst_is_local_subnet b in
    if local : bool then
      dst_vid ← find_vid_by_ip (f_dst_ip f) (env_routing e);
      if (dst_vid <? 0) || (Z.of_nat MAX_VHOSTS <=? dst_vid)
      then Ok (mk_vrx_local (v_batch s) (v_eth s) (v_slow s) (v_msgs s) st)
      else
        b ← batch_add (Z.to_nat dst_vid) p (v_batch s);
        Ok (mk_vrx_local b (v_eth s) (v_slow s) (v_msgs s) st)
    else
      q ← flow_pick_tx f;
      l ← arr_get (v_eth s) q;
      l ← arr_push MAX_PKT_BURST l p;
      Ok (mk_vrx_local (v_batch s) (<[q:=l]> (v_eth s)) (v_slow s) (v_msgs s) st).

(** [int congestion = RING_SIZE - rte_ring_free_count(ring)] *)
Definition ring_congestion (r : ring nat) : Z := i32 (u32 (RING_SIZE - Z.of_nat (rte_ring_free_count r))).

(** ** Towards the NIC: the loop over [config.eth_tx_queues] *)

Record eth_out_state := mk_eth_out {
  eo_pkts : list (list nat);
  eo_rings : list (ring nat);
  eo_rr : list Z;              (* ecn_rr_eth *)
  eo_pool : gmap nat mbuf;
  eo_st : vdev_rx_stats;
}.

Definition eth_flush_queue (j : nat) (s : eth_out_state) : res eth_out_state :=
  l ← arr_get (eo_pkts s) j;
  if decide (l = []) then Ok s
  else
    r ← arr_get (eo_rings s) j;
    rr ← arr_get (eo_rr s) j;
    '(pool, rr) ← ecn_mark_packets l (ring_congestion r) (eo_pool s) rr;
    let '(enq_num, r) := rte_ring_enqueue_burst r l in
    let st := if decide (enq_num < length l)%nat then add_eth_fail (length l - enq_num) (eo_st s) else eo_st s in
    pool ← foldM (λ p pool, heap_free pool p) (drop enq_num l) pool;
    Ok (mk_eth_out (<[j:=[]]> (eo_pkts s)) (<[j:=r]> (eo_rings s)) (<[j:=rr]> (eo_rr s)) pool st).

Definition eth_flush (s : eth_out_state) : res eth_out_state :=
  foldM eth_flush_queue (seq 0 (Z.to_nat (eth_tx_queues config))) s.

(** ** Towards the VMs: what surrounds the enqueue *)

Record vm_out_state := mk_vm_out {
  vo_rr : list Z;                    (* ecn_rr_vhost *)
  vo_pool : gmap nat mbuf;
  vo_stats : list vdev_rx_stats;
}.

Definition vm_flush_mark (v free : nat) (l : list nat) (s : vm_out_state) : res vm_out_state :=
  rr ← arr_get (vo_rr s) v;
  '(pool, rr) ← ecn_mark_packets l (i32 (u32 (RING_SIZE - Z.of_nat free))) (vo_pool s) rr;
  Ok (mk_vm_out (<[v:=rr]> (vo_rr s)) pool (vo_stats s)).

Definition vm_flush_fail (v lost : nat) (s : vm_out_state) : res vm_out_state :=
  st ← arr_get (vo_stats s) v;
  Ok (mk_vm_out (vo_rr s) (vo_pool s) (<[v := add_vhost_fail lost st]> (vo_stats s))).

(** ** The visit *)

Record vrx_world := mk_vrx_world {
  w_pool : gmap nat mbuf;
  w_vm_rings : list (ring nat);      (* global->vhost_tx_rings *)
  w_eth_rings : list (ring nat);     (* global->eth_tx_queue_rings *)
  w_slow : ring slow_msg;
  w_msgs : mempool;
  w_stats : list vdev_rx_stats;      (* ctx->vdev_stats *)
  w_ap : list vhost_ap;              (* ctx->vhost_ap *)
  w_poll_states : list Z;
  w_iteration : Z;                   (* uint64_t *)
  w_rr_vm : list Z;
  w_rr_eth : list Z;
  w_batch : list (list nat);
  w_eth : list (list nat);
}.

(** [vr_now] and [vr_tsc] are the clock at the gate and in [update_rx_state]. *)
Record vrx_env := mk_vrx_env { vr_rx : rx_env; vr_now : Z; vr_tsc : Z }.

(** The message that starts address learning, for the first packet of the burst. *)
Definition learn_msg (ready : Z) (vid : nat) (pkts : list nat) (mp : mempool) : res (list slow_msg * mempool) :=
  if ready =? DEVICE_MAC_LEARNING then
    '(msg, mp) ← get_slow_msg mp;
    p ← arr_get pkts 0;
    Ok ([vhost_msg SLOW_MAC_LEARNING vid p msg], mp)
  else Ok ([], mp).

(** A poll that returned packets: the loop over them and the three flushes. *)
Definition vhost_rx_burst (e : rx_env) (vid : nat) (d : vhost_dev) (st : vdev_rx_stats)
    (w : vrx_world) : res vrx_world :=
  let pkts := (env_burst e).*1 in
  let pool := list_to_map (env_burst e) ∪ w_pool w in
  '(slow, mp) ← learn_msg (ready d) vid pkts (w_msgs w);
  s ← foldM (vhost_rx_packet e pool vid) pkts
        (mk_vrx_local (start_burst (w_batch w)) (w_eth w) slow mp st);
  eo ← eth_flush (mk_eth_out (v_eth s) (w_eth_rings w) (w_rr_eth w) pool (v_st s));
  '(batch, rings, vo) ← flush vm_flush_mark vm_flush_fail (dst_vids (v_batch s)) (vm_pkts (v_batch s))
    (w_vm_rings w) (mk_vm_out (w_rr_vm w) (eo_pool eo) (<[vid := eo_st eo]> (w_stats w)));
  let '(_, sring) := flush_slow (v_slow s) (w_slow w) in
  Ok (mk_vrx_world (vo_pool vo) rings (eo_rings eo) sring (v_msgs s) (vo_stats vo) (w_ap w) (w_poll_states w)
        (w_iteration w) (vo_rr vo) (eo_rr eo) batch (eo_pkts eo)).

(** After the poll: statistics, adaptive state and its counters. *)
Definition polled (vid : nat) (st : vdev_rx_stats) (a : vhost_ap * list Z) (w : vrx_world) : vrx_world :=
  mk_vrx_world (w_pool w) (w_vm_rings w) (w_eth_rings w) (w_slow w) (w_msgs w)
    (<[vid:=st]> (w_stats w)) (<[vid:=a.1]> (w_ap w)) a.2 (w_iteration w) (w_rr_vm w) (w_rr_eth w)
    (w_batch w) (w_eth w).

(** The body of the loop of [vhost_rx_loop] for the plan entry [vid]. *)
Definition vhost_rx_visit (e : vrx_env) (vid : nat) (w : vrx_world) : res vrx_world :=
  vdevs ← match env_vdevs (vr_rx e) with Some l => Ok l | None => Fault NullDeref end;
  if decide (MAX_VHOSTS ≤ vid)%nat then Ok w
  else
    slot ← arr_get vdevs vid;
    match slot with
    | None => Ok w
    | Some ptr =>
        ap ← arr_get (w_ap w) vid;
        match poll_gate ap (w_iteration w) (vr_now e) with
        | None => Ok w
        | Some ap =>
            let num := length (env_burst (vr_rx e)) in
            st ← arr_get (w_stats w) vid;
            st ← vhost_poll num st;
            let w := polled vid st (update_rx_state ap (Z.of_nat num) (w_poll_states w) (vr_tsc e)) w in
            if decide (num = 0%nat) then Ok w
            else
              d ← heap_get (env_devs (vr_rx e)) ptr;
              vhost_rx_burst (vr_rx e) vid d st w
        end
    end.

(** One iteration of the infinite loop over a plan; entry [i] sees [env i].  The loop
    does nothing but count while the [vdev_list] is NULL. *)
Definition vhost_rx_iter (env : nat → vrx_env) (published : bool) (plan : vhost_plan) (w : vrx_world) : res vrx_world :=
  let w := mk_vrx_world (w_pool w) (w_vm_rings w) (w_eth_rings w) (w_slow w) (w_msgs w) (w_stats w) (w_ap w)
    (w_poll_states w) (u64 (w_iteration w + 1)) (w_rr_vm w) (w_rr_eth w) (w_batch w) (w_eth w) in
  if negb published then Ok w
  else foldM (λ i w, vid ← arr_get (plan_vids plan) i; vhost_rx_visit (env i) vid w)
         (seq 0 (Z.to_nat (plan_num plan))) w.

(** ** Specification *)

(** The NIC queue of a flow. *)
Definition flow_queue (f : flow_tuple) : nat :=
  Z.to_nat (rte_softrss_be (flow_words f) default_rss_key mod eth_tx_queues config).

(** The decision about a frame, given the route table. *)
Definition vhost_verdict (routing : list Z) (b : list Z) : verdict :=
  if arp_req_for_us config b then ToSlow
  else let '(local, f) := dst_is_local_subnet b in
    if local then
      match routing !! last_octet (f_dst_ip f) with
      | Some v => if (0 <=? v) && (v <? Z.of_nat MAX_VHOSTS) then ToVm (Z.to_nat v) else Drop
      | None => Drop
      end
    else ToEth (flow_queue f).

Definition vrx_verdict (e : rx_env) : nat → verdict :=
  pool_verdict (vhost_verdict (env_routing e)) (list_to_map (env_burst e)).

Definition vrx_received (e : rx_env) (w : vrx_world) : gmap nat mbuf := list_to_map (env_burst e) ∪ w_pool w.

(** The requests a visit turns into messages. *)
Definition slow_reqs (learning : bool) (e : rx_env) (pre : list nat) : list (slow_reason * nat) :=
  (if learning then pair SLOW_MAC_LEARNING <$> take 1 (env_burst e).*1 else []) ++
  (pair SLOW_ARP_REQ <$> with_verdict (vrx_verdict e) ToSlow pre).
Definition req_msg (vid : nat) (a : slow_reason * nat) : slow_msg → slow_msg := vhost_msg a.1 vid a.2.

(** The windows of the statistics, which drive the plans of the slow path. *)
Definition wnds (st : vdev_rx_stats) : list Z * list Z * list Z * nat :=
  (byte_wnd st, pkt_wnd st, empty_wnd st, wnd_idx st).
Definition bump (n : Z) (i : nat) (l : list Z) : list Z := alter (λ x, u32 (x + n)) i l.

(** The bytes of the burst. *)
Definition burst_bytes (e : rx_env) : Z := sum_list_Z ((pkt_len ∘ snd) <$> env_burst e).

Definition st_wf (st : vdev_rx_stats) : Prop :=
  (wnd_idx st < WINDOW_SIZE)%nat ∧ length (byte_wnd st) = WINDOW_SIZE ∧
  length (pkt_wnd st) = WINDOW_SIZE ∧ length (empty_wnd st) = WINDOW_SIZE.

Definition vrx_wf (w : vrx_world) : Prop :=
  length (w_vm_rings w) = MAX_VHOSTS ∧ (Z.to_nat (eth_tx_queues config) ≤ length (w_eth_rings w))%nat ∧
  (length (w_stats w) = MAX_VHOSTS ∧ Forall st_wf (w_stats w)) ∧ length (w_ap w) = MAX_VHOSTS ∧
  (length (w_rr_vm w) = MAX_VHOSTS ∧ Forall (in_u 32) (w_rr_vm w)) ∧
  (length (w_rr_eth w) = MAX_ETH_TX_QUEUES ∧ Forall (in_u 32) (w_rr_eth w)) ∧
  batch_clean (w_batch w) ∧ w_eth w = replicate MAX_ETH_TX_QUEUES [].

Definition vrx_env_ok (e : rx_env) : Prop :=
  length (env_routing e) = ROUTE_SIZE ∧ NoDup (env_burst e).*1 ∧ (length (env_burst e) ≤ MAX_PKT_BURST)%nat.

Definition queues_ok : Prop := 0 < eth_tx_queues config ≤ Z.of_nat MAX_ETH_TX_QUEUES.

(** A packet of the batch [l] after ECN marking for the ring [r]. *)
Definition marked (r : ring nat) (rr : Z) (l : list nat) (p : nat) : mbuf → mbuf :=
  if ecn_marks (ring_congestion r) rr l p then λ m, set_buf (ecn_mark_packet (buf m)) m else id.

(** The state of the loop after the packets [pre]. *)
Definition vrx_inv (e : rx_env) (vid : nat) (learning : bool) (st : vdev_rx_stats) (w : vrx_world)
    (pre : list nat) (s : vrx_local) : Prop :=
  let V := vrx_verdict e in
  batch_ok V pre (v_batch s) ∧ 0 ≤ vid_seen_mask (v_batch s) ∧
  length (v_eth s) = MAX_ETH_TX_QUEUES ∧
  (∀ q, (q < MAX_ETH_TX_QUEUES)%nat → v_eth s !! q = Some (with_verdict V (ToEth q) pre)) ∧
  slow_ok (req_msg vid) (slow_reqs learning e pre) (v_slow s) (w_msgs w) (v_msgs s) ∧
  st_wf (v_st s) ∧ pkt_wnd (v_st s) = pkt_wnd st ∧ empty_wnd (v_st s) = empty_wnd st ∧ wnd_idx (v_st s) = wnd_idx st ∧
  byte_wnd (v_st s) = foldl (λ l n, bump n (wnd_idx st) l) (byte_wnd st)
    ((pkt_len ∘ snd) <$> take (length pre) (env_burst e)).

(** ** Lemmas: the loop over a burst *)

Lemma flow_queue_lt f : queues_ok → (flow_queue f < Z.to_nat (eth_tx_queues config))%nat.
Proof.
  intros [? ?]. unfold flow_queue.
  pose proof (Z.mod_pos_bound (rte_softrss_be (flow_words f) default_rss_key) (eth_tx_queues config)). lia.
Qed.

Lemma flow_pick_tx_eq f : queues_ok → flow_pick_tx f = Ok (flow_queue f).
Proof.
  intros [? ?]. unfold flow_pick_tx. destruct (Z.eqb_spec (eth_tx_queues config) 0); [lia|done].
Qed.

Lemma add_bytes_ok n st :
  st_wf st → ∃ st', add_bytes n st = Ok st' ∧ st_wf st' ∧ byte_wnd st' = bump n (wnd_idx st) (byte_wnd st) ∧
    pkt_wnd st' = pkt_wnd st ∧ empty_wnd st' = empty_wnd st ∧ wnd_idx st' = wnd_idx st.
Proof.
  intros (Hi & Hw1 & Hw2 & Hw3). unfold add_bytes, wnd_add.
  destruct (lookup_lt_is_Some_2 (byte_wnd st) (wnd_idx st)) as [x Hx]; [lia|].
  rewrite (arr_get_Some _ _ _ Hx). cbn [mbind res_bind]. eexists. split; [done|].
  unfold st_wf, bump. cbn. rewrite length_insert. split_and!; try done.
  apply list_eq. intros j. rewrite list_lookup_alter. destruct (decide (wnd_idx st = j)) as [<-|Hne].
  - rewrite list_lookup_insert_eq by lia. by rewrite Hx.
  - by rewrite list_lookup_insert_ne.
Qed.

Lemma slow_reqs_snoc learning e pre p :
  slow_reqs learning e (pre ++ [p]) =
  slow_reqs learning e pre ++ (if decide (vrx_verdict e p = ToSlow) then [(SLOW_ARP_REQ, p)] else []).
Proof.
  unfold slow_reqs. rewrite with_verdict_snoc, fmap_app, app_assoc. f_equal. by case_decide.
Qed.

Lemma slow_reqs_mono learning e pre post :
  (length (slow_reqs learning e pre) ≤ length (slow_reqs learning e (pre ++ post)))%nat.
Proof.
  unfold slow_reqs. rewrite with_verdict_app, fmap_app, !length_app. lia.
Qed.

Lemma eth_lists_skip V pre p (l : list (list nat)) :
  (∀ q, V p ≠ ToEth q) →
  (∀ q, (q < MAX_ETH_TX_QUEUES)%nat → l !! q = Some (with_verdict V (ToEth q) pre)) →
  ∀ q, (q < MAX_ETH_TX_QUEUES)%nat → l !! q = Some (with_verdict V (ToEth q) (pre ++ [p])).
Proof.
  intros Hne Hl q Hq. rewrite with_verdict_snoc, decide_False, app_nil_r by done. by apply Hl.
Qed.

(** The stats part of the invariant after one more packet. *)
Lemma vrx_bytes_snoc e pre p m post :
  env_burst e !! length pre = Some (p, m) → (env_burst e).*1 = pre ++ p :: post →
  take (length (pre ++ [p])) (env_burst e) = take (length pre) (env_burst e) ++ [(p, m)].
Proof. intros Hm _. rewrite length_app, Nat.add_1_r. by apply take_S_r. Qed.

Lemma burst_at e pre p post :
  (env_burst e).*1 = pre ++ p :: post → ∃ m, env_burst e !! length pre = Some (p, m).
Proof.
  intros Heq. assert ((env_burst e).*1 !! length pre = Some p) as Hp
    by (rewrite Heq; by apply list_lookup_middle).
  rewrite list_lookup_fmap in Hp. destruct (env_burst e !! length pre) as [[q m]|]; cbn in Hp; [|done].
  exists m. congruence.
Qed.

(** What the handler does besides the statistics, by verdict. *)
Lemma vhost_rx_packet_cases e vid pool p m s :
  length (env_routing e) = ROUTE_SIZE → queues_ok →
  pool !! p = Some m → vrx_verdict e p = vhost_verdict (env_routing e) (buf m) → st_wf (v_st s) →
  ∃ st', add_bytes (pkt_len m) (v_st s) = Ok st' ∧
  match vrx_verdict e p with
  | ToSlow => vhost_rx_packet e pool vid p s =
      ('(msg, mp) ← get_slow_msg (v_msgs s);
       slow ← arr_push MAX_PKT_BURST (v_slow s) (vhost_msg SLOW_ARP_REQ vid p msg);
       Ok (mk_vrx_local (v_batch s) (v_eth s) slow mp st'))
  | ToVm v => (v < MAX_VHOSTS)%nat ∧ vhost_rx_packet e pool vid p s =
      (b ← batch_add v p (v_batch s); Ok (mk_vrx_local b (v_eth s) (v_slow s) (v_msgs s) st'))
  | ToEth q => (q < Z.to_nat (eth_tx_queues config))%nat ∧ vhost_rx_packet e pool vid p s =
      (l ← arr_get (v_eth s) q; l ← arr_push MAX_PKT_BURST l p;
       Ok (mk_vrx_local (v_batch s) (<[q:=l]> (v_eth s)) (v_slow s) (v_msgs s) st'))
  | Drop => vhost_rx_packet e pool vid p s = Ok (mk_vrx_local (v_batch s) (v_eth s) (v_slow s) (v_msgs s) st')
  end.
Proof.
  intros Hrl Hq Hm HV Hst. destruct (add_bytes_ok (pkt_len m) (v_st s) Hst) as (st' & Ha & _).
  exists st'. split; [done|]. rewrite HV. unfold vhost_verdict.
  unfold vhost_rx_packet. rewrite (heap_get_Some _ _ _ Hm). cbn [mbind res_bind]. rewrite Ha. cbn [mbind res_bind].
  destruct (arp_req_for_us config (buf m)); [done|].
  destruct (dst_is_local_subnet (buf m)) as [local f]. destruct local.
  - destruct (lookup_lt_is_Some_2 (env_routing e) (last_octet (f_dst_ip f))) as [v Hv];
      [rewrite Hrl; apply last_octet_lt|].
    unfold find_vid_by_ip. rewrite (arr_get_Some _ _ _ Hv), Hv. cbn [mbind res_bind].
    destruct ((v <? 0) || (Z.of_nat MAX_VHOSTS <=? v)) eqn:Er.
    + replace ((0 <=? v) && (v <? Z.of_nat MAX_VHOSTS)) with false; [done|].
      symmetry. apply andb_false_iff. apply orb_true_iff in Er. lia.
    + apply orb_false_iff in Er as [Er1%Z.ltb_ge Er2%Z.leb_gt].
      replace ((0 <=? v) && (v <? Z.of_nat MAX_VHOSTS)) with true; [split; [lia|done]|].
      symmetry. apply andb_true_iff. lia.
  - split; [by apply flow_queue_lt|]. by rewrite flow_pick_tx_eq.
Qed.

Lemma vhost_rx_packet_spec e vid learning st w pre p post s :
  vrx_env_ok e → queues_ok → (env_burst e).*1 = pre ++ p :: post →
  (length (slow_reqs learning e (pre ++ [p])) ≤ length (pool_objs (w_msgs w)))%nat →
  (length (slow_reqs learning e (pre ++ [p])) ≤ MAX_PKT_BURST)%nat →
  vrx_inv e vid learning st w pre s →
  ∃ s', vhost_rx_packet e (vrx_received e w) vid p s = Ok s' ∧ vrx_inv e vid learning st w (pre ++ [p]) s'.
Proof.
  intros (Hrl & Hnd & Hlen) Hq Heq Hsup Hmax (Hb & Hmask & Hle & Heth & Hslow & Hst & Hpk & Hem & Hwi & Hby).
  destruct (burst_at e pre p post Heq) as [m Hm].
  assert (p ∈ (env_burst e).*1) as Hin by (rewrite Heq; apply elem_of_app; right; by left).
  assert ((list_to_map (env_burst e) : gmap nat mbuf) !! p = Some m) as Hlm
    by (apply elem_of_list_to_map; [done|]; by eapply list_elem_of_lookup_2).
  assert (vrx_received e w !! p = Some m) as Hrm
    by (unfold vrx_received; by rewrite lookup_union, Hlm, union_Some_l).
  assert (vrx_verdict e p = vhost_verdict (env_routing e) (buf m)) as HV
    by (unfold vrx_verdict, pool_verdict; by rewrite Hlm).
  assert (length pre < MAX_PKT_BURST)%nat as Hpre.
  { rewrite <- (length_fmap fst), Heq, length_app in Hlen. cbn [length] in Hlen. lia. }
  destruct (vhost_rx_packet_cases e vid _ p m s Hrl Hq Hrm HV Hst) as (st' & Ha & Hcase).
  destruct (add_bytes_ok (pkt_len m) (v_st s) Hst) as (st2 & Ha2 & Hwf' & Hby' & Hpk' & Hem' & Hwi').
  assert (st2 = st') as -> by congruence.
  assert (byte_wnd st' = foldl (λ l n, bump n (wnd_idx st) l) (byte_wnd st)
    ((pkt_len ∘ snd) <$> take (length (pre ++ [p])) (env_burst e))) as Hbytes.
  { rewrite (vrx_bytes_snoc e pre p m post Hm Heq), fmap_app, foldl_app, <- Hby. cbn. by rewrite Hby', Hwi. }
  assert (∀ q, v_eth s !! q = Some (with_verdict (vrx_verdict e) (ToEth q) pre) →
    length (with_verdict (vrx_verdict e) (ToEth q) pre) < MAX_PKT_BURST)%nat as Hroom.
  { intros q _. pose proof (length_with_verdict (vrx_verdict e) (ToEth q) pre). lia. }
  pose proof (slow_reqs_snoc learning e pre p) as Hreq.
  destruct (vrx_verdict e p) as [|v|q|] eqn:Ev.
  - destruct (slow_ok_push (req_msg vid) _ _ _ _ (SLOW_ARP_REQ, p) Hslow) as (msg & mp2 & E1 & E2 & Hslow').
    1-2: rewrite Hreq, decide_True, length_app in Hsup, Hmax by done; cbn [length] in Hsup, Hmax; lia.
    rewrite Hcase, E1. cbn [mbind res_bind]. change (req_msg vid (SLOW_ARP_REQ, p) msg) with (vhost_msg SLOW_ARP_REQ vid p msg) in E2.
    rewrite E2. cbn [mbind res_bind]. eexists. split; [done|]. unfold vrx_inv. cbn [v_batch v_eth v_slow v_msgs v_st].
    rewrite Hreq, decide_True by done.
    split_and!; try done; try congruence; [by apply batch_skip_ok; rewrite ?Ev|by apply eth_lists_skip; rewrite ?Ev].
  - destruct Hcase as [Hv Hcase].
    destruct (batch_add_ok (vrx_verdict e) pre p v (v_batch s) Hb Hmask Ev Hv Hpre) as (b' & E & Hmask' & Hb').
    rewrite Hcase, E. cbn [mbind res_bind]. eexists. split; [done|]. unfold vrx_inv. cbn [v_batch v_eth v_slow v_msgs v_st].
    rewrite Hreq, decide_False, app_nil_r by done.
    split_and!; try done; try congruence. by apply eth_lists_skip; rewrite ?Ev.
  - destruct Hcase as [Hql Hcase]. destruct Hq as [Hq1 Hq2]. assert (q < MAX_ETH_TX_QUEUES)%nat as Hqm by lia.
    rewrite Hcase, (arr_get_Some _ _ _ (Heth q Hqm)). cbn [mbind res_bind].
    rewrite arr_push_lt by (by apply Hroom, Heth). cbn [mbind res_bind].
    eexists. split; [done|]. unfold vrx_inv. cbn [v_batch v_eth v_slow v_msgs v_st].
    rewrite Hreq, decide_False, app_nil_r, length_insert by done.
    split_and!; try done; try congruence; [by apply batch_skip_ok; rewrite ?Ev|].
    intros q' Hq'. rewrite with_verdict_snoc, Ev. destruct (decide (q = q')) as [<-|Hne].
    + by rewrite list_lookup_insert_eq, decide_True by (done || lia).
    + rewrite list_lookup_insert_ne, decide_False, app_nil_r by (done || congruence). by apply Heth.
  - rewrite Hcase. eexists. split; [done|]. unfold vrx_inv. cbn [v_batch v_eth v_slow v_msgs v_st].
    rewrite Hreq, decide_False, app_nil_r by done.
    split_and!; try done; try congruence; [by apply batch_skip_ok; rewrite ?Ev|by apply eth_lists_skip; rewrite ?Ev].
Qed.

(** ** Lemmas: flushing towards the NIC *)

(** The fate of packet [p], whose contents were [o], once the queues [dn] are flushed. *)
Definition eth_fate (V : nat → verdict) (burst : list nat) (rings : list (ring nat)) (rrs : list Z)
    (dn : list nat) (p : nat) (o : option mbuf) : option mbuf :=
  match V p with
  | ToEth q =>
      match rings !! q, rrs !! q with
      | Some r, Some rr =>
          let l := with_verdict V (ToEth q) burst in
          if decide (q ∈ dn ∧ p ∈ l) then
            if decide (p ∈ drop (rte_ring_free_count r) l) then None else marked r rr l p <$> o
          else o
      | _, _ => o
      end
  | _ => o
  end.

Definition eth_inv (V : nat → verdict) (burst : list nat) (s0 : eth_out_state) (dn : list nat)
    (s : eth_out_state) : Prop :=
  (length (eo_pkts s) = MAX_ETH_TX_QUEUES ∧
   ∀ q, (q < MAX_ETH_TX_QUEUES)%nat →
     eo_pkts s !! q = Some (if decide (q ∈ dn) then [] else with_verdict V (ToEth q) burst)) ∧
  (length (eo_rings s) = length (eo_rings s0) ∧
   ∀ q r, eo_rings s0 !! q = Some r → ∃ r', eo_rings s !! q = Some r' ∧ ring_capacity r' = ring_capacity r ∧
     if decide (q ∈ dn)
     then ring_items r' = ring_items r ++ take (rte_ring_free_count r) (with_verdict V (ToEth q) burst)
     else r' = r) ∧
  (length (eo_rr s) = length (eo_rr s0) ∧ Forall (in_u 32) (eo_rr s) ∧
   ∀ q r rr, eo_rings s0 !! q = Some r → eo_rr s0 !! q = Some rr →
     eo_rr s !! q = Some (if decide (q ∈ dn)
       then ecn_rr_after (ring_congestion r) rr (length (with_verdict V (ToEth q) burst)) else rr)) ∧
  (∀ p, eo_pool s !! p = eth_fate V burst (eo_rings s0) (eo_rr s0) dn p (eo_pool s0 !! p)) ∧
  wnds (eo_st s) = wnds (eo_st s0) ∧ (st_wf (eo_st s0) → st_wf (eo_st s)).

Lemma ecn_rr_after_0 c rr : in_u 32 rr → ecn_rr_after c rr 0 = rr.
Proof. intros Hrr. unfold ecn_rr_after. case_match; [done|]. rewrite Z.add_0_r. by apply u32_id. Qed.

Lemma ecn_rr_after_range c rr n : in_u 32 rr → in_u 32 (ecn_rr_after c rr n).
Proof.
  intros Hrr. unfold ecn_rr_after. case_match; [done|]. unfold u32, wrap, in_u. by apply Z.mod_pos_bound.
Qed.

(** Packets other than those of queue [q] do not notice its flush. *)
Lemma eth_fate_snoc_ne V burst rings rrs dn q p o :
  V p ≠ ToEth q ∨ p ∉ burst → eth_fate V burst rings rrs (dn ++ [q]) p o = eth_fate V burst rings rrs dn p o.
Proof.
  intros Hne. unfold eth_fate. destruct (V p) as [| |q'|] eqn:Ev; try done.
  destruct (rings !! q'), (rrs !! q'); try done. apply decide_ext_if.
  rewrite elem_of_app, list_elem_of_singleton, with_verdict_mem. destruct Hne as [Hne|Hne]; [|tauto].
  split; [|tauto]. intros [[?|Heq] ?]; [tauto|]. subst. done.
Qed.

Lemma eth_fate_todo V burst rings rrs dn q p o :
  V p = ToEth q → q ∉ dn → eth_fate V burst rings rrs dn p o = o.
Proof.
  intros Hv Hq. unfold eth_fate. rewrite Hv. destruct (rings !! q), (rrs !! q); try done.
  rewrite decide_False by tauto. done.
Qed.

Lemma wnds_add_fail n st : wnds (add_eth_fail n st) = wnds st ∧ wnds (add_vhost_fail n st) = wnds st.
Proof. done. Qed.

(** Nothing to do at a queue without packets. *)
Lemma eth_inv_skip V burst s0 dn q s :
  eth_inv V burst s0 dn s → with_verdict V (ToEth q) burst = [] → Forall (in_u 32) (eo_rr s0) → q ∉ dn →
  eth_inv V burst s0 (dn ++ [q]) s.
Proof.
  intros ((Hl1 & Hp) & (Hl2 & Hr) & (Hl3 & Hfr & Hrr) & Hpool & Hw & Hst) Hnil Hrange Hq.
  assert (∀ q', q' ≠ q → q' ∈ dn ++ [q] ↔ q' ∈ dn) as Hmem
    by (intros q' Hne; rewrite elem_of_app, list_elem_of_singleton; tauto).
  split_and!; try done.
  - intros q' Hq'. rewrite (Hp q' Hq'). f_equal. destruct (decide (q' = q)) as [->|Hne].
    + rewrite Hnil. by repeat case_decide.
    + symmetry. by apply decide_ext_if, Hmem.
  - intros q' r Hr0. destruct (Hr q' r Hr0) as (r' & Hr' & Hc & Hi). exists r'. split_and!; [done|done|].
    destruct (decide (q' = q)) as [->|Hne].
    + rewrite decide_False in Hi by done. rewrite decide_True, Hnil, take_nil, app_nil_r by apply elem_of_snoc_self.
      by subst.
    + destruct (decide (q' ∈ dn)) as [Hd|Hd].
      * rewrite decide_True by by apply Hmem. done.
      * rewrite decide_False by by rewrite Hmem. done.
  - intros q' r rr Hr0 Hrr0. rewrite (Hrr q' r rr Hr0 Hrr0). f_equal. destruct (decide (q' = q)) as [->|Hne].
    + rewrite decide_False, decide_True, Hnil by (apply elem_of_snoc_self || done). cbn [length].
      symmetry. apply ecn_rr_after_0. by eapply Forall_lookup_1.
    + symmetry. by apply decide_ext_if, Hmem.
  - intros p. rewrite Hpool. symmetry. apply eth_fate_snoc_ne.
    destruct (decide (V p = ToEth q)) as [Hv|]; [right|by left]. intros Hin.
    assert (p ∈ with_verdict V (ToEth q) burst) as Hpin by by apply with_verdict_mem.
    rewrite Hnil in Hpin. by apply not_elem_of_nil in Hpin.
Qed.

Lemma elem_of_drop_of {A} (n : nat) (l : list A) x : x ∈ drop n l → x ∈ l.
Proof. intros Hx. rewrite <- (take_drop n l). apply elem_of_app. by right. Qed.

(** The flush of a queue that has packets. *)
Lemma eth_inv_flush V burst s0 dn q s :
  eth_inv V burst s0 dn s → NoDup burst → (q < MAX_ETH_TX_QUEUES)%nat → q ∉ dn →
  (q < length (eo_rings s0))%nat → length (eo_rr s0) = MAX_ETH_TX_QUEUES → Forall (in_u 32) (eo_rr s0) →
  live (eo_pool s0) burst → with_verdict V (ToEth q) burst ≠ [] →
  ∃ s', eth_flush_queue q s = Ok s' ∧ eth_inv V burst s0 (dn ++ [q]) s'.
Proof.
  intros ((Hl1 & Hp) & (Hl2 & Hr) & (Hl3 & Hfr & Hrr) & Hpool & Hw & Hst) Hnd Hq Hdn Hlr Hlrr Hrange Hlive Hne.
  set (l := with_verdict V (ToEth q) burst) in *.
  destruct (lookup_lt_is_Some_2 (eo_rings s0) q Hlr) as [r Hr0].
  destruct (lookup_lt_is_Some_2 (eo_rr s0) q) as [rr Hrr0]; [lia|].
  destruct (Hr q r Hr0) as (r1 & Hr1 & _ & Hre). rewrite decide_False in Hre by done. subst r1.
  pose proof (Hrr q r rr Hr0 Hrr0) as Hrr1. rewrite decide_False in Hrr1 by done.
  assert (∀ q', q' ≠ q → q' ∈ dn ++ [q] ↔ q' ∈ dn) as Hmem
    by (intros q' Hn; rewrite elem_of_app, list_elem_of_singleton; tauto).
  assert (NoDup l) as Hndl by by apply NoDup_filter.
  assert (∀ p, p ∈ l → V p = ToEth q ∧ p ∈ burst) as Hl by (intros p; apply with_verdict_mem).
  assert (live (eo_pool s) l) as Hlivel.
  { intros p Hpl. destruct (Hl p Hpl) as [Hv Hpb]. rewrite Hpool, (eth_fate_todo _ _ _ _ _ q) by done. by apply Hlive. }
  unfold eth_flush_queue. rewrite (arr_get_Some _ _ _ (Hp q Hq)), (decide_False (P := q ∈ dn)) by done.
  cbn [mbind res_bind]. fold l. rewrite decide_False by done.
  rewrite (arr_get_Some _ _ _ Hr1). cbn [mbind res_bind]. rewrite (arr_get_Some _ _ _ Hrr1). cbn [mbind res_bind].
  destruct (ecn_mark_packets_all (ring_congestion r) rr l (eo_pool s) Hndl Hlivel) as (h & -> & Hh);
    [by eapply Forall_lookup_1|].
  cbn [mbind res_bind]. destruct (rte_ring_enqueue_burst r l) as [k r'] eqn:Ee.
  destruct (ring_enqueue_eq _ _ _ _ _ Ee) as (Hk & Hi & Hc).
  assert (drop k l = drop (rte_ring_free_count r) l) as Hdrop.
  { rewrite Hk. destruct (decide (length l ≤ rte_ring_free_count r)%nat).
    - rewrite !drop_ge; done || lia.
    - f_equal. lia. }
  assert (take k l = take (rte_ring_free_count r) l) as Htake.
  { rewrite Hk. destruct (decide (length l ≤ rte_ring_free_count r)%nat).
    - rewrite !take_ge; done || lia.
    - f_equal. lia. }
  destruct (heap_free_all_spec (drop k l) h) as (h' & -> & Hh').
  { rewrite <- (take_drop k l) in Hndl. by apply NoDup_app in Hndl as (_ & _ & ?). }
  { intros p Hpi%elem_of_drop_of. rewrite Hh. apply fmap_is_Some. by apply Hlivel. }
  cbn [mbind res_bind]. eexists. split; [done|]. unfold eth_inv. cbn [eo_pkts eo_rings eo_rr eo_pool eo_st].
  rewrite !length_insert. split_and!; try done.
  - intros q' Hq'. destruct (decide (q' = q)) as [->|Hn].
    + by rewrite list_lookup_insert_eq, decide_True by (apply elem_of_snoc_self || lia).
    + rewrite list_lookup_insert_ne, Hp by done. f_equal. symmetry. by apply decide_ext_if, Hmem.
  - intros q' r0 Hq'. destruct (decide (q' = q)) as [->|Hn].
    + assert (r0 = r) as -> by congruence. exists r'. rewrite list_lookup_insert_eq by lia.
      rewrite decide_True by apply elem_of_snoc_self. by rewrite Hi, Htake.
    + rewrite list_lookup_insert_ne by done. destruct (Hr q' r0 Hq') as (r2 & Hr2 & Hc2 & Hi2).
      exists r2. split_and!; [done|done|]. destruct (decide (q' ∈ dn)).
      * rewrite decide_True by by apply Hmem. done.
      * rewrite decide_False by by rewrite Hmem. done.
  - apply Forall_insert; [done|]. apply ecn_rr_after_range. by eapply Forall_lookup_1.
  - intros q' r0 rr0 Hq' Hrr'. destruct (decide (q' = q)) as [->|Hn].
    + rewrite list_lookup_insert_eq by lia. rewrite decide_True by apply elem_of_snoc_self.
      assert (r0 = r) as -> by congruence. assert (rr0 = rr) as -> by congruence. done.
    + rewrite list_lookup_insert_ne by done. rewrite (Hrr q' r0 rr0 Hq' Hrr'). f_equal.
      symmetry. by apply decide_ext_if, Hmem.
  - intros p. rewrite Hh', Hdrop. destruct (decide (p ∈ l)) as [Hpl|Hpl].
    + destruct (Hl p Hpl) as [Hv Hpb]. rewrite Hh, Hpool, (eth_fate_todo _ _ _ _ _ q) by done.
      unfold eth_fate. rewrite Hv, Hr0, Hrr0. fold l.
      rewrite (decide_True (P := q ∈ dn ++ [q] ∧ p ∈ l)) by (split; [apply elem_of_snoc_self|done]). done.
    + rewrite decide_False.
      2:{ by intros Hpi%elem_of_drop_of. }
      rewrite Hh, Hpool, eth_fate_snoc_ne.
      2:{ destruct (decide (V p = ToEth q)) as [Hv|]; [right|by left]. intros Hpb. apply Hpl. by apply with_verdict_mem. }
      unfold ecn_marks. destruct (list_find (λ q, q = p) l) as [[i x]|] eqn:E; [|by rewrite option_fmap_id].
      apply list_find_Some in E as (Hx & -> & _). by apply list_elem_of_lookup_2 in Hx.
  - by case_decide.
  - intros Hs. case_decide; by apply Hst.
Qed.

Lemma eth_flush_ok_queues V burst s0 :
  queues_ok →
  length (eo_pkts s0) = MAX_ETH_TX_QUEUES →
  (∀ q, (q < MAX_ETH_TX_QUEUES)%nat → eo_pkts s0 !! q = Some (with_verdict V (ToEth q) burst)) →
  NoDup burst → (Z.to_nat (eth_tx_queues config) ≤ length (eo_rings s0))%nat →
  length (eo_rr s0) = MAX_ETH_TX_QUEUES → Forall (in_u 32) (eo_rr s0) → live (eo_pool s0) burst →
  ∃ s', eth_flush s0 = Ok s' ∧ eth_inv V burst s0 (seq 0 (Z.to_nat (eth_tx_queues config))) s'.
Proof.
  intros [Hq1 Hq2] Hl Hp Hnd Hlr Hlrr Hrange Hlive. unfold eth_flush.
  apply (foldM_ind _ (λ dn s, eth_inv V burst s0 dn s)).
  - split_and!; try done.
    + intros q r Hr. by exists r.
    + intros p. unfold eth_fate. destruct (V p); try done. repeat case_match; try done.
  - intros pre q post s Heq Hinv.
    assert (q ∈ seq 0 (Z.to_nat (eth_tx_queues config))) as Hq
      by (rewrite Heq; apply elem_of_app; right; by left).
    apply elem_of_seq in Hq. pose proof (NoDup_seq 0 (Z.to_nat (eth_tx_queues config))) as Hnds.
    rewrite Heq in Hnds. apply NoDup_app in Hnds as (_ & Hd & _).
    assert (q ∉ pre) as Hqp by (intros Hin; apply (Hd q Hin); by left).
    destruct (decide (with_verdict V (ToEth q) burst = [])) as [Hnil|Hne].
    + exists s. split; [|by apply eth_inv_skip]. unfold eth_flush_queue. destruct Hinv as ((_ & Hpk) & _).
      rewrite (arr_get_Some _ _ _ (Hpk q ltac:(lia))), decide_False by done. cbn [mbind res_bind].
      by rewrite decide_True.
    + apply eth_inv_flush; try done; lia.
Qed.

(** ** Lemmas: flushing towards the VMs *)

Definition vm_fate (V : nat → verdict) (burst : list nat) (rings : list (ring nat)) (rrs : list Z)
    (dn : list nat) (p : nat) (o : option mbuf) : option mbuf :=
  match V p with
  | ToVm v =>
      match rings !! v, rrs !! v with
      | Some r, Some rr =>
          let l := with_verdict V (ToVm v) burst in
          if decide (v ∈ dn ∧ p ∈ l) then marked r rr l p <$> o else o
      | _, _ => o
      end
  | _ => o
  end.

Definition vm_inv (V : nat → verdict) (burst : list nat) (rings : list (ring nat)) (s0 : vm_out_state)
    (dn : list nat) (s : vm_out_state) : Prop :=
  (length (vo_rr s) = length (vo_rr s0) ∧ Forall (in_u 32) (vo_rr s) ∧
   ∀ v r rr, rings !! v = Some r → vo_rr s0 !! v = Some rr →
     vo_rr s !! v = Some (if decide (v ∈ dn)
       then ecn_rr_after (ring_congestion r) rr (length (with_verdict V (ToVm v) burst)) else rr)) ∧
  (∀ p, vo_pool s !! p = vm_fate V burst rings (vo_rr s0) dn p (vo_pool s0 !! p)) ∧
  wnds <$> vo_stats s = wnds <$> vo_stats s0 ∧ (Forall st_wf (vo_stats s0) → Forall st_wf (vo_stats s)).

Lemma vm_fate_todo V burst rings rrs dn v p o :
  V p = ToVm v → v ∉ dn → vm_fate V burst rings rrs dn p o = o.
Proof.
  intros Hv Hq. unfold vm_fate. rewrite Hv. destruct (rings !! v), (rrs !! v); try done.
  rewrite decide_False by tauto. done.
Qed.

Lemma vm_fate_snoc_ne V burst rings rrs dn v p o :
  V p ≠ ToVm v ∨ p ∉ burst → vm_fate V burst rings rrs (dn ++ [v]) p o = vm_fate V burst rings rrs dn p o.
Proof.
  intros Hne. unfold vm_fate. destruct (V p) as [|v'| |] eqn:Ev; try done.
  destruct (rings !! v'), (rrs !! v'); try done. apply decide_ext_if.
  rewrite elem_of_app, list_elem_of_singleton, with_verdict_mem. destruct Hne as [Hne|Hne]; [|tauto].
  split; [|tauto]. intros [[?|Heq] ?]; [tauto|]. subst. done.
Qed.

Lemma ecn_marks_out c rr l p : p ∉ l → ecn_marks c rr l p = false.
Proof.
  intros Hp. unfold ecn_marks. destruct (list_find (λ q, q = p) l) as [[i x]|] eqn:E; [|done].
  apply list_find_Some in E as (Hx & -> & _). by apply list_elem_of_lookup_2 in Hx.
Qed.

(** ECN marking of the batch of VM [v]. *)
Lemma vm_mark_ok V burst rings s0 dn v r s :
  vm_inv V burst rings s0 dn s → NoDup burst → v ∉ dn → rings !! v = Some r →
  length (vo_rr s0) = length rings → Forall (in_u 32) (vo_rr s0) →
  (∀ p, p ∈ with_verdict V (ToVm v) burst → is_Some (vo_pool s0 !! p)) →
  ∃ s', vm_flush_mark v (rte_ring_free_count r) (with_verdict V (ToVm v) burst) s = Ok s' ∧
    vm_inv V burst rings s0 (dn ++ [v]) s'.
Proof.
  intros ((Hlr & Hfr & Hrr) & Hpool & Hst) Hnd Hv Hr Hlen Hrange Hlive.
  set (l := with_verdict V (ToVm v) burst) in *.
  destruct (lookup_lt_is_Some_2 (vo_rr s0) v) as [rr Hrr0]; [rewrite Hlen; by eapply lookup_lt_Some|].
  pose proof (Hrr v r rr Hr Hrr0) as Hrr1. rewrite decide_False in Hrr1 by done.
  assert (∀ p, p ∈ l → V p = ToVm v ∧ p ∈ burst) as Hl by (intros p; apply with_verdict_mem).
  unfold vm_flush_mark. rewrite (arr_get_Some _ _ _ Hrr1). cbn [mbind res_bind]. fold (ring_congestion r).
  destruct (ecn_mark_packets_all (ring_congestion r) rr l (vo_pool s)) as (h & -> & Hh).
  { by apply NoDup_filter. }
  { intros p Hp. destruct (Hl p Hp) as [HV _]. rewrite Hpool, (vm_fate_todo _ _ _ _ _ v) by done. by apply Hlive. }
  { by eapply Forall_lookup_1. }
  cbn [mbind res_bind]. eexists. split; [done|]. unfold vm_inv. cbn [vo_rr vo_pool vo_stats].
  rewrite length_insert. split_and!; try done; try apply Hst.
  - apply Forall_insert; [done|]. apply ecn_rr_after_range. by eapply Forall_lookup_1.
  - intros w r0 rr0 Hw Hrrw. destruct (decide (w = v)) as [->|Hne].
    + rewrite list_lookup_insert_eq, decide_True by (apply elem_of_snoc_self || (rewrite Hlr; by eapply lookup_lt_Some)).
      assert (r0 = r) as -> by congruence. assert (rr0 = rr) as -> by congruence. done.
    + rewrite list_lookup_insert_ne, (Hrr w r0 rr0) by done. f_equal. apply decide_ext_if.
      rewrite elem_of_app, list_elem_of_singleton. tauto.
  - intros p. rewrite Hh, Hpool. destruct (decide (p ∈ l)) as [Hp|Hp].
    + destruct (Hl p Hp) as [HV _]. rewrite (vm_fate_todo _ _ _ _ _ v) by done. unfold vm_fate.
      rewrite HV, Hr, Hrr0. fold l.
      by rewrite (decide_True (P := v ∈ dn ++ [v] ∧ p ∈ l)) by (split; [apply elem_of_snoc_self|done]).
    + rewrite ecn_marks_out, option_fmap_id, vm_fate_snoc_ne; [done| |done].
      destruct (decide (V p = ToVm v)) as [HV|]; [right|by left]. intros Hb. apply Hp. by apply with_verdict_mem.
Qed.

(** Counting the packets that did not fit changes no window. *)
Lemma vm_fail_ok V burst rings s0 dn v lost s :
  vm_inv V burst rings s0 dn s → (v < length (vo_stats s0))%nat →
  ∃ s', vm_flush_fail v lost s = Ok s' ∧ vm_inv V burst rings s0 dn s'.
Proof.
  intros (Hrr & Hpool & Hw & Hst) Hv. unfold vm_flush_fail.
  assert (length (vo_stats s) = length (vo_stats s0)) as Hl
    by (rewrite <- (length_fmap wnds), Hw; apply length_fmap).
  destruct (lookup_lt_is_Some_2 (vo_stats s) v) as [st Hs]; [lia|].
  rewrite (arr_get_Some _ _ _ Hs). cbn [mbind res_bind]. eexists. split; [done|].
  unfold vm_inv. cbn [vo_rr vo_pool vo_stats]. split_and!; try done; try apply Hrr.
  - rewrite list_fmap_insert. change (wnds (add_vhost_fail lost st)) with (wnds st).
    rewrite list_insert_id; [done|]. by rewrite list_lookup_fmap, Hs.
  - intros Hall. apply Forall_insert; [by apply Hst|].
    assert (st_wf st) as Hwf by (eapply Forall_lookup_1; [by apply Hst|done]). exact Hwf.
Qed.

Lemma vm_flush_ok V burst b rings s0 :
  batch_ok V burst b → length rings = MAX_VHOSTS → NoDup burst →
  (∀ v p, p ∈ with_verdict V (ToVm v) burst → is_Some (vo_pool s0 !! p)) →
  length (vo_rr s0) = MAX_VHOSTS → Forall (in_u 32) (vo_rr s0) → length (vo_stats s0) = MAX_VHOSTS →
  ∃ pkts' rings' s', flush vm_flush_mark vm_flush_fail (dst_vids b) (vm_pkts b) rings s0 = Ok (pkts', rings', s') ∧
    batch_clean pkts' ∧ enqueued V burst rings rings' ∧ vm_inv V burst rings s0 (dst_vids b) s'.
Proof.
  intros Hb Hl Hnd Hlive Hlrr Hrange Hls. pose proof Hb as (_ & _ & Hndd & Hd & _).
  apply flush_ok; [done|done| |].
  - split_and!; try done. intros p. unfold vm_fate. destruct (V p); try done. repeat case_match; try done.
  - intros dn v todo r s Heq Hr Hinv.
    assert (v ∈ dst_vids b) as Hin by (rewrite Heq; apply elem_of_app; right; by left).
    apply Hd in Hin as [Hv _].
    assert (v ∉ dn) as Hvd.
    { rewrite Heq in Hndd. apply NoDup_app in Hndd as (_ & Hdis & _). intros Hi. apply (Hdis v Hi). by left. }
    destruct (vm_mark_ok V burst rings s0 dn v r s) as (s1 & -> & Hinv1); try done; [congruence| |].
    { intros p. apply Hlive. }
    cbn [mbind res_bind]. case_decide; [|by exists s1]. by apply vm_fail_ok; [|lia].
Qed.

(** ** Lemmas: the visit *)

(** What becomes of packet [p], received as [o]. *)
Definition vrx_fate (e : rx_env) (w : vrx_world) (p : nat) (o : option mbuf) : option mbuf :=
  let V := vrx_verdict e in
  let pkts := (env_burst e).*1 in
  match V p with
  | ToVm v =>
      match w_vm_rings w !! v, w_rr_vm w !! v with
      | Some r, Some rr => marked r rr (with_verdict V (ToVm v) pkts) p <$> o
      | _, _ => o
      end
  | ToEth q =>
      match w_eth_rings w !! q, w_rr_eth w !! q with
      | Some r, Some rr =>
          let l := with_verdict V (ToEth q) pkts in
          if decide (p ∈ drop (rte_ring_free_count r) l) then None else marked r rr l p <$> o
      | _, _ => o
      end
  | _ => o
  end.

(** The effect of a poll that returned packets; [st] are the statistics after
    [vhost_poll]. *)
Definition vrx_visited (e : rx_env) (vid : nat) (learning : bool) (st : vdev_rx_stats) (w w' : vrx_world) : Prop :=
  let V := vrx_verdict e in
  let pkts := (env_burst e).*1 in
  enqueued V pkts (w_vm_rings w) (w_vm_rings w') ∧
  (length (w_eth_rings w') = length (w_eth_rings w) ∧
   ∀ q r, w_eth_rings w !! q = Some r → ∃ r', w_eth_rings w' !! q = Some r' ∧
     ring_capacity r' = ring_capacity r ∧
     ring_items r' = ring_items r ++ take (rte_ring_free_count r) (with_verdict V (ToEth q) pkts)) ∧
  (∀ p, w_pool w' !! p = vrx_fate e w p (vrx_received e w !! p)) ∧
  (∃ slow, slow_ok (req_msg vid) (slow_reqs learning e pkts) slow (w_msgs w) (w_msgs w') ∧
     ring_items (w_slow w') = ring_items (w_slow w) ++ take (rte_ring_free_count (w_slow w)) slow) ∧
  wnds <$> w_stats w' = <[vid := (bump (burst_bytes e) (wnd_idx st) (byte_wnd st), pkt_wnd st, empty_wnd st, wnd_idx st)]>
    (wnds <$> w_stats w) ∧
  (∀ v r rr, w_vm_rings w !! v = Some r → w_rr_vm w !! v = Some rr →
     w_rr_vm w' !! v = Some (ecn_rr_after (ring_congestion r) rr (length (with_verdict V (ToVm v) pkts)))) ∧
  (∀ q r rr, w_eth_rings w !! q = Some r → w_rr_eth w !! q = Some rr →
     w_rr_eth w' !! q = Some (ecn_rr_after (ring_congestion r) rr (length (with_verdict V (ToEth q) pkts)))).

Lemma verdict_eth_lt e p q :
  queues_ok → vrx_verdict e p = ToEth q → (q < Z.to_nat (eth_tx_queues config))%nat.
Proof.
  intros Hq. unfold vrx_verdict, pool_verdict, vhost_verdict. destruct (_ !! p); [|done].
  destruct (arp_req_for_us _ _); [done|]. destruct (dst_is_local_subnet _) as [[|] f].
  - destruct (_ !! last_octet _) as [v|]; [|done]. by destruct (_ && _).
  - intros [= <-]. by apply flow_queue_lt.
Qed.

Lemma verdict_burst e p : vrx_verdict e p ≠ Drop → p ∈ (env_burst e).*1.
Proof.
  unfold vrx_verdict, pool_verdict. destruct (list_to_map (env_burst e) !! p) as [m|] eqn:E; [|done].
  intros _. apply elem_of_list_to_map_2 in E. apply list_elem_of_fmap. by exists (p, m).
Qed.

Lemma bump_bump a b i l : bump b i (bump a i l) = bump (a + b) i l.
Proof.
  unfold bump. apply list_eq. intros j. rewrite !list_lookup_alter. destruct (decide (i = j)) as [->|]; [|done].
  rewrite ?decide_True by done. destruct (l !! j) as [x|]; cbn; [|done]. f_equal. unfold u32, wrap. rewrite Z.add_mod_idemp_l by lia.
  f_equal. lia.
Qed.

Lemma foldl_bump i l ns : ns ≠ [] → foldl (λ l n, bump n i l) l ns = bump (sum_list_Z ns) i l.
Proof.
  destruct ns as [|n ns]; [done|]. intros _. cbn [foldl]. revert n. induction ns as [|n' ns IH]; intros n.
  - cbn. by rewrite Z.add_0_r.
  - cbn [foldl]. rewrite bump_bump, IH. unfold sum_list_Z. cbn. f_equal. lia.
Qed.

(** Both flushes together decide the fate of a packet. *)
Lemma vrx_fate_eq e w b o p :
  queues_ok → batch_ok (vrx_verdict e) (env_burst e).*1 b → length (w_vm_rings w) = MAX_VHOSTS →
  vm_fate (vrx_verdict e) (env_burst e).*1 (w_vm_rings w) (w_rr_vm w) (dst_vids b) p
    (eth_fate (vrx_verdict e) (env_burst e).*1 (w_eth_rings w) (w_rr_eth w)
       (seq 0 (Z.to_nat (eth_tx_queues config))) p o) = vrx_fate e w p o.
Proof.
  intros Hq (_ & _ & _ & Hd & _) Hl. unfold vm_fate, eth_fate, vrx_fate.
  pose proof (verdict_burst e p) as Hb. destruct (vrx_verdict e p) as [|v|q|] eqn:Ev; try done.
  - destruct (w_vm_rings w !! v) as [r|] eqn:Er; [|done]. destruct (w_rr_vm w !! v) as [rr|]; [|done].
    assert (p ∈ with_verdict (vrx_verdict e) (ToVm v) (env_burst e).*1) as Hp
      by (apply with_verdict_mem; split; [done|by apply Hb]).
    rewrite decide_True; [done|]. split; [|done]. apply Hd. split; [rewrite <- Hl; by eapply lookup_lt_Some|].
    intros Hnil. rewrite Hnil in Hp. by apply not_elem_of_nil in Hp.
  - destruct (w_eth_rings w !! q) as [r|]; [|done]. destruct (w_rr_eth w !! q) as [rr|]; [|done].
    rewrite (decide_True (P := q ∈ _ ∧ _)); [done|]. split.
    + apply elem_of_seq. pose proof (verdict_eth_lt e p q Hq Ev). lia.
    + apply with_verdict_mem. split; [done|by apply Hb].
Qed.

Lemma with_verdict_eth_nil e q :
  queues_ok → (Z.to_nat (eth_tx_queues config) ≤ q)%nat →
  with_verdict (vrx_verdict e) (ToEth q) (env_burst e).*1 = [].
Proof.
  intros Hq Hle. destruct (with_verdict _ _ _) as [|p l] eqn:E; [done|].
  assert (p ∈ with_verdict (vrx_verdict e) (ToEth q) (env_burst e).*1) as Hp by (rewrite E; by left).
  apply with_verdict_mem in Hp as [Hv _]. pose proof (verdict_eth_lt e p q Hq Hv). lia.
Qed.

Definition learning (d : vhost_dev) : bool := ready d =? DEVICE_MAC_LEARNING.

Lemma learn_msg_ok e vid d w :
  (env_burst e).*1 ≠ [] →
  (length (slow_reqs (learning d) e (env_burst e).*1) ≤ length (pool_objs (w_msgs w)))%nat →
  ∃ slow mp, learn_msg (ready d) vid (env_burst e).*1 (w_msgs w) = Ok (slow, mp) ∧
    slow_ok (req_msg vid) (slow_reqs (learning d) e []) slow (w_msgs w) mp.
Proof.
  intros Hne Hsup. unfold learn_msg, learning, slow_reqs in *. destruct (ready d =? DEVICE_MAC_LEARNING).
  - destruct (env_burst e).*1 as [|p pkts] eqn:Eb; [done|].
    destruct (slow_ok_push (req_msg vid) [] [] (w_msgs w) (w_msgs w) (SLOW_MAC_LEARNING, p)) as (msg & mp & E1 & E2 & Hok).
    + apply slow_ok_nil.
    + cbn in Hsup. cbn. lia.
    + unfold MAX_PKT_BURST. cbn. lia.
    + exists [vhost_msg SLOW_MAC_LEARNING vid p msg], mp. rewrite E1. cbn. split; [done|]. exact Hok.
  - exists [], (w_msgs w). split; [done|]. apply slow_ok_nil.
Qed.

(** The statistics after the poll and both flushes. *)
Lemma wnds_final e (w : vrx_world) vid st (s_st eo_st : vdev_rx_stats) stats' :
  (env_burst e).*1 ≠ [] → w_stats w !! vid = Some st →
  pkt_wnd s_st = pkt_wnd st → empty_wnd s_st = empty_wnd st → wnd_idx s_st = wnd_idx st →
  byte_wnd s_st = foldl (λ l n, bump n (wnd_idx st) l) (byte_wnd st)
    ((pkt_len ∘ snd) <$> take (length (env_burst e).*1) (env_burst e)) →
  wnds eo_st = wnds s_st → wnds <$> stats' = wnds <$> <[vid := eo_st]> (w_stats w) →
  wnds <$> stats' = <[vid := (bump (burst_bytes e) (wnd_idx st) (byte_wnd st), pkt_wnd st, empty_wnd st, wnd_idx st)]>
    (wnds <$> w_stats w).
Proof.
  intros Hne Hs Hp He Hi Hb Heo ->. rewrite list_fmap_insert. f_equal. rewrite Heo. unfold wnds.
  rewrite Hp, He, Hi, Hb, length_fmap, take_ge by done. rewrite foldl_bump; [done|].
  intros Hn. apply fmap_nil_inv in Hn. by rewrite Hn in Hne.
Qed.

Lemma eth_pkts_clean e (l : list (list nat)) :
  queues_ok → length l = MAX_ETH_TX_QUEUES →
  (∀ q, (q < MAX_ETH_TX_QUEUES)%nat → l !! q = Some (if decide (q ∈ seq 0 (Z.to_nat (eth_tx_queues config)))
     then [] else with_verdict (vrx_verdict e) (ToEth q) (env_burst e).*1)) →
  l = replicate MAX_ETH_TX_QUEUES [].
Proof.
  intros Hq Hl Hlk. apply list_eq. intros q. destruct (decide (q < MAX_ETH_TX_QUEUES)%nat) as [Hlt|Hge].
  - rewrite lookup_replicate_2, Hlk by done. case_decide as Hin; [done|].
    rewrite with_verdict_eth_nil; [done|done|]. rewrite elem_of_seq in Hin. lia.
  - rewrite !lookup_ge_None_2; [done|rewrite length_replicate; lia|lia].
Qed.

(** The counters after both flushes, whether or not a batch was empty. *)
Lemma vm_rr_final V burst rings s0 b s v r rr :
  vm_inv V burst rings s0 (dst_vids b) s → batch_ok V burst b → length rings = MAX_VHOSTS →
  Forall (in_u 32) (vo_rr s0) → rings !! v = Some r → vo_rr s0 !! v = Some rr →
  vo_rr s !! v = Some (ecn_rr_after (ring_congestion r) rr (length (with_verdict V (ToVm v) burst))).
Proof.
  intros ((_ & _ & Hrr) & _) (_ & _ & _ & Hd & _) Hl Hrange Hr Hrr0. rewrite (Hrr v r rr Hr Hrr0). f_equal.
  case_decide as Hin; [done|]. assert (v < MAX_VHOSTS)%nat by (rewrite <- Hl; by eapply lookup_lt_Some).
  destruct (with_verdict V (ToVm v) burst) eqn:E.
  - symmetry. apply ecn_rr_after_0. by eapply Forall_lookup_1.
  - exfalso. apply Hin, Hd. by rewrite E.
Qed.

Lemma eth_final e s0 s q r :
  queues_ok → eth_inv (vrx_verdict e) (env_burst e).*1 s0 (seq 0 (Z.to_nat (eth_tx_queues config))) s →
  Forall (in_u 32) (eo_rr s0) → eo_rings s0 !! q = Some r →
  (∃ r', eo_rings s !! q = Some r' ∧ ring_capacity r' = ring_capacity r ∧
     ring_items r' = ring_items r ++
       take (rte_ring_free_count r) (with_verdict (vrx_verdict e) (ToEth q) (env_burst e).*1)) ∧
  (∀ rr, eo_rr s0 !! q = Some rr → eo_rr s !! q = Some (ecn_rr_after (ring_congestion r) rr
     (length (with_verdict (vrx_verdict e) (ToEth q) (env_burst e).*1)))).
Proof.
  intros Hq (_ & (_ & Hr) & (_ & _ & Hrr) & _) Hrange Hr0. destruct (Hr q r Hr0) as (r' & Hr' & Hc & Hi).
  pose proof (with_verdict_eth_nil e q Hq) as Hnil.
  destruct (decide (q ∈ seq 0 (Z.to_nat (eth_tx_queues config)))) as [Hin|Hin].
  - split; [by exists r'|]. intros rr Hrr0. by rewrite (Hrr q r rr), decide_True.
  - rewrite elem_of_seq in Hin. rewrite Hnil by lia. split.
    + exists r'. split_and!; [done|done|]. by rewrite take_nil, app_nil_r, Hi.
    + intros rr Hrr0. rewrite (Hrr q r rr), decide_False by (rewrite ?elem_of_seq; done || lia). cbn [length].
      f_equal. symmetry. apply ecn_rr_after_0. by eapply Forall_lookup_1.
Qed.

(** A packet of the burst is in the pool. *)
Lemma vrx_received_live e w p : NoDup (env_burst e).*1 → p ∈ (env_burst e).*1 → is_Some (vrx_received e w !! p).
Proof.
  intros Hnd ([q m] & -> & Hin)%list_elem_of_fmap. unfold vrx_received.
  rewrite lookup_union, (proj1 (elem_of_list_to_map _ _ _ Hnd) Hin), union_Some_l. by eexists.
Qed.

(** The loop over a burst, with the message of a learning device. *)
Lemma vrx_loop e vid d st w :
  vrx_env_ok e → queues_ok → batch_clean (w_batch w) → w_eth w = replicate MAX_ETH_TX_QUEUES [] → st_wf st →
  (env_burst e).*1 ≠ [] →
  (length (slow_reqs (learning d) e (env_burst e).*1) ≤ length (pool_objs (w_msgs w)))%nat →
  (length (slow_reqs (learning d) e (env_burst e).*1) ≤ MAX_PKT_BURST)%nat →
  ∃ slow mp s, learn_msg (ready d) vid (env_burst e).*1 (w_msgs w) = Ok (slow, mp) ∧
    foldM (vhost_rx_packet e (vrx_received e w) vid) (env_burst e).*1
      (mk_vrx_local (start_burst (w_batch w)) (w_eth w) slow mp st) = Ok s ∧
    vrx_inv e vid (learning d) st w (env_burst e).*1 s.
Proof.
  intros He Hq Hcb Hce Hst Hne Hsup Hmax.
  destruct (learn_msg_ok e vid d w Hne Hsup) as (slow & mp & Hlearn & Hslow). exists slow, mp.
  destruct (foldM_ind (vhost_rx_packet e (vrx_received e w) vid) (vrx_inv e vid (learning d) st w) (env_burst e).*1
    (mk_vrx_local (start_burst (w_batch w)) (w_eth w) slow mp st)) as (s & Hs & Hinv).
  { split_and!; cbn [v_batch v_eth v_slow v_msgs v_st]; try done.
    - by apply start_burst_ok.
    - by rewrite Hce, length_replicate.
    - intros q Hlt. by rewrite Hce, lookup_replicate_2. }
  { intros pre p post s1 Heq Hinv. pose proof (slow_reqs_mono (learning d) e (pre ++ [p]) post) as Hmono.
    rewrite <- app_assoc in Hmono. cbn [app] in Hmono. rewrite <- Heq in Hmono.
    eapply vhost_rx_packet_spec; [done|done|done|lia|lia|done]. }
  by exists s.
Qed.

Lemma vhost_rx_burst_spec e vid d st w :
  vrx_env_ok e → queues_ok → vrx_wf w → w_stats w !! vid = Some st → (env_burst e).*1 ≠ [] →
  (length (slow_reqs (learning d) e (env_burst e).*1) ≤ length (pool_objs (w_msgs w)))%nat →
  (length (slow_reqs (learning d) e (env_burst e).*1) ≤ MAX_PKT_BURST)%nat →
  ∃ w', vhost_rx_burst e vid d st w = Ok w' ∧ vrx_wf w' ∧ vrx_visited e vid (learning d) st w w' ∧
    (w_ap w', w_poll_states w', w_iteration w') = (w_ap w, w_poll_states w, w_iteration w).
Proof.
  intros He Hq (Hlv & Hle & [Hls Hst] & Hlap & [Hlrv Hrv] & [Hlre Hre] & Hcb & Hce) Hs Hne Hsup Hmax.
  pose proof He as (_ & Hnd & _). pose proof Hq as [Hq1 Hq2].
  assert (∀ p, p ∈ (env_burst e).*1 → is_Some (vrx_received e w !! p)) as Hlive by (intros p; by apply vrx_received_live).
  unfold vhost_rx_burst. fold (vrx_received e w).
  destruct (vrx_loop e vid d st w) as (slow & mp & s & -> & Hloop & Hb & _ & Hl1 & Heth & Hslow' & Hst' & Hpk & Hem & Hwi & Hby);
    try done; [by eapply Forall_lookup_1|].
  cbn [mbind res_bind]. rewrite Hloop.
  cbn [mbind res_bind].
  destruct (eth_flush_ok_queues (vrx_verdict e) (env_burst e).*1
    (mk_eth_out (v_eth s) (w_eth_rings w) (w_rr_eth w) (vrx_received e w) (v_st s)))
    as (eo & -> & Heo); try done.
  cbn [mbind res_bind]. pose proof Heo as ((Hel & Hep) & (Herl & _) & (Herrl & Herrf & _) & Hepool & Hest & Hestwf).
  cbn [eo_pkts eo_rings eo_rr eo_pool eo_st] in Hep, Herl, Herrl, Hepool, Hest, Hestwf.
  destruct (vm_flush_ok (vrx_verdict e) (env_burst e).*1 (v_batch s) (w_vm_rings w)
    (mk_vm_out (w_rr_vm w) (eo_pool eo) (<[vid := eo_st eo]> (w_stats w))))
    as (pkts' & rings' & vo & -> & Hclean & Henq & Hvo); try done.
  { intros v p Hp. cbn. rewrite Hepool. unfold eth_fate. apply with_verdict_mem in Hp as [-> Hp]. by apply Hlive. }
  { cbn. by rewrite length_insert. }
  cbn [mbind res_bind]. pose proof Hvo as ((Hvrl & Hvrf & _) & Hvpool & Hvst & Hvstwf).
  cbn [vo_rr vo_pool vo_stats] in Hvrl, Hvpool, Hvst, Hvstwf.
  destruct (flush_slow_eq (v_slow s) (w_slow w)) as (sr & -> & Hsr & _). eexists. split; [done|].
  split; [|split; [|done]].
  - assert (length (vo_stats vo) = MAX_VHOSTS) as Hlvs
      by (rewrite <- (length_fmap wnds), Hvst, length_fmap, length_insert; done).
    split_and!; try done; cbn [w_vm_rings w_eth_rings w_stats w_ap w_rr_vm w_rr_eth w_batch w_eth].
    + destruct Henq. congruence.
    + lia.
    + apply Hvstwf, Forall_insert; [done|]. by apply Hestwf.
    + congruence.
    + congruence.
    + by apply (eth_pkts_clean e).
  - split_and!; try done; cbn [w_vm_rings w_eth_rings w_stats w_ap w_rr_vm w_rr_eth w_pool w_msgs w_slow].
    + intros q r Hr. exact (proj1 (eth_final e _ eo q r Hq Heo Hre Hr)).
    + intros p. rewrite Hvpool, Hepool. by apply vrx_fate_eq.
    + by exists (v_slow s).
    + by apply (wnds_final e w vid st (v_st s) (eo_st eo)).
    + intros v r rr Hr Hrr. by apply (vm_rr_final _ _ (w_vm_rings w) _ (v_batch s) vo v r rr Hvo).
    + intros q r rr Hr Hrr. by apply (proj2 (eth_final e _ eo q r Hq Heo Hre Hr)).
Qed.

Lemma vhost_poll_ok n st :
  st_wf st → ∃ st', vhost_poll n st = Ok st' ∧ st_wf st' ∧ wnds st' =
    (byte_wnd st, (if decide (n = 0%nat) then pkt_wnd st else bump (Z.of_nat n) (wnd_idx st) (pkt_wnd st)),
     (if decide (n = 0%nat) then bump 1 (wnd_idx st) (empty_wnd st) else empty_wnd st), wnd_idx st).
Proof.
  intros (Hi & Hw1 & Hw2 & Hw3).
  assert (∀ k l, length l = WINDOW_SIZE → wnd_add k (wnd_idx st) l = Ok (bump k (wnd_idx st) l)) as Hadd.
  { intros k l Hl. unfold wnd_add, bump. destruct (lookup_lt_is_Some_2 l (wnd_idx st)) as [x Hx]; [lia|].
    rewrite (arr_get_Some _ _ _ Hx). cbn [mbind res_bind]. f_equal. apply list_eq. intros j.
    rewrite list_lookup_alter. destruct (decide (wnd_idx st = j)) as [<-|Hne].
    - rewrite list_lookup_insert_eq by lia. by rewrite Hx.
    - by rewrite list_lookup_insert_ne. }
  unfold vhost_poll. case_decide; rewrite Hadd by done; eexists; (split; [done|]);
    unfold st_wf, wnds, bump; cbn; by rewrite ?length_alter.
Qed.

Lemma vhost_rx_visit_spec e vid w vdevs ptr d :
  queues_ok → vrx_wf w → vrx_env_ok (vr_rx e) → env_vdevs (vr_rx e) = Some vdevs →
  vdevs !! vid = Some (Some ptr) → env_devs (vr_rx e) !! ptr = Some d → (vid < MAX_VHOSTS)%nat →
  (length (slow_reqs (learning d) (vr_rx e) (env_burst (vr_rx e)).*1) ≤ length (pool_objs (w_msgs w)))%nat →
  (length (slow_reqs (learning d) (vr_rx e) (env_burst (vr_rx e)).*1) ≤ MAX_PKT_BURST)%nat →
  ∃ ap st w', w_ap w !! vid = Some ap ∧ w_stats w !! vid = Some st ∧
    vhost_rx_visit e vid w = Ok w' ∧ vrx_wf w' ∧
    match poll_gate ap (w_iteration w) (vr_now e) with
    | None => w' = w
    | Some ap =>
        let num := length (env_burst (vr_rx e)) in
        ∃ st', vhost_poll num st = Ok st' ∧
        let w1 := polled vid st' (update_rx_state ap (Z.of_nat num) (w_poll_states w) (vr_tsc e)) w in
        (w_ap w', w_poll_states w', w_iteration w') = (w_ap w1, w_poll_states w1, w_iteration w1) ∧
        if decide (num = 0%nat) then w' = w1 else vrx_visited (vr_rx e) vid (learning d) st' w1 w'
    end.
Proof.
  intros Hq Hwf He Hvl Hslot Hd Hv Hsup Hmax.
  pose proof Hwf as (Hlv & Hle & [Hls Hst] & Hlap & Hrv & Hre & Hcb & Hce).
  destruct (lookup_lt_is_Some_2 (w_ap w) vid) as [ap Hap]; [lia|].
  destruct (lookup_lt_is_Some_2 (w_stats w) vid) as [st Hs]; [lia|].
  exists ap, st. unfold vhost_rx_visit. rewrite Hvl. cbn [mbind res_bind].
  rewrite decide_False by lia. rewrite (arr_get_Some _ _ _ Hslot). cbn [mbind res_bind].
  rewrite (arr_get_Some _ _ _ Hap). cbn [mbind res_bind].
  destruct (poll_gate ap (w_iteration w) (vr_now e)) as [ap'|]; [|by exists w].
  rewrite (arr_get_Some _ _ _ Hs). cbn [mbind res_bind].
  destruct (vhost_poll_ok (length (env_burst (vr_rx e))) st) as (st' & Ep & Hst' & _); [by eapply Forall_lookup_1|].
  rewrite Ep. cbn [mbind res_bind]. set (w1 := polled vid st' _ w).
  assert (vrx_wf w1) as Hwf1.
  { unfold vrx_wf, w1, polled. cbn. rewrite !length_insert. split_and!; try done; try apply Hrv; try apply Hre.
    by apply Forall_insert. }
  destruct (decide (length (env_burst (vr_rx e)) = 0%nat)) as [Hz|Hz].
  { exists w1. split_and!; try done. by exists st'. }
  rewrite (heap_get_Some _ _ _ Hd). cbn [mbind res_bind].
  destruct (vhost_rx_burst_spec (vr_rx e) vid d st' w1) as (w' & -> & Hwf' & Hvis & Hsame); try done.
  - unfold w1, polled. cbn. apply list_lookup_insert_eq. lia.
  - intros Hn. apply Hz. by rewrite <- (length_fmap fst), Hn.
  - exists w'. split_and!; try done. by exists st'.
Qed.

(** *** A whole plan *)

(** Each ring keeps what it had and gains a subsequence of what is meant for it. *)
Definition rings_grow (rings rings' : list (ring nat)) (wants : nat → list nat) : Prop :=
  ∀ v r, rings !! v = Some r → ∃ r' added, rings' !! v = Some r' ∧ ring_capacity r' = ring_capacity r ∧
    ring_items r' = ring_items r ++ added ∧ added `sublist_of` wants v.

Lemma rings_grow_refl rings wants : rings_grow rings rings wants.
Proof. intros v r Hr. exists r, []. rewrite app_nil_r. split_and!; try done. apply sublist_nil_l. Qed.

Lemma rings_grow_trans r1 r2 r3 f g :
  rings_grow r1 r2 f → rings_grow r2 r3 g → rings_grow r1 r3 (λ v, f v ++ g v).
Proof.
  intros Hf Hg v r Hr. destruct (Hf v r Hr) as (r' & a & Hr' & Hc & Hi & Hs).
  destruct (Hg v r' Hr') as (r'' & b & Hr'' & Hc' & Hi' & Hs'). exists r'', (a ++ b).
  split_and!; [done|congruence| |by apply sublist_app]. by rewrite Hi', Hi, app_assoc.
Qed.

Lemma take_sublist {A} n (l : list A) : take n l `sublist_of` l.
Proof. rewrite <- (take_drop n l) at 2. by apply sublist_inserts_r. Qed.

(** The packets that the plan entries [dn] want to give to a destination. *)
Definition meant (env : nat → vrx_env) (dn : list nat) (o : nat → verdict) (v : nat) : list nat :=
  concat ((λ i, with_verdict (vrx_verdict (vr_rx (env i))) (o v) (env_burst (vr_rx (env i))).*1) <$> dn).

(** An upper bound on the messages an entry takes. *)
Definition slow_need (e : rx_env) : nat := S (length (with_verdict (vrx_verdict e) ToSlow (env_burst e).*1)).

Definition vrx_progress (env : nat → vrx_env) (w : vrx_world) (dn : list nat) (w' : vrx_world) : Prop :=
  vrx_wf w' ∧
  (length (pool_objs (w_msgs w)) ≤ sum_list_with (λ i, slow_need (vr_rx (env i))) dn + length (pool_objs (w_msgs w')))%nat ∧
  rings_grow (w_vm_rings w) (w_vm_rings w') (meant env dn ToVm) ∧
  rings_grow (w_eth_rings w) (w_eth_rings w') (meant env dn ToEth).

(** What the environment of the entry for [vid] must satisfy. *)
Definition entry_ok (e : vrx_env) (vid : nat) : Prop :=
  vrx_env_ok (vr_rx e) ∧ ∃ vdevs, env_vdevs (vr_rx e) = Some vdevs ∧ length vdevs = MAX_VHOSTS ∧
    ∀ ptr, vdevs !! vid = Some (Some ptr) → ∃ d, env_devs (vr_rx e) !! ptr = Some d ∧
      (length (slow_reqs (learning d) (vr_rx e) (env_burst (vr_rx e)).*1) ≤ MAX_PKT_BURST)%nat.

Lemma slow_reqs_need b e : (length (slow_reqs b e (env_burst e).*1) ≤ slow_need e)%nat.
Proof.
  unfold slow_reqs, slow_need. rewrite length_app, length_fmap.
  destruct b; [rewrite length_fmap, length_take|cbn]; lia.
Qed.

(** One entry of the plan: the visit in terms of progress. *)
Lemma vhost_rx_visit_grows e vid w :
  queues_ok → vrx_wf w → entry_ok e vid → (slow_need (vr_rx e) ≤ length (pool_objs (w_msgs w)))%nat →
  ∃ w', vhost_rx_visit e vid w = Ok w' ∧ vrx_wf w' ∧ w_iteration w' = w_iteration w ∧
    (length (pool_objs (w_msgs w)) ≤ slow_need (vr_rx e) + length (pool_objs (w_msgs w')))%nat ∧
    rings_grow (w_vm_rings w) (w_vm_rings w') (λ v, with_verdict (vrx_verdict (vr_rx e)) (ToVm v) (env_burst (vr_rx e)).*1) ∧
    rings_grow (w_eth_rings w) (w_eth_rings w') (λ q, with_verdict (vrx_verdict (vr_rx e)) (ToEth q) (env_burst (vr_rx e)).*1).
Proof.
  intros Hq Hwf (He & vdevs & Hvl & Hlen & Hdev) Hsup.
  assert (∀ w', w_vm_rings w' = w_vm_rings w → w_eth_rings w' = w_eth_rings w → w_msgs w' = w_msgs w →
    (length (pool_objs (w_msgs w)) ≤ slow_need (vr_rx e) + length (pool_objs (w_msgs w')))%nat ∧
    rings_grow (w_vm_rings w) (w_vm_rings w') (λ v, with_verdict (vrx_verdict (vr_rx e)) (ToVm v) (env_burst (vr_rx e)).*1) ∧
    rings_grow (w_eth_rings w) (w_eth_rings w') (λ q, with_verdict (vrx_verdict (vr_rx e)) (ToEth q) (env_burst (vr_rx e)).*1))
    as Hsame by (intros w' -> -> ->; split_and!; [lia|apply rings_grow_refl|apply rings_grow_refl]).
  destruct (decide (vid < MAX_VHOSTS)%nat) as [Hv|Hv].
  2:{ exists w. unfold vhost_rx_visit. rewrite Hvl. cbn [mbind res_bind]. rewrite decide_True by lia.
      split_and!; try done; by apply Hsame. }
  destruct (lookup_lt_is_Some_2 vdevs vid) as [[ptr|] Hslot]; [lia| |].
  2:{ exists w. unfold vhost_rx_visit. rewrite Hvl. cbn [mbind res_bind]. rewrite decide_False by lia.
      rewrite (arr_get_Some _ _ _ Hslot). split_and!; try done; by apply Hsame. }
  destruct (Hdev ptr Hslot) as (d & Hd & Hmax). pose proof (slow_reqs_need (learning d) (vr_rx e)) as Hneed.
  destruct (vhost_rx_visit_spec e vid w vdevs ptr d) as (ap & st & w' & _ & _ & Hvis & Hwf' & Hm); try done; [lia|].
  exists w'. split; [done|]. split; [done|]. destruct (poll_gate _ _ _) as [ap'|].
  2:{ subst w'. split; [done|]. by apply Hsame. }
  destruct Hm as (st' & _ & Hit & Hm). injection Hit as _ _ Hit. split; [done|].
  destruct (decide _) as [_|_]; [subst w'; by apply Hsame|].
  destruct Hm as ((_ & Hvm) & (_ & Heth) & _ & (slow & (stale & Hls & _ & Hperm) & _) & _).
  cbn [polled w_msgs w_vm_rings w_eth_rings] in *. split_and!.
  - rewrite Hperm, length_app, Hls. lia.
  - intros v r Hr. destruct (Hvm v r Hr) as (r' & Hr' & Hc & Hi). eexists r', _. split_and!; [done|done|exact Hi|apply take_sublist].
  - intros q r Hr. destruct (Heth q r Hr) as (r' & Hr' & Hc & Hi). eexists r', _. split_and!; [done|done|exact Hi|apply take_sublist].
Qed.

Lemma meant_snoc env dn i o v :
  meant env (dn ++ [i]) o v =
  meant env dn o v ++ with_verdict (vrx_verdict (vr_rx (env i))) (o v) (env_burst (vr_rx (env i))).*1.
Proof. unfold meant. rewrite fmap_app, concat_app. cbn [fmap list_fmap concat]. by rewrite app_nil_r. Qed.

(** ** Properties *)

(** [C7] One visit of a VM.  It never faults, given messages for its slow packets and
    at most 64 of them.  A closed gate changes nothing.  Otherwise the statistics and
    the adaptive state are updated from the number polled, and for a nonempty burst:
    each VM ring and each NIC ring gains, in order, exactly the packets meant for it,
    up to its free space; every batch is ECN-marked according to the congestion of its
    own ring and the counter of that ring; NIC packets that do not fit are freed, all
    others stay allocated; the slow packets become messages, learning first; the byte
    window grows by the bytes of the burst; and the batches are empty again. *)
Theorem vhost_rx_visit_correct (e : vrx_env) (vid : nat) (w : vrx_world) (vdevs : list (option nat))
    (ptr : nat) (d : vhost_dev) :
  queues_ok → vrx_wf w → vrx_env_ok (vr_rx e) → env_vdevs (vr_rx e) = Some vdevs →
  vdevs !! vid = Some (Some ptr) → env_devs (vr_rx e) !! ptr = Some d → (vid < MAX_VHOSTS)%nat →
  (length (slow_reqs (learning d) (vr_rx e) (env_burst (vr_rx e)).*1) ≤ length (pool_objs (w_msgs w)))%nat →
  (length (slow_reqs (learning d) (vr_rx e) (env_burst (vr_rx e)).*1) ≤ MAX_PKT_BURST)%nat →
  ∃ ap st w', w_ap w !! vid = Some ap ∧ w_stats w !! vid = Some st ∧
    vhost_rx_visit e vid w = Ok w' ∧ vrx_wf w' ∧
    match poll_gate ap (w_iteration w) (vr_now e) with
    | None => w' = w
    | Some ap =>
        let num := length (env_burst (vr_rx e)) in
        ∃ st', vhost_poll num st = Ok st' ∧
        let w1 := polled vid st' (update_rx_state ap (Z.of_nat num) (w_poll_states w) (vr_tsc e)) w in
        (w_ap w', w_poll_states w', w_iteration w') = (w_ap w1, w_poll_states w1, w_iteration w1) ∧
        if decide (num = 0%nat) then w' = w1 else vrx_visited (vr_rx e) vid (learning d) st' w1 w'
    end.
Proof. apply vhost_rx_visit_spec. Qed.

(** A whole iteration over any plan, stale or repeated entries included: no fault
    while the message pool covers the slow packets; the iteration is counted; and
    every ring keeps its packets and gains, entry by entry and in order, only packets
    meant for it. *)
Theorem vhost_rx_iter_correct (env : nat → vrx_env) (plan : vhost_plan) (w : vrx_world) :
  let entries := seq 0 (Z.to_nat (plan_num plan)) in
  queues_ok → vrx_wf w → plan_shape plan →
  (∀ i vid, i ∈ entries → plan_vids plan !! i = Some vid → entry_ok (env i) vid) →
  (sum_list_with (λ i, slow_need (vr_rx (env i))) entries ≤ length (pool_objs (w_msgs w)))%nat →
  ∃ w', vhost_rx_iter env true plan w = Ok w' ∧ vrx_progress env w entries w' ∧
    w_iteration w' = u64 (w_iteration w + 1).
Proof.
  intros entries Hq Hwf [Hn Hl] Henv Hsup. unfold vhost_rx_iter. cbn [negb]. set (w0 := mk_vrx_world _ _ _ _ _ _ _ _ _ _ _ _ _).
  assert (vrx_wf w0) as Hwf0 by exact Hwf.
  apply (foldM_ind _ (λ dn w', vrx_progress env w dn w' ∧ w_iteration w' = u64 (w_iteration w + 1))).
  { split; [|done]. split_and!; [done|done|apply rings_grow_refl|apply rings_grow_refl]. }
  intros pre i post w1 Heq ((Hwf1 & Hm & Hg1 & Hg2) & Hit).
  assert (i ∈ entries) as Hi by (rewrite Heq; apply elem_of_app; right; by left).
  pose proof Hi as Hi'. apply elem_of_seq in Hi'.
  destruct (lookup_lt_is_Some_2 (plan_vids plan) i) as [vid Hvid]; [lia|].
  rewrite (arr_get_Some _ _ _ Hvid). cbn [mbind res_bind].
  rewrite Heq, sum_list_with_app in Hsup. cbn [sum_list_with] in Hsup.
  destruct (vhost_rx_visit_grows (env i) vid w1 Hq Hwf1 (Henv i vid Hi Hvid)) as (w' & -> & Hwf' & Hit' & Hm' & Hg1' & Hg2');
    [lia|].
  exists w'. split; [done|]. split; [|congruence]. split_and!; [done| | |].
  - rewrite sum_list_with_app. cbn [sum_list_with]. lia.
  - pose proof (rings_grow_trans _ _ _ _ _ Hg1 Hg1') as Hg. intros v r Hr. rewrite meant_snoc. by apply Hg.
  - pose proof (rings_grow_trans _ _ _ _ _ Hg2 Hg2') as Hg. intros v r Hr. rewrite meant_snoc. by apply Hg.
Qed.

(** *** What the bytes of a frame say *)

(** Bytes 12 and 13 are the EtherType, 20 and 21 the operation of an ARP message, 38 to
    41 its target address and 30 to 33 the destination of an IPv4 packet. *)
Definition gateway_request (b : list Z) : Prop :=
  net 2 12 b = 0x0806 ∧ net 2 20 b = 1 ∧ net 4 38 b = cfg_ip config.
Definition dst_ip (b : list Z) : Z :=
  if decide (net 2 12 b = 0x0800) then net 4 30 b else if decide (net 2 12 b = 0x0806) then net 4 38 b else 0.
Definition same_subnet (b : list Z) : Prop := dst_ip b / 256 = cfg_ip config / 256.

(** The ports of TCP and UDP, after [4 * ihl] bytes of IPv4 header. *)
Definition ports_off (b : list Z) : nat := 14 + Z.to_nat (4 * (net 1 14 b mod 16)).
Definition has_ports (b : list Z) : Prop := net 1 23 b = 6 ∨ net 1 23 b = 17.
#[local] Instance has_ports_dec b : Decision (has_ports b).
Proof. unfold has_ports. apply _. Defined.

(** The words that are hashed: addresses and ports as they lie in memory, protocol. *)
Definition hashed (b : list Z) : list Z :=
  if decide (net 2 12 b = 0x0800) then
    [load 4 26 b; load 4 30 b;
     if decide (has_ports b) then load 2 (ports_off b) b * 2 ^ 16 + load 2 (ports_off b + 2) b else 0;
     net 1 23 b * 2 ^ 24]
  else if decide (net 2 12 b = 0x0806) then [load 4 28 b; load 4 38 b; 0; 0]
  else [0; 0; 0; 0].
Definition nic_queue (b : list Z) : nat := Z.to_nat (rte_softrss_be (hashed b) default_rss_key mod eth_tx_queues config).

(** There is room for one more packet in the arrays of the burst, and a message. *)
Definition vrx_room (s : vrx_local) : Prop :=
  (length (v_eth s) = MAX_ETH_TX_QUEUES ∧ Forall (λ l, length l < MAX_PKT_BURST)%nat (v_eth s)) ∧
  (length (vm_pkts (v_batch s)) = MAX_VHOSTS ∧ Forall (λ l, length l < MAX_PKT_BURST)%nat (vm_pkts (v_batch s))) ∧
  (length (v_slow s) < MAX_PKT_BURST)%nat ∧ pool_objs (v_msgs s) ≠ [] ∧ st_wf (v_st s).

Lemma is_ipv4_net b : wf_buf b → is_ipv4 b = bool_decide (net 2 12 b = 0x0800).
Proof. intros [Hb Hl]. etransitivity; [apply (be_eq 2 12); [done|lia|done]|]. apply eq_true_iff_eq. by rewrite bool_decide_eq_true, Z.eqb_eq. Qed.

Lemma is_arp_net b : wf_buf b → is_arp b = bool_decide (net 2 12 b = 0x0806).
Proof. intros [Hb Hl]. etransitivity; [apply (be_eq 2 12); [done|lia|done]|]. apply eq_true_iff_eq. by rewrite bool_decide_eq_true, Z.eqb_eq. Qed.

Lemma gateway_request_net b : wf_buf b → arp_req_for_us config b = true ↔ gateway_request b.
Proof.
  intros Hwf. unfold arp_req_for_us, gateway_request. rewrite is_arp_net by done. destruct Hwf as [Hb Hl].
  unfold arp_opcode, rte_cpu_to_be_16, bswap16. rewrite be_eq by (done || lia).
  unfold arp_tip. rewrite be_load_32 by (done || lia). fold (net 4 38 b).
  rewrite !andb_true_iff, bool_decide_eq_true, !Z.eqb_eq. unfold RTE_ARP_OP_REQUEST. tauto.
Qed.

Lemma swapped_twice n off b :
  Forall is_byte b → (off + n ≤ length b)%nat → bswap n (bswap n (load n off b)) = load n off b.
Proof. intros Hb Hl. rewrite bswap_bswap. apply Z.mod_small. by apply load_range. Qed.

Lemma lor_words x y : 0 ≤ x < 2 ^ 16 → 0 ≤ y < 2 ^ 16 → u32 (Z.lor (Z.shiftl x 16) y) = x * 2 ^ 16 + y.
Proof.
  intros Hx Hy. assert (Z.land (Z.shiftl x 16) y = 0) as Hz.
  { apply Z.bits_inj'. intros i Hi. rewrite Z.land_spec, Z.bits_0, Z.shiftl_spec by done.
    destruct (Z_lt_le_dec i 16); [by rewrite Z.testbit_neg_r by lia|].
    rewrite (proj1 (Z.bounded_iff_bits_nonneg 16 y ltac:(lia) (proj1 Hy)) (proj2 Hy) i) by done. apply andb_false_r. }
  rewrite <- Z.lxor_lor, <- Z.add_nocarry_lxor, Z.shiftl_mul_pow2 by done. apply wrap_small. unfold in_u. lia.
Qed.

Lemma ports_off_eq b : wf_buf b → l4_off b = ports_off b.
Proof.
  intros [Hb Hl]. unfold l4_off, ports_off, ip_ihl. rewrite net_1 by lia. change 0x0f with (Z.ones 4).
  rewrite Z.land_ones by lia. by rewrite Z.mul_comm.
Qed.

Lemma ipv4_flow_words b :
  wf_buf b → is_ipv4 b = true → flow_words (dst_is_local_subnet b).2 = hashed b ∧ f_dst_ip (dst_is_local_subnet b).2 = dst_ip b.
Proof.
  intros Hwf H4. pose proof (ports_off_eq b Hwf) as Ho. pose proof (l4_off_bound b) as Hob. rewrite Ho in Hob.
  pose proof Hwf as [Hb Hl]. unfold dst_is_local_subnet, hashed, dst_ip. rewrite H4. cbn [snd].
  rewrite is_ipv4_net in H4 by done. apply bool_decide_eq_true in H4. rewrite !(decide_True (P := net 2 12 b = 0x0800)) by done.
  assert (rte_cpu_to_be_32 (ip_proto b) = net 1 23 b * 2 ^ 24) as Hp.
  { unfold ip_proto. pose proof (load_range 1 23 b Hb ltac:(lia)) as Hr. rewrite net_1 by lia. change (256 ^ Z.of_nat 1) with 256 in Hr.
    unfold rte_cpu_to_be_32, bswap32, bswap. cbn [le_bytes rev app of_le_bytes]. Z.to_euclidean_division_equations. lia. }
  assert (∀ off, (off + 2 ≤ length b)%nat → rte_cpu_to_be_16 (rte_be_to_cpu_16 (load 2 off b)) = load 2 off b) as H16
    by (intros off Ho'; by apply swapped_twice).
  assert (∀ off, (off + 4 ≤ length b)%nat → rte_cpu_to_be_32 (rte_be_to_cpu_32 (load 4 off b)) = load 4 off b) as H32
    by (intros off Ho'; by apply swapped_twice).
  assert ((ip_proto b =? IPPROTO_TCP) || (ip_proto b =? IPPROTO_UDP) = bool_decide (has_ports b)) as Hhas.
  { apply eq_true_iff_eq. rewrite orb_true_iff, bool_decide_eq_true, !Z.eqb_eq. unfold has_ports. rewrite net_1 by lia. done. }
  assert (net 4 30 b = rte_be_to_cpu_32 (ip_dst_addr b)) as -> by (symmetry; apply be_load_32; [done|lia]).
  rewrite Hhas. case_bool_decide as Hc; (split; [|done]).
  - rewrite decide_True by done. unfold flow_words, ip_src_addr, ip_dst_addr, l4_src_port, l4_dst_port. cbn [f_src_ip f_dst_ip f_src_port f_dst_port f_proto].
    rewrite Hp, !H32, Ho, !H16 by lia.
    rewrite lor_words by (apply (load_range 2); [done|lia]). done.
  - rewrite decide_False by done. unfold flow_words, ip_src_addr, ip_dst_addr. cbn [f_src_ip f_dst_ip f_src_port f_dst_port f_proto].
    by rewrite Hp, !H32 by lia.
Qed.

Lemma local_subnet_net b :
  wf_buf b → in_u 32 (cfg_ip config) →
  ∃ f, dst_is_local_subnet b = (dst_ip b / 256 =? cfg_ip config / 256, f) ∧ f_dst_ip f = dst_ip b ∧ flow_words f = hashed b.
Proof.
  intros Hwf Hc. exists (dst_is_local_subnet b).2.
  assert (flow_words (dst_is_local_subnet b).2 = hashed b ∧ f_dst_ip (dst_is_local_subnet b).2 = dst_ip b) as [Hw Hd].
  { destruct (is_ipv4 b) eqn:E4; [by apply ipv4_flow_words|]. pose proof Hwf as [Hb Hl].
    unfold dst_is_local_subnet, hashed, dst_ip. rewrite E4. cbn [snd].
    rewrite is_ipv4_net in E4 by done. apply bool_decide_eq_false in E4. rewrite !(decide_False (P := net 2 12 b = 0x0800)) by done.
    rewrite is_arp_net by done. case_bool_decide as Ha; [rewrite !decide_True by done|by rewrite !decide_False by done].
    split; [|apply be_load_32; [done|lia]]. unfold flow_words. cbn [f_src_ip f_dst_ip f_src_port f_dst_port f_proto].
    f_equal; [apply swapped_twice; [done|lia]|]. f_equal. apply swapped_twice; [done|lia]. }
  split_and!; [|done|done]. rewrite (surjective_pairing (dst_is_local_subnet b)) at 1. f_equal. rewrite <- Hd.
  apply subnet_eq; [|done]. rewrite Hd. pose proof Hwf as [Hb Hl]. unfold dst_ip, net.
  repeat case_decide; (done || (apply (be_net_range 4); [done|lia])).
Qed.

(** [b'] is an IPv4 frame of the flow of [b]: the same protocol, addresses and ports,
    wherever the ports are. *)
Definition same_flow (b b' : list Z) : Prop :=
  net 2 12 b = 0x0800 ∧ get_bytes 2 12 b' = get_bytes 2 12 b ∧ get_bytes 1 23 b' = get_bytes 1 23 b ∧
  get_bytes 8 26 b' = get_bytes 8 26 b ∧
  (has_ports b → get_bytes 4 (ports_off b') b' = get_bytes 4 (ports_off b) b).

Lemma same_flow_queue b b' : same_flow b b' → nic_queue b' = nic_queue b.
Proof.
  intros (H4 & Htype & Hproto & Haddr & Hports). unfold nic_queue. do 3 f_equal. unfold hashed.
  assert (∀ n off, get_bytes n off b' = get_bytes n off b → net n off b' = net n off b) as Hnet
    by (intros n off Heq; unfold net; by rewrite Heq).
  assert (∀ n k N o o', (k + n ≤ N)%nat → get_bytes N o' b' = get_bytes N o b → load n (o' + k) b' = load n (o + k) b) as Hload.
  { intros n k N o o' Hle Heq. unfold load. by rewrite !(get_bytes_part n k N), Heq by done. }
  assert (has_ports b' ↔ has_ports b) as Hhas by (unfold has_ports; by rewrite Hnet).
  rewrite (Hnet 2%nat), (Hnet 1%nat 23%nat) by done. rewrite !(decide_True (P := net 2 12 b = 0x0800)) by done.
  pose proof (Hload 4%nat 0%nat 8%nat 26%nat 26%nat ltac:(lia) Haddr) as Hs.
  pose proof (Hload 4%nat 4%nat 8%nat 26%nat 26%nat ltac:(lia) Haddr) as Hd. cbn [Nat.add] in Hs, Hd. rewrite Hs, Hd.
  do 3 f_equal. destruct (decide (has_ports b)) as [Hp|Hp]; [rewrite decide_True by tauto|by rewrite decide_False by tauto].
  pose proof (Hload 2%nat 0%nat 4%nat _ _ ltac:(lia) (Hports Hp)) as H0'. rewrite !Nat.add_0_r in H0'.
  by rewrite H0', (Hload 2%nat 2%nat 4%nat _ _ ltac:(lia) (Hports Hp)).
Qed.

Lemma batch_add_push v p b l :
  vm_pkts b !! v = Some l → (length l < MAX_PKT_BURST)%nat →
  ∃ b', batch_add v p b = Ok b' ∧ vm_pkts b' = <[v := l ++ [p]]> (vm_pkts b).
Proof.
  intros Hv Hl. unfold batch_add. rewrite (arr_get_Some _ _ _ Hv). cbn [mbind res_bind]. rewrite arr_push_lt by done.
  cbn [mbind res_bind]. case_match; [|case_decide]; by eexists.
Qed.

Lemma room_lookup (ls : list (list nat)) n i :
  length ls = n → Forall (λ l, length l < MAX_PKT_BURST)%nat ls → (i < n)%nat →
  ∃ l, ls !! i = Some l ∧ (length l < MAX_PKT_BURST)%nat.
Proof.
  intros Hl Hf Hi. destruct (lookup_lt_is_Some_2 ls i) as [l Hl']; [lia|]. exists l. split; [done|].
  by apply (Forall_lookup_1 _ _ _ _ Hf Hl').
Qed.

(** The verdict of a visit is the one the bytes call for. *)
Lemma vhost_verdict_net routing b :
  wf_buf b → in_u 32 (cfg_ip config) →
  (gateway_request b → vhost_verdict routing b = ToSlow) ∧
  (¬ gateway_request b → vhost_verdict routing b =
     if dst_ip b / 256 =? cfg_ip config / 256 then route_verdict routing (dst_ip b) else ToEth (nic_queue b)).
Proof.
  intros Hwf Hc. pose proof (gateway_request_net b Hwf) as Hgw. destruct (local_subnet_net b Hwf Hc) as (f & Hf & Hd & Hw).
  unfold vhost_verdict. rewrite Hf. destruct (arp_req_for_us config b); [by split; [|tauto]|].
  split; [by rewrite <- Hgw|]. intros _. destruct (_ =? _).
  - unfold route_verdict. by rewrite Hd, last_octet_mod.
  - unfold flow_queue. by rewrite Hw.
Qed.

(** [C26] How a frame from a VM is switched, from its bytes.  The loop body of vhost_rx.c
    counts the frame, and then: an ARP request whose target is the data plane's address
    becomes a message for the slow path; any other frame whose destination (bytes 30 to
    33 of IPv4, 38 to 41 of ARP, 0.0.0.0 for everything else) is in the data plane's /24
    is appended to the batch of the VM that the route table names for the last octet, or
    to none when it names none; and every other frame is appended to the batch of the NIC
    queue that the Toeplitz hash of its addresses, ports and protocol selects, which is
    one of the configured queues.  So all frames of a flow are given to one queue, whatever
    their other bytes and in whatever state of the burst. *)
Theorem vhost_rx_packet_correct (e : rx_env) (vid p : nat) (pool : gmap nat mbuf) (m : mbuf) (s : vrx_local) :
  let b := buf m in
  queues_ok → in_u 32 (cfg_ip config) → length (env_routing e) = ROUTE_SIZE →
  pool !! p = Some m → wf_buf b → vrx_room s →
  (∃ s', vhost_rx_packet e pool vid p s = Ok s' ∧
    byte_wnd (v_st s') = bump (pkt_len m) (wnd_idx (v_st s)) (byte_wnd (v_st s)) ∧
    (gateway_request b → (v_batch s', v_eth s') = (v_batch s, v_eth s) ∧
       ∃ stale, pool_objs (v_msgs s) ≡ₚ stale :: pool_objs (v_msgs s') ∧
         v_slow s' = v_slow s ++ [mk_slow_msg SLOW_ARP_REQ SLOW_SRC_VHOST (msg_eth_queue_id stale) vid p]) ∧
    (¬ gateway_request b → (v_slow s', v_msgs s') = (v_slow s, v_msgs s)) ∧
    (¬ gateway_request b → same_subnet b → v_eth s' = v_eth s ∧
       ∃ v, env_routing e !! Z.to_nat (dst_ip b mod 256) = Some v ∧
         if decide (0 ≤ v < Z.of_nat MAX_VHOSTS)
         then ∃ l, vm_pkts (v_batch s) !! Z.to_nat v = Some l ∧
                vm_pkts (v_batch s') = <[Z.to_nat v := l ++ [p]]> (vm_pkts (v_batch s))
         else v_batch s' = v_batch s) ∧
    (¬ gateway_request b → ¬ same_subnet b → v_batch s' = v_batch s ∧
       ∃ l, v_eth s !! nic_queue b = Some l ∧ v_eth s' = <[nic_queue b := l ++ [p]]> (v_eth s))) ∧
  (nic_queue b < Z.to_nat (eth_tx_queues config))%nat ∧ ∀ b', same_flow b b' → nic_queue b' = nic_queue b.
Proof.
  intros b Hq Hc Hrl Hm Hwf ((Hel & Hef) & (Hbl & Hbf) & Hsl & Hmp & Hst).
  assert (nic_queue b < Z.to_nat (eth_tx_queues config))%nat as Hnq.
  { destruct Hq as [Hq1 _]. unfold nic_queue. pose proof (Z.mod_pos_bound (rte_softrss_be (hashed b) default_rss_key) _ Hq1). lia. }
  split; [|split; [done|apply same_flow_queue]].
  destruct (add_bytes_ok (pkt_len m) (v_st s) Hst) as (st' & Ha & _ & Hby & _).
  pose proof (gateway_request_net b Hwf) as Hgw. destruct (local_subnet_net b Hwf Hc) as (f & Hf & Hd & Hw).
  unfold vhost_rx_packet. rewrite (heap_get_Some _ _ _ Hm). cbn [mbind res_bind]. rewrite Ha. cbn [mbind res_bind].
  fold b. destruct (arp_req_for_us config b).
  - assert (gateway_request b) as Hg by tauto. unfold get_slow_msg.
    destruct (rte_mempool_get (v_msgs s)) as [[msg mp]|] eqn:E; [|by apply pool_get_None in E].
    cbn [mbind res_bind]. rewrite arr_push_lt by done. cbn [mbind res_bind]. eexists. split; [done|].
    split; [done|]. split; [|split_and!; intros; by edestruct (λ x : ¬ gateway_request b, x Hg)].
    intros _. split; [done|]. exists msg. split; [by apply pool_get_Some|done].
  - assert (¬ gateway_request b) as Hg by (rewrite <- Hgw; done). rewrite Hf, Hd. destruct (Z.eqb_spec (dst_ip b / 256) (cfg_ip config / 256)) as [Hs|Hs].
    + destruct (lookup_lt_is_Some_2 (env_routing e) (last_octet (dst_ip b))) as [v Hv]; [rewrite Hrl; apply last_octet_lt|].
      unfold find_vid_by_ip. rewrite (arr_get_Some _ _ _ Hv). cbn [mbind res_bind]. rewrite last_octet_mod in Hv.
      destruct ((v <? 0) || (Z.of_nat MAX_VHOSTS <=? v)) eqn:Er.
      * eexists. split; [done|]. split; [done|]. split_and!; try done. intros _ _. split; [done|]. exists v.
        split; [done|]. by rewrite decide_False by (apply orb_true_iff in Er; lia).
      * apply orb_false_iff in Er as [Er1%Z.ltb_ge Er2%Z.leb_gt].
        destruct (room_lookup _ _ (Z.to_nat v) Hbl Hbf) as (l & Hl & Hll); [lia|].
        destruct (batch_add_push (Z.to_nat v) p (v_batch s) l Hl Hll) as (b' & -> & Hb'). cbn [mbind res_bind].
        eexists. split; [done|]. split; [done|]. split_and!; try done. intros _ _. split; [done|]. exists v.
        split; [done|]. rewrite decide_True by lia. by exists l.
    + unfold flow_pick_tx. destruct (Z.eqb_spec (eth_tx_queues config) 0) as [Hz|_]; [unfold queues_ok in Hq; lia|].
      rewrite Hw. fold (nic_queue b). cbn [mbind res_bind]. unfold queues_ok in Hq.
      destruct (room_lookup _ _ (nic_queue b) Hel Hef) as (l & Hl & Hll); [lia|].
      rewrite (arr_get_Some _ _ _ Hl). cbn [mbind res_bind]. rewrite arr_push_lt by done. cbn [mbind res_bind].
      eexists. split; [done|]. split; [done|]. split_and!; try done. intros _ _. split; [done|]. by exists l.
Qed.

(** While a VM is learning, its first packet has two owners: when that packet is
    switched to a VM whose ring has room for the burst and the slow ring has room,
    after the visit the same mbuf is in the VM's ring, whose consumer frees it, and in
    a learning message, whose consumer reads it. *)
Theorem learning_shares_mbuf (e : rx_env) (vid v p : nat) (m : mbuf) (rest : list (nat * mbuf)) (d : vhost_dev)
    (st : vdev_rx_stats) (r : ring nat) (w w' : vrx_world) :
  vrx_env_ok e → queues_ok → vrx_wf w → w_stats w !! vid = Some st → learning d = true →
  (length (slow_reqs true e (env_burst e).*1) ≤ length (pool_objs (w_msgs w)) `min` MAX_PKT_BURST)%nat →
  env_burst e = (p, m) :: rest → vrx_verdict e p = ToVm v → w_vm_rings w !! v = Some r →
  (MAX_PKT_BURST ≤ rte_ring_free_count r)%nat → (0 < rte_ring_free_count (w_slow w))%nat →
  vhost_rx_burst e vid d st w = Ok w' →
  (∃ r', w_vm_rings w' !! v = Some r' ∧ p ∈ ring_items r') ∧
  ∃ msg, msg ∈ ring_items (w_slow w') ∧ reason msg = SLOW_MAC_LEARNING ∧ msg_vid msg = vid ∧ msg_mbuf msg = p.
Proof.
  intros He Hq Hwf Hs Hd Hneed Hb HV Hr Hfree Hsfree Hrun. rewrite <- Hd in Hneed.
  assert ((env_burst e).*1 ≠ []) as Hne by (by rewrite Hb).
  destruct (vhost_rx_burst_spec e vid d st w) as (w2 & Hrun2 & _ & Hvis & _); try done; [lia|lia|].
  assert (w2 = w') as -> by congruence.
  destruct Hvis as ((_ & Henq) & _ & _ & (slow & (stale & Hls & Hslow & _) & Hsr) & _). split.
  - destruct (Henq v r Hr) as (r' & Hr' & _ & Hi). exists r'. split; [done|]. rewrite Hi. apply elem_of_app. right.
    rewrite take_ge.
    + apply with_verdict_mem. split; [done|]. rewrite Hb. by left.
    + pose proof (length_with_verdict (vrx_verdict e) (ToVm v) (env_burst e).*1) as Hle. rewrite length_fmap in Hle.
      destruct He as (_ & _ & He). lia.
  - rewrite Hd in Hls, Hslow. unfold slow_reqs in Hls, Hslow. rewrite Hb in Hls, Hslow. cbn [fmap list_fmap fst take app] in Hls, Hslow.
    destruct stale as [|s0 stale]; [done|]. cbn [zip_with] in Hslow.
    exists (vhost_msg SLOW_MAC_LEARNING vid p s0). split; [|done]. rewrite Hsr, Hslow. apply elem_of_app. right.
    destruct (rte_ring_free_count (w_slow w)) as [|n]; [lia|]. by left.
Qed.

(** The array of slow messages can overflow.  It has room for a burst, but a VM
    that is still learning adds one message: when all 64 packets of its burst are ARP
    requests for the data plane, the 65th message is written out of bounds. *)
Theorem slow_msgs_overflow (e : rx_env) (vid : nat) (d : vhost_dev) (st : vdev_rx_stats) (w : vrx_world) :
  vrx_env_ok e → queues_ok → vrx_wf w → w_stats w !! vid = Some st → learning d = true →
  length (env_burst e) = MAX_PKT_BURST → (∀ p, p ∈ (env_burst e).*1 → vrx_verdict e p = ToSlow) →
  (MAX_PKT_BURST < length (pool_objs (w_msgs w)))%nat →
  vhost_rx_burst e vid d st w = Fault OutOfBounds.
Proof.
  intros He Hq Hwf Hs Hd Hlen HV Hpool. pose proof He as (Hrl & Hnd & _). pose proof Hwf as (_ & _ & (_ & Hst) & _ & _ & _ & Hcb & Hce).
  set (pkts := (env_burst e).*1) in *. assert (length pkts = MAX_PKT_BURST) as Hl by (unfold pkts; by rewrite length_fmap).
  destruct (exists_last (l := pkts)) as (pre & p & Heq); [by intros Hn; rewrite Hn in Hl|].
  assert (∀ l, (∀ q, q ∈ l → q ∈ pkts) → length (slow_reqs true e l) = S (length l)) as Hreq.
  { intros l Hin. unfold slow_reqs. rewrite length_app, !length_fmap, length_take. fold pkts. rewrite Hl.
    rewrite with_verdict_all by auto. unfold MAX_PKT_BURST. lia. }
  assert (length pre = 63)%nat as Hlp by (rewrite Heq, length_app in Hl; cbn [length] in Hl; unfold MAX_PKT_BURST in Hl; lia).
  destruct (learn_msg_ok e vid d w) as (slow & mp & El & Hslow).
  { fold pkts. by intros Hn; rewrite Hn in Hl. }
  { fold pkts. rewrite Hd, Hreq by done. lia. }
  unfold vhost_rx_burst. fold (vrx_received e w) pkts. fold pkts in El. rewrite El. cbn [mbind res_bind].
  rewrite Heq, foldM_app.
  destruct (foldM_ind (vhost_rx_packet e (vrx_received e w) vid) (λ l s, vrx_inv e vid true st w l s) pre
    (mk_vrx_local (start_burst (w_batch w)) (w_eth w) slow mp st)) as (s & -> & Hinv).
  { split_and!; cbn [v_batch v_eth v_slow v_msgs v_st]; try done.
    - by apply start_burst_ok.
    - by rewrite Hce, length_replicate.
    - intros q Hlt. by rewrite Hce, lookup_replicate_2.
    - by rewrite Hd in Hslow.
    - by eapply Forall_lookup_1. }
  { intros l q post s Hl' Hinv. assert (length (slow_reqs true e (l ++ [q])) ≤ MAX_PKT_BURST)%nat as Hm.
    - rewrite Hreq.
      + apply (f_equal length) in Hl'. rewrite length_app in *. cbn [length] in *. unfold MAX_PKT_BURST. lia.
      + intros x Hx. rewrite Heq, Hl'. rewrite !elem_of_app in *. rewrite list_elem_of_singleton in Hx.
        destruct Hx as [Hx| ->]; [by left; left|left; right; by left].
    - apply (vhost_rx_packet_spec e vid true st w l q (post ++ [p]) s); try done; [|lia].
      fold pkts. by rewrite Heq, Hl', <- app_assoc. }
  cbn [mbind res_bind foldM]. assert (p ∈ pkts) as Hp by (rewrite Heq; apply elem_of_snoc_self).
  destruct Hinv as (_ & _ & _ & _ & Hslow' & Hst' & _). pose proof (slow_ok_length _ _ _ _ _ Hslow') as Hls.
  rewrite Hreq in Hls by (intros q Hq'; rewrite Heq; apply elem_of_app; by left).
  apply list_elem_of_fmap in Hp as Hp'. destruct Hp' as ([p' m] & Heqp & Hin). cbn in Heqp. subst p'.
  assert ((list_to_map (env_burst e) : gmap nat mbuf) !! p = Some m) as Hm by by apply elem_of_list_to_map.
  destruct (vhost_rx_packet_cases e vid (vrx_received e w) p m s) as (st' & _ & Hcase); try done.
  { unfold vrx_received. by rewrite lookup_union, Hm, union_Some_l. }
  { unfold vrx_verdict, pool_verdict. by rewrite Hm. }
  rewrite (HV p Hp) in Hcase. rewrite Hcase. destruct Hslow' as (stale & Hlst & _ & Hperm).
  unfold get_slow_msg. destruct (rte_mempool_get (v_msgs s)) as [[msg mp2]|] eqn:Eg.
  - cbn [mbind res_bind]. unfold arr_push. by rewrite decide_False by (rewrite Hls, Hlp; unfold MAX_PKT_BURST; lia).
  - apply pool_get_None in Eg. rewrite Eg, app_nil_r in Hperm. rewrite Hperm, Hlst in Hpool.
    rewrite Hreq, Hlp in Hpool by (intros q Hq'; rewrite Heq; apply elem_of_app; by left).
    unfold MAX_PKT_BURST in Hpool. lia.
Qed.
End vhost_rx.

(** ** Witnesses *)

(** VM 1 (192.168.100.9) sends to VM 2 (192.168.100.5), to the data plane (ARP) and
    to the outside. *)
Definition demo_vrx_env (ready : Z) : rx_env :=
  mk_rx_env (env_burst demo_rx_env)
    (Some (<[1%nat:=Some 101%nat]> (<[2%nat:=Some 100%nat]> (replicate MAX_VHOSTS None))))
    {[100%nat := mk_dev 2 3 [2;0;0;0;0;7] 0xC0A86405 1; 101%nat := mk_dev 1 7 [2;0;0;0;0;9] 0xC0A86409 ready]}
    (env_routing demo_rx_env).

Definition demo_rx_stats : vdev_rx_stats :=
  mk_rx_stats 0 0 0 0 0 0 (replicate WINDOW_SIZE 0) (replicate WINDOW_SIZE 0) (replicate WINDOW_SIZE 0) 0.
Definition demo_msgs (n : nat) : list slow_msg := replicate n (mk_slow_msg SLOW_ETH_TX_FLOW SLOW_SRC_ETH 0 0 0).
Definition demo_vrx_world (n : nat) : vrx_world :=
  mk_vrx_world ∅ (replicate MAX_VHOSTS (127%nat, [])) (replicate 4 (127%nat, [])) (127%nat, []) (demo_msgs n)
    (replicate MAX_VHOSTS demo_rx_stats) (replicate MAX_VHOSTS init_vhost_ap) (replicate 5 0) 0
    (replicate MAX_VHOSTS 0) (replicate MAX_ETH_TX_QUEUES 0) (replicate MAX_VHOSTS []) (replicate MAX_ETH_TX_QUEUES []).

Lemma demo_queues_ok : queues_ok demo_config.
Proof. split; vm_compute; congruence. Qed.

Lemma demo_vrx_wf n : vrx_wf demo_config (demo_vrx_world n).
Proof.
  unfold vrx_wf, demo_vrx_world. cbn [w_vm_rings w_eth_rings w_stats w_ap w_rr_vm w_rr_eth w_batch w_eth].
  split_and!; try done; apply Forall_replicate; try (by split_and!).
  unfold st_wf, WINDOW_SIZE. cbn. split_and!; try done. lia.
Qed.

Lemma demo_vrx_env_ok ready : vrx_env_ok (demo_vrx_env ready).
Proof. split_and!; [done|refine (bool_decide_unpack _ _); vm_compute; exact I|cbn; unfold MAX_PKT_BURST; lia]. Qed.

(** Packet 10 reaches VM 2, 11 the slow path, and 12 a NIC queue. *)
Lemma vhost_rx_visit_correct_witness :
  ∃ w', vhost_rx_visit demo_config (mk_vrx_env (demo_vrx_env 1) 5 5) 1 (demo_vrx_world 2) = Ok w' ∧
    w_vm_rings w' !! 2%nat = Some (127%nat, [10%nat]) ∧ msg_mbuf <$> ring_items (w_slow w') = [11%nat] ∧
    concat (ring_items <$> w_eth_rings w') = [12%nat].
Proof.
  destruct (vhost_rx_visit_correct demo_config (mk_vrx_env (demo_vrx_env 1) 5 5) 1 (demo_vrx_world 2)
    (<[1%nat:=Some 101%nat]> (<[2%nat:=Some 100%nat]> (replicate MAX_VHOSTS None))) 101
    (mk_dev 1 7 [2;0;0;0;0;9] 0xC0A86409 1) demo_queues_ok (demo_vrx_wf 2) (demo_vrx_env_ok 1) eq_refl eq_refl eq_refl)
    as (ap & st & w' & _ & _ & E & _).
  - unfold MAX_VHOSTS. lia.
  - vm_compute. lia.
  - vm_compute. lia.
  - exists w'. split; [exact E|]. vm_compute in E. injection E as <-. split_and!; reflexivity.
Defined.

(** The plan lists VM 1 and a VM that is gone. *)
Lemma vhost_rx_iter_correct_witness :
  ∃ w', vhost_rx_iter demo_config (λ _, mk_vrx_env (demo_vrx_env 1) 5 5) true (demo_plan [1; 6]%nat) (demo_vrx_world 4) = Ok w' ∧
    w_vm_rings w' !! 2%nat = Some (127%nat, [10%nat]) ∧ w_iteration w' = 1.
Proof.
  destruct (vhost_rx_iter_correct demo_config (λ _, mk_vrx_env (demo_vrx_env 1) 5 5) (demo_plan [1; 6]%nat) (demo_vrx_world 4)
    demo_queues_ok (demo_vrx_wf 4)) as (w' & E & _).
  - split; [vm_compute; split; congruence|reflexivity].
  - intros i vid Hi Hvid. split; [exact (demo_vrx_env_ok 1)|].
    eexists. split; [reflexivity|]. split; [reflexivity|]. intros ptr Hptr.
    assert (vid = 1%nat ∨ vid = 6%nat) as [->| ->].
    { destruct i as [|[|i]]; [left|right|]; try (vm_compute in Hvid; congruence).
      apply elem_of_seq in Hi. vm_compute in Hi. lia. }
    + injection Hptr as <-. eexists. split; [reflexivity|]. vm_compute. lia.
    + discriminate Hptr.
  - vm_compute. lia.
  - exists w'. split; [exact E|]. vm_compute in E. injection E as <-. split; reflexivity.
Defined.

(** The arrays at the start of a burst. *)
Definition demo_vrx_local : vrx_local :=
  mk_vrx_local empty_batch (replicate MAX_ETH_TX_QUEUES []) [] (demo_msgs 2) demo_rx_stats.

Lemma demo_vrx_room : vrx_room demo_vrx_local.
Proof.
  split; [|split; [|split; [|split]]]; [| | |discriminate|].
  - split; [reflexivity|]. refine (bool_decide_unpack _ _). vm_compute. exact I.
  - split; [reflexivity|]. refine (bool_decide_unpack _ _). vm_compute. exact I.
  - refine (bool_decide_unpack _ _). vm_compute. exact I.
  - refine (bool_decide_unpack _ _). vm_compute. exact I.
Qed.

(** A packet of each kind: to VM 2, for the slow path, to the outside. *)
Lemma vhost_rx_packet_correct_witness :
  ∃ s1 s2 s3 m1 m2 m3, env_burst demo_rx_env = [(10%nat, m1); (11%nat, m2); (12%nat, m3)] ∧
    vhost_rx_packet demo_config demo_rx_env {[10%nat := m1]} 1 10 demo_vrx_local = Ok s1 ∧
    vhost_rx_packet demo_config demo_rx_env {[11%nat := m2]} 1 11 demo_vrx_local = Ok s2 ∧
    vhost_rx_packet demo_config demo_rx_env {[12%nat := m3]} 1 12 demo_vrx_local = Ok s3 ∧
    vm_pkts (v_batch s1) !! 2%nat = Some [10%nat] ∧ msg_mbuf <$> v_slow s2 = [11%nat] ∧
    v_eth s3 !! nic_queue demo_config (buf m3) = Some [12%nat].
Proof.
  pose proof (λ p m, vhost_rx_packet_correct demo_config demo_rx_env 1 p {[p := m]} m demo_vrx_local demo_queues_ok
    ltac:(vm_compute; split; congruence) eq_refl (lookup_singleton_eq p m)) as Hp.
  assert (∃ m1 m2 m3, env_burst demo_rx_env = [(10%nat, m1); (11%nat, m2); (12%nat, m3)] ∧
    (wf_buf (buf m1) ∧ wf_buf (buf m2) ∧ wf_buf (buf m3)) ∧
    (net 2 12 (buf m1) = 0x0800 ∧ dst_ip (buf m1) = 0xC0A86405) ∧ gateway_request demo_config (buf m2) ∧
    (net 2 12 (buf m3) = 0x0800 ∧ dst_ip (buf m3) = 0x0A000001)) as (m1 & m2 & m3 & E & (Hw1 & Hw2 & Hw3) & Hm1 & Hm2 & Hm3).
  { eexists _, _, _. split; [reflexivity|]. split; [split_and!; refine (bool_decide_unpack _ _); vm_compute; exact I|].
    split_and!; vm_compute; try split_and!; reflexivity. }
  destruct (Hp 10%nat m1 Hw1 demo_vrx_room) as ((s1 & E1 & _ & _ & _ & H1 & _) & _).
  destruct (Hp 11%nat m2 Hw2 demo_vrx_room) as ((s2 & E2 & _ & H2 & _) & _).
  destruct (Hp 12%nat m3 Hw3 demo_vrx_room) as ((s3 & E3 & _ & _ & _ & _ & H3) & _).
  exists s1, s2, s3, m1, m2, m3. split_and!; [exact E|exact E1|exact E2|exact E3| | |].
  - destruct Hm1 as [Ht Hd]. destruct H1 as (_ & v & Hv & Hb).
    + intros (Ht' & _). rewrite Ht in Ht'. discriminate Ht'.
    + unfold same_subnet. rewrite Hd. reflexivity.
    + rewrite Hd in Hv. assert (v = 2) as -> by (vm_compute in Hv; congruence).
      rewrite decide_True in Hb by (vm_compute; split; congruence). destruct Hb as (l & Hl & ->).
      vm_compute in Hl. injection Hl as <-. reflexivity.
  - destruct (H2 Hm2) as (_ & stale & _ & ->). reflexivity.
  - destruct Hm3 as [Ht Hd]. destruct H3 as (_ & l & Hl & ->).
    + intros (Ht' & _). rewrite Ht in Ht'. discriminate Ht'.
    + unfold same_subnet. rewrite Hd. discriminate.
    + rewrite list_lookup_insert_eq by (by eapply lookup_lt_Some).
      apply lookup_replicate_1 in Hl as [-> _]. reflexivity.
Defined.

Lemma learning_shares_mbuf_witness :
  ∃ w', vhost_rx_burst demo_config (demo_vrx_env 0) 1 (mk_dev 1 (-1) [] 0 0) demo_rx_stats (demo_vrx_world 2) = Ok w' ∧
    ∃ msg, msg ∈ ring_items (w_slow w') ∧ msg_mbuf msg = 10%nat.
Proof.
  destruct (vhost_rx_burst demo_config (demo_vrx_env 0) 1 (mk_dev 1 (-1) [] 0 0) demo_rx_stats (demo_vrx_world 2))
    as [w'|f] eqn:E; [|vm_compute in E; discriminate E].
  exists w'. split; [reflexivity|].
  destruct (learning_shares_mbuf demo_config (demo_vrx_env 0) 1 2 10 (demo_mbuf (demo_ip_buf 0 17 [192;168;100;9] [192;168;100;5]))
    (tail (env_burst demo_rx_env)) (mk_dev 1 (-1) [] 0 0) demo_rx_stats ((127%nat, []) : @ring list_ring nat) (demo_vrx_world 2) w'
    (demo_vrx_env_ok 0) demo_queues_ok (demo_vrx_wf 2)) as (_ & msg & Hin & _ & _ & Hp); try reflexivity.
  - vm_compute. lia.
  - refine (bool_decide_unpack _ _). vm_compute. exact I.
  - exact E.
  - exists msg. split; [exact Hin|exact Hp].
Defined.

(** 64 ARP requests from VM 1, which is still learning. *)
Definition demo_arp_env : rx_env :=
  mk_rx_env ((λ i, (i, demo_mbuf (demo_arp_buf 1 9 1))) <$> seq 0 64) (env_vdevs (demo_vrx_env 0))
    (env_devs (demo_vrx_env 0)) (env_routing demo_rx_env).

Lemma slow_msgs_overflow_witness :
  vhost_rx_burst demo_config demo_arp_env 1 (mk_dev 1 (-1) [] 0 0) demo_rx_stats (demo_vrx_world 70) = Fault OutOfBounds.
Proof.
  apply (slow_msgs_overflow demo_config demo_arp_env 1 (mk_dev 1 (-1) [] 0 0) demo_rx_stats (demo_vrx_world 70)).
  - split_and!; [done|refine (bool_decide_unpack _ _); vm_compute; exact I|].
    refine (bool_decide_unpack _ _). vm_compute. exact I.
  - exact demo_queues_ok.
  - exact (demo_vrx_wf 70).
  - reflexivity.
  - reflexivity.
  - reflexivity.
  - intros p Hp. assert (Forall (λ p, vrx_verdict demo_config demo_arp_env p = ToSlow) (env_burst demo_arp_env).*1) as Hall
      by (refine (bool_decide_unpack _ _); vm_compute; exact I).
    rewrite Forall_forall in Hall. exact (Hall p Hp).
  - refine (bool_decide_unpack _ _). vm_compute. exact I.
Defined.
