(* ===== verification/SlowPath.v ===== *)
(** * src/slow: ARP replies and the control loop

    [process_arp_req] of arp.c, the message switch of [slowpath_loop] and one
    iteration of that loop.  The state joins the device state of [Device] with the
    packets, the rings towards the VMs, the slow ring and the message pool.  The call of
    the dashboard at the head of the loop is added in Dashboard.v. *)

From S2P Require Import Prelude CInt Packet Dpdk Ecn Config Poll Plan Route Device VhostTx EthTx Batch EthRx.
Local Open Scope Z_scope.

(** The writes of [process_arp_req] to the frame. *)
Definition arp_reply (config : config_t) (b : list Z) : list Z :=
  let b := set_eth_dst (eth_src_addr b) b in
  let b := set_eth_src (cfg_mac config) b in
  let b := set_arp_opcode (rte_cpu_to_be_16 RTE_ARP_OP_REPLY) b in
  let orig_ip := arp_sip b in
  let orig_mac := arp_sha b in
  let b := set_arp_sha (cfg_mac config) b in
  let b := set_arp_sip (rte_cpu_to_be_32 (cfg_ip config)) b in
  let b := set_arp_tha orig_mac b in
  set_arp_tip orig_ip b.

Section slowpath.
Context `{RteRing} `{RteMempool slow_msg}.
Context (config : config_t).

(** The request in the mbuf [p] is rewritten into the reply, which is put on the ring of
    the VM that asked; there is no such ring for a request from the wire. *)
Definition arp_answer (vid p : nat) (m : mbuf) (src : slow_src) (rings : list (ring nat)) (pool : gmap nat mbuf)
    : res (list (ring nat) * gmap nat mbuf) :=
  pool ← heap_set pool p (set_buf (arp_reply config (buf m)) m);
  if decide (src = SLOW_SRC_VHOST) then
    r ← arr_get rings vid;
    let '(_, r) := rte_ring_enqueue_burst r [p] in Ok (<[vid:=r]> rings, pool)
  else Ok (rings, pool).

(** After the answer the mbuf is freed. *)
Definition process_arp_req (vid p : nat) (src : slow_src) (rings : list (ring nat)) (pool : gmap nat mbuf)
    : res (Z * list (ring nat) * gmap nat mbuf) :=
  m ← heap_get pool p;
  let b := buf m in
  if negb (arp_opcode b =? rte_cpu_to_be_16 RTE_ARP_OP_REQUEST) then Ok (-1, rings, pool)
  else if negb (rte_be_to_cpu_32 (arp_tip b) =? cfg_ip config) then Ok (-1, rings, pool)
  else
    '(rings, pool) ← arp_answer vid p m src rings pool;
    pool ← heap_free pool p;
    Ok (0, rings, pool).

Record slow_world := mk_slow_world {
  sl_dev : dstate;
  sl_pool : gmap nat mbuf;
  sl_rings : list (ring nat);            (* global->vhost_tx_rings *)
  sl_ring : ring slow_msg;               (* global->slowpath_ring *)
  sl_msgs : mempool;
  sl_stats : list (list vdev_rx_stats);  (* per vhost_rx core *)
  last_vhost_plan_update : Z;            (* uint64_t *)
}.

(** The body of the loop over the dequeued messages; [continue] skips the [put].
    [flow] is what [rte_flow_create] would return. *)
Definition process_msg (flow : option nat) (msg : slow_msg) (w : slow_world) : res slow_world :=
  let put w := mk_slow_world (sl_dev w) (sl_pool w) (sl_rings w) (sl_ring w) (rte_mempool_put (sl_msgs w) msg)
                 (sl_stats w) (last_vhost_plan_update w) in
  match reason msg with
  | SLOW_MAC_LEARNING =>
      slot ← arr_get (vdevs (vlist (sl_dev w))) (msg_vid msg);
      match slot with
      | None => Ok w
      | Some _ =>
          m ← heap_get (sl_pool w) (msg_mbuf msg);
          s ← learn_device (eth_rx_queues config) flow (msg_vid msg) (buf m) (sl_dev w);
          Ok (put (mk_slow_world s (sl_pool w) (sl_rings w) (sl_ring w) (sl_msgs w) (sl_stats w) (last_vhost_plan_update w)))
      end
  | SLOW_ARP_REQ =>
      slot ← arr_get (vdevs (vlist (sl_dev w))) (msg_vid msg);
      match slot with
      | None => Ok w
      | Some _ =>
          '(_, rings, pool) ← process_arp_req (msg_vid msg) (msg_mbuf msg) (src msg) (sl_rings w) (sl_pool w);
          Ok (put (mk_slow_world (sl_dev w) pool rings (sl_ring w) (sl_msgs w) (sl_stats w) (last_vhost_plan_update w)))
      end
  | SLOW_ETH_TX_FLOW => Ok (put w)
  end.

(** The plans are recomputed at most once per second. *)
Definition replan (alloc_rx alloc_tx : nat → bool) (cur_tsc tsc_hz : Z) (w : slow_world) : res slow_world :=
  if tsc_hz <? u64 (cur_tsc - last_vhost_plan_update w) then
    let s := sl_dev w in
    '(plans, stats) ← calculate_vhost_rx_plan alloc_rx (vdevs (vlist s)) (vhost_rx_core s) (rx_plans s) (sl_stats w);
    let s := set_rx plans (vhost_rx_core s) s in
    plans ← calculate_vhost_tx_plan alloc_tx (vdevs (vlist s)) (vhost_tx_core s) (tx_plans s);
    let s := set_tx plans (vhost_tx_core s) s in
    Ok (mk_slow_world s (sl_pool w) (sl_rings w) (sl_ring w) (sl_msgs w) stats cur_tsc)
  else Ok w.

(** What an iteration of [slowpath_loop] finds: the clock and its frequency, the flow
    created for the [i]-th message, and the success of the plan allocations. *)
Record slow_env := mk_slow_env {
  env_cur_tsc : Z;
  env_tsc_hz : Z;
  env_flows : nat → option nat;
  env_alloc_rx : nat → bool;
  env_alloc_tx : nat → bool;
}.

Definition slowpath_iter (e : slow_env) (w : slow_world) : res slow_world :=
  let '(msgs, r) := rte_ring_dequeue_burst (sl_ring w) MAX_PKT_BURST in
  let w := mk_slow_world (sl_dev w) (sl_pool w) (sl_rings w) r (sl_msgs w) (sl_stats w) (last_vhost_plan_update w) in
  w ← foldM (λ '(i, msg) w, process_msg (env_flows e i) msg w) (zip (seq 0 (length msgs)) msgs) w;
  replan (env_alloc_rx e) (env_alloc_tx e) (env_cur_tsc e) (env_tsc_hz e) w.
End slowpath.

(** ** Lemmas: the ARP fields *)

Lemma get_put_same_len n off bs b :
  length bs = n → (off + n ≤ length b)%nat → get_bytes n off (put_bytes off bs b) = bs.
Proof. intros <- Hl. by apply get_put_same. Qed.

(** Read a field through a chain of writes: skip the disjoint ones, outermost first. *)
Ltac field_read :=
  unfold set_eth_dst, set_eth_src, set_arp_opcode, set_arp_sha, set_arp_sip, set_arp_tha, set_arp_tip,
    eth_dst_addr, eth_src_addr, eth_type, arp_opcode, arp_sha, arp_sip, arp_tha, arp_tip, load, store;
  repeat (rewrite get_put_other by (rewrite ?length_le_bytes, ?length_get_bytes by (rewrite ?length_put_bytes; lia); lia)).

(** The fields of the reply, and what it keeps. *)
Lemma arp_reply_fields config b :
  wf_buf b → length (cfg_mac config) = 6%nat →
  let b' := arp_reply config b in
  eth_dst_addr b' = eth_src_addr b ∧ eth_src_addr b' = cfg_mac config ∧ eth_type b' = eth_type b ∧
  arp_opcode b' = rte_cpu_to_be_16 RTE_ARP_OP_REPLY ∧
  arp_sha b' = cfg_mac config ∧ arp_sip b' = rte_cpu_to_be_32 (cfg_ip config) ∧
  arp_tha b' = arp_sha b ∧ arp_tip b' = arp_sip b ∧
  length b' = length b ∧ get_bytes 8 12 b' = get_bytes 8 12 b ∧
  ∀ n off, (42 ≤ off)%nat → get_bytes n off b' = get_bytes n off b.
Proof.
  intros [Hb Hl] Hmac b'. unfold b', arp_reply. cbv zeta.
  assert (∀ n off, (off + n ≤ length b)%nat → length (get_bytes n off b) = n) as Hget by (intros; by apply length_get_bytes).
  assert (0 ≤ load 4 28 b < 256 ^ Z.of_nat 4) as Hsip by (apply load_range; [done|lia]).
  assert (∀ x, of_le_bytes (le_bytes 4 (bswap 4 x)) = bswap 4 x) as Hsw
    by (intros x; rewrite of_le_bytes_le_bytes; apply Z.mod_small, bswap_range).
  split_and!.
  - field_read. apply get_put_same_len; [apply Hget|]; lia.
  - field_read. apply get_put_same_len; [done|]. rewrite length_put_bytes. lia.
  - field_read. done.
  - field_read. rewrite get_put_same_len by (rewrite ?length_put_bytes; done || lia). done.
  - field_read. apply get_put_same_len; [done|]. rewrite !length_put_bytes. lia.
  - field_read. rewrite get_put_same_len by (rewrite ?length_put_bytes; done || lia). apply Hsw.
  - field_read. rewrite get_put_same_len; [field_read; done| |rewrite !length_put_bytes; lia].
    apply length_get_bytes. rewrite !length_put_bytes. lia.
  - field_read. rewrite get_put_same_len by (rewrite ?length_put_bytes; done || lia).
    rewrite of_le_bytes_le_bytes. field_read. by apply Z.mod_small.
  - field_read. by rewrite !length_put_bytes.
  - field_read. done.
  - intros n off Hoff. field_read. done.
Qed.

(** ** Lemmas: process_arp_req *)

(** An ARP request that the data plane answers. *)
Definition answers (config : config_t) (b : list Z) : bool :=
  (arp_opcode b =? rte_cpu_to_be_16 RTE_ARP_OP_REQUEST) && (rte_be_to_cpu_32 (arp_tip b) =? cfg_ip config).

(** Bytes 20 and 21 say request, and bytes 38 to 41 are the data plane's address. *)
Lemma answers_net config b : wf_buf b → answers config b = bool_decide (net 2 20 b = 1 ∧ net 4 38 b = cfg_ip config).
Proof.
  intros [Hb Hl]. apply eq_true_iff_eq. unfold answers, arp_opcode, arp_tip, rte_cpu_to_be_16, bswap16.
  rewrite be_eq by (done || lia). rewrite be_load_32 by (done || lia).
  by rewrite andb_true_iff, bool_decide_eq_true, !Z.eqb_eq.
Qed.

(** [b'] is the reply to [b]: it goes back to the station that sent the request, from the
    data plane, whose MAC and IPv4 address it gives as the sender's; its target is the
    sender of the request; the EtherType, the rest of the ARP header and the padding are
    those of the request. *)
Definition is_arp_reply (config : config_t) (b b' : list Z) : Prop :=
  eth_dst_addr b' = eth_src_addr b ∧ eth_src_addr b' = cfg_mac config ∧ get_bytes 8 12 b' = get_bytes 8 12 b ∧
  net 2 20 b' = 2 ∧ arp_sha b' = cfg_mac config ∧ net 4 28 b' = cfg_ip config ∧
  arp_tha b' = arp_sha b ∧ arp_tip b' = arp_sip b ∧
  length b' = length b ∧ ∀ n off, (42 ≤ off)%nat → get_bytes n off b' = get_bytes n off b.

Lemma arp_reply_is_reply config b :
  wf_buf b → mac_wf (cfg_mac config) → in_u 32 (cfg_ip config) → is_arp_reply config b (arp_reply config b).
Proof.
  intros [Hb Hl] [Hmac Hmb] Hc. assert (wf_buf (arp_reply config b)) as [Hb' Hl'].
  { unfold arp_reply. cbv zeta.
    repeat first [done|apply wf_put_bytes|apply get_bytes_is_byte|apply put_bytes_is_byte|apply le_bytes_is_byte]. }
  destruct (arp_reply_fields config b (conj Hb Hl) Hmac) as (H1' & H2' & H3' & H4' & H5' & H6' & H7' & H8' & H9' & H10' & H11').
  assert (net 2 20 (arp_reply config b) = 2) as Hop.
  { apply Z.eqb_eq. rewrite <- (be_eq 2 20) by (done || lia). apply Z.eqb_eq. exact H4'. }
  assert (net 4 28 (arp_reply config b) = cfg_ip config) as Hip.
  { apply Z.eqb_eq. rewrite <- (be_eq 4 28) by (done || lia). apply Z.eqb_eq. exact H6'. }
  by split_and!.
Qed.

Section slowpath_lemmas.
Context `{RteRing} `{RteMempool slow_msg}.
Context (config : config_t).

(** The rings after the mbufs [l] were offered to the ring of VM [vid]. *)
Definition ring_given (vid : nat) (l : list nat) (rings rings' : list (ring nat)) : Prop :=
  length rings' = length rings ∧
  ∀ v r, rings !! v = Some r → ∃ r', rings' !! v = Some r' ∧ ring_capacity r' = ring_capacity r ∧
    ring_items r' = ring_items r ++ if decide (v = vid) then take (rte_ring_free_count r) l else [].

Lemma arp_answer_eq vid p m src rings pool :
  is_Some (pool !! p) → (vid < length rings)%nat →
  ∃ rings', arp_answer config vid p m src rings pool = Ok (rings', <[p := set_buf (arp_reply config (buf m)) m]> pool) ∧
    ring_given vid (if decide (src = SLOW_SRC_VHOST) then [p] else []) rings rings'.
Proof.
  intros [m0 Hp] Hv. unfold arp_answer. rewrite (heap_set_Some _ _ _ _ Hp). cbn [mbind res_bind]. case_decide as Hsrc.
  - destruct (lookup_lt_is_Some_2 rings vid Hv) as [r Hr]. rewrite (arr_get_Some _ _ _ Hr). cbn [mbind res_bind].
    destruct (rte_ring_enqueue_burst r [p]) as [k r'] eqn:E. destruct (ring_enqueue_eq _ _ _ _ _ E) as (Hk & Hi & Hc).
    eexists. split; [done|]. split; [by rewrite length_insert|].
    intros v r0 Hr0. destruct (decide (v = vid)) as [->|Hne].
    + assert (r0 = r) as -> by congruence. exists r'. rewrite list_lookup_insert_eq by done.
      split_and!; [done|done|]. rewrite Hi. f_equal. rewrite Hk. by destruct (rte_ring_free_count r) as [|[|n]].
    + exists r0. by rewrite list_lookup_insert_ne, app_nil_r by done.
  - eexists. split; [done|]. split; [done|]. intros v r Hr. exists r. rewrite take_nil.
    case_decide; by rewrite app_nil_r.
Qed.

Lemma process_arp_req_eq vid p src rings pool m :
  pool !! p = Some m → (vid < length rings)%nat →
  if answers config (buf m) then
    ∃ rings', arp_answer config vid p m src rings pool = Ok (rings', <[p := set_buf (arp_reply config (buf m)) m]> pool) ∧
      process_arp_req config vid p src rings pool = Ok (0, rings', delete p pool) ∧
      ring_given vid (if decide (src = SLOW_SRC_VHOST) then [p] else []) rings rings'
  else process_arp_req config vid p src rings pool = Ok (-1, rings, pool).
Proof.
  intros Hp Hv. unfold process_arp_req. rewrite (heap_get_Some _ _ _ Hp). cbn [mbind res_bind].
  unfold answers. destruct (arp_opcode (buf m) =? _); cbn [negb andb];
    [destruct (rte_be_to_cpu_32 (arp_tip (buf m)) =? cfg_ip config); cbn [negb]; [|done]|done].
  destruct (arp_answer_eq vid p m src rings pool) as (rings' & E & Hr); [by eexists|done|].
  exists rings'. split; [done|]. rewrite E. cbn [mbind res_bind]. unfold heap_free.
  by rewrite lookup_insert_eq, delete_insert_eq.
Qed.

(** ** Specification of an iteration *)

(** Each learning VM has one address: [addr] gives its last octet. *)
Definition teaches (addr : nat → nat) (vid : nat) (b : list Z) : Prop :=
  ∃ ip, learned_ip b = Some ip ∧ usable_ip ip ∧ last_octet ip = addr vid.

(** The VMs that are already linked have that address. *)
Definition addr_ok (addr : nat → nat) (s : dstate) : Prop :=
  ∀ vid p d, slot_is s vid p → devs s !! p = Some d → ready d = DEVICE_RX → last_octet (dev_ip d) = addr vid.

(** The mbuf of an ARP message belongs to no later message. *)
Fixpoint arp_exclusive (msgs : list slow_msg) : Prop :=
  match msgs with
  | [] => True
  | msg :: msgs => (reason msg = SLOW_ARP_REQ → msg_mbuf msg ∉ msg_mbuf <$> msgs) ∧ arp_exclusive msgs
  end.

Definition msgs_ok (addr : nat → nat) (msgs : list slow_msg) (w : slow_world) : Prop :=
  Forall (λ msg, msg_vid msg < MAX_VHOSTS)%nat msgs ∧ live (sl_pool w) (msg_mbuf <$> msgs) ∧ arp_exclusive msgs ∧
  ∀ msg m, msg ∈ msgs → reason msg = SLOW_MAC_LEARNING → sl_pool w !! msg_mbuf msg = Some m →
    teaches addr (msg_vid msg) (buf m).

Definition slow_wf (addr : nat → nat) (w : slow_world) : Prop :=
  dstate_wf (sl_dev w) ∧ addr_ok addr (sl_dev w) ∧ length (sl_rings w) = MAX_VHOSTS ∧
  Forall (λ st, length st = MAX_VHOSTS) (sl_stats w) ∧ length (sl_stats w) = length (rx_plans (sl_dev w)).

(** Is the message given back to the pool?  It is not when the VM's slot is empty. *)
Definition returned (vds : list (option nat)) (msg : slow_msg) : Prop :=
  reason msg = SLOW_ETH_TX_FLOW ∨ is_Some (mjoin (vds !! msg_vid msg)).
#[local] Instance returned_dec vds msg : Decision (returned vds msg).
Proof. unfold returned. apply _. Defined.

Definition is_linked (s : dstate) (p : nat) : Prop := ∃ d, devs s !! p = Some d ∧ ready d = DEVICE_RX.

(** What the messages [msgs] do from [w] to [w']. *)
Definition msgs_done (msgs : list slow_msg) (w w' : slow_world) : Prop :=
  vlist (sl_dev w') = vlist (sl_dev w) ∧
  (rx_plans (sl_dev w'), tx_plans (sl_dev w'), vhost_rx_core (sl_dev w'), vhost_tx_core (sl_dev w')) =
  (rx_plans (sl_dev w), tx_plans (sl_dev w), vhost_rx_core (sl_dev w), vhost_tx_core (sl_dev w)) ∧
  (sl_ring w', sl_stats w', last_vhost_plan_update w') = (sl_ring w, sl_stats w, last_vhost_plan_update w) ∧
  pool_objs (sl_msgs w') ≡ₚ filter (returned (vdevs (vlist (sl_dev w)))) msgs ++ pool_objs (sl_msgs w) ∧
  (∀ p, is_linked (sl_dev w) p → is_linked (sl_dev w') p) ∧
  (∀ msg p, msg ∈ msgs → reason msg = SLOW_MAC_LEARNING → slot_is (sl_dev w) (msg_vid msg) p → is_linked (sl_dev w') p).

(** The mbufs of the ARP messages, and the case that no VM sent one. *)
Definition arp_mbufs (msgs : list slow_msg) : list nat := msg_mbuf <$> filter (λ msg, reason msg = SLOW_ARP_REQ) msgs.
Definition from_wire (msgs : list slow_msg) : Prop := ∀ msg, msg ∈ msgs → reason msg = SLOW_ARP_REQ → src msg = SLOW_SRC_ETH.

(** What the messages do to packets then: at most their own mbufs are touched. *)
Definition packets_kept (msgs : list slow_msg) (w w' : slow_world) : Prop :=
  sl_rings w' = sl_rings w ∧ ∀ p, p ∉ arp_mbufs msgs → sl_pool w' !! p = sl_pool w !! p.

(** Statistics that a recomputation left alone or moved to the next window. *)
Definition stats_moved (stats stats' : list (list vdev_rx_stats)) : Prop :=
  Forall2 (Forall2 (λ st st', st' = st ∨ st' = advance_wnd st)) stats stats'.

Lemma msgs_done_refl w : msgs_done [] w w.
Proof. split_and!; try done. intros msg p Hin. by apply not_elem_of_nil in Hin. Qed.

Lemma msgs_done_app l1 l2 w1 w2 w3 : msgs_done l1 w1 w2 → msgs_done l2 w2 w3 → msgs_done (l1 ++ l2) w1 w3.
Proof.
  intros (Hv1 & Hp1 & Hs1 & Hm1 & Hl1 & Hd1) (Hv2 & Hp2 & Hs2 & Hm2 & Hl2 & Hd2). rewrite Hv1 in *.
  split_and!; try congruence.
  - rewrite filter_app, Hm2, Hm1. rewrite !app_assoc. apply Permutation_app_tail, Permutation_app_comm.
  - auto.
  - intros msg p [Hin|Hin]%elem_of_app Hr Hs; [by eapply Hl2, Hd1|]. eapply Hd2; [done|done|].
    unfold slot_is in *. by rewrite Hv1.
Qed.

(** ** Lemmas: one message *)

Lemma learn_msg_wf addr flow msg w m p d :
  0 < eth_rx_queues config → slow_wf addr w → teaches addr (msg_vid msg) (buf m) →
  slot_is (sl_dev w) (msg_vid msg) p → devs (sl_dev w) !! p = Some d →
  ∃ s', learn_device (eth_rx_queues config) flow (msg_vid msg) (buf m) (sl_dev w) = Ok s' ∧
    dstate_wf s' ∧ addr_ok addr s' ∧ vlist s' = vlist (sl_dev w) ∧
    (rx_plans s', tx_plans s', vhost_rx_core s', vhost_tx_core s') =
    (rx_plans (sl_dev w), tx_plans (sl_dev w), vhost_rx_core (sl_dev w), vhost_tx_core (sl_dev w)) ∧
    (∀ q, is_linked (sl_dev w) q → is_linked s' q) ∧ is_linked s' p.
Proof.
  intros Hq (Hwf & Haddr & _) (ip & Hip & Hu & Ho) Hs Hd.
  pose proof Hwf as ((_ & _ & _ & Hinj) & (Hrl & _) & _ & Hfl).
  assert (dev_ip (linked (buf m) d) = ip ∧ vm_id (linked (buf m) d) = vm_id_of ip) as [Eip Evm]
    by (unfold linked; by rewrite Hip).
  assert (learns d (buf m)) as Hlearn.
  { exists ip. split_and!; [done|done|]. intros Hr. rewrite Ho. symmetry. by eapply Haddr. }
  destruct (learn_device_eq (eth_rx_queues config) flow (msg_vid msg) p d (buf m) (sl_dev w)) as (fs & ns & _ & E);
    try done; [rewrite Evm; by apply usable_vm_id|].
  eexists. split; [exact E|]. split; [by eapply dstate_wf_learn|].
  split; [|split; [done|split; [done|split]]].
  - intros vid q e Hq' He Hre. cbn [devs] in He. destruct (decide (p = q)) as [<-|Hne].
    + rewrite lookup_insert_eq in He. injection He as <-. rewrite Eip, Ho. f_equal. symmetry. by eapply Hinj.
    + rewrite lookup_insert_ne in He by done. by eapply Haddr.
  - intros q (e & He & Hre). destruct (decide (p = q)) as [<-|Hne].
    + exists (linked (buf m) d). cbn [devs]. by rewrite lookup_insert_eq.
    + exists e. cbn [devs]. by rewrite lookup_insert_ne.
  - exists (linked (buf m) d). cbn [devs]. by rewrite lookup_insert_eq.
Qed.

Lemma msgs_ok_tail addr msg msgs w : msgs_ok addr (msg :: msgs) w → msgs_ok addr msgs w.
Proof.
  intros (Hv & Hl & [_ Hx] & Ht). apply Forall_cons in Hv as [_ Hv]. cbn [fmap list_fmap] in Hl.
  apply live_cons in Hl as [_ Hl]. split_and!; try done. intros msg' m Hin. apply Ht. by right.
Qed.

(** Freeing the mbuf of an ARP message leaves the later messages fit. *)
Lemma msgs_ok_delete addr msg msgs w pool' :
  msgs_ok addr (msg :: msgs) w → reason msg = SLOW_ARP_REQ → sl_pool w = pool' →
  live (delete (msg_mbuf msg) pool') (msg_mbuf <$> msgs) ∧
  ∀ msg' m, msg' ∈ msgs → reason msg' = SLOW_MAC_LEARNING →
    delete (msg_mbuf msg) pool' !! msg_mbuf msg' = Some m → teaches addr (msg_vid msg') (buf m).
Proof.
  intros (Hv & Hl & [Hx _] & Ht) Hr <-. specialize (Hx Hr). cbn [fmap list_fmap] in Hl.
  apply live_cons in Hl as [_ Hl]. split.
  - intros q Hq. rewrite lookup_delete_ne by (intros <-; done). by apply Hl.
  - intros msg' m Hin Hr' Hm. apply lookup_delete_Some in Hm as [_ Hm]. apply (Ht msg' m); [by right|done|done].
Qed.

Lemma process_msg_spec addr flow msg msgs w :
  0 < eth_rx_queues config → slow_wf addr w → msgs_ok addr (msg :: msgs) w →
  ∃ w', process_msg config flow msg w = Ok w' ∧ slow_wf addr w' ∧ msgs_ok addr msgs w' ∧ msgs_done [msg] w w'.
Proof.
  intros Hq Hwf Hok. pose proof Hwf as (Hd & Haddr & Hrl & Hst & Hls).
  pose proof Hok as (Hv & Hl & _ & Ht). apply Forall_cons in Hv as [Hv _].
  cbn [fmap list_fmap] in Hl. apply live_cons in Hl as [[m Hm] _].
  pose proof (msgs_ok_tail _ _ _ _ Hok) as Hok'. pose proof Hd as ((Hlv & _ & Hdev & _) & _).
  destruct (lookup_lt_is_Some_2 (vdevs (vlist (sl_dev w))) (msg_vid msg)) as [slot Hslot]; [lia|].
  assert (∀ x, reason msg = x → x ≠ SLOW_ETH_TX_FLOW → slot = None → msgs_done [msg] w w) as Hnone.
  { intros x Hx Hne ->. split_and!; try done.
    - rewrite filter_cons, decide_False; [done|]. intros [?|[p Hp]]; [congruence|]. by rewrite Hslot in Hp.
    - intros msg' p Hin _ Hs. apply list_elem_of_singleton in Hin as ->. unfold slot_is in Hs. congruence. }
  assert (∀ w', sl_dev w' = sl_dev w →
    pool_objs (sl_msgs w') ≡ₚ msg :: pool_objs (sl_msgs w) → reason msg ≠ SLOW_MAC_LEARNING →
    returned (vdevs (vlist (sl_dev w))) msg →
    (sl_ring w', sl_stats w', last_vhost_plan_update w') = (sl_ring w, sl_stats w, last_vhost_plan_update w) →
    msgs_done [msg] w w') as Hput.
  { intros w' Hs Hp Hne Hret Hother. unfold msgs_done. rewrite Hs, filter_cons, decide_True by done. split_and!; try done.
    intros msg' p Hin Hr. apply list_elem_of_singleton in Hin as ->. done. }
  unfold process_msg. destruct (reason msg) eqn:Er.
  - rewrite (arr_get_Some _ _ _ Hslot). cbn [mbind res_bind]. destruct slot as [p|]; [|exists w; split; [done|]; split; [done|]; split; [done|]; by apply (Hnone _ eq_refl)].
    pose proof (process_arp_req_eq (msg_vid msg) (msg_mbuf msg) (src msg) (sl_rings w) (sl_pool w) m Hm ltac:(lia)) as Harp.
    assert (returned (vdevs (vlist (sl_dev w))) msg) as Hret by (right; rewrite Hslot; by eexists).
    destruct (answers config (buf m)).
    + destruct Harp as (rings' & _ & -> & Hlr & _). cbn [mbind res_bind]. eexists. split; [done|].
      destruct (msgs_ok_delete addr msg msgs w _ Hok Er eq_refl) as [Hlive' Ht'].
      destruct Hok' as (Hv' & _ & Hx' & _). split; [|split].
      * split_and!; try done. cbn [sl_rings]. congruence.
      * by split_and!.
      * apply Hput; try done. apply pool_put.
    + rewrite Harp. cbn [mbind res_bind]. eexists. split; [done|]. split; [done|]. split; [done|].
      apply Hput; try done. apply pool_put.
  - rewrite (arr_get_Some _ _ _ Hslot). cbn [mbind res_bind]. destruct slot as [p|]; [|exists w; split; [done|]; split; [done|]; split; [done|]; by apply (Hnone _ eq_refl)].
    rewrite (heap_get_Some _ _ _ Hm). cbn [mbind res_bind]. destruct (Hdev (msg_vid msg) p Hslot) as (d & Hdd & _).
    destruct (learn_msg_wf addr flow msg w m p d Hq Hwf) as (s' & -> & Hwf' & Haddr' & Hvl & Hpl & Hlk & Hlp); try done.
    { apply (Ht msg m); [by left|done|done]. }
    cbn [mbind res_bind]. eexists. split; [done|]. split; [|split].
    * split_and!; try done. cbn [sl_stats sl_dev]. congruence.
    * done.
    * split_and!; try done.
      -- cbn [sl_msgs sl_dev]. rewrite filter_cons, decide_True by (right; rewrite Hslot; by eexists). apply pool_put.
      -- intros msg' q Hin _ Hs'. apply list_elem_of_singleton in Hin as ->. unfold slot_is in Hs'.
         assert (q = p) as -> by congruence. done.
  - eexists. split; [done|]. split; [done|]. split; [done|]. apply Hput; try done; [apply pool_put|by left].
Qed.

(** *** Requests from the wire *)

Lemma packets_kept_refl msgs w w' : (sl_rings w', sl_pool w') = (sl_rings w, sl_pool w) → packets_kept msgs w w'.
Proof. intros [= Hr Hp]. unfold packets_kept. by rewrite Hr, Hp. Qed.

Lemma packets_kept_app l1 l2 w1 w2 w3 : packets_kept l1 w1 w2 → packets_kept l2 w2 w3 → packets_kept (l1 ++ l2) w1 w3.
Proof.
  intros [Hr1 Hp1] [Hr2 Hp2]. split; [congruence|]. intros p. unfold arp_mbufs. rewrite filter_app, fmap_app.
  intros [H1' H2']%not_elem_of_app. rewrite Hp2 by done. by apply Hp1.
Qed.

Lemma process_arp_req_wire vid p rings pool x rings' pool' :
  process_arp_req config vid p SLOW_SRC_ETH rings pool = Ok (x, rings', pool') →
  rings' = rings ∧ ∀ q, q ≠ p → pool' !! q = pool !! q.
Proof.
  unfold process_arp_req. intros Heq. bind_step Heq as m Em. destruct (negb _); [by res_inv|]. destruct (negb _); [by res_inv|].
  bind_step Heq as [rings1 pool1] Eh. bind_step Heq as h' Eh'. injection Heq as <- <- <-.
  unfold arp_answer in Eh. bind_step Eh as h E. rewrite decide_False in Eh by done. injection Eh as <- <-.
  split; [done|]. intros q Hq. unfold heap_set in E. destruct (pool !! p); [injection E as <-|done]. apply heap_free_Ok in Eh' as [_ ->]. rewrite lookup_delete_ne by done. by rewrite lookup_insert_ne.
Qed.

Lemma process_msg_kept flow msg w w' :
  process_msg config flow msg w = Ok w' → from_wire [msg] → packets_kept [msg] w w'.
Proof.
  intros Heq Hw. unfold process_msg in Heq. destruct (reason msg) eqn:Er.
  - bind_step Heq as slot E. destruct slot; [|injection Heq as <-; by apply packets_kept_refl].
    rewrite (Hw msg) in Heq by (by left || done). bind_step Heq as [[x rings'] pool'] E0. injection Heq as <-.
    destruct (process_arp_req_wire _ _ _ _ _ _ _ E0) as [Hr Hp]. split; [exact Hr|]. intros q Hq. apply Hp.
    intros ->. apply Hq. unfold arp_mbufs. rewrite filter_cons, decide_True by done. by left.
  - bind_step Heq as slot E. destruct slot; [|injection Heq as <-; by apply packets_kept_refl].
    bind_step Heq as m Em. bind_step Heq as s' Es. injection Heq as <-.
    by apply packets_kept_refl.
  - injection Heq as <-. by apply packets_kept_refl.
Qed.

Lemma process_msgs_kept flows msgs k w w' :
  foldM (λ '(i, msg) w, process_msg config (flows i) msg w) (zip (seq k (length msgs)) msgs) w = Ok w' →
  from_wire msgs → packets_kept msgs w w'.
Proof.
  revert k w. induction msgs as [|msg msgs IH]; intros k w Heq Hw.
  { injection Heq as <-. by apply packets_kept_refl. }
  cbn [length seq zip zip_with foldM] in Heq. bind_step Heq as w1 E.
  apply (packets_kept_app [msg] msgs w w1).
  - eapply process_msg_kept; [exact E|]. intros msg' Hm. apply list_elem_of_singleton in Hm as ->. apply Hw. by left.
  - eapply IH; [exact Heq|]. intros msg' Hm. apply Hw. by right.
Qed.

(** ** Lemmas: a whole iteration *)

Lemma process_msgs_spec addr flows msgs k w :
  0 < eth_rx_queues config → slow_wf addr w → msgs_ok addr msgs w →
  ∃ w', foldM (λ '(i, msg) w, process_msg config (flows i) msg w) (zip (seq k (length msgs)) msgs) w = Ok w' ∧
    slow_wf addr w' ∧ msgs_done msgs w w'.
Proof.
  intros Hq. revert k w. induction msgs as [|msg msgs IH]; intros k w Hwf Hok.
  { exists w. split; [done|]. split; [done|]. apply msgs_done_refl. }
  cbn [length seq zip zip_with foldM].
  destruct (process_msg_spec addr (flows k) msg msgs w Hq Hwf Hok) as (w1 & -> & Hwf1 & Hok1 & Hd1).
  cbn [mbind res_bind]. destruct (IH (S k) w1 Hwf1 Hok1) as (w' & E & Hwf' & Hd').
  exists w'. split; [exact E|]. split; [done|]. by apply (msgs_done_app [msg] msgs w w1 w').
Qed.

Lemma stats_moved_refl stats : stats_moved stats stats.
Proof. apply Forall_Forall2_diag, Forall_true. intros st. apply Forall_Forall2_diag, Forall_true. by left. Qed.

Lemma stats_moved_calc alloc vdevs plans stats stats' :
  length stats' = length stats → length stats = length plans →
  Forall (λ st, length st = MAX_VHOSTS) stats →
  (∀ k p st, plans !! k = Some p → stats !! k = Some st → ∃ st', stats' !! k = Some st' ∧
     if forallb alloc (seq 0 k) then stats_advanced vdevs p st st' else st' = st) →
  stats_moved stats stats'.
Proof.
  intros Hl' Hl Hst Hk. apply Forall2_same_length_lookup_2; [done|]. intros k st st' Hs Hs'.
  destruct (lookup_lt_is_Some_2 plans k) as [p Hp]; [rewrite <- Hl; by eapply lookup_lt_Some|].
  destruct (Hk k p st Hp Hs) as (st2 & Hs2 & Hadv). assert (st2 = st') as -> by congruence.
  destruct (forallb alloc (seq 0 k)).
  - destruct Hadv as [Hl2 Hv]. pose proof (Forall_lookup_1 _ _ _ _ Hst Hs) as Hl1. cbn in Hl1.
    apply Forall2_same_length_lookup_2; [congruence|]. intros v x x' Hx Hx'. rewrite Hv, Hx in Hx'. cbn in Hx'.
    destruct (decide _); simplify_eq; auto.
  - subst st'. apply Forall_Forall2_diag, Forall_true. by left.
Qed.

(** Recomputing the plans keeps everything but the plans and their statistics. *)
Lemma replan_spec addr alloc_rx alloc_tx cur hz w :
  slow_wf addr w →
  ∃ w', replan alloc_rx alloc_tx cur hz w = Ok w' ∧ slow_wf addr w' ∧
    (devs (sl_dev w'), vlist (sl_dev w'), sl_pool w', sl_rings w', sl_ring w', sl_msgs w') =
    (devs (sl_dev w), vlist (sl_dev w), sl_pool w, sl_rings w, sl_ring w, sl_msgs w) ∧
    stats_moved (sl_stats w) (sl_stats w') ∧
    if hz <? u64 (cur - last_vhost_plan_update w) then last_vhost_plan_update w' = cur else w' = w.
Proof.
  intros Hwf. unfold replan. destruct (hz <? u64 (cur - last_vhost_plan_update w)).
  2:{ exists w. split_and!; try done. apply stats_moved_refl. }
  destruct Hwf as ((Hs & Hr & (Hh1 & Hn1 & Hh2 & Hn2) & Hf) & Haddr & Hrl & Hst & Hls).
  pose proof Hh1 as (Hlv & Hlc & Hps & _). pose proof Hh2 as (_ & Hlc2 & Hps2 & _).
  cbn [sys_vdevs sys_core sys_plans] in Hlv, Hlc, Hps, Hlc2, Hps2.
  destruct (calculate_rx_from_spec 0 alloc_rx (vdevs (vlist (sl_dev w))) (vhost_rx_core (sl_dev w)) (rx_plans (sl_dev w)) (sl_stats w))
    as (plans & stats & E1 & Hlp & Hlst & Hpl); try done.
  fold calculate_vhost_rx_plan in E1. rewrite E1. cbn [mbind res_bind].
  destruct (homed_calc_rx _ _ _ _ _ _ _ Hh1 Hn1 Hst Hls E1) as [Hh1' Hn1'].
  destruct (calculate_tx_from_spec 0 alloc_tx (vdevs (vlist (sl_dev w))) (vhost_tx_core (sl_dev w)) (tx_plans (sl_dev w)))
    as (plans2 & E2 & _); try done.
  fold calculate_vhost_tx_plan in E2. cbn [set_rx vlist vhost_tx_core tx_plans]. rewrite E2. cbn [mbind res_bind].
  destruct (homed_calc_tx _ _ _ _ _ Hh2 Hn2 E2) as [Hh2' Hn2'].
  eexists. split; [done|]. split; [|split; [done|split; [|done]]].
  2:{ apply (stats_moved_calc alloc_rx (vdevs (vlist (sl_dev w))) (rx_plans (sl_dev w))); try done.
      intros k p st Hp Hk. destruct (Hpl k p st Hp Hk) as (p' & st' & _ & ? & _ & ?). by exists st'. }
  split; [by split_and!|]. split; [exact Haddr|]. split; [done|]. split; [|cbn; congruence].
  apply Forall_lookup_2. intros k st' Hk. cbn [sl_stats] in Hk.
  destruct (lookup_lt_is_Some_2 (sl_stats w) k) as [st Hst']; [rewrite <- Hlst; by eapply lookup_lt_Some|].
  destruct (lookup_lt_is_Some_2 (rx_plans (sl_dev w)) k) as [p Hp]; [rewrite <- Hls; by eapply lookup_lt_Some|].
  destruct (Hpl k p st Hp Hst') as (p' & st2 & _ & Hk2 & _ & Hadv). assert (st2 = st') as -> by congruence.
  pose proof (Forall_lookup_1 _ _ _ _ Hst Hst') as Hl. destruct (forallb alloc_rx (seq 0 k)); [|congruence].
  by destruct Hadv as [-> _].
Qed.

(** What an iteration does; the last two clauses are for those who share the packets and
    the statistics with the slow path. *)
Lemma slowpath_iter_spec addr e w :
  let msgs := take MAX_PKT_BURST (ring_items (sl_ring w)) in
  0 < eth_rx_queues config → slow_wf addr w → msgs_ok addr msgs w →
  ∃ w', slowpath_iter config e w = Ok w' ∧ slow_wf addr w' ∧
    ring_items (sl_ring w') = drop MAX_PKT_BURST (ring_items (sl_ring w)) ∧
    pool_objs (sl_msgs w') ≡ₚ filter (returned (vdevs (vlist (sl_dev w)))) msgs ++ pool_objs (sl_msgs w) ∧
    vlist (sl_dev w') = vlist (sl_dev w) ∧
    (∀ msg p, msg ∈ msgs → reason msg = SLOW_MAC_LEARNING → slot_is (sl_dev w) (msg_vid msg) p → is_linked (sl_dev w') p) ∧
    (∀ p, is_linked (sl_dev w) p → is_linked (sl_dev w') p) ∧
    ((env_tsc_hz e <? u64 (env_cur_tsc e - last_vhost_plan_update w)) = false →
       (rx_plans (sl_dev w'), tx_plans (sl_dev w')) = (rx_plans (sl_dev w), tx_plans (sl_dev w))) ∧
    (from_wire msgs → packets_kept msgs w w') ∧ stats_moved (sl_stats w) (sl_stats w').
Proof.
  intros msgs Hq Hwf Hok. unfold slowpath_iter.
  destruct (rte_ring_dequeue_burst (sl_ring w) MAX_PKT_BURST) as [l r] eqn:E.
  destruct (ring_dequeue_eq _ _ _ _ _ E) as (-> & Hi & _). fold msgs. set (w0 := mk_slow_world _ _ _ _ _ _ _).
  destruct (process_msgs_spec addr (env_flows e) msgs 0 w0 Hq) as (w1 & E1 & Hwf1 & Hvl & Hpl & Hoth & Hm & Hlk & Hln);
    [exact Hwf|exact Hok|].
  rewrite E1. cbn [mbind res_bind].
  destruct (replan_spec addr (env_alloc_rx e) (env_alloc_tx e) (env_cur_tsc e) (env_tsc_hz e) w1 Hwf1)
    as (w' & -> & Hwf' & Hsame & Hmoved & Hdue).
  injection Hsame as Hd' Hv' Hp' Hrs' Hr' Hm'. injection Hoth as Hr1 Hst1 Hlast. injection Hpl as Hp1 Hp2 _ _.
  exists w'. split; [done|]. split; [done|]. split; [by rewrite Hr', Hr1|].
  split; [by rewrite Hm', Hm|]. split; [by rewrite Hv', Hvl|].
  unfold is_linked in *. rewrite Hd'. split; [exact Hln|]. split; [exact Hlk|]. split; [|split].
  - intros Hno. rewrite Hlast in Hdue. change (last_vhost_plan_update w0) with (last_vhost_plan_update w) in Hdue.
    rewrite Hno in Hdue. subst w'. by rewrite Hp1, Hp2.
  - intros Hw. destruct (process_msgs_kept _ _ _ _ _ E1 Hw) as [Hr2 Hp2']. split; [by rewrite Hrs', Hr2|].
    intros p Hp. rewrite Hp'. by apply Hp2'.
  - by rewrite Hst1 in Hmoved.
Qed.

(** *** What the messages do to the packets *)

(** The messages of a burst one after the other, the first with the flow [flows k]. *)
Definition process_msgs (flows : nat → option nat) (k : nat) (msgs : list slow_msg) (w : slow_world) : res slow_world :=
  foldM (λ '(i, msg) w, process_msg config (flows i) msg w) (zip (seq k (length msgs)) msgs) w.

(** The message is an ARP request for the data plane, and the slot of its VM is not empty. *)
Definition answered (w : slow_world) (msg : slow_msg) : bool :=
  match reason msg, mjoin (vdevs (vlist (sl_dev w)) !! msg_vid msg), sl_pool w !! msg_mbuf msg with
  | SLOW_ARP_REQ, Some _, Some m => answers config (buf m)
  | _, _, _ => false
  end.

(** The mbufs whose requests are answered, and those of VM [v] among them. *)
Definition answered_mbufs (w : slow_world) (msgs : list slow_msg) : list nat :=
  msg_mbuf <$> filter (λ msg, answered w msg = true) msgs.
Definition replies (w : slow_world) (v : nat) (msgs : list slow_msg) : list nat :=
  msg_mbuf <$> filter (λ msg, answered w msg = true ∧ src msg = SLOW_SRC_VHOST ∧ msg_vid msg = v) msgs.

(** Each VM's ring gets the replies to that VM, oldest first, as far as there is room, and
    the mbufs of all answered requests are freed; nothing else changes. *)
Definition packets_done (msgs : list slow_msg) (w w' : slow_world) : Prop :=
  length (sl_rings w') = length (sl_rings w) ∧
  (∀ v r, sl_rings w !! v = Some r → ∃ r', sl_rings w' !! v = Some r' ∧ ring_capacity r' = ring_capacity r ∧
     ring_items r' = ring_items r ++ take (rte_ring_free_count r) (replies w v msgs)) ∧
  ∀ p, sl_pool w' !! p = if decide (p ∈ answered_mbufs w msgs) then None else sl_pool w !! p.

Lemma packets_done_same msgs w w' :
  (sl_rings w', sl_pool w') = (sl_rings w, sl_pool w) → (∀ msg, msg ∈ msgs → answered w msg = false) → packets_done msgs w w'.
Proof.
  intros [= Hr Hp] Hno. unfold packets_done. rewrite Hr, Hp. split; [done|].
  assert (∀ P : slow_msg → Prop, ∀ H : ∀ msg, Decision (P msg), (∀ msg, P msg → answered w msg = true) → filter P msgs = []) as Hf.
  { intros P HP Himp. destruct (filter P msgs) as [|msg l] eqn:E; [done|].
    assert (msg ∈ filter P msgs) as [Hmsg Hin]%list_elem_of_filter by (rewrite E; by left).
    apply Himp in Hmsg. by rewrite Hno in Hmsg. }
  split.
  - intros v r Hv. exists r. unfold replies. rewrite Hf by tauto. cbn [fmap list_fmap]. by rewrite take_nil, app_nil_r.
  - intros p. unfold answered_mbufs. rewrite Hf by done. by rewrite decide_False by apply not_elem_of_nil.
Qed.

Lemma packets_done_cons msg msgs w w1 w2 :
  packets_done [msg] w w1 → packets_done msgs w1 w2 → (∀ m, m ∈ msgs → answered w1 m = answered w m) →
  packets_done (msg :: msgs) w w2.
Proof.
  intros (Hl1 & Hr1 & Hp1) (Hl2 & Hr2 & Hp2) Hsame.
  assert (∀ v, replies w1 v msgs = replies w v msgs) as Hrep
    by (intros v; unfold replies; f_equal; apply filter_ext_in; intros m Hm; by rewrite Hsame).
  assert (answered_mbufs w1 msgs = answered_mbufs w msgs) as Hans
    by (unfold answered_mbufs; f_equal; apply filter_ext_in; intros m Hm; by rewrite Hsame).
  split; [congruence|]. split.
  - intros v r Hv. destruct (Hr1 v r Hv) as (r1 & Hv1 & Hc1 & Hi1). destruct (Hr2 v r1 Hv1) as (r2 & Hv2 & Hc2 & Hi2).
    exists r2. split; [done|]. split; [congruence|]. rewrite Hi2, Hi1, Hrep, <- app_assoc. f_equal.
    assert (replies w v (msg :: msgs) = replies w v [msg] ++ replies w v msgs) as ->
      by (unfold replies; rewrite <- fmap_app; f_equal; apply (filter_app _ [msg] msgs)).
    rewrite take_app. f_equal.
    rewrite !ring_free_count_eq, Hc1, Hi1, length_app, length_take, ring_free_count_eq. f_equal. lia.
  - intros p. rewrite Hp2, Hp1, Hans.
    assert (answered_mbufs w (msg :: msgs) = answered_mbufs w [msg] ++ answered_mbufs w msgs) as ->
      by (unfold answered_mbufs; rewrite <- fmap_app; f_equal; apply (filter_app _ [msg] msgs)).
    destruct (decide (p ∈ answered_mbufs w msgs)), (decide (p ∈ answered_mbufs w [msg]));
      first [by rewrite decide_True by (apply elem_of_app; tauto)|by rewrite decide_False by (rewrite elem_of_app; tauto)].
Qed.

Lemma process_msg_packets flow msg w w' :
  (msg_vid msg < length (sl_rings w))%nat → is_Some (sl_pool w !! msg_mbuf msg) →
  process_msg config flow msg w = Ok w' → packets_done [msg] w w'.
Proof.
  intros Hv [m Hm] Heq. unfold process_msg in Heq.
  assert (answered w msg = false → (sl_rings w', sl_pool w') = (sl_rings w, sl_pool w) → packets_done [msg] w w') as Hsame.
  { intros Hno Hw. apply packets_done_same; [done|]. by intros msg' ->%list_elem_of_singleton. }
  unfold answered in Hsame. destruct (reason msg) eqn:Er.
  - bind_step Heq as slot E. apply arr_get_Ok in E. rewrite E in Hsame. cbn [mjoin option_join] in Hsame.
    destruct slot as [p|]; [|injection Heq as <-; by apply Hsame]. rewrite Hm in Hsame.
    pose proof (process_arp_req_eq (msg_vid msg) (msg_mbuf msg) (src msg) (sl_rings w) (sl_pool w) m Hm Hv) as Harp.
    assert (answered w msg = answers config (buf m)) as Ha by (unfold answered; rewrite Er, E, Hm; done).
    destruct (answers config (buf m)).
    + destruct Harp as (rings' & _ & Hrun & Hl & Hr). rewrite Hrun in Heq. injection Heq as <-.
      split; [exact Hl|]. split; cbn [sl_rings sl_pool].
      * intros v r Hvr. destruct (Hr v r Hvr) as (r' & Hv' & Hc & Hi). exists r'. split_and!; [done|done|]. rewrite Hi. f_equal.
        unfold replies. rewrite filter_cons, filter_nil.
        destruct (decide (v = msg_vid msg)) as [->|Hne], (decide (src msg = SLOW_SRC_VHOST));
          first [rewrite decide_True by done|rewrite decide_False by (intros (? & ? & ?); congruence)]; cbn [fmap list_fmap]; by rewrite ?take_nil.
      * intros q. unfold answered_mbufs. rewrite filter_cons, filter_nil, (decide_True (P := answered w msg = true)) by done. cbn [fmap list_fmap].
        destruct (decide (q = msg_mbuf msg)) as [->|Hne].
        -- by rewrite lookup_delete_eq, decide_True by by left.
        -- rewrite lookup_delete_ne, decide_False by (done || by rewrite list_elem_of_singleton). done.
    + rewrite Harp in Heq. injection Heq as <-. by apply Hsame.
  - bind_step Heq as slot E. destruct slot; [|injection Heq as <-; by apply Hsame].
    bind_step Heq as m' Em. bind_step Heq as s' Es. injection Heq as <-. by apply Hsame.
  - injection Heq as <-. by apply Hsame.
Qed.

Lemma process_msgs_reach addr flows pre rest k w :
  0 < eth_rx_queues config → slow_wf addr w → msgs_ok addr (pre ++ rest) w →
  ∃ w1, process_msgs flows k pre w = Ok w1 ∧ slow_wf addr w1 ∧ msgs_ok addr rest w1 ∧ packets_done pre w w1 ∧
    vlist (sl_dev w1) = vlist (sl_dev w) ∧
    ∀ msg, msg ∈ rest → sl_pool w1 !! msg_mbuf msg = sl_pool w !! msg_mbuf msg.
Proof.
  intros Hq. revert k w. induction pre as [|msg pre IH]; intros k w Hwf Hok.
  { exists w. split_and!; try done. apply packets_done_same; [done|]. intros msg Hin. by apply not_elem_of_nil in Hin. }
  cbn [app] in Hok. unfold process_msgs. cbn [length seq zip zip_with foldM].
  destruct (process_msg_spec addr (flows k) msg (pre ++ rest) w Hq Hwf Hok) as (w1 & E & Hwf1 & Hok1 & (Hvl & _)).
  rewrite E. cbn [mbind res_bind]. destruct (IH (S k) w1 Hwf1 Hok1) as (w2 & E2 & Hwf2 & Hok2 & Hp2 & Hvl2 & Hsame2).
  pose proof Hok as (Hv & Hlive & [Hx _] & _). apply Forall_cons in Hv as [Hv _]. cbn [fmap list_fmap] in Hlive.
  apply live_cons in Hlive as [Hlive _]. pose proof Hwf as (_ & _ & Hrl & _).
  pose proof (process_msg_packets (flows k) msg w w1 ltac:(lia) Hlive E) as Hp1.
  assert (∀ m, m ∈ pre ++ rest → sl_pool w1 !! msg_mbuf m = sl_pool w !! msg_mbuf m) as Hsame1.
  { intros m Hm. destruct Hp1 as (_ & _ & ->). rewrite decide_False; [done|]. unfold answered_mbufs.
    rewrite filter_cons, filter_nil. case_decide as Ha; [|apply not_elem_of_nil]. cbn. rewrite list_elem_of_singleton.
    unfold answered in Ha. destruct (reason msg); [|done|done]. intros Heq. apply Hx; [done|]. rewrite <- Heq.
    by apply list_elem_of_fmap_2. }
  exists w2. split; [exact E2|]. split; [done|]. split; [done|]. split; [|split; [congruence|]].
  - apply (packets_done_cons msg pre w w1 w2 Hp1 Hp2). intros m Hm. unfold answered. rewrite Hvl.
    by rewrite Hsame1 by (apply elem_of_app; by left).
  - intros m Hm. rewrite Hsame2 by done. apply Hsame1. apply elem_of_app. by right.
Qed.

(** *** What a recomputation does *)

(** Core by core, the plans are the specified ones, unless an allocation failed for the
    core or an earlier one, and the windows of the VMs visited are advanced. *)
Definition plans_recomputed (alloc_rx alloc_tx : nat → bool) (w w' : slow_world) : Prop :=
  let s := sl_dev w in let s' := sl_dev w' in let vds := vdevs (vlist s) in
  (∀ k p st, rx_plans s !! k = Some p → sl_stats w !! k = Some st →
     ∃ p' st', rx_plans s' !! k = Some p' ∧ sl_stats w' !! k = Some st' ∧
       replanned alloc_rx 0 (S k) p p' (rx_plan_spec k vds (vhost_rx_core s) p st) ∧
       if forallb alloc_rx (seq 0 k) then stats_advanced vds p st st' else st' = st) ∧
  (∀ k p, tx_plans s !! k = Some p →
     ∃ p', tx_plans s' !! k = Some p' ∧ replanned alloc_tx 0 (S k) p p' (tx_plan_spec k vds (vhost_tx_core s) p)).

Lemma replan_recomputes addr alloc_rx alloc_tx cur hz w w' :
  slow_wf addr w → replan alloc_rx alloc_tx cur hz w = Ok w' →
  if hz <? u64 (cur - last_vhost_plan_update w) then plans_recomputed alloc_rx alloc_tx w w' else w' = w.
Proof.
  intros ((Hs & Hr & (Hh1 & Hn1 & Hh2 & Hn2) & Hf) & Haddr & Hrl & Hst & Hls) Heq. unfold replan in Heq.
  destruct (hz <? u64 (cur - last_vhost_plan_update w)); [|by injection Heq].
  pose proof Hh1 as (Hlv & Hlc & Hps & _). pose proof Hh2 as (_ & Hlc2 & Hps2 & _).
  cbn [sys_vdevs sys_core sys_plans] in Hlv, Hlc, Hps, Hlc2, Hps2.
  destruct (calculate_rx_from_spec 0 alloc_rx (vdevs (vlist (sl_dev w))) (vhost_rx_core (sl_dev w)) (rx_plans (sl_dev w)) (sl_stats w))
    as (plans & stats & E1 & _ & _ & Hrx); try done.
  fold calculate_vhost_rx_plan in E1. rewrite E1 in Heq. cbn [mbind res_bind] in Heq.
  destruct (calculate_tx_from_spec 0 alloc_tx (vdevs (vlist (sl_dev w))) (vhost_tx_core (sl_dev w)) (tx_plans (sl_dev w)))
    as (plans2 & E2 & _ & Htx); try done.
  fold calculate_vhost_tx_plan in E2. cbn [set_rx vlist vhost_tx_core tx_plans] in Heq. rewrite E2 in Heq. injection Heq as <-.
  split; [exact Hrx|exact Htx].
Qed.

(** The world once the messages are off the slow ring. *)
Definition with_ring (r : ring slow_msg) (w : slow_world) : slow_world :=
  mk_slow_world (sl_dev w) (sl_pool w) (sl_rings w) r (sl_msgs w) (sl_stats w) (last_vhost_plan_update w).

(** When the turn of an answered request comes, after the messages [pre], its mbuf is
    turned into the reply before it is put on the ring, and freed after that. *)
Definition replies_sent (e : slow_env) (w : slow_world) (msgs : list slow_msg) : Prop :=
  ∀ pre msg post m, msgs = pre ++ msg :: post → answered w msg = true → sl_pool w !! msg_mbuf msg = Some m →
    wf_buf (buf m) → mac_wf (cfg_mac config) → in_u 32 (cfg_ip config) →
    let r := (rte_ring_dequeue_burst (sl_ring w) MAX_PKT_BURST).2 in
    ∃ w1 rings' b', process_msgs (env_flows e) 0 pre (with_ring r w) = Ok w1 ∧ is_arp_reply config (buf m) b' ∧
      arp_answer config (msg_vid msg) (msg_mbuf msg) m (src msg) (sl_rings w1) (sl_pool w1) =
        Ok (rings', <[msg_mbuf msg := set_buf b' m]> (sl_pool w1)) ∧
      process_arp_req config (msg_vid msg) (msg_mbuf msg) (src msg) (sl_rings w1) (sl_pool w1) =
        Ok (0, rings', delete (msg_mbuf msg) (sl_pool w1)).

Lemma slowpath_iter_packets addr e w w' :
  let msgs := take MAX_PKT_BURST (ring_items (sl_ring w)) in
  0 < eth_rx_queues config → slow_wf addr w → msgs_ok addr msgs w → slowpath_iter config e w = Ok w' →
  packets_done msgs w w' ∧ replies_sent e w msgs ∧
  if env_tsc_hz e <? u64 (env_cur_tsc e - last_vhost_plan_update w)
  then plans_recomputed (env_alloc_rx e) (env_alloc_tx e) w w' ∧ last_vhost_plan_update w' = env_cur_tsc e
  else (rx_plans (sl_dev w'), tx_plans (sl_dev w'), sl_stats w', last_vhost_plan_update w') =
       (rx_plans (sl_dev w), tx_plans (sl_dev w), sl_stats w, last_vhost_plan_update w).
Proof.
  intros msgs Hq Hwf Hok Hrun. unfold slowpath_iter in Hrun.
  destruct (rte_ring_dequeue_burst (sl_ring w) MAX_PKT_BURST) as [l r] eqn:E.
  destruct (ring_dequeue_eq _ _ _ _ _ E) as (-> & _). fold msgs in Hrun. fold (with_ring r w) in Hrun.
  fold (process_msgs (env_flows e) 0 msgs (with_ring r w)) in Hrun.
  destruct (process_msgs_spec addr (env_flows e) msgs 0 (with_ring r w) Hq) as (w1 & E1 & Hwf1 & Hvl & Hpl & Hoth & _);
    [exact Hwf|exact Hok|]. fold (process_msgs (env_flows e) 0 msgs (with_ring r w)) in E1. rewrite E1 in Hrun.
  cbn [mbind res_bind] in Hrun. injection Hoth as _ Hst1 Hlast. injection Hpl as Hp1 Hp2 Hc1 Hc2.
  destruct (replan_spec addr (env_alloc_rx e) (env_alloc_tx e) (env_cur_tsc e) (env_tsc_hz e) w1 Hwf1)
    as (w2 & E2 & _ & Hsame & _ & Hdue). assert (w2 = w') as -> by congruence. injection Hsame as _ _ Hpool Hrings _ _.
  pose proof (replan_recomputes addr _ _ _ _ _ _ Hwf1 Hrun) as Hre. rewrite Hlast in Hdue, Hre.
  change (last_vhost_plan_update (with_ring r w)) with (last_vhost_plan_update w) in Hlast, Hdue, Hre.
  split; [|split].
  - destruct (process_msgs_reach addr (env_flows e) msgs [] 0 (with_ring r w) Hq Hwf) as (w3 & E3 & _ & _ & Hpk & _).
    { by rewrite app_nil_r. }
    assert (w3 = w1) as -> by congruence. unfold packets_done in *. rewrite Hpool, Hrings. exact Hpk.
  - intros pre msg post m Hmsgs Ha Hm Hb Hmac Hc. rewrite E. cbn [snd].
    destruct (process_msgs_reach addr (env_flows e) pre (msg :: post) 0 (with_ring r w) Hq Hwf) as (w3 & E3 & Hwf3 & Hok3 & _ & _ & Hsame).
    { by rewrite <- Hmsgs. }
    specialize (Hsame msg ltac:(by left)). change (sl_pool (with_ring r w)) with (sl_pool w) in Hsame. rewrite Hm in Hsame.
    destruct Hok3 as (Hv & _). apply Forall_cons in Hv as [Hv _]. destruct Hwf3 as (_ & _ & Hrl & _).
    pose proof (process_arp_req_eq (msg_vid msg) (msg_mbuf msg) (src msg) (sl_rings w3) (sl_pool w3) m Hsame ltac:(lia)) as Harp.
    assert (answers config (buf m) = true) as Hans by (unfold answered in Ha; rewrite Hm in Ha; by repeat case_match).
    rewrite Hans in Harp. destruct Harp as (rings' & Hr1 & Hr2 & _).
    exists w3, rings', (arp_reply config (buf m)). split_and!; [exact E3|by apply arp_reply_is_reply|done|done].
  - destruct (env_tsc_hz e <? _); [|subst w'; congruence]. split; [|done].
    unfold plans_recomputed in *. rewrite Hvl, Hp1, Hp2, Hc1, Hc2, Hst1 in Hre. exact Hre.
Qed.

(** ** Properties *)

(** [C12] What happens to an ARP request.  A frame that does not ask for the data plane's
    address is left alone, and the result is -1.  Otherwise the result is 0: the request
    is rewritten in place into the reply, and if it came from a VM it is then put on that
    VM's ring, room permitting; no other ring changes, and none for a request from the
    wire, to which no reply is sent at all.  After that the mbuf is freed, on the ring or
    not. *)
Theorem process_arp_req_correct (vid p : nat) (src : slow_src) (rings : list (ring nat)) (pool : gmap nat mbuf) (m : mbuf) :
  pool !! p = Some m → (vid < length rings)%nat →
  wf_buf (buf m) → mac_wf (cfg_mac config) → in_u 32 (cfg_ip config) →
  if decide (net 2 20 (buf m) = 1 ∧ net 4 38 (buf m) = cfg_ip config) then
    ∃ rings' b', is_arp_reply config (buf m) b' ∧
      arp_answer config vid p m src rings pool = Ok (rings', <[p := set_buf b' m]> pool) ∧
      process_arp_req config vid p src rings pool = Ok (0, rings', delete p pool) ∧ length rings' = length rings ∧
      ∀ v r, rings !! v = Some r → ∃ r', rings' !! v = Some r' ∧ ring_capacity r' = ring_capacity r ∧
        ring_items r' = ring_items r ++
          if decide (v = vid ∧ src = SLOW_SRC_VHOST) then take (rte_ring_free_count r) [p] else []
  else process_arp_req config vid p src rings pool = Ok (-1, rings, pool).
Proof.
  intros Hp Hv Hwf Hmac Hc. pose proof (process_arp_req_eq vid p src rings pool m Hp Hv) as Heq.
  rewrite answers_net in Heq by done. case_bool_decide as Ha; [rewrite decide_True by done|by rewrite decide_False by done].
  destruct Heq as (rings' & Hans & Hrun & Hl & Hr). exists rings', (arp_reply config (buf m)).
  split_and!; [by apply arp_reply_is_reply|done|done|done|]. intros v r Hvr. destruct (Hr v r Hvr) as (r' & Hr' & Hcap & Hi).
  exists r'. split_and!; [done|done|]. rewrite Hi. f_equal.
  destruct (decide (v = vid)), (decide (src = SLOW_SRC_VHOST)); rewrite ?take_nil;
    first [by rewrite decide_True by tauto|by rewrite decide_False by tauto].
Qed.

(** The reply to a VM is used after it was freed.  After a request from VM [vid]
    has been answered on an empty ring, the next visit of that VM by its vhost_tx
    core, if the guest takes the packet, frees it a second time. *)
Theorem arp_reply_double_free (vid p : nat) (m : mbuf) (e : tx_env) (vm : vhost_tx_vm) (r : ring nat) (g : list nat)
    (tw : tx_world) (rings' : list (ring nat)) (pool' : gmap nat mbuf) :
  (vid < MAX_VHOSTS)%nat → answers config (buf m) = true → tx_pool tw !! p = Some m →
  vhost_tx_rings tw !! vid = Some r → ring_items r = [] → (0 < rte_ring_free_count r)%nat →
  tx_vms tw !! vid = Some vm → retry_cnt vm = 0%nat → backed_off e vm = false → guest tw !! vid = Some g →
  env_ret e 1 = 1 →
  process_arp_req config vid p SLOW_SRC_VHOST (vhost_tx_rings tw) (tx_pool tw) = Ok (0, rings', pool') →
  vhost_tx_visit e vid (mk_tx_world (tx_vms tw) rings' pool' (guest tw)) = Fault DoubleFree.
Proof.
  intros Hv Ha Hp Hr Hri Hfree Hvm Hrc Hbo Hg Hret Harp.
  pose proof (process_arp_req_eq vid p SLOW_SRC_VHOST (vhost_tx_rings tw) (tx_pool tw) m Hp) as Heq.
  rewrite Ha in Heq. destruct Heq as (rings2 & _ & Heq & _ & Hrings); [by eapply lookup_lt_Some|].
  rewrite Heq in Harp. injection Harp as -> <-. destruct (Hrings vid r Hr) as (r' & Hr' & _ & Hi).
  do 2 rewrite decide_True in Hi by done. rewrite Hri in Hi. destruct (rte_ring_free_count r) as [|n]; [lia|].
  cbn [take app] in Hi. rewrite take_nil in Hi. unfold vhost_tx_visit. cbn [tx_vms vhost_tx_rings tx_pool guest].
  rewrite decide_False by lia. rewrite (arr_get_Some _ _ _ Hvm). cbn [mbind res_bind].
  fold (backed_off e vm). rewrite Hbo, (arr_get_Some _ _ _ Hg). cbn [mbind res_bind].
  rewrite decide_False by lia. rewrite (arr_get_Some _ _ _ Hr'). cbn [mbind res_bind].
  destruct (rte_ring_dequeue_burst r' MAX_PKT_BURST) as [l r2] eqn:E.
  destruct (ring_dequeue_eq _ _ _ _ _ E) as (-> & _ & _). rewrite Hi. replace (take MAX_PKT_BURST [p]) with [p] by done.
  cbn [length]. rewrite (decide_False (P := 1%nat = MAX_PKT_BURST)) by done.
  rewrite (decide_True (P := (0 < 1)%nat)) by lia. unfold vhost_send.
  rewrite Hret. change (sent_count 1) with 1%nat.
  rewrite (decide_False (P := (1 < 1)%nat)) by lia. cbn [mbind res_bind].
  unfold free_pkts. cbn [seq rev app foldM]. change (arr_get [p] 0) with (Ok p). cbn [mbind res_bind].
  assert (heap_free (delete p (tx_pool tw)) p = Fault DoubleFree) as -> by (unfold heap_free; by rewrite lookup_delete_eq).
  done.
Qed.

(** [C11] One iteration of the control loop.  While the mbufs of its messages are live
    and learning messages teach usable addresses it does not fault; it takes at most 64
    messages, oldest first; every VM that asked for learning and still exists is linked
    afterwards and linked VMs stay linked; a message goes back to the pool exactly once,
    unless the slot of its VM is empty, in which case it is lost.  Each ARP request for the
    data plane whose VM still exists is rewritten into the reply; the replies to requests
    from a VM are put on its ring, in order and as far as there is room, and all of these
    mbufs are freed; no other packet and no other ring content changes.  When a second has
    passed since the last time, the plans of all cores are recomputed (up to the first
    failed allocation), the windows advanced and the time noted; otherwise plans,
    statistics and that time stay.  The device invariant holds again. *)
Theorem slowpath_iter_correct (addr : nat → nat) (e : slow_env) (w : slow_world) :
  let msgs := take MAX_PKT_BURST (ring_items (sl_ring w)) in
  0 < eth_rx_queues config → slow_wf addr w → msgs_ok addr msgs w →
  ∃ w', slowpath_iter config e w = Ok w' ∧ slow_wf addr w' ∧
    ring_items (sl_ring w') = drop MAX_PKT_BURST (ring_items (sl_ring w)) ∧
    pool_objs (sl_msgs w') ≡ₚ filter (returned (vdevs (vlist (sl_dev w)))) msgs ++ pool_objs (sl_msgs w) ∧
    vlist (sl_dev w') = vlist (sl_dev w) ∧
    (∀ msg p, msg ∈ msgs → reason msg = SLOW_MAC_LEARNING → slot_is (sl_dev w) (msg_vid msg) p → is_linked (sl_dev w') p) ∧
    (∀ p, is_linked (sl_dev w) p → is_linked (sl_dev w') p) ∧
    packets_done msgs w w' ∧ replies_sent e w msgs ∧
    if env_tsc_hz e <? u64 (env_cur_tsc e - last_vhost_plan_update w)
    then plans_recomputed (env_alloc_rx e) (env_alloc_tx e) w w' ∧ last_vhost_plan_update w' = env_cur_tsc e
    else (rx_plans (sl_dev w'), tx_plans (sl_dev w'), sl_stats w', last_vhost_plan_update w') =
         (rx_plans (sl_dev w), tx_plans (sl_dev w), sl_stats w, last_vhost_plan_update w).
Proof.
  intros msgs Hq Hwf Hok. destruct (slowpath_iter_spec addr e w Hq Hwf Hok) as (w' & Hrun & Hwf' & Hr & Hm & Hv & Hn & Hl & _).
  exists w'. do 7 (split; [done|]). by apply (slowpath_iter_packets addr).
Qed.

(** The vid of an ARP request from the wire is not set.  The control loop looks up
    the vid of the message's previous use: outside the table that is an out-of-bounds
    read; if it names an empty slot the request is ignored, and neither its mbuf nor
    the message is ever released. *)
Theorem eth_arp_vid_unset (flow : option nat) (queue p : nat) (stale : slow_msg) (w : slow_world) :
  let msg := eth_arp_msg queue p stale in
  ((length (vdevs (vlist (sl_dev w))) ≤ msg_vid stale)%nat → process_msg config flow msg w = Fault OutOfBounds) ∧
  (vdevs (vlist (sl_dev w)) !! msg_vid stale = Some None → process_msg config flow msg w = Ok w).
Proof.
  cbv zeta. unfold process_msg. cbn [reason eth_arp_msg msg_vid]. split.
  - intros Hle. unfold arr_get. by rewrite lookup_ge_None_2.
  - intros Hs. by rewrite (arr_get_Some _ _ _ Hs).
Qed.
End slowpath_lemmas.

(** ** Witnesses *)

Lemma demo_arp_wf : wf_buf (demo_arp_buf 1 9 1).
Proof. refine (bool_decide_unpack _ _). vm_compute. exact I. Qed.

(** An empty ring per VM. *)
Definition demo_rings : list (@ring list_ring nat) := replicate MAX_VHOSTS (127%nat, []).

Definition demo_arp_pool : gmap nat mbuf := {[7%nat := demo_mbuf (demo_arp_buf 1 9 1)]}.

Lemma process_arp_req_correct_witness :
  ∃ rings' b', process_arp_req demo_config 2 7 SLOW_SRC_VHOST demo_rings demo_arp_pool = Ok (0, rings', ∅) ∧
    rings' !! 2%nat = Some (127%nat, [7%nat]) ∧ arp_tha b' = [2;0;0;0;0;9] ∧ net 4 28 b' = 0xC0A86401 ∧
    arp_answer demo_config 2 7 (demo_mbuf (demo_arp_buf 1 9 1)) SLOW_SRC_VHOST demo_rings demo_arp_pool =
      Ok (rings', {[7%nat := demo_mbuf b']}).
Proof.
  pose proof (process_arp_req_correct demo_config 2 7 SLOW_SRC_VHOST demo_rings demo_arp_pool
    (demo_mbuf (demo_arp_buf 1 9 1)) eq_refl ltac:(vm_compute; lia) demo_arp_wf) as Hp.
  rewrite decide_True in Hp by (split; vm_compute; reflexivity).
  destruct Hp as (rings' & b' & (_ & _ & _ & _ & _ & Hip & Htha & _) & Hans & Hrun & _).
  - split; [reflexivity|]. refine (bool_decide_unpack _ _). vm_compute. exact I.
  - vm_compute. split; congruence.
  - exists rings', b'. split; [exact Hrun|]. split; [vm_compute in Hrun; injection Hrun as <-; reflexivity|].
    split; [exact Htha|]. split; [exact Hip|exact Hans].
Defined.

Lemma arp_reply_double_free_witness :
  ∃ rings' pool', process_arp_req demo_config 2 7 SLOW_SRC_VHOST demo_rings demo_arp_pool
      = Ok (0, rings', pool') ∧
    vhost_tx_visit demo_tx_env 2 (mk_tx_world (replicate MAX_VHOSTS demo_tx_vm) rings' pool' (replicate MAX_VHOSTS []))
      = Fault DoubleFree.
Proof.
  eexists _, _. split; [vm_compute; reflexivity|].
  eapply (arp_reply_double_free demo_config 2 7 (demo_mbuf (demo_arp_buf 1 9 1)) demo_tx_env demo_tx_vm
    ((127%nat, []) : @ring list_ring nat) []
    (mk_tx_world (replicate MAX_VHOSTS demo_tx_vm) demo_rings demo_arp_pool (replicate MAX_VHOSTS [])));
    try reflexivity; try (refine (bool_decide_unpack _ _); vm_compute; exact I).
Defined.

(** One new device, VM 0 at address 100, with a learning message and an ARP request. *)
Definition demo_new : dstate :=
  match new_device 0 (Some 100%nat) true true true (init_dstate 1 1) with Ok (_, s) => s | Fault _ => init_dstate 1 1 end.

Lemma demo_new_ok : dstate_wf demo_new ∧ slot_is demo_new 0 100 ∧ devs demo_new !! 100%nat = Some (new_vhost_dev 0).
Proof.
  destruct demo_dstate_new as (s & E & Hreach & Hs & Hd). unfold demo_new. rewrite E.
  split; [exact (dstate_wf_reach 4 1 1 s eq_refl Nat.lt_0_1 Nat.lt_0_1 Hreach)|done].
Qed.

Definition demo_slow_world : slow_world :=
  mk_slow_world demo_new
    {[7%nat := demo_mbuf (demo_arp_buf 1 9 1); 8%nat := demo_mbuf (demo_ip_buf 0 17 [192;168;100;5] [192;168;100;1])]}
    demo_rings
    ((127%nat, [mk_slow_msg SLOW_MAC_LEARNING SLOW_SRC_VHOST 0 0 8; mk_slow_msg SLOW_ARP_REQ SLOW_SRC_VHOST 0 0 7]) : @ring list_ring slow_msg)
    [] (replicate 1 (replicate MAX_VHOSTS (demo_stats 0))) 0.

Lemma demo_slow_wf : slow_wf (λ _, 5%nat) demo_slow_world.
Proof.
  destruct demo_new_ok as (Hwf & Hs & Hd). split; [exact Hwf|].
  split; [|split; [done|split; [refine (bool_decide_unpack _ _); vm_compute; exact I|]]].
  - intros vid p d Hvp Hdp Hr. cbn [sl_dev demo_slow_world] in *. exfalso.
    assert (p = 100%nat) as ->.
    { assert (map_to_list (devs demo_new) = [(100%nat, new_vhost_dev 0)]) as Hl by (vm_compute; reflexivity).
      apply elem_of_map_to_list in Hdp. rewrite Hl in Hdp. apply list_elem_of_singleton in Hdp. congruence. }
    rewrite Hd in Hdp. injection Hdp as <-. discriminate Hr.
  - vm_compute. reflexivity.
Qed.

(** After an iteration more than a second after the last plans: VM 0 is linked, the reply
    to it is on its ring, the request's mbuf is freed and the plans are new. *)
Lemma slowpath_iter_correct_witness :
  ∃ w', slowpath_iter demo_config (mk_slow_env 25 10 (λ _, Some 1%nat) (λ _, true) (λ _, true)) demo_slow_world = Ok w' ∧
    is_linked (sl_dev w') 100 ∧ ring_items (sl_ring w') = [] ∧
    (∃ r, sl_rings w' !! 0%nat = Some r ∧ ring_items r = [7%nat]) ∧ sl_pool w' !! 7%nat = None ∧
    (∃ p, rx_plans (sl_dev w') !! 0%nat = Some p ∧ plan_list p = [0%nat]) ∧ last_vhost_plan_update w' = 25.
Proof.
  destruct (slowpath_iter_correct demo_config (λ _, 5%nat) (mk_slow_env 25 10 (λ _, Some 1%nat) (λ _, true) (λ _, true)) demo_slow_world)
    as (w' & E & _ & Hr & _ & _ & Hl & _ & (_ & Hrings & Hpool) & _ & (Hrx & _) & Hlast).
  - reflexivity.
  - exact demo_slow_wf.
  - split; [refine (bool_decide_unpack _ _); vm_compute; exact I|]. split.
    + intros p Hp. cbn in Hp. repeat (apply elem_of_cons in Hp as [->|Hp]; [by eexists|]). by apply not_elem_of_nil in Hp.
    + split; [cbn; split; [discriminate|split; [|exact I]]; intros _; apply not_elem_of_nil|].
      intros msg m Hin Hr Hm. cbn in Hin. apply elem_of_cons in Hin as [->|Hin].
      * injection Hm as <-. exists 0xC0A86405. split; [vm_compute; reflexivity|]. split; [|reflexivity].
        split; vm_compute; [discriminate|reflexivity].
      * apply list_elem_of_singleton in Hin as ->. discriminate Hr.
  - exists w'. split; [exact E|]. split; [|split; [exact Hr|split; [|split; [|split; [|exact Hlast]]]]].
    + apply (Hl (mk_slow_msg SLOW_MAC_LEARNING SLOW_SRC_VHOST 0 0 8)); [by left|reflexivity|exact (proj1 (proj2 demo_new_ok))].
    + destruct (Hrings 0%nat (127%nat, []) eq_refl) as (r & Hr' & _ & Hi). exists r. split; [exact Hr'|exact Hi].
    + exact (Hpool 7%nat).
    + destruct (lookup_lt_is_Some_2 (rx_plans (sl_dev demo_slow_world)) 0%nat) as [p Hp]; [vm_compute; lia|].
      destruct (Hrx 0%nat p (replicate MAX_VHOSTS (demo_stats 0)) Hp eq_refl) as (p' & _ & Hp' & _ & [_ Hpl] & _).
      exists p'. split; [exact Hp'|]. vm_compute in Hp. injection Hp as <-. etransitivity; [exact Hpl|vm_compute; reflexivity].
Defined.
