(* ===== verification/ConfigParse.v ===== *)
(** * src/config/config.c and util_parse_ipv4 of lib/utils/utils.c: the command line

    Strings are lists of characters without the terminating NUL.  [strtoul],
    [sscanf] with [%02x] and [inet_pton] are the C library's: ISO C for the first
    two, dotted decimal without leading zeros for the third.  [getopt_long] is not
    modelled: its results, in order, are the input of [parse_config], and so are the
    answers of [access] and [strdup].  The usage text is not modelled. *)

From S2P Require Import Prelude CInt Config.
From Stdlib Require Import Ascii String NArith.
Import ListNotations.
Local Open Scope Z_scope.

(** ** Setting one field of the configuration *)

Definition set_client_mode x c :=
  mk_config x (dequeue_zero_copy c) (mergeable c) (enable_retry c) (enable_tx_csum c) (enable_tso c)
    (burst_rx_delay_time c) (burst_rx_retry_num c) (socket_dir c) (socket_files c) (nb_sockets c)
    (cfg_ip c) (ip_prefix c) (cfg_mac c) (other_node_mac c) (eth_rx_cores c) (eth_tx_cores c)
    (eth_rx_queues c) (eth_tx_queues c) (vhost_rx_cores c) (vhost_tx_cores c) (show_dash c).
Definition set_dequeue_zero_copy x c :=
  mk_config (client_mode c) x (mergeable c) (enable_retry c) (enable_tx_csum c) (enable_tso c)
    (burst_rx_delay_time c) (burst_rx_retry_num c) (socket_dir c) (socket_files c) (nb_sockets c)
    (cfg_ip c) (ip_prefix c) (cfg_mac c) (other_node_mac c) (eth_rx_cores c) (eth_tx_cores c)
    (eth_rx_queues c) (eth_tx_queues c) (vhost_rx_cores c) (vhost_tx_cores c) (show_dash c).
Definition set_mergeable x c :=
  mk_config (client_mode c) (dequeue_zero_copy c) x (enable_retry c) (enable_tx_csum c) (enable_tso c)
    (burst_rx_delay_time c) (burst_rx_retry_num c) (socket_dir c) (socket_files c) (nb_sockets c)
    (cfg_ip c) (ip_prefix c) (cfg_mac c) (other_node_mac c) (eth_rx_cores c) (eth_tx_cores c)
    (eth_rx_queues c) (eth_tx_queues c) (vhost_rx_cores c) (vhost_tx_cores c) (show_dash c).
Definition set_enable_retry x c :=
  mk_config (client_mode c) (dequeue_zero_copy c) (mergeable c) x (enable_tx_csum c) (enable_tso c)
    (burst_rx_delay_time c) (burst_rx_retry_num c) (socket_dir c) (socket_files c) (nb_sockets c)
    (cfg_ip c) (ip_prefix c) (cfg_mac c) (other_node_mac c) (eth_rx_cores c) (eth_tx_cores c)
    (eth_rx_queues c) (eth_tx_queues c) (vhost_rx_cores c) (vhost_tx_cores c) (show_dash c).
Definition set_enable_tx_csum x c :=
  mk_config (client_mode c) (dequeue_zero_copy c) (mergeable c) (enable_retry c) x (enable_tso c)
    (burst_rx_delay_time c) (burst_rx_retry_num c) (socket_dir c) (socket_files c) (nb_sockets c)
    (cfg_ip c) (ip_prefix c) (cfg_mac c) (other_node_mac c) (eth_rx_cores c) (eth_tx_cores c)
    (eth_rx_queues c) (eth_tx_queues c) (vhost_rx_cores c) (vhost_tx_cores c) (show_dash c).
Definition set_enable_tso x c :=
  mk_config (client_mode c) (dequeue_zero_copy c) (mergeable c) (enable_retry c) (enable_tx_csum c) x
    (burst_rx_delay_time c) (burst_rx_retry_num c) (socket_dir c) (socket_files c) (nb_sockets c)
    (cfg_ip c) (ip_prefix c) (cfg_mac c) (other_node_mac c) (eth_rx_cores c) (eth_tx_cores c)
    (eth_rx_queues c) (eth_tx_queues c) (vhost_rx_cores c) (vhost_tx_cores c) (show_dash c).
Definition set_burst_rx_delay_time x c :=
  mk_config (client_mode c) (dequeue_zero_copy c) (mergeable c) (enable_retry c) (enable_tx_csum c)
    (enable_tso c) x (burst_rx_retry_num c) (socket_dir c) (socket_files c) (nb_sockets c) (cfg_ip c)
    (ip_prefix c) (cfg_mac c) (other_node_mac c) (eth_rx_cores c) (eth_tx_cores c) (eth_rx_queues c)
    (eth_tx_queues c) (vhost_rx_cores c) (vhost_tx_cores c) (show_dash c).
Definition set_burst_rx_retry_num x c :=
  mk_config (client_mode c) (dequeue_zero_copy c) (mergeable c) (enable_retry c) (enable_tx_csum c)
    (enable_tso c) (burst_rx_delay_time c) x (socket_dir c) (socket_files c) (nb_sockets c) (cfg_ip c)
    (ip_prefix c) (cfg_mac c) (other_node_mac c) (eth_rx_cores c) (eth_tx_cores c) (eth_rx_queues c)
    (eth_tx_queues c) (vhost_rx_cores c) (vhost_tx_cores c) (show_dash c).
Definition set_socket_dir x c :=
  mk_config (client_mode c) (dequeue_zero_copy c) (mergeable c) (enable_retry c) (enable_tx_csum c)
    (enable_tso c) (burst_rx_delay_time c) (burst_rx_retry_num c) x (socket_files c) (nb_sockets c)
    (cfg_ip c) (ip_prefix c) (cfg_mac c) (other_node_mac c) (eth_rx_cores c) (eth_tx_cores c)
    (eth_rx_queues c) (eth_tx_queues c) (vhost_rx_cores c) (vhost_tx_cores c) (show_dash c).
Definition set_nb_sockets x c :=
  mk_config (client_mode c) (dequeue_zero_copy c) (mergeable c) (enable_retry c) (enable_tx_csum c)
    (enable_tso c) (burst_rx_delay_time c) (burst_rx_retry_num c) (socket_dir c) (socket_files c) x
    (cfg_ip c) (ip_prefix c) (cfg_mac c) (other_node_mac c) (eth_rx_cores c) (eth_tx_cores c)
    (eth_rx_queues c) (eth_tx_queues c) (vhost_rx_cores c) (vhost_tx_cores c) (show_dash c).
Definition set_other_node_mac x c :=
  mk_config (client_mode c) (dequeue_zero_copy c) (mergeable c) (enable_retry c) (enable_tx_csum c)
    (enable_tso c) (burst_rx_delay_time c) (burst_rx_retry_num c) (socket_dir c) (socket_files c)
    (nb_sockets c) (cfg_ip c) (ip_prefix c) (cfg_mac c) x (eth_rx_cores c) (eth_tx_cores c)
    (eth_rx_queues c) (eth_tx_queues c) (vhost_rx_cores c) (vhost_tx_cores c) (show_dash c).
Definition set_eth_rx_cores x c :=
  mk_config (client_mode c) (dequeue_zero_copy c) (mergeable c) (enable_retry c) (enable_tx_csum c)
    (enable_tso c) (burst_rx_delay_time c) (burst_rx_retry_num c) (socket_dir c) (socket_files c)
    (nb_sockets c) (cfg_ip c) (ip_prefix c) (cfg_mac c) (other_node_mac c) x (eth_tx_cores c)
    (eth_rx_queues c) (eth_tx_queues c) (vhost_rx_cores c) (vhost_tx_cores c) (show_dash c).
Definition set_eth_tx_cores x c :=
  mk_config (client_mode c) (dequeue_zero_copy c) (mergeable c) (enable_retry c) (enable_tx_csum c)
    (enable_tso c) (burst_rx_delay_time c) (burst_rx_retry_num c) (socket_dir c) (socket_files c)
    (nb_sockets c) (cfg_ip c) (ip_prefix c) (cfg_mac c) (other_node_mac c) (eth_rx_cores c) x
    (eth_rx_queues c) (eth_tx_queues c) (vhost_rx_cores c) (vhost_tx_cores c) (show_dash c).
Definition set_eth_rx_queues x c :=
  mk_config (client_mode c) (dequeue_zero_copy c) (mergeable c) (enable_retry c) (enable_tx_csum c)
    (enable_tso c) (burst_rx_delay_time c) (burst_rx_retry_num c) (socket_dir c) (socket_files c)
    (nb_sockets c) (cfg_ip c) (ip_prefix c) (cfg_mac c) (other_node_mac c) (eth_rx_cores c)
    (eth_tx_cores c) x (eth_tx_queues c) (vhost_rx_cores c) (vhost_tx_cores c) (show_dash c).
Definition set_eth_tx_queues x c :=
  mk_config (client_mode c) (dequeue_zero_copy c) (mergeable c) (enable_retry c) (enable_tx_csum c)
    (enable_tso c) (burst_rx_delay_time c) (burst_rx_retry_num c) (socket_dir c) (socket_files c)
    (nb_sockets c) (cfg_ip c) (ip_prefix c) (cfg_mac c) (other_node_mac c) (eth_rx_cores c)
    (eth_tx_cores c) (eth_rx_queues c) x (vhost_rx_cores c) (vhost_tx_cores c) (show_dash c).
Definition set_vhost_rx_cores x c :=
  mk_config (client_mode c) (dequeue_zero_copy c) (mergeable c) (enable_retry c) (enable_tx_csum c)
    (enable_tso c) (burst_rx_delay_time c) (burst_rx_retry_num c) (socket_dir c) (socket_files c)
    (nb_sockets c) (cfg_ip c) (ip_prefix c) (cfg_mac c) (other_node_mac c) (eth_rx_cores c)
    (eth_tx_cores c) (eth_rx_queues c) (eth_tx_queues c) x (vhost_tx_cores c) (show_dash c).
Definition set_vhost_tx_cores x c :=
  mk_config (client_mode c) (dequeue_zero_copy c) (mergeable c) (enable_retry c) (enable_tx_csum c)
    (enable_tso c) (burst_rx_delay_time c) (burst_rx_retry_num c) (socket_dir c) (socket_files c)
    (nb_sockets c) (cfg_ip c) (ip_prefix c) (cfg_mac c) (other_node_mac c) (eth_rx_cores c)
    (eth_tx_cores c) (eth_rx_queues c) (eth_tx_queues c) (vhost_rx_cores c) x (show_dash c).
Definition set_show_dash x c :=
  mk_config (client_mode c) (dequeue_zero_copy c) (mergeable c) (enable_retry c) (enable_tx_csum c)
    (enable_tso c) (burst_rx_delay_time c) (burst_rx_retry_num c) (socket_dir c) (socket_files c)
    (nb_sockets c) (cfg_ip c) (ip_prefix c) (cfg_mac c) (other_node_mac c) (eth_rx_cores c)
    (eth_tx_cores c) (eth_rx_queues c) (eth_tx_queues c) (vhost_rx_cores c) (vhost_tx_cores c) x.
Definition set_ip_addr x y c :=
  mk_config (client_mode c) (dequeue_zero_copy c) (mergeable c) (enable_retry c) (enable_tx_csum c)
    (enable_tso c) (burst_rx_delay_time c) (burst_rx_retry_num c) (socket_dir c) (socket_files c)
    (nb_sockets c) x y (cfg_mac c) (other_node_mac c) (eth_rx_cores c) (eth_tx_cores c) (eth_rx_queues c)
    (eth_tx_queues c) (vhost_rx_cores c) (vhost_tx_cores c) (show_dash c).

(** ** Characters *)

Definition code (c : ascii) : Z := Z.of_N (N_of_ascii c).
Definition chr (z : Z) : ascii := ascii_of_N (Z.to_N z).

(** [isspace] in the C locale. *)
Definition is_space (c : ascii) : bool := (code c =? 32) || ((9 <=? code c) && (code c <=? 13)).

Definition dec_digit (c : ascii) : option Z :=
  if (48 <=? code c) && (code c <=? 57) then Some (code c - 48) else None.
Definition hex_digit (c : ascii) : option Z :=
  if (48 <=? code c) && (code c <=? 57) then Some (code c - 48)
  else if (97 <=? code c) && (code c <=? 102) then Some (code c - 87)
  else if (65 <=? code c) && (code c <=? 70) then Some (code c - 55)
  else None.

Fixpoint skip_space (s : cstring) : cstring :=
  match s with
  | c :: s' => if is_space c then skip_space s' else s
  | [] => []
  end.

(** ** strtoul(s, &end, 10): the value and what [end] points at *)

Definition ULONG_MAX : Z := 2 ^ 64 - 1.

(** An optional sign: is it a minus, and the rest. *)
Definition take_sign (s : cstring) : bool * cstring :=
  match s with
  | c :: s' => if code c =? 43 then (false, s') else if code c =? 45 then (true, s') else (false, s)
  | [] => (false, [])
  end.

Fixpoint span_digits (s : cstring) : list Z * cstring :=
  match s with
  | c :: s' =>
      match dec_digit c with
      | Some d => let '(ds, rest) := span_digits s' in (d :: ds, rest)
      | None => ([], s)
      end
  | [] => ([], [])
  end.

Definition of_digits (ds : list Z) : Z := fold_left (λ a d, 10 * a + d) ds 0.

Definition strtoul (s : cstring) : Z * cstring :=
  let '(neg, s1) := take_sign (skip_space s) in
  match span_digits s1 with
  | ([], _) => (0, s)
  | (ds, rest) =>
      let v := of_digits ds in
      (if ULONG_MAX <? v then ULONG_MAX else if neg : bool then u64 (- v) else v, rest)
  end.

(** [parse_int32], [parse_int16], [parse_int8]: the result, and the value that is
    stored whatever the result is. *)
Definition parse_uint (w : Z) (s : cstring) : Z * Z :=
  let '(v, rest) := strtoul s in
  (if bool_decide (s = []) || negb (bool_decide (rest = [])) then -1 else 0, wrap w v).

Definition parse_int32 : cstring → Z * Z := parse_uint 32.
Definition parse_int16 : cstring → Z * Z := parse_uint 16.
Definition parse_int8 : cstring → Z * Z := parse_uint 8.

(** ** parse_ether_addr *)

(** The conversion [%02x]: white space is skipped, then at most two characters form a
    hexadecimal [unsigned int], possibly signed; [0x] alone is not a number. *)
Definition scan_hex2 (s : cstring) : option (Z * cstring) :=
  match skip_space s with
  | [] => None
  | c :: s1 =>
      if (code c =? 43) || (code c =? 45) then
        match s1 with
        | d :: s2 => v ← hex_digit d; Some (if code c =? 45 then u32 (- v) else v, s2)
        | [] => None
        end
      else
        v ← hex_digit c;
        match s1 with
        | d :: s2 =>
            match hex_digit d with
            | Some v' => Some (16 * v + v', s2)
            | None => if (v =? 0) && ((code d =? 120) || (code d =? 88)) then None else Some (v, s1)
            end
        | [] => Some (v, [])
        end
  end.

(** [sscanf] with [n + 1] conversions separated by [sep]: the values assigned. *)
Fixpoint scan_bytes (n : nat) (sep : ascii) (s : cstring) : list Z :=
  match scan_hex2 s with
  | None => []
  | Some (v, s) =>
      v :: match n, s with
           | S n, c :: s => if ascii_dec c sep then scan_bytes n sep s else []
           | _, _ => []
           end
  end.

(** The loop that copies the bytes, which stops at the first one above 0xFF. *)
Fixpoint copy_bytes (i : nat) (bytes addr : list Z) : Z * list Z :=
  match bytes with
  | [] => (0, addr)
  | b :: bytes => if 0xFF <? b then (-1, addr) else copy_bytes (S i) bytes (<[i := u8 b]> addr)
  end.

Definition parse_ether_addr (s : cstring) (addr : list Z) : Z * list Z :=
  let bytes := scan_bytes 5 ":"%char s in
  let bytes := if decide (List.length bytes = 6%nat) then bytes else scan_bytes 5 "-"%char s in
  if decide (List.length bytes = 6%nat) then copy_bytes 0 bytes addr else (-1, addr).

(** ** util_parse_ipv4 and parse_cidr *)

(** [inet_pton(AF_INET, ...)]: the octets before the current one, the current one. *)
Fixpoint inet_pton4 (s : cstring) (octets : list Z) (cur : option Z) : option (list Z) :=
  match s with
  | [] =>
      v ← cur; if decide (List.length octets = 3%nat) then Some (octets ++ [v]) else None
  | c :: s =>
      match dec_digit c with
      | Some d =>
          match cur with
          | None => inet_pton4 s octets (Some d)
          | Some v =>
              if v =? 0 then None
              else if 255 <? 10 * v + d then None else inet_pton4 s octets (Some (10 * v + d))
          end
      | None =>
          if code c =? 46 then
            v ← cur;
            if decide (List.length octets = 3%nat) then None else inet_pton4 s (octets ++ [v]) None
          else None
      end
  end.

Definition util_parse_ipv4 (s : cstring) (ip : Z) : Z * Z :=
  match inet_pton4 s [] None with
  | None => (-1, ip)
  | Some bytes => (0, bswap32 (of_le_bytes bytes))
  end.

(** [strrchr(s, '/')]: the string before the last slash and the one after it. *)
Fixpoint split_last_slash (s : cstring) : option (cstring * cstring) :=
  match s with
  | [] => None
  | c :: s =>
      match split_last_slash s with
      | Some (a, b) => Some (c :: a, b)
      | None => if ascii_dec c "/" then Some ([], s) else None
      end
  end.

Definition parse_cidr (s : cstring) (ip prefix : Z) : Z * Z * Z :=
  match split_last_slash s with
  | Some (before, after) =>
      let '(r, prefix) := parse_int8 after in
      if negb (r =? 0) then (-1, ip, prefix)
      else let '(r, ip) := util_parse_ipv4 before ip in ((if negb (r =? 0) then -1 else 0), ip, prefix)
  | None =>
      let '(r, ip) := util_parse_ipv4 s ip in ((if negb (r =? 0) then -1 else 0), ip, prefix)
  end.

(** ** parse_socket_dir *)

Definition PATH_MAX : nat := 4096.

Record fs_env := mk_fs { access_ok : cstring → bool; strdup_ok : bool }.

Definition parse_socket_dir (fs : fs_env) (q_arg : cstring) (c : config_t) : Z * config_t :=
  if negb (access_ok fs q_arg) then (-1, c)
  else if decide (PATH_MAX <= List.length q_arg)%nat then (-1, c)
  else (0, set_socket_dir (if strdup_ok fs then Some q_arg else None) c).

(** ** parse_config *)

Inductive cfg_params :=
  | CP_PORTMASK | CP_RX_RETRY | CP_RX_RETRY_DELAY | CP_RX_RETRY_NUM | CP_MERGEABLE | CP_SOCKET_DIR
  | CP_NB_SOCKETS | CP_TX_CSUM | CP_TSO | CP_CLIENT | CP_DEQUEUE_ZERO_COPY | CP_IP_ADDR
  | CP_OTHER_NODE_MAC | CP_ETH_RX_CORES | CP_ETH_TX_CORES | CP_ETH_RX_QUEUES | CP_ETH_TX_QUEUES
  | CP_VHOST_RX_CORES | CP_VHOST_TX_CORES | CP_SHOW_DASH.

#[export] Instance cfg_params_eq_dec : EqDecision cfg_params.
Proof. solve_decision. Defined.

(** The table given to [getopt_long]: name, does it take an argument, value. *)
Definition options : list (string * bool * cfg_params) :=
  [("portmask", true, CP_PORTMASK); ("rx-retry", true, CP_RX_RETRY);
   ("rx-retry-delay", true, CP_RX_RETRY_DELAY); ("rx-retry-num", true, CP_RX_RETRY_NUM);
   ("mergeable", true, CP_MERGEABLE); ("socket-dir", true, CP_SOCKET_DIR);
   ("nb-sockets", true, CP_NB_SOCKETS); ("tx-csum", true, CP_TX_CSUM); ("tso", true, CP_TSO);
   ("client", false, CP_CLIENT); ("dequeue-zero-copy", false, CP_DEQUEUE_ZERO_COPY);
   ("ip-addr", true, CP_IP_ADDR); ("other-node-mac", true, CP_OTHER_NODE_MAC);
   ("eth-rx-cores", true, CP_ETH_RX_CORES); ("eth-tx-cores", true, CP_ETH_TX_CORES);
   ("eth-rx-queues", true, CP_ETH_RX_QUEUES); ("eth-tx-queues", true, CP_ETH_TX_QUEUES);
   ("vhost-rx-cores", true, CP_VHOST_RX_CORES); ("vhost-tx-cores", true, CP_VHOST_TX_CORES);
   ("show-dash", true, CP_SHOW_DASH)]%string.

(** A result of [getopt_long]: an option with its argument, or something else. *)
Inductive getopt_result := Opt (p : cfg_params) (optarg : cstring) | Unknown.

(** Store a parsed number; it is stored even when the result is an error. *)
Definition store_int (r : Z * Z) (set : Z → config_t → config_t) (c : config_t) : Z * config_t :=
  (r.1, set r.2 c).

(** The [switch]: 0 is [break], anything else is [goto failed]. *)
Definition parse_option (fs : fs_env) (o : getopt_result) (c : config_t) : Z * config_t :=
  match o with
  | Opt CP_RX_RETRY a => store_int (parse_int32 a) set_enable_retry c
  | Opt CP_TX_CSUM a => store_int (parse_int32 a) set_enable_tx_csum c
  | Opt CP_TSO a => store_int (parse_int32 a) set_enable_tso c
  | Opt CP_RX_RETRY_DELAY a => store_int (parse_int32 a) set_burst_rx_delay_time c
  | Opt CP_RX_RETRY_NUM a => store_int (parse_int32 a) set_burst_rx_retry_num c
  | Opt CP_MERGEABLE a => store_int (parse_int32 a) set_mergeable c
  | Opt CP_SOCKET_DIR a => parse_socket_dir fs a c
  | Opt CP_NB_SOCKETS a => store_int (parse_int32 a) set_nb_sockets c
  | Opt CP_CLIENT _ => (0, set_client_mode 1 c)
  | Opt CP_DEQUEUE_ZERO_COPY _ => (0, set_dequeue_zero_copy 1 c)
  | Opt CP_IP_ADDR a => let '(r, ip, prefix) := parse_cidr a (cfg_ip c) (ip_prefix c) in (r, set_ip_addr ip prefix c)
  | Opt CP_OTHER_NODE_MAC a =>
      let '(r, mac) := parse_ether_addr a (other_node_mac c) in (r, set_other_node_mac mac c)
  | Opt CP_ETH_RX_CORES a => store_int (parse_int16 a) set_eth_rx_cores c
  | Opt CP_ETH_TX_CORES a => store_int (parse_int16 a) set_eth_tx_cores c
  | Opt CP_ETH_RX_QUEUES a => store_int (parse_int16 a) set_eth_rx_queues c
  | Opt CP_ETH_TX_QUEUES a => store_int (parse_int16 a) set_eth_tx_queues c
  | Opt CP_VHOST_RX_CORES a => store_int (parse_int16 a) set_vhost_rx_cores c
  | Opt CP_VHOST_TX_CORES a => store_int (parse_int16 a) set_vhost_tx_cores c
  | Opt CP_SHOW_DASH a => store_int (parse_int8 a) set_show_dash c
  | Opt CP_PORTMASK _ | Unknown => (-1, c)
  end.

Fixpoint parse_config (fs : fs_env) (opts : list getopt_result) (c : config_t) : Z * config_t :=
  match opts with
  | [] => (0, c)
  | o :: opts =>
      let '(r, c) := parse_option fs o c in
      if negb (r =? 0) then (-1, c) else parse_config fs opts c
  end.

(** ** Specification: printing what the parsers read *)

Fixpoint dec_digits (fuel : nat) (n : Z) : list Z :=
  match fuel with
  | O => []
  | S fuel => if n <? 10 then [n] else dec_digits fuel (n / 10) ++ [n mod 10]
  end.

(** Twenty digits are enough for 64 bits. *)
Definition print_dec (n : Z) : cstring := (λ d, chr (48 + d)) <$> dec_digits 20 n.

Definition print_hex (upper : bool) (v : Z) : ascii :=
  chr (if v <? 10 then 48 + v else (if upper then 55 else 87) + v).
Definition print_byte (upper : bool) (b : Z) : cstring := [print_hex upper (b / 16); print_hex upper (b mod 16)].

Fixpoint print_mac (upper : bool) (sep : ascii) (bytes : list Z) : cstring :=
  match bytes with
  | [] => []
  | [b] => print_byte upper b
  | b :: bytes => print_byte upper b ++ sep :: print_mac upper sep bytes
  end.

Definition print_ip (a b c d : Z) : cstring :=
  print_dec a ++ "."%char :: print_dec b ++ "."%char :: print_dec c ++ "."%char :: print_dec d.

(** ** Specification: what an option does *)

(** [s] is white space, an optional sign and at least one digit, and [n] its value: at
    most [ULONG_MAX], negated modulo 2^64 after a minus. *)
Definition reads (s : cstring) (n : Z) : Prop :=
  ∃ sp sg cs ds, s = sp ++ sg ++ cs ∧ Forall (λ c, is_space c = true) sp ∧ sg ∈ [[]; ["+"%char]; ["-"%char]] ∧
    ds ≠ [] ∧ Forall2 (λ c d, dec_digit c = Some d) cs ds ∧
    n = if ULONG_MAX <? of_digits ds then ULONG_MAX
        else if bool_decide (sg = ["-"%char]) then (- of_digits ds) mod 2 ^ 64 else of_digits ds.

(** [s] is an address in dotted decimal, without leading zeros, with this value. *)
Definition reads_ip (s : cstring) (ip : Z) : Prop :=
  ∃ a b c d, Forall is_byte [a; b; c; d] ∧ s = print_ip a b c d ∧ ip = a * 2 ^ 24 + b * 2 ^ 16 + c * 2 ^ 8 + d.

(** [sscanf] assigns six values to [s], with colons or else with dashes, all below 256. *)
Definition reads_mac (s : cstring) (mac : list Z) : Prop :=
  List.length mac = 6%nat ∧ Forall is_byte mac ∧
  (scan_bytes 5 ":"%char s = mac ∨ List.length (scan_bytes 5 ":"%char s) ≠ 6%nat ∧ scan_bytes 5 "-"%char s = mac).

(** The fields that are numbers, in the order of the structure, and the other ones. *)
Definition scalars (c : config_t) : list Z :=
  [client_mode c; dequeue_zero_copy c; mergeable c; enable_retry c; enable_tx_csum c; enable_tso c;
   burst_rx_delay_time c; burst_rx_retry_num c; nb_sockets c; cfg_ip c; ip_prefix c; eth_rx_cores c;
   eth_tx_cores c; eth_rx_queues c; eth_tx_queues c; vhost_rx_cores c; vhost_tx_cores c; show_dash c].
Definition others (c : config_t) := (socket_dir c, socket_files c, cfg_mac c, other_node_mac c).

(** The options whose argument is a number: the place of the field in [scalars], its bits. *)
Definition number_option (p : cfg_params) : option (nat * Z) :=
  match p with
  | CP_MERGEABLE => Some (2%nat, 32) | CP_RX_RETRY => Some (3%nat, 32) | CP_TX_CSUM => Some (4%nat, 32)
  | CP_TSO => Some (5%nat, 32) | CP_RX_RETRY_DELAY => Some (6%nat, 32) | CP_RX_RETRY_NUM => Some (7%nat, 32)
  | CP_NB_SOCKETS => Some (8%nat, 32) | CP_ETH_RX_CORES => Some (11%nat, 16) | CP_ETH_TX_CORES => Some (12%nat, 16)
  | CP_ETH_RX_QUEUES => Some (13%nat, 16) | CP_ETH_TX_QUEUES => Some (14%nat, 16)
  | CP_VHOST_RX_CORES => Some (15%nat, 16) | CP_VHOST_TX_CORES => Some (16%nat, 16) | CP_SHOW_DASH => Some (17%nat, 8)
  | _ => None
  end.

(** The option takes [c] to [c']; no [c'] when it is refused. *)
Definition effect (fs : fs_env) (o : getopt_result) (c c' : config_t) : Prop :=
  match o with
  | Unknown => False
  | Opt p s =>
      match number_option p, p with
      | Some (i, w), _ => ∃ n, reads s n ∧ scalars c' = <[i := n mod 2 ^ w]> (scalars c) ∧ others c' = others c
      | None, CP_CLIENT => scalars c' = <[0%nat := 1]> (scalars c) ∧ others c' = others c
      | None, CP_DEQUEUE_ZERO_COPY => scalars c' = <[1%nat := 1]> (scalars c) ∧ others c' = others c
      | None, CP_SOCKET_DIR => access_ok fs s = true ∧ (List.length s < PATH_MAX)%nat ∧ scalars c' = scalars c ∧
          others c' = (if strdup_ok fs then Some s else None, socket_files c, cfg_mac c, other_node_mac c)
      | None, CP_IP_ADDR => ∃ ip, others c' = others c ∧
          (reads_ip s ip ∧ scalars c' = <[9%nat := ip]> (scalars c) ∨
           ∃ addr pre n, s = addr ++ "/"%char :: pre ∧ reads_ip addr ip ∧ reads pre n ∧
             scalars c' = <[9%nat := ip]> (<[10%nat := n mod 2 ^ 8]> (scalars c)))
      | None, CP_OTHER_NODE_MAC => ∃ mac, reads_mac s mac ∧ scalars c' = scalars c ∧
          others c' = (socket_dir c, socket_files c, cfg_mac c, mac)
      | None, _ => False
      end
  end.

(** The options one after the other. *)
Inductive effects (fs : fs_env) : list getopt_result → config_t → config_t → Prop :=
  | effects_nil c : effects fs [] c c
  | effects_cons o opts c c1 c' : effect fs o c c1 → effects fs opts c1 c' → effects fs (o :: opts) c c'.

(** The strings that the number parsers accept: white space, a sign, digits. *)
Definition is_number (s : cstring) : Prop :=
  ∃ sp sg ds, s = sp ++ sg ++ ds ∧ Forall (λ c, is_space c = true) sp ∧ sg ∈ [[]; ["+"%char]; ["-"%char]] ∧
    ds ≠ [] ∧ Forall (λ c, is_Some (dec_digit c)) ds.

(** ** Lemmas: characters *)

Lemma code_chr z : 0 ≤ z < 256 → code (chr z) = z.
Proof. intros Hz. unfold code, chr. rewrite N_ascii_embedding by lia. lia. Qed.

Lemma code_inj c d : code c = code d → c = d.
Proof. unfold code. intros Hd. rewrite <- (ascii_N_embedding c), <- (ascii_N_embedding d). f_equal. lia. Qed.

Lemma dec_digit_chr d : 0 ≤ d < 10 → dec_digit (chr (48 + d)) = Some d.
Proof.
  intros Hd. unfold dec_digit. rewrite code_chr by lia.
  replace ((48 <=? 48 + d) && (48 + d <=? 57)) with true by (symmetry; lia). f_equal. lia.
Qed.

(** A digit is neither a space nor a sign. *)
Lemma digit_plain c : is_Some (dec_digit c) → is_space c = false ∧ code c ≠ 43 ∧ code c ≠ 45 ∧ code c ≠ 46 ∧ code c ≠ 47.
Proof.
  unfold dec_digit, is_space. destruct ((48 <=? code c) && (code c <=? 57)) eqn:E; [|by intros [? ?]].
  intros _. lia.
Qed.

Lemma skip_space_app sp s :
  Forall (λ c, is_space c = true) sp → (∀ c s', s = c :: s' → is_space c = false) → skip_space (sp ++ s) = s.
Proof.
  intros Hsp Hs. induction Hsp as [|c sp Hc _ IH]; cbn [app skip_space].
  - destruct s as [|c s]; [done|]. cbn [skip_space]. by rewrite (Hs c s eq_refl).
  - by rewrite Hc.
Qed.

Lemma skip_space_split s : ∃ sp, s = sp ++ skip_space s ∧ Forall (λ c, is_space c = true) sp.
Proof.
  induction s as [|c s (sp & Hs & Hsp)]; [by exists []|]. cbn [skip_space].
  destruct (is_space c) eqn:E; [|by exists []]. exists (c :: sp). cbn [app]. rewrite <- Hs. auto.
Qed.

Lemma take_sign_split s :
  ∃ sg, s = sg ++ (take_sign s).2 ∧ sg ∈ [[]; ["+"%char]; ["-"%char]].
Proof.
  destruct s as [|c s]; [exists []; split; [done|by left]|]. cbn [take_sign].
  destruct (Z.eqb_spec (code c) 43) as [E|_]; [|destruct (Z.eqb_spec (code c) 45) as [E|_]].
  - exists ["+"%char]. rewrite (code_inj c "+"%char) by done. split; [done|]. by right; left.
  - exists ["-"%char]. rewrite (code_inj c "-"%char) by done. split; [done|]. by right; right; left.
  - exists []. split; [done|by left].
Qed.

Lemma span_digits_split s :
  ∃ cs, s = cs ++ (span_digits s).2 ∧ Forall2 (λ c d, dec_digit c = Some d) cs (span_digits s).1.
Proof.
  induction s as [|c s (cs & Hs & Hcs)]; [by exists []|]. cbn [span_digits].
  destruct (dec_digit c) as [d|] eqn:E; [|by exists []].
  destruct (span_digits s) as [ds rest]. cbn [fst snd] in *. exists (c :: cs). cbn [app]. rewrite <- Hs. auto.
Qed.

Lemma span_digits_app cs ds s :
  Forall2 (λ c d, dec_digit c = Some d) cs ds → (∀ c s', s = c :: s' → dec_digit c = None) →
  span_digits (cs ++ s) = (ds, s).
Proof.
  intros Hcs Hs. induction Hcs as [|c d cs ds Hc _ IH]; cbn [app span_digits].
  - destruct s as [|c s]; [done|]. cbn [span_digits]. by rewrite (Hs c s eq_refl).
  - by rewrite Hc, IH.
Qed.

(** ** Lemmas: decimal numbers *)

Lemma dec_digits_spec fuel n :
  (0 < fuel)%nat → 0 ≤ n < 10 ^ Z.of_nat fuel →
  of_digits (dec_digits fuel n) = n ∧ Forall (λ d, 0 ≤ d < 10) (dec_digits fuel n) ∧ dec_digits fuel n ≠ [].
Proof.
  intros Hf Hn. revert n Hn. induction fuel as [|fuel IH]; intros n Hn; [lia|]. cbn [dec_digits].
  destruct (Z.ltb_spec n 10) as [Hlt|Hge]; [split_and!; [done|repeat constructor; lia|done]|].
  rewrite Nat2Z.inj_succ, Z.pow_succ_r in Hn by lia.
  destruct fuel as [|fuel]; [cbn in Hn; lia|].
  destruct (IH ltac:(lia) (n / 10)) as (IH1 & IH2 & IH3); [Z.to_euclidean_division_equations; lia|].
  split_and!.
  - unfold of_digits in *. rewrite fold_left_app, IH1. cbn [fold_left]. pose proof (Z.div_mod n 10). lia.
  - apply Forall_app. split; [done|]. repeat constructor; Z.to_euclidean_division_equations; lia.
  - intros Hn'. by apply app_eq_nil in Hn' as [_ ?].
Qed.

Lemma print_dec_digits n :
  0 ≤ n < 2 ^ 64 → of_digits (dec_digits 20 n) = n ∧ dec_digits 20 n ≠ [] ∧
  Forall2 (λ c d, dec_digit c = Some d) (print_dec n) (dec_digits 20 n).
Proof.
  intros Hn. destruct (dec_digits_spec 20 n) as (H1 & H2 & H3); [lia|cbn; lia|]. split_and!; try done.
  unfold print_dec. apply Forall2_fmap_l. apply Forall_Forall2_diag. eapply Forall_impl; [exact H2|].
  intros d Hd. by apply dec_digit_chr.
Qed.

Lemma print_dec_nonempty n : 0 ≤ n < 2 ^ 64 → print_dec n ≠ [].
Proof.
  intros Hn E. destruct (print_dec_digits n Hn) as (_ & Hne & Hd). rewrite E in Hd.
  by apply Forall2_nil_inv_l in Hd.
Qed.

(** [strtoul] in terms of its parts. *)
Lemma strtoul_number sp sg cs ds rest :
  Forall (λ c, is_space c = true) sp → sg ∈ [[]; ["+"%char]; ["-"%char]] → ds ≠ [] →
  Forall2 (λ c d, dec_digit c = Some d) cs ds → (∀ c s', rest = c :: s' → dec_digit c = None) →
  strtoul (sp ++ sg ++ cs ++ rest) =
    (if ULONG_MAX <? of_digits ds then ULONG_MAX
     else if bool_decide (sg = ["-"%char]) then u64 (- of_digits ds) else of_digits ds, rest).
Proof.
  intros Hsp Hsg Hne Hcs Hrest. unfold strtoul.
  assert (∃ c cs', cs = c :: cs' ∧ is_Some (dec_digit c)) as (c & cs' & Ec & Hc).
  { destruct Hcs as [|c d cs' ds' Hc _]; [done|]. exists c, cs'. split; [done|]. rewrite Hc. by eexists. }
  destruct (digit_plain c Hc) as (Hp1 & Hp2 & Hp3 & _).
  rewrite skip_space_app; [|done|].
  2:{ intros x s' Hx. rewrite Ec in Hx.
      repeat (apply elem_of_cons in Hsg as [->|Hsg]; [cbn in Hx; injection Hx as <- _; done|]). by apply not_elem_of_nil in Hsg. }
  assert (take_sign (sg ++ cs ++ rest) = (bool_decide (sg = ["-"%char]), cs ++ rest)) as ->.
  { repeat (apply elem_of_cons in Hsg as [->|Hsg]; [|]); [|done|done|by apply not_elem_of_nil in Hsg].
    rewrite Ec. cbn [app take_sign]. rewrite (proj2 (Z.eqb_neq _ _) Hp2), (proj2 (Z.eqb_neq _ _) Hp3). done. }
  rewrite (span_digits_app cs ds rest Hcs Hrest). by destruct ds.
Qed.

Lemma strtoul_print n rest :
  0 ≤ n < 2 ^ 64 → (∀ c s', rest = c :: s' → dec_digit c = None) → strtoul (print_dec n ++ rest) = (n, rest).
Proof.
  intros Hn Hrest. destruct (print_dec_digits n Hn) as (H1 & H2 & H3).
  pose proof (strtoul_number [] [] (print_dec n) (dec_digits 20 n) rest) as Hs. cbn [app] in Hs.
  rewrite Hs by (done || by left). rewrite H1, bool_decide_false by done.
  replace (ULONG_MAX <? n) with false by (unfold ULONG_MAX; lia). done.
Qed.

Lemma parse_uint_ret w s : (parse_uint w s).1 = 0 ↔ is_number s.
Proof.
  unfold parse_uint. split.
  - intros Hr. destruct (skip_space_split s) as (sp & Hs & Hsp).
    destruct (take_sign_split (skip_space s)) as (sg & Hs1 & Hsg).
    destruct (span_digits_split (take_sign (skip_space s)).2) as (cs & Hs2 & Hcs).
    unfold strtoul in Hr. destruct (take_sign (skip_space s)) as [neg s1]. cbn [snd] in *.
    destruct (span_digits s1) as [ds rest]. cbn [fst snd] in *. destruct ds as [|d ds]; cbn [fst] in Hr.
    { destruct s; [done|]. done. }
    destruct (bool_decide (s = [])); [done|]. destruct (decide (rest = [])) as [->|Hne].
    2:{ rewrite bool_decide_false in Hr by done. done. }
    rewrite app_nil_r in Hs2. subst s1. exists sp, sg, cs. split_and!; [congruence|done|done| |].
    + intros ->. inversion Hcs.
    + clear -Hcs. induction Hcs as [|c d' cs ds' Hc _ IH]; constructor; [by rewrite Hc; eexists|done].
  - intros (sp & sg & cs & -> & Hsp & Hsg & Hne & Hcs).
    assert (∃ ds, Forall2 (λ c d, dec_digit c = Some d) cs ds) as [ds Hds].
    { clear -Hcs. induction Hcs as [|c cs [d Hd] _ [ds IH]]; [by exists []|]. exists (d :: ds). by constructor. }
    pose proof (strtoul_number sp sg cs ds []) as Hs. rewrite app_nil_r in Hs. rewrite Hs; try done.
    2:{ intros ->. inversion Hds. by subst. }
    rewrite (bool_decide_true ([] = [])) by done. rewrite bool_decide_false; [done|].
    intros Hnil. apply app_eq_nil in Hnil as [_ Hnil]. by apply app_eq_nil in Hnil as [_ ?].
Qed.

(** ** Lemmas: Ethernet addresses *)

Lemma hex_digit_print up v : 0 ≤ v < 16 → hex_digit (print_hex up v) = Some v ∧
  is_space (print_hex up v) = false ∧ code (print_hex up v) ≠ 43 ∧ code (print_hex up v) ≠ 45.
Proof.
  intros Hv. unfold print_hex, hex_digit, is_space.
  destruct (Z.ltb_spec v 10); [|destruct up]; rewrite code_chr by lia;
    repeat match goal with |- context [if ?b then _ else _] => destruct b eqn:? end;
    split_and!; try (f_equal; lia); lia.
Qed.

Lemma scan_hex2_print up b rest : is_byte b → scan_hex2 (print_byte up b ++ rest) = Some (b, rest).
Proof.
  intros Hb. unfold is_byte in Hb. unfold print_byte. cbn [app].
  destruct (hex_digit_print up (b / 16)) as (H1 & H2 & H3 & H4); [Z.to_euclidean_division_equations; lia|].
  destruct (hex_digit_print up (b mod 16)) as (H5 & _); [apply Z.mod_pos_bound; lia|].
  unfold scan_hex2. cbn [skip_space]. rewrite H2, (proj2 (Z.eqb_neq _ _) H3), (proj2 (Z.eqb_neq _ _) H4), H1.
  cbn [orb mbind option_bind]. rewrite H5. pose proof (Z.div_mod b 16). do 2 f_equal. lia.
Qed.

Lemma scan_bytes_print up sep n bytes rest :
  Forall is_byte bytes → List.length bytes = S n → scan_bytes n sep (print_mac up sep bytes ++ rest) = bytes.
Proof.
  revert bytes. induction n as [|n IH]; intros [|b [|b' bytes]] Hb Hl; try done.
  - apply Forall_cons in Hb as [Hb _]. cbn [print_mac scan_bytes]. by rewrite scan_hex2_print.
  - apply Forall_cons in Hb as [Hb Hbs].
    change (print_mac up sep (b :: b' :: bytes)) with (print_byte up b ++ sep :: print_mac up sep (b' :: bytes)).
    rewrite <- app_assoc. cbn [scan_bytes]. rewrite scan_hex2_print by done. cbn [app].
    destruct (ascii_dec sep sep); [|done]. f_equal. apply IH; [done|]. cbn in *. lia.
Qed.

(** With another separator only the first byte is read. *)
Lemma scan_bytes_other up sep sep' b b' bytes rest :
  is_byte b → sep ≠ sep' → scan_bytes 5 sep' (print_mac up sep (b :: b' :: bytes) ++ rest) = [b].
Proof.
  intros Hb Hne. change (print_mac up sep (b :: b' :: bytes)) with (print_byte up b ++ sep :: print_mac up sep (b' :: bytes)).
  rewrite <- app_assoc. cbn [scan_bytes]. rewrite scan_hex2_print by done. cbn [app].
  by destruct (ascii_dec sep sep').
Qed.

Lemma copy_bytes_ok i bytes addr :
  Forall is_byte bytes → (i + List.length bytes <= List.length addr)%nat →
  copy_bytes i bytes addr = (0, take i addr ++ bytes ++ drop (i + List.length bytes) addr).
Proof.
  intros Hb. revert i addr. induction Hb as [|b bytes Hb _ IH]; intros i addr Hl; cbn [copy_bytes].
  { cbn [List.length app]. by rewrite Nat.add_0_r, take_drop. }
  unfold is_byte in Hb. replace (0xFF <? b) with false by lia. cbn [List.length] in Hl.
  rewrite IH by (rewrite length_insert; lia). f_equal.
  replace (u8 b) with b by (unfold u8, wrap; rewrite Z.mod_small; lia).
  destruct (lookup_lt_is_Some_2 addr i) as [x Hx]; [lia|].
  rewrite (take_S_r _ i b) by (apply list_lookup_insert_eq; lia). rewrite take_insert_ge by lia.
  rewrite drop_insert_lt by lia. rewrite <- app_assoc. cbn [app List.length]. do 4 f_equal. lia.
Qed.

(** Whatever the string, what is stored is an address. *)
Lemma copy_bytes_wf i bytes addr :
  List.length addr = 6%nat ∧ Forall is_byte addr →
  List.length (copy_bytes i bytes addr).2 = 6%nat ∧ Forall is_byte (copy_bytes i bytes addr).2.
Proof.
  revert i addr. induction bytes as [|b bytes IH]; intros i addr [Hl Ha]; [done|]. cbn [copy_bytes].
  destruct (0xFF <? b); [done|]. apply IH. rewrite length_insert. split; [done|].
  apply Forall_insert; [done|]. apply (wrap_range 8). lia.
Qed.

Lemma parse_ether_addr_wf s addr :
  List.length addr = 6%nat ∧ Forall is_byte addr →
  List.length (parse_ether_addr s addr).2 = 6%nat ∧ Forall is_byte (parse_ether_addr s addr).2.
Proof. intros Ha. unfold parse_ether_addr. case_decide; [by apply copy_bytes_wf|done]. Qed.

(** ** Lemmas: IPv4 addresses *)

(** The digits of an octet. *)
Lemma octet_digits a :
  0 ≤ a < 256 → dec_digits 20 a =
    if a <? 10 then [a] else if a <? 100 then [a / 10; a mod 10] else [a / 100; a / 10 mod 10; a mod 10].
Proof.
  intros Ha. cbn [dec_digits]. destruct (Z.ltb_spec a 10); [done|].
  destruct (Z.ltb_spec a 100).
  - replace (a / 10 <? 10) with true by (Z.to_euclidean_division_equations; lia). done.
  - replace (a / 10 <? 10) with false by (Z.to_euclidean_division_equations; lia).
    replace (a / 10 / 10 <? 10) with true by (Z.to_euclidean_division_equations; lia).
    rewrite Z.div_div by lia. done.
Qed.

Lemma inet_pton4_octet a rest octets :
  0 ≤ a < 256 → inet_pton4 (print_dec a ++ rest) octets None = inet_pton4 rest octets (Some a).
Proof.
  intros Ha. unfold print_dec. rewrite octet_digits by done.
  destruct (Z.ltb_spec a 10); [|destruct (Z.ltb_spec a 100)]; cbn [fmap list_fmap app inet_pton4];
    rewrite !dec_digit_chr by (Z.to_euclidean_division_equations; lia).
  - done.
  - replace (a / 10 =? 0) with false by (Z.to_euclidean_division_equations; lia).
    pose proof (Z.div_mod a 10). replace (255 <? 10 * (a / 10) + a mod 10) with false by lia. do 2 f_equal. lia.
  - replace (a / 100 =? 0) with false by (Z.to_euclidean_division_equations; lia).
    assert (10 * (a / 100) + a / 10 mod 10 = a / 10) as -> by (Z.to_euclidean_division_equations; lia).
    replace (255 <? a / 10) with false by (Z.to_euclidean_division_equations; lia).
    replace (a / 10 =? 0) with false by (Z.to_euclidean_division_equations; lia).
    pose proof (Z.div_mod a 10). replace (255 <? 10 * (a / 10) + a mod 10) with false by lia. do 2 f_equal. lia.
Qed.

Lemma inet_pton4_print a b c d :
  0 ≤ a < 256 → 0 ≤ b < 256 → 0 ≤ c < 256 → 0 ≤ d < 256 →
  inet_pton4 (print_ip a b c d) [] None = Some [a; b; c; d].
Proof.
  intros Ha Hb Hc Hd. unfold print_ip. rewrite inet_pton4_octet by done. cbn [inet_pton4].
  change (dec_digit ".") with (@None Z). change (code "." =? 46) with true. cbn [mbind option_bind List.length].
  rewrite decide_False by done. rewrite inet_pton4_octet by done. cbn [inet_pton4].
  change (dec_digit ".") with (@None Z). change (code "." =? 46) with true. cbn [mbind option_bind List.length app].
  rewrite decide_False by done. rewrite inet_pton4_octet by done. cbn [inet_pton4].
  change (dec_digit ".") with (@None Z). change (code "." =? 46) with true. cbn [mbind option_bind List.length app].
  rewrite decide_False by done. rewrite <- (app_nil_r (print_dec d)), inet_pton4_octet by done. cbn [inet_pton4 mbind option_bind].
  by rewrite decide_True.
Qed.

Lemma split_last_slash_None s : "/"%char ∉ s → split_last_slash s = None.
Proof.
  induction s as [|c s IH]; intros Hs; [done|]. apply not_elem_of_cons in Hs as [Hc Hs]. cbn [split_last_slash].
  rewrite IH by done. destruct (ascii_dec c "/"); [by subst|done].
Qed.

Lemma split_last_slash_app s1 s2 :
  "/"%char ∉ s2 → split_last_slash (s1 ++ "/"%char :: s2) = Some (s1, s2).
Proof.
  intros Hs. induction s1 as [|c s1 IH]; cbn [app split_last_slash].
  - by rewrite split_last_slash_None.
  - by rewrite IH.
Qed.

Lemma print_dec_no_slash n : 0 ≤ n < 2 ^ 64 → "/"%char ∉ print_dec n.
Proof.
  intros Hn Hin. destruct (print_dec_digits n Hn) as (_ & _ & Hd). apply list_elem_of_lookup in Hin as [i Hi].
  destruct (Forall2_lookup_l _ _ _ _ _ Hd Hi) as (d & _ & Hd'). by vm_compute in Hd'.
Qed.

Lemma print_ip_no_slash a b c d :
  0 ≤ a < 256 → 0 ≤ b < 256 → 0 ≤ c < 256 → 0 ≤ d < 256 → "/"%char ∉ print_ip a b c d.
Proof.
  intros Ha Hb Hc Hd. unfold print_ip. rewrite !elem_of_app, !elem_of_cons, !elem_of_app, !elem_of_cons, !elem_of_app, !elem_of_cons.
  pose proof (print_dec_no_slash a ltac:(lia)). pose proof (print_dec_no_slash b ltac:(lia)).
  pose proof (print_dec_no_slash c ltac:(lia)). pose proof (print_dec_no_slash d ltac:(lia)).
  intuition discriminate.
Qed.

Lemma ip_value a b c d :
  0 ≤ a < 256 → 0 ≤ b < 256 → 0 ≤ c < 256 → 0 ≤ d < 256 →
  bswap32 (of_le_bytes [a; b; c; d]) = a * 2 ^ 24 + b * 2 ^ 16 + c * 2 ^ 8 + d.
Proof.
  intros Ha Hb Hc Hd. unfold bswap32. rewrite (bswap_of_le_bytes 4) by (repeat constructor; done || (unfold is_byte; lia)).
  unfold of_be_bytes. cbn [rev app of_le_bytes]. lia.
Qed.

Lemma util_parse_ipv4_range s ip : in_u 32 ip → in_u 32 (util_parse_ipv4 s ip).2.
Proof.
  intros Hip. unfold util_parse_ipv4. destruct (inet_pton4 s [] None); [|done]. cbn [snd].
  apply (bswap_range 4).
Qed.

Lemma parse_cidr_range s ip prefix :
  in_u 32 ip → in_u 8 prefix → in_u 32 (parse_cidr s ip prefix).1.2 ∧ in_u 8 (parse_cidr s ip prefix).2.
Proof.
  intros Hip Hp. unfold parse_cidr. destruct (split_last_slash s) as [[before after]|].
  - assert (in_u 8 (parse_int8 after).2) as Hp'.
    { unfold parse_int8, parse_uint. destruct (strtoul after). apply (wrap_range 8). lia. }
    destruct (parse_int8 after) as [r p']. cbn [snd] in Hp'. destruct (negb (r =? 0)); [done|].
    pose proof (util_parse_ipv4_range before ip Hip) as Hr. by destruct (util_parse_ipv4 before ip).
  - pose proof (util_parse_ipv4_range s ip Hip) as Hr. by destruct (util_parse_ipv4 s ip).
Qed.

(** ** Lemmas: the configuration stays well formed *)

Lemma parse_uint_range w s : 0 ≤ w → in_u w (parse_uint w s).2.
Proof. intros Hw. unfold parse_uint. destruct (strtoul s). by apply wrap_range. Qed.

Ltac all_assumed := repeat (apply Forall_cons_2; [assumption|]); apply Forall_nil_2.
Ltac config_wf_fields :=
  split; [all_assumed|split; [all_assumed|split; [all_assumed|split; assumption]]].

Lemma parse_option_wf fs o c : config_wf c → config_wf (parse_option fs o c).2.
Proof.
  intros Hwf. pose proof Hwf as (H32 & H16 & H8 & Hm & Hom).
  repeat (apply Forall_cons in H32 as [? H32]). repeat (apply Forall_cons in H16 as [? H16]).
  repeat (apply Forall_cons in H8 as [? H8]). clear H32 H16 H8.
  assert (∀ s, in_u 32 (parse_int32 s).2 ∧ in_u 16 (parse_int16 s).2 ∧ in_u 8 (parse_int8 s).2) as Hint
    by (intros s; split_and!; apply parse_uint_range; lia).
  assert (in_u 32 1) as Hone by done.
  destruct o as [[] a|]; cbn [parse_option]; try done;
    try (destruct (Hint a) as (? & ? & ?); unfold store_int; cbn [snd]; config_wf_fields).
  - unfold parse_socket_dir. destruct (negb _); [done|]. destruct (decide _); [done|]. exact Hwf.
  - destruct (parse_cidr_range a (cfg_ip c) (ip_prefix c)) as [Hr1 Hr2]; [done|done|].
    destruct (parse_cidr a (cfg_ip c) (ip_prefix c)) as [[r ip] prefix]. cbn [fst snd] in *. config_wf_fields.
  - pose proof (parse_ether_addr_wf a (other_node_mac c) Hom) as Hmac.
    destruct (parse_ether_addr a (other_node_mac c)) as [r mac]. cbn [snd] in *. config_wf_fields.
Qed.

Lemma parse_option_mac fs o c : cfg_mac (parse_option fs o c).2 = cfg_mac c.
Proof.
  destruct o as [[] a|]; cbn [parse_option]; try done.
  - unfold parse_socket_dir. by repeat case_match.
  - by destruct (parse_cidr a (cfg_ip c) (ip_prefix c)) as [[r ip] prefix].
  - by destruct (parse_ether_addr a (other_node_mac c)).
Qed.

Lemma parse_config_cons fs o opts c :
  parse_config fs (o :: opts) c =
  if (parse_option fs o c).1 =? 0 then parse_config fs opts (parse_option fs o c).2 else (-1, (parse_option fs o c).2).
Proof. cbn [parse_config]. destruct (parse_option fs o c) as [r c']. cbn [fst snd]. by destruct (r =? 0). Qed.

Lemma parse_ether_addr_print (upper : bool) (sep : ascii) (bytes addr : list Z) (rest : cstring) :
  sep = ":"%char ∨ sep = "-"%char → Forall is_byte bytes → List.length bytes = 6%nat → List.length addr = 6%nat →
  parse_ether_addr (print_mac upper sep bytes ++ rest) addr = (0, bytes).
Proof.
  intros Hsep Hb Hl Ha. unfold parse_ether_addr.
  assert (copy_bytes 0 bytes addr = (0, bytes)) as Hc.
  { rewrite copy_bytes_ok by (done || lia). rewrite drop_ge by lia. cbn [take app]. by rewrite app_nil_r. }
  destruct Hsep as [->| ->].
  - rewrite (scan_bytes_print upper ":" 5 bytes rest Hb Hl).
    by do 2 rewrite (decide_True (P := List.length bytes = 6%nat)) by done.
  - destruct bytes as [|b [|b' bytes]]; [done|done|]. pose proof Hb as Hb'. apply Forall_cons in Hb' as [Hb0 _].
    rewrite (scan_bytes_other upper "-" ":" b b' bytes rest Hb0) by done. rewrite (decide_False (P := List.length [b] = 6%nat)) by done.
    rewrite (scan_bytes_print upper "-" 5 (b :: b' :: bytes) rest Hb Hl). by rewrite decide_True by done.
Qed.

(** ** Lemmas: the effect of an option *)

Lemma config_ext c c' : scalars c = scalars c' → others c = others c' → c = c'.
Proof. destruct c, c'. unfold scalars, others. intros [= ] [= ]. by subst. Qed.

Lemma reads_parse w s n : reads s n → parse_uint w s = (0, wrap w n).
Proof.
  intros (sp & sg & cs & ds & -> & Hsp & Hsg & Hne & Hds & ->). unfold parse_uint.
  pose proof (strtoul_number sp sg cs ds []) as Hs. rewrite app_nil_r in Hs. rewrite Hs by done.
  rewrite (bool_decide_true ([] = [])) by done. rewrite bool_decide_false; [done|].
  intros Hnil. apply app_eq_nil in Hnil as [_ Hnil]. apply app_eq_nil in Hnil as [_ ->]. by inversion Hds; subst.
Qed.

Lemma parse_reads w s v : parse_uint w s = (0, v) ↔ ∃ n, reads s n ∧ v = n mod 2 ^ w.
Proof.
  split; [|intros (n & Hn & ->); by apply reads_parse]. intros Hp.
  destruct (proj1 (parse_uint_ret w s)) as (sp & sg & cs & -> & Hsp & Hsg & Hne & Hcs); [by rewrite Hp|].
  assert (∃ ds, Forall2 (λ c d, dec_digit c = Some d) cs ds) as [ds Hds].
  { clear -Hcs. induction Hcs as [|c cs [d Hd] _ [ds IH]]; [by exists []|]. exists (d :: ds). by constructor. }
  assert (∃ n, reads (sp ++ sg ++ cs) n) as [n Hn].
  { eexists. exists sp, sg, cs, ds. split_and!; try done. intros ->. by apply Forall2_nil_inv_r in Hds. }
  exists n. split; [done|]. apply (reads_parse w) in Hn. rewrite Hp in Hn. by injection Hn.
Qed.

Lemma reads_no_slash s n : reads s n → "/"%char ∉ s.
Proof.
  intros (sp & sg & cs & ds & -> & Hsp & Hsg & _ & Hds & _). rewrite !elem_of_app. intros [Hin|[Hin|Hin]].
  - rewrite Forall_forall in Hsp. by specialize (Hsp _ Hin).
  - repeat (apply elem_of_cons in Hsg as [->|Hsg]; [by repeat (apply elem_of_cons in Hin as [Hin|Hin]; [done|]); apply not_elem_of_nil in Hin|]). by apply not_elem_of_nil in Hsg.
  - apply list_elem_of_lookup in Hin as [i Hi]. destruct (Forall2_lookup_l _ _ _ _ _ Hds Hi) as (d & _ & Hd). done.
Qed.

(** *** Dotted decimal *)

Fixpoint dotted (l : list Z) : cstring :=
  match l with
  | [] => []
  | [a] => print_dec a
  | a :: l => print_dec a ++ "."%char :: dotted l
  end.

Lemma dec_digit_Some c d : dec_digit c = Some d → c = chr (48 + d) ∧ 0 ≤ d < 10.
Proof.
  unfold dec_digit. destruct ((48 <=? code c) && (code c <=? 57)) eqn:E; [|done]. intros [= <-].
  split; [|lia]. apply code_inj. rewrite code_chr by lia. lia.
Qed.

(** One more digit of an octet. *)
Lemma print_dec_snoc v c d :
  0 < v → dec_digit c = Some d → 10 * v + d ≤ 255 → print_dec (10 * v + d) = print_dec v ++ [c].
Proof.
  intros Hv [-> Hd]%dec_digit_Some Hle. unfold print_dec. rewrite !octet_digits by lia.
  assert ((10 * v + d) / 10 = v ∧ (10 * v + d) mod 10 = d ∧ (10 * v + d) / 100 = v / 10) as (Hq & Hm & Hc)
    by (Z.to_euclidean_division_equations; lia).
  rewrite Hq, Hm, Hc. replace (10 * v + d <? 10) with false by lia.
  destruct (Z.ltb_spec v 10); [|replace (v <? 100) with true by lia];
    destruct (Z.ltb_spec (10 * v + d) 100); (done || lia).
Qed.

Lemma inet_pton4_dotted s octets cur l :
  inet_pton4 s octets cur = Some l → from_option is_byte True cur →
  ∃ vs, vs ≠ [] ∧ Forall is_byte vs ∧ l = octets ++ vs ∧ List.length l = 4%nat ∧
    dotted vs = from_option print_dec [] cur ++ s.
Proof.
  revert octets cur. induction s as [|c s IH]; intros octets cur Hl Hcur; cbn [inet_pton4] in Hl.
  { destruct cur as [v|]; cbn [mbind option_bind] in Hl; [|done]. case_decide as H3; [|done]. injection Hl as <-.
    exists [v]. rewrite app_nil_r, length_app, H3. split_and!; try done. by apply Forall_singleton. }
  destruct (dec_digit c) as [d|] eqn:Ed.
  - pose proof (dec_digit_Some c d Ed) as [Hc Hd]. destruct cur as [v|].
    + destruct (Z.eqb_spec v 0); [done|]. destruct (Z.ltb_spec 255 (10 * v + d)); [done|]. cbn [from_option] in Hcur.
      unfold is_byte in Hcur. destruct (IH _ _ Hl) as (vs & H1' & H2' & H3' & H4' & Hs); [cbn; unfold is_byte; lia|].
      exists vs. split_and!; try done. rewrite Hs. cbn [from_option]. rewrite (print_dec_snoc v c d) by (done || lia).
      by rewrite <- app_assoc.
    + destruct (IH _ _ Hl) as (vs & H1' & H2' & H3' & H4' & Hs); [cbn; unfold is_byte; lia|].
      exists vs. split_and!; try done. rewrite Hs. cbn [from_option]. unfold print_dec. rewrite octet_digits by lia.
      replace (d <? 10) with true by lia. by rewrite Hc.
  - destruct (Z.eqb_spec (code c) 46) as [Ec|]; [|done]. destruct cur as [v|]; cbn [mbind option_bind] in Hl; [|done].
    case_decide; [done|]. destruct (IH _ _ Hl I) as (vs & H1' & H2' & H3' & H4' & Hs).
    exists (v :: vs). rewrite <- app_assoc in H3'. split_and!; try done; [by constructor|].
    rewrite (code_inj c "."%char Ec). change (dotted vs = s) in Hs. rewrite <- Hs. by destruct vs.
Qed.

Lemma util_parse_ipv4_reads s ip v : util_parse_ipv4 s ip = (0, v) ↔ reads_ip s v.
Proof.
  unfold util_parse_ipv4. split.
  - destruct (inet_pton4 s [] None) as [l|] eqn:E; [|done]. intros [= <-].
    destruct (inet_pton4_dotted s [] None l E I) as (vs & _ & Hb & -> & Hl & Hs).
    change (dotted vs = s) in Hs. subst s. destruct vs as [|a [|b [|c [|d [|? ?]]]]]; try done. exists a, b, c, d. split; [done|]. split; [done|].
    repeat (apply Forall_cons in Hb as [? Hb]). by apply ip_value.
  - intros (a & b & c & d & Hb & -> & ->). repeat (apply Forall_cons in Hb as [? Hb]).
    by rewrite inet_pton4_print, ip_value.
Qed.

Lemma reads_ip_no_slash s ip : reads_ip s ip → "/"%char ∉ s.
Proof.
  intros (a & b & c & d & Hb & -> & _). repeat (apply Forall_cons in Hb as [? Hb]). by apply print_ip_no_slash.
Qed.

Lemma split_last_slash_inv s :
  match split_last_slash s with Some (a, b) => s = a ++ "/"%char :: b | None => "/"%char ∉ s end.
Proof.
  induction s as [|c s IH]; cbn [split_last_slash]; [apply not_elem_of_nil|].
  destruct (split_last_slash s) as [[a b]|]; [by rewrite IH|].
  destruct (ascii_dec c "/"); [by subst|]. apply not_elem_of_cons. split; [congruence|done].
Qed.

Lemma parse_cidr_reads s ip0 prefix0 ip prefix :
  parse_cidr s ip0 prefix0 = (0, ip, prefix) ↔
  reads_ip s ip ∧ prefix = prefix0 ∨
  ∃ addr pre n, s = addr ++ "/"%char :: pre ∧ reads_ip addr ip ∧ reads pre n ∧ prefix = n mod 2 ^ 8.
Proof.
  unfold parse_cidr. split.
  - pose proof (split_last_slash_inv s) as Hs. destruct (split_last_slash s) as [[addr pre]|].
    + destruct (parse_int8 pre) as [r p] eqn:E. destruct (Z.eqb_spec r 0) as [->|]; cbn [negb]; [|done].
      destruct (util_parse_ipv4 addr ip0) as [r ip'] eqn:E'. destruct (Z.eqb_spec r 0) as [->|]; cbn [negb]; [|done].
      intros [= <- <-]. right. apply parse_reads in E as (n & Hn & ->). apply util_parse_ipv4_reads in E'. by exists addr, pre, n.
    + destruct (util_parse_ipv4 s ip0) as [r ip'] eqn:E'. destruct (Z.eqb_spec r 0) as [->|]; cbn [negb]; [|done].
      intros [= <- <-]. left. by apply util_parse_ipv4_reads in E'.
  - intros [[Hr ->]|(addr & pre & n & -> & Hr & Hn & ->)].
    + rewrite split_last_slash_None by by eapply reads_ip_no_slash. by rewrite (proj2 (util_parse_ipv4_reads s ip0 ip) Hr).
    + rewrite split_last_slash_app by by eapply reads_no_slash. unfold parse_int8. rewrite (reads_parse 8 pre n Hn).
      by rewrite (proj2 (util_parse_ipv4_reads addr ip0 ip) Hr).
Qed.

(** *** Ethernet addresses *)

Lemma hex_digit_nonneg c v : hex_digit c = Some v → 0 ≤ v.
Proof. unfold hex_digit. repeat (case_match; [intros [= <-]; lia|]). done. Qed.

Lemma scan_hex2_nonneg s v rest : scan_hex2 s = Some (v, rest) → 0 ≤ v.
Proof.
  unfold scan_hex2. destruct (skip_space s) as [|c s1]; [done|]. destruct (_ || _).
  - destruct s1 as [|d s2]; [done|]. destruct (hex_digit d) as [x|] eqn:E; [|done]. intros [= <- <-].
    case_match; [apply wrap_range; lia|by eapply hex_digit_nonneg].
  - destruct (hex_digit c) as [x|] eqn:E; [|done]. apply hex_digit_nonneg in E. cbn [mbind option_bind].
    destruct s1 as [|d s2]; [by intros [= <- <-]|]. destruct (hex_digit d) as [y|] eqn:E'.
    + apply hex_digit_nonneg in E'. intros [= <- <-]. lia.
    + case_match; [done|by intros [= <- <-]].
Qed.

Lemma scan_bytes_nonneg n sep s : Forall (λ b, 0 ≤ b) (scan_bytes n sep s).
Proof.
  revert s. induction n as [|n IH]; intros s; cbn [scan_bytes]; destruct (scan_hex2 s) as [[v rest]|] eqn:E;
    try apply Forall_nil_2; apply scan_hex2_nonneg in E; (constructor; [done|]); [apply Forall_nil_2|].
  destruct rest as [|c rest]; [apply Forall_nil_2|]. destruct (ascii_dec c sep); [apply IH|apply Forall_nil_2].
Qed.

Lemma copy_bytes_ret i bytes addr : (copy_bytes i bytes addr).1 = 0 → Forall (λ b, b <= 0xFF) bytes.
Proof.
  revert i addr. induction bytes as [|b bytes IH]; intros i addr; cbn [copy_bytes]; [intros _; apply Forall_nil_2|].
  destruct (Z.ltb_spec 0xFF b); [done|]. intros Hr. apply Forall_cons. split; [done|by eapply IH].
Qed.

Lemma parse_ether_addr_reads s addr mac :
  List.length addr = 6%nat → parse_ether_addr s addr = (0, mac) ↔ reads_mac s mac.
Proof.
  intros Ha. unfold parse_ether_addr.
  assert (∀ bytes, List.length bytes = 6%nat → Forall is_byte bytes → copy_bytes 0 bytes addr = (0, bytes)) as Hcopy.
  { intros bytes Hl Hb. rewrite copy_bytes_ok by (done || lia). rewrite drop_ge by lia. cbn [take app]. by rewrite app_nil_r. }
  assert (∀ bytes, List.length bytes = 6%nat → Forall (λ b, 0 ≤ b) bytes →
    copy_bytes 0 bytes addr = (0, mac) → mac = bytes ∧ Forall is_byte bytes) as Hinv.
  { intros bytes Hl Hn Hc. pose proof (copy_bytes_ret 0 bytes addr) as Hr. rewrite Hc in Hr. specialize (Hr eq_refl).
    assert (Forall is_byte bytes) as Hb.
    { apply Forall_lookup_2. intros i b Hi. pose proof (Forall_lookup_1 _ _ _ _ Hn Hi). pose proof (Forall_lookup_1 _ _ _ _ Hr Hi).
      unfold is_byte. cbn in *. lia. }
    rewrite Hcopy in Hc by done. by injection Hc as <-. }
  split.
  - destruct (decide (List.length (scan_bytes 5 ":" s) = 6%nat)) as [Hl|Hl].
    + rewrite decide_True by done. intros Hc. destruct (Hinv _ Hl (scan_bytes_nonneg _ _ _) Hc) as [-> Hb]. split_and!; auto.
    + case_decide as Hl'; [|done]. intros Hc. destruct (Hinv _ Hl' (scan_bytes_nonneg _ _ _) Hc) as [-> Hb]. split_and!; auto.
  - intros (Hl & Hb & [Hs|[Hn Hs]]).
    + rewrite Hs. do 2 rewrite (decide_True (P := List.length mac = 6%nat)) by done. by apply Hcopy.
    + rewrite (decide_False (P := List.length (scan_bytes 5 ":" s) = 6%nat)), Hs, decide_True by done. by apply Hcopy.
Qed.

(** *** The switch *)

Lemma store_int_effect w s set i c c' :
  (∀ v, scalars (set v c) = <[i := v]> (scalars c) ∧ others (set v c) = others c) →
  store_int (parse_uint w s) set c = (0, c') ↔
  ∃ n, reads s n ∧ scalars c' = <[i := n mod 2 ^ w]> (scalars c) ∧ others c' = others c.
Proof.
  intros Hset. unfold store_int. split.
  - intros [= Hr <-]. destruct (parse_uint w s) as [r v] eqn:E. cbn [fst snd] in *. subst r.
    apply parse_reads in E as (n & Hn & ->). exists n. split; [done|]. apply Hset.
  - intros (n & Hn & Hs & Ho). rewrite (reads_parse w s n Hn). cbn [fst snd]. f_equal.
    destruct (Hset (wrap w n)) as [Hs' Ho']. unfold wrap in *. apply config_ext; congruence.
Qed.

Lemma parse_option_effect fs o c c' :
  List.length (other_node_mac c) = 6%nat → parse_option fs o c = (0, c') ↔ effect fs o c c'.
Proof.
  intros Hmac. destruct o as [p s|]; [|done].
  destruct p; cbn [parse_option effect number_option]; try (by apply store_int_effect); try done.
  - unfold parse_socket_dir. destruct (access_ok fs s); cbn [negb]; [|by split; [|intros [? _]]].
    destruct (decide (PATH_MAX <= List.length s)%nat); [split; [done|intros (_ & ? & _); lia]|].
    split; [intros [= <-]; split_and!; (done || lia)|]. intros (_ & _ & Hs & Ho). f_equal. by apply config_ext.
  - split; [by intros [= <-]|]. intros [Hs Ho]. f_equal. by apply config_ext.
  - split; [by intros [= <-]|]. intros [Hs Ho]. f_equal. by apply config_ext.
  - pose proof (parse_cidr_reads s (cfg_ip c) (ip_prefix c)) as Hp. split.
    + destruct (parse_cidr s (cfg_ip c) (ip_prefix c)) as [[r ip] prefix]. intros [= -> <-].
      exists ip. split; [done|]. destruct (proj1 (Hp ip prefix) eq_refl) as [[Hr ->]|(addr & pre & n & Hr)]; [by left|].
      destruct Hr as (-> & Hr & Hn & ->). right. by exists addr, pre, n.
    + intros (ip & Ho & [[Hr Hs]|(addr & pre & n & Ha & Hr & Hn & Hs)]).
      * rewrite (proj2 (Hp ip (ip_prefix c))) by auto. f_equal. by apply config_ext.
      * rewrite (proj2 (Hp ip (n mod 2 ^ 8))) by (right; by exists addr, pre, n). f_equal. by apply config_ext.
  - pose proof (λ mac, parse_ether_addr_reads s (other_node_mac c) mac Hmac) as Hp. split.
    + destruct (parse_ether_addr s (other_node_mac c)) as [r mac]. intros [= -> <-]. exists mac. by rewrite <- Hp.
    + intros (mac & Hr & Hs & Ho). rewrite (proj2 (Hp mac) Hr). f_equal. by apply config_ext.
Qed.

(** ** Properties *)

(** Numbers on the command line.  A decimal number below 2^64 is accepted and
    stored modulo the width of its field: exactly when it fits, silently truncated
    when it does not (65537 queues are one queue); a minus sign stores its
    negation; and a string is accepted exactly when it is white space, an optional
    sign and digits, so the empty string and trailing characters are refused. *)
Theorem parse_int_correct (n : Z) :
  0 ≤ n < 2 ^ 64 →
  parse_int32 (print_dec n) = (0, n mod 2 ^ 32) ∧ parse_int16 (print_dec n) = (0, n mod 2 ^ 16) ∧
  parse_int8 (print_dec n) = (0, n mod 2 ^ 8) ∧
  parse_int32 ("-"%char :: print_dec n) = (0, (- n) mod 2 ^ 32) ∧
  ∀ s, ((parse_int32 s).1 = 0 ↔ is_number s) ∧ ((parse_int16 s).1 = 0 ↔ is_number s) ∧
       ((parse_int8 s).1 = 0 ↔ is_number s).
Proof.
  intros Hn. destruct (print_dec_digits n Hn) as (Hd1 & Hd2 & Hd3).
  pose proof (print_dec_nonempty n Hn) as Hne.
  assert (∀ w, parse_uint w (print_dec n) = (0, wrap w n)) as Hp.
  { intros w. unfold parse_uint. rewrite <- (app_nil_r (print_dec n)) at 1. rewrite strtoul_print by done.
    by rewrite bool_decide_false by done. }
  split_and!; [apply Hp|apply Hp|apply Hp| |intros s; split_and!; apply parse_uint_ret].
  unfold parse_int32, parse_uint.
  pose proof (strtoul_number [] ["-"%char] (print_dec n) (dec_digits 20 n) []) as Hs. cbn [app] in Hs.
  rewrite app_nil_r in Hs. rewrite Hs; [|done|by right; right; left|done|done|done].
  rewrite Hd1, (bool_decide_true (["-"%char] = ["-"%char])), (bool_decide_false ("-"%char :: print_dec n = [])),
    (bool_decide_true (@nil ascii = [])) by done. cbn [negb orb].
  replace (ULONG_MAX <? n) with false by (unfold ULONG_MAX; lia). f_equal.
  unfold u64. by rewrite wrap_wrap_le by lia.
Qed.

(** Round trip of Ethernet addresses: six bytes written in hexadecimal, in either
    case, separated by colons or by dashes, are read back; and whatever follows the
    sixth byte is ignored. *)
Theorem parse_ether_addr_roundtrip (upper : bool) (sep : ascii) (bytes addr : list Z) (rest : cstring) :
  sep = ":"%char ∨ sep = "-"%char → Forall is_byte bytes → List.length bytes = 6%nat → List.length addr = 6%nat →
  parse_ether_addr (print_mac upper sep bytes ++ rest) addr = (0, bytes).
Proof. apply parse_ether_addr_print. Qed.

(** Round trip of addresses with a prefix length: dotted decimal is read as the
    number in host order, with the prefix stored modulo 256; without a slash the
    prefix keeps its value. *)
Theorem parse_cidr_roundtrip (a b c d p ip prefix : Z) :
  0 ≤ a < 256 → 0 ≤ b < 256 → 0 ≤ c < 256 → 0 ≤ d < 256 → 0 ≤ p < 2 ^ 64 →
  parse_cidr (print_ip a b c d ++ "/"%char :: print_dec p) ip prefix =
    (0, a * 2 ^ 24 + b * 2 ^ 16 + c * 2 ^ 8 + d, p mod 256) ∧
  parse_cidr (print_ip a b c d) ip prefix = (0, a * 2 ^ 24 + b * 2 ^ 16 + c * 2 ^ 8 + d, prefix).
Proof.
  intros Ha Hb Hc Hd Hp. unfold parse_cidr. rewrite split_last_slash_app by by apply print_dec_no_slash.
  rewrite split_last_slash_None by by apply print_ip_no_slash. unfold util_parse_ipv4.
  rewrite inet_pton4_print, ip_value by done. split; [|done].
  unfold parse_int8, parse_uint. rewrite <- (app_nil_r (print_dec p)) at 1. rewrite strtoul_print by done.
  by rewrite (bool_decide_false (print_dec p = [])) by by apply print_dec_nonempty.
Qed.

(** [C40] The option loop, completely.  It succeeds exactly when every option is one
    that takes effect, and then the configuration is the one after all the effects, in
    order.  An option with a number stores it, modulo the width of the field, in its own
    field and touches nothing else; the number has to be white space, a sign and digits
    up to the end of the argument.  [--client] and [--dequeue-zero-copy] set their flags;
    [--socket-dir] copies an accessible path shorter than [PATH_MAX]; [--ip-addr] takes a
    dotted quad without leading zeros, with the prefix length, if there is a slash, after
    the last one; [--other-node-mac] six bytes with colons or dashes.  The first option
    that does not, [--portmask] and unknown ones included, ends the loop with -1, and the
    later ones have no effect.  Every field of the result is in the range of its type
    whatever the options, and the data plane's own MAC address is never set. *)
Theorem parse_config_correct (fs : fs_env) (opts : list getopt_result) (c : config_t) :
  config_wf c →
  (∀ c', parse_config fs opts c = (0, c') ↔ effects fs opts c c') ∧
  ((parse_config fs opts c).1 = 0 ∨
   ∃ pre o post c1, opts = pre ++ o :: post ∧ effects fs pre c c1 ∧ (∀ c2, ¬ effect fs o c1 c2) ∧
     parse_config fs opts c = (-1, (parse_option fs o c1).2)) ∧
  config_wf (parse_config fs opts c).2 ∧ cfg_mac (parse_config fs opts c).2 = cfg_mac c.
Proof.
  revert c. induction opts as [|o opts IH]; intros c Hwf.
  { split; [|split; [by left|done]]. intros c'. split; [intros [= <-]; constructor|]. by inversion 1. }
  pose proof (parse_option_wf fs o c Hwf) as Hwf'. pose proof (parse_option_mac fs o c) as Hmac.
  pose proof (λ c', parse_option_effect fs o c c' (proj1 (proj2 (proj2 (proj2 (proj2 Hwf)))))) as Heff.
  destruct (IH (parse_option fs o c).2 Hwf') as (H1 & H2 & H3 & H4). rewrite parse_config_cons.
  destruct (parse_option fs o c) as [r c1] eqn:E. cbn [fst snd] in *. destruct (Z.eqb_spec r 0) as [->|Hr].
  - split; [|split; [|split; [done|congruence]]].
    + intros c'. rewrite H1. split; [by intros ?; apply (effects_cons _ _ _ _ c1); [apply Heff|]|].
      inversion 1 as [|? ? ? c2 ? Ho Hos]; subst. apply Heff in Ho. by injection Ho as <-.
    + destruct H2 as [H2|(pre & o' & post & c2 & -> & Hpre & Hno & Hrun)]; [by left|right].
      exists (o :: pre), o', post, c2. split_and!; try done. by apply (effects_cons _ _ _ _ c1); [apply Heff|].
  - assert (∀ c2, ¬ effect fs o c c2) as Hno by (intros c2 Ho; apply Heff in Ho; congruence).
    cbn [snd]. split; [|split; [right|done]].
    + intros c'. split; [done|]. inversion 1; subst. by edestruct Hno.
    + exists [], o, opts, c. split_and!; [done|constructor|done|by rewrite E].
Qed.

(** The table and the switch do not agree on one option.  The values in the table
    are distinct and each option has arguments it accepts, but for the first:
    [--portmask], which the usage text asks for, is refused whatever its argument. *)
Theorem portmask_refused (c : config_t) :
  NoDup (options.*2) ∧
  (∀ name has_arg p, (name, has_arg, p) ∈ options → p ≠ CP_PORTMASK →
     ∃ a fs, (parse_option fs (Opt p a) c).1 = 0) ∧
  ("portmask"%string, true, CP_PORTMASK) ∈ options ∧
  ∀ fs a opts, parse_config fs (Opt CP_PORTMASK a :: opts) c = (-1, c).
Proof.
  split_and!; [refine (bool_decide_unpack _ _); vm_compute; exact I| |by left|done].
  intros name has_arg p _ Hp.
  assert (∀ a, is_number a → ∀ w, (parse_uint w a).1 = 0) as Hnum by (intros a Ha w; by apply parse_uint_ret).
  pose proof (print_dec_digits 1 ltac:(lia)) as _.
  assert (is_number ["1"%char]) as H1.
  { exists [], [], ["1"%char]. split_and!; [done|done|by left|done|]. repeat constructor. by eexists. }
  destruct p; try done; try (exists ["1"%char], (mk_fs (λ _, true) true); by apply Hnum);
    try (by exists [], (mk_fs (λ _, true) true)).
  - exists (print_ip 1 2 3 4), (mk_fs (λ _, true) true). reflexivity.
  - exists (print_mac false ":" [1; 2; 3; 4; 5; 6]), (mk_fs (λ _, true) true). reflexivity.
Qed.

(** ** Witnesses *)

Lemma parse_int_correct_witness : parse_int16 (print_dec 65537) = (0, 1).
Proof. exact (proj1 (proj2 (parse_int_correct 65537 ltac:(lia)))). Defined.

Lemma parse_ether_addr_roundtrip_witness :
  parse_ether_addr (list_ascii_of_string "b8-ce-F6") (replicate 6 0) = (-1, replicate 6 0) ∧
  parse_ether_addr (print_mac false "-" [0xb8; 0xce; 0xf6; 1; 2; 3] ++ ["!"%char]) (replicate 6 0) =
    (0, [0xb8; 0xce; 0xf6; 1; 2; 3]).
Proof.
  split; [reflexivity|]. apply (parse_ether_addr_roundtrip false "-" [0xb8; 0xce; 0xf6; 1; 2; 3]); try reflexivity.
  - right. reflexivity.
  - refine (bool_decide_unpack _ _). vm_compute. exact I.
Defined.

Lemma parse_cidr_roundtrip_witness :
  parse_cidr (list_ascii_of_string "192.168.100.1/24") 0 0 = (0, 0xC0A86401, 24).
Proof.
  exact (proj1 (parse_cidr_roundtrip 192 168 100 1 24 0 0 ltac:(lia) ltac:(lia) ltac:(lia) ltac:(lia) ltac:(lia))).
Defined.

Lemma parse_config_correct_witness :
  let fs := mk_fs (λ _, true) true in
  let opts := [Opt CP_ETH_TX_QUEUES (list_ascii_of_string " +65540"); Opt CP_CLIENT [];
    Opt CP_IP_ADDR (list_ascii_of_string "192.168.100.1/24");
    Opt CP_OTHER_NODE_MAC (list_ascii_of_string "b8:ce:f6:1:2:3")] in
  (∃ c, effects fs opts init_config c ∧ eth_tx_queues c = 4 ∧ cfg_ip c = 0xC0A86401 ∧ ip_prefix c = 24 ∧
     other_node_mac c = [0xb8; 0xce; 0xf6; 1; 2; 3]) ∧
  ∀ c, ¬ effects fs (opts ++ [Opt CP_ETH_TX_QUEUES (list_ascii_of_string "4x")]) init_config c.
Proof.
  intros fs opts. split.
  - destruct (parse_config_correct fs opts init_config init_config_wf) as (Hc & _).
    eexists. split; [apply Hc; vm_compute; reflexivity|]. split_and!; reflexivity.
  - intros c Hc. apply (proj1 (parse_config_correct fs _ init_config init_config_wf)) in Hc. vm_compute in Hc. discriminate Hc.
Defined.
