(* ===== verification/Text.v ===== *)
(** * Text that the program prints: the conversions of printf and display_number

    The conversions of the C library that the format strings of the program use, on
    character lists as in [ConfigParse], and [display_number] of lib/utils/utils.c.  Its
    divisions are on [double]: a non-negative finite double is a mantissa and an
    exponent, rounding is to nearest with ties to even, and [%.1f] prints the exact value
    of the double, rounded the same way.  Subnormal numbers and overflow do not occur. *)

From Stdlib Require Import Ascii String QArith Qabs Qpower Lqa.
From S2P Require Import Prelude CInt Config ConfigParse.
Local Abbreviation length := List.length.
Local Open Scope Z_scope.

Definition text (s : string) : cstring := list_ascii_of_string s.

(** [%u], [%lu] and [%d]; [%02x] and [%04x] of one and two bytes. *)
Definition fmt_u (n : Z) : cstring := print_dec n.
Definition fmt_d (z : Z) : cstring := if z <? 0 then "-"%char :: print_dec (- z) else print_dec z.
Definition fmt_02x (b : Z) : cstring := print_byte false b.
Definition fmt_04x (v : Z) : cstring := print_byte false (v / 256) ++ print_byte false (v mod 256).

(** ** Double precision *)

(** [n / d] to the nearest integer, ties to even. *)
Definition rne (n d : Z) : Z :=
  let q := n / d in
  let r := n mod d in
  if 2 * r <? d then q else if d <? 2 * r then q + 1 else if Z.even q then q else q + 1.

(** [n / d] over [2 ^ e], as a fraction. *)
Definition over_pow (n d e : Z) : Z * Z := if 0 <=? e then (n, d * 2 ^ e) else (n * 2 ^ (- e), d).

Record double := mk_double { dbl_m : Z; dbl_e : Z }.

(** The exponent [e] with [2 ^ 52 ≤ (n / d) / 2 ^ e < 2 ^ 53]. *)
Definition dbl_exponent (n d : Z) : Z :=
  let k := Z.log2 n - Z.log2 d in
  let '(a, b) := over_pow n d k in
  (if b <=? a then k else k - 1) - 52.

(** The double nearest to [n / d]. *)
Definition round_double (n d : Z) : double :=
  if n =? 0 then mk_double 0 0
  else
    let e := dbl_exponent n d in
    let '(a, b) := over_pow n d e in
    mk_double (rne a b) e.

(** Conversion of a [uint64_t], and division. *)
Definition dbl_of (n : Z) : double := round_double n 1.
Definition dbl_div (x y : double) : double :=
  let '(a, b) := over_pow (dbl_m x) (dbl_m y) (dbl_e y - dbl_e x) in
  round_double a b.

(** The decimal digits of [n], at least [p] of them. *)
Fixpoint fixed_digits (p : nat) (n : Z) : cstring :=
  match p with
  | O => []
  | S p => fixed_digits p (n / 10) ++ [chr (48 + n mod 10)]
  end.

(** [%.pf] *)
Definition fixed_scaled (p : nat) (x : double) : Z :=
  let '(a, b) := over_pow (dbl_m x * 10 ^ Z.of_nat p) 1 (- dbl_e x) in rne a b.
Definition print_scaled (p : nat) (s : Z) : cstring :=
  print_dec (s / 10 ^ Z.of_nat p) ++ "."%char :: fixed_digits p (s mod 10 ^ Z.of_nat p).
Definition fmt_f (p : nat) (x : double) : cstring := print_scaled p (fixed_scaled p x).

(** [snprintf(buf, size, ...)] keeps [size - 1] characters. *)
Definition snprintf_text (size : nat) (s : cstring) : cstring := take (size - 1) s.

Definition display_number (number : Z) : cstring :=
  if number <? 1000 then snprintf_text 16 (fmt_u number)
  else if number <? 1000000 then snprintf_text 16 (fmt_f 1 (dbl_div (dbl_of number) (dbl_of 1000)) ++ text "K")
  else if number <? 1000000000 then snprintf_text 16 (fmt_f 1 (dbl_div (dbl_of number) (dbl_of 1000000)) ++ text "M")
  else if number <? 1000000000000 then snprintf_text 16 (fmt_f 1 (dbl_div (dbl_of number) (dbl_of 1000000000)) ++ text "B")
  else snprintf_text 16 (fmt_f 2 (dbl_div (dbl_of number) (dbl_of 1000000000000)) ++ text "T").

(** ** Lemmas: rounding, in rational numbers *)

Definition frac (n d : Z) : Q := (inject_Z n / inject_Z d)%Q.
Definition pow2 (e : Z) : Q := Qpower 2 e.
Definition dbl_value (x : double) : Q := (inject_Z (dbl_m x) * pow2 (dbl_e x))%Q.

Lemma rne_close n d : 0 < d → 2 * Z.abs (rne n d * d - n) ≤ d.
Proof.
  intros Hd. unfold rne. pose proof (Z.div_mod n d ltac:(lia)). pose proof (Z.mod_pos_bound n d Hd).
  destruct (Z.ltb_spec (2 * (n mod d)) d); [nia|]. destruct (Z.ltb_spec d (2 * (n mod d))); [nia|].
  destruct (Z.even (n / d)); nia.
Qed.

Lemma inject_pos d : 0 < d → (0 < inject_Z d)%Q.
Proof. intros Hd. change 0%Q with (inject_Z 0). by rewrite <- Zlt_Qlt. Qed.

Lemma frac_mul n d : 0 < d → (frac n d * inject_Z d == inject_Z n)%Q.
Proof. intros Hd. unfold frac. field. pose proof (inject_pos d Hd). lra. Qed.

Lemma rne_frac n d : 0 < d → (Qabs (inject_Z (rne n d) - frac n d) <= 1 # 2)%Q.
Proof.
  intros Hd. pose proof (rne_close n d Hd) as Hr. pose proof (inject_pos d Hd) as Hq. pose proof (frac_mul n d Hd) as Hm.
  assert (- inject_Z d <= 2 * (inject_Z (rne n d) * inject_Z d - inject_Z n) <= inject_Z d)%Q as [H1 H2].
  { change 2%Q with (inject_Z 2). rewrite <- inject_Z_opp, <- inject_Z_mult.
    unfold Qminus. rewrite <- inject_Z_opp, <- inject_Z_plus, <- inject_Z_mult, <- !Zle_Qle. lia. }
  apply Qabs_Qle_condition. split; nra.
Qed.

Lemma pow2_pos e : (0 < pow2 e)%Q.
Proof. apply Qpower_0_lt. lra. Qed.

Lemma pow2_add a b : (pow2 (a + b) == pow2 a * pow2 b)%Q.
Proof. apply Qpower_plus. lra. Qed.

Lemma pow2_Z e : 0 ≤ e → (inject_Z (2 ^ e) == pow2 e)%Q.
Proof. intros He. unfold pow2. by rewrite Zpower_Qpower. Qed.

Lemma over_pow_spec n d e a b :
  0 < d → over_pow n d e = (a, b) → 0 < b ∧ (0 < n → 0 < a) ∧ (frac a b * pow2 e == frac n d)%Q.
Proof.
  intros Hd. unfold over_pow. pose proof (inject_pos d Hd). pose proof (pow2_pos e).
  destruct (Z.leb_spec 0 e) as [He|He]; intros [= <- <-].
  - assert (0 < 2 ^ e) by (apply Z.pow_pos_nonneg; lia). split; [nia|]. split; [done|].
    unfold frac. rewrite inject_Z_mult, pow2_Z by done. field. split; lra.
  - assert (0 < 2 ^ (- e)) by (apply Z.pow_pos_nonneg; lia). split; [done|]. split; [nia|].
    unfold frac. rewrite inject_Z_mult, pow2_Z by lia. pose proof (pow2_add e (- e)) as Hp.
    rewrite Z.add_opp_diag_r in Hp. change (pow2 0) with 1%Q in Hp.
    transitivity (inject_Z n / inject_Z d * (pow2 e * pow2 (- e)))%Q; [|rewrite <- Hp; field; lra].
    field. lra.
Qed.

Lemma frac_pos n d : 0 < n → 0 < d → (0 < frac n d)%Q.
Proof.
  intros Hn Hd. pose proof (inject_pos n Hn). pose proof (inject_pos d Hd). pose proof (frac_mul n d Hd). nra.
Qed.

(** A fraction between two powers of two. *)
Lemma log2_frac n d : 0 < n → 0 < d →
  (pow2 (Z.log2 n - Z.log2 d - 1) < frac n d)%Q ∧ (frac n d < pow2 (Z.log2 n - Z.log2 d + 1))%Q.
Proof.
  intros Hn Hd. destruct (Z.log2_spec n Hn) as [Hn1 Hn2]. destruct (Z.log2_spec d Hd) as [Hd1 Hd2].
  pose proof (Z.log2_nonneg n). pose proof (Z.log2_nonneg d). pose proof (frac_mul n d Hd) as Hm.
  set (ln := Z.log2 n) in *. set (ld := Z.log2 d) in *.
  rewrite Zle_Qle, pow2_Z in Hn1, Hd1 by lia. rewrite Zlt_Qlt, pow2_Z in Hn2, Hd2 by lia.
  pose proof (frac_pos n d Hn Hd). set (q := frac n d) in *.
  assert (pow2 (ld + 1) * pow2 (ln - ld - 1) == pow2 ln)%Q as E1.
  { rewrite <- pow2_add. replace (ld + 1 + (ln - ld - 1)) with ln by lia. reflexivity. }
  assert (pow2 ld * pow2 (ln - ld + 1) == pow2 (ln + 1))%Q as E2.
  { rewrite <- pow2_add. replace (ld + (ln - ld + 1)) with (ln + 1) by lia. reflexivity. }
  change (Z.succ ln) with (Z.add ln 1) in Hn2. change (Z.succ ld) with (Z.add ld 1) in Hd2.
  pose proof (pow2_pos (ln - ld - 1)). pose proof (pow2_pos (ln - ld + 1)). pose proof (pow2_pos ld).
  split; nra.
Qed.

Lemma dbl_exponent_spec n d : 0 < n → 0 < d →
  (pow2 (dbl_exponent n d + 52) <= frac n d)%Q ∧ (frac n d < pow2 (dbl_exponent n d + 53))%Q.
Proof.
  intros Hn Hd. destruct (log2_frac n d Hn Hd) as [H1 H2]. unfold dbl_exponent.
  set (k := Z.log2 n - Z.log2 d) in *. destruct (over_pow n d k) as [a b] eqn:E.
  destruct (over_pow_spec n d k a b Hd E) as (Hb & _ & Hv). pose proof (inject_pos b Hb). pose proof (frac_mul a b Hb).
  pose proof (pow2_pos k). destruct (Z.leb_spec b a) as [Hab|Hab].
  - replace (k - 52 + 52) with k by lia. replace (k - 52 + 53) with (k + 1) by lia. split; [|done].
    rewrite Zle_Qle in Hab. rewrite <- Hv. assert (1 <= frac a b)%Q by nra. nra.
  - replace (k - 1 - 52 + 52) with (k - 1) by lia. replace (k - 1 - 52 + 53) with k by lia. split; [lra|].
    rewrite Zlt_Qlt in Hab. rewrite <- Hv. assert (frac a b < 1)%Q by nra. nra.
Qed.

(** A double is close to the number it stands for, and has a mantissa of 53 bits. *)
Lemma round_double_close n d : 0 ≤ n → 0 < d →
  (Qabs (dbl_value (round_double n d) - frac n d) <= frac n d * pow2 (-53))%Q.
Proof.
  intros Hn Hd. unfold round_double. destruct (Z.eqb_spec n 0) as [->|Hne].
  { unfold dbl_value, frac. cbn [dbl_m dbl_e]. pose proof (inject_pos d Hd).
    assert (inject_Z 0 / inject_Z d == 0)%Q as E by (unfold Qdiv; change (inject_Z 0) with 0%Q; lra).
    rewrite E. change (inject_Z 0) with 0%Q. apply Qabs_Qle_condition. split; lra. }
  destruct (dbl_exponent_spec n d) as [He _]; [lia|done|]. set (e := dbl_exponent n d) in *.
  destruct (over_pow n d e) as [a b] eqn:E. destruct (over_pow_spec n d e a b Hd E) as (Hb & _ & Hv).
  unfold dbl_value. cbn [dbl_m dbl_e]. pose proof (rne_frac a b Hb) as Hr.
  apply Qabs_Qle_condition in Hr as [Hr1 Hr2]. pose proof (pow2_pos e). rewrite <- Hv in *.
  replace (e + 52) with (e + 53 + -1) in He by lia. rewrite !pow2_add in He.
  assert (pow2 53 * pow2 (-53) == 1)%Q as E1 by reflexivity. pose proof (pow2_pos (-53)).
  change (pow2 (-1)) with (1 # 2)%Q in He.
  assert (pow2 e * (1 # 2) <= frac a b * pow2 e * pow2 (-53))%Q by nra.
  apply Qabs_Qle_condition. split; nra.
Qed.

Lemma round_double_mantissa n d : 0 < n → 0 < d → 2 ^ 52 ≤ dbl_m (round_double n d) ≤ 2 ^ 53.
Proof.
  intros Hn Hd. unfold round_double. destruct (Z.eqb_spec n 0); [lia|].
  destruct (dbl_exponent_spec n d Hn Hd) as [He1 He2]. set (e := dbl_exponent n d) in *.
  destruct (over_pow n d e) as [a b] eqn:E. destruct (over_pow_spec n d e a b Hd E) as (Hb & _ & Hv).
  cbn [dbl_m]. pose proof (rne_close a b Hb) as Hr. rewrite <- Hv, pow2_add in He1, He2.
  pose proof (pow2_pos e). pose proof (frac_mul a b Hb) as Hm. pose proof (inject_pos b Hb).
  assert (pow2 52 <= frac a b)%Q by nra. assert (frac a b < pow2 53)%Q by nra.
  assert (inject_Z (2 ^ 52 * b) <= inject_Z a)%Q as Hlo by (rewrite inject_Z_mult, pow2_Z by lia; nra).
  assert (inject_Z a < inject_Z (2 ^ 53 * b))%Q as Hhi by (rewrite inject_Z_mult, pow2_Z by lia; nra).
  rewrite <- Zle_Qle in Hlo. rewrite <- Zlt_Qlt in Hhi. nia.
Qed.

Lemma dbl_value_frac m e : (dbl_value (mk_double m e) == frac m 1 * pow2 e)%Q.
Proof. unfold dbl_value, frac. cbn [dbl_m dbl_e]. change (inject_Z 1) with 1%Q. field. Qed.

Lemma dbl_div_close x y : 0 ≤ dbl_m x → 0 < dbl_m y →
  (Qabs (dbl_value (dbl_div x y) - dbl_value x / dbl_value y) <= dbl_value x / dbl_value y * pow2 (-53))%Q.
Proof.
  intros Hx Hy. unfold dbl_div. destruct (over_pow (dbl_m x) (dbl_m y) (dbl_e y - dbl_e x)) as [a b] eqn:E.
  destruct (over_pow_spec _ _ _ a b Hy E) as (Hb & Ha & Hv).
  assert (0 ≤ a) as Ha'.
  { unfold over_pow in E. destruct (0 <=? _); injection E as <- _; [done|].
    apply Z.mul_nonneg_nonneg; [done|]. apply Z.pow_nonneg. lia. }
  pose proof (round_double_close a b Ha' Hb) as Hr. pose proof (inject_pos _ Hy).
  pose proof (pow2_pos (dbl_e x)). pose proof (pow2_pos (dbl_e y)). pose proof (pow2_pos (dbl_e y - dbl_e x)).
  assert (frac a b == dbl_value x / dbl_value y)%Q as Eq; [|by rewrite <- Eq].
  assert (pow2 (dbl_e y - dbl_e x) * pow2 (dbl_e x) == pow2 (dbl_e y))%Q as Ep.
  { rewrite <- pow2_add. replace (dbl_e y - dbl_e x + dbl_e x) with (dbl_e y) by lia. reflexivity. }
  unfold frac in Hv. unfold dbl_value. rewrite <- Ep.
  transitivity (inject_Z a / inject_Z b * pow2 (dbl_e y - dbl_e x) / pow2 (dbl_e y - dbl_e x))%Q.
  - unfold frac. field. pose proof (inject_pos b Hb). lra.
  - rewrite Hv. field. lra.
Qed.

Lemma fixed_scaled_close p x :
  (Qabs (inject_Z (fixed_scaled p x) - dbl_value x * inject_Z (10 ^ Z.of_nat p)) <= 1 # 2)%Q.
Proof.
  unfold fixed_scaled. destruct (over_pow _ 1 (- dbl_e x)) as [a b] eqn:E.
  destruct (over_pow_spec _ 1 _ a b ltac:(lia) E) as (Hb & _ & Hv). pose proof (rne_frac a b Hb) as Hr.
  assert (frac a b == dbl_value x * inject_Z (10 ^ Z.of_nat p))%Q as Eq; [|by rewrite <- Eq].
  pose proof (pow2_pos (- dbl_e x)). pose proof (pow2_pos (dbl_e x)).
  assert (pow2 (- dbl_e x) * pow2 (dbl_e x) == 1)%Q as Ep by (rewrite <- pow2_add; replace (- dbl_e x + dbl_e x) with 0 by lia; reflexivity).
  transitivity (frac a b * (pow2 (- dbl_e x) * pow2 (dbl_e x)))%Q; [rewrite Ep; lra|].
  rewrite Qmult_assoc, Hv. unfold frac, dbl_value. rewrite inject_Z_mult. change (inject_Z 1) with 1%Q. field.
Qed.

Lemma dbl_of_nonneg n : 0 ≤ n → 0 ≤ dbl_m (dbl_of n).
Proof.
  intros Hn. destruct (Z.eq_dec n 0) as [->|Hne]; [done|].
  pose proof (round_double_mantissa n 1 ltac:(lia) ltac:(lia)). unfold dbl_of. lia.
Qed.

(** The number that [number / unit] is printed as, with [p] decimals. *)
Definition shown (p : nat) (number unit : Z) : Z := fixed_scaled p (dbl_div (dbl_of number) (dbl_of unit)).

Lemma shown_close p number unit : 0 ≤ number → 0 < unit → (dbl_value (dbl_of unit) == inject_Z unit)%Q →
  2 ^ 51 * (2 * Z.abs (shown p number unit * unit - number * 10 ^ Z.of_nat p)) ≤
  2 ^ 51 * unit + 2 * number * 10 ^ Z.of_nat p.
Proof.
  intros Hn Hu Hexact. set (T := 10 ^ Z.of_nat p). assert (0 < T) as HT by (apply Z.pow_pos_nonneg; lia).
  set (s := shown p number unit). set (x := dbl_of number) in *. set (y := dbl_of unit) in *.
  assert (0 < dbl_m y) as Hy by (pose proof (round_double_mantissa unit 1 Hu ltac:(lia)); unfold y, dbl_of; lia).
  pose proof (dbl_div_close x y (dbl_of_nonneg number Hn) Hy) as Hdiv.
  pose proof (round_double_close number 1 Hn ltac:(lia)) as Hx. pose proof (fixed_scaled_close p (dbl_div x y)) as Hs.
  fold T in Hs. change (fixed_scaled p (dbl_div x y)) with s in Hs. change (round_double number 1) with x in Hx.
  assert (frac number 1 == inject_Z number)%Q as E1 by (unfold frac; change (inject_Z 1) with 1%Q; field).
  rewrite E1 in Hx. rewrite Hexact in Hdiv. apply Qabs_Qle_condition in Hdiv, Hx, Hs.
  set (z := dbl_value (dbl_div x y)) in *. set (v := dbl_value x) in *. clearbody z v s.
  pose proof (inject_pos unit Hu) as Hu'. pose proof (inject_pos T HT) as HT'.
  assert (0 <= inject_Z number)%Q as Hn' by (change 0%Q with (inject_Z 0); by rewrite <- Zle_Qle).
  assert (exists w, v / inject_Z unit == w /\ w * inject_Z unit == v)%Q as (w & Ew & Hw).
  { exists (v / inject_Z unit)%Q. split; [reflexivity|]. field. lra. }
  rewrite Ew in Hdiv. set (N := inject_Z number) in *. set (U := inject_Z unit) in *. set (S := inject_Z s) in *. set (TQ := inject_Z T) in *.
  assert (pow2 (-53) == 1 # 9007199254740992)%Q as E53 by reflexivity. rewrite E53 in Hdiv, Hx.
  assert (-(1#2) * U + -(1 # 2251799813685248) * (N * TQ) <= S * U - N * TQ /\
    S * U - N * TQ <= (1#2) * U + (1 # 2251799813685248) * (N * TQ))%Q as [Hlo Hhi].
  { assert (-(1#2) * U <= S * U - z * TQ * U /\ S * U - z * TQ * U <= (1#2) * U)%Q as [] by (split; nra).
    assert (v * TQ == w * U * TQ)%Q as Ev by (rewrite <- Hw; reflexivity). assert (0 < U * TQ)%Q by nra.
    assert (-((1 # 9007199254740992) * (v * TQ)) <= z * TQ * U - v * TQ /\
      z * TQ * U - v * TQ <= (1 # 9007199254740992) * (v * TQ))%Q as [] by (rewrite Ev; split; nra).
    assert (-((1 # 9007199254740992) * (N * TQ)) <= v * TQ - N * TQ /\
      v * TQ - N * TQ <= (1 # 9007199254740992) * (N * TQ))%Q as [] by (split; nra).
    assert (0 <= N * TQ)%Q by nra. split; lra. }
  enough (- (2 ^ 51 * unit + 2 * number * T) <= 2 ^ 52 * (s * unit - number * T) /\
    2 ^ 52 * (s * unit - number * T) <= 2 ^ 51 * unit + 2 * number * T) by lia.
  rewrite !Zle_Qle, inject_Z_opp, !inject_Z_plus, !inject_Z_mult. unfold Z.sub. rewrite inject_Z_plus, inject_Z_opp, !inject_Z_mult.
  fold U S N TQ. change (inject_Z (2 ^ 51)) with 2251799813685248%Q. change (inject_Z (2 ^ 52)) with 4503599627370496%Q.
  change (inject_Z 2) with 2%Q. split; lra.
Qed.

(** ** Lemmas: lengths *)

Lemma dec_digits_width fuel k n : 0 ≤ n < 10 ^ Z.of_nat (S k) → (length (dec_digits fuel n) ≤ S k)%nat.
Proof.
  revert k n. induction fuel as [|fuel IH]; intros k n Hn; cbn [dec_digits length]; [lia|].
  destruct (Z.ltb_spec n 10); [cbn; lia|]. destruct k as [|k]; [cbn in Hn; lia|].
  rewrite length_app. cbn [length]. assert (length (dec_digits fuel (n / 10)) ≤ S k)%nat; [|lia]. apply IH.
  rewrite (Nat2Z.inj_succ (S k)), Z.pow_succ_r in Hn by lia. Z.to_euclidean_division_equations. lia.
Qed.

Lemma length_fixed_digits p n : length (fixed_digits p n) = p.
Proof. revert n. induction p as [|p IH]; intros n; cbn [fixed_digits]; [done|]. rewrite length_app, IH. cbn. lia. Qed.

Lemma length_print_scaled p s :
  0 ≤ s < 10 ^ Z.of_nat p * 10 ^ 8 → (length (print_scaled p s) ≤ 9 + p)%nat.
Proof.
  intros Hs. unfold print_scaled. rewrite length_app. cbn [length]. rewrite length_fixed_digits. unfold print_dec. rewrite length_fmap.
  assert (0 < 10 ^ Z.of_nat p) by (apply Z.pow_pos_nonneg; lia).
  assert (length (dec_digits 20 (s / 10 ^ Z.of_nat p)) ≤ 8)%nat; [|lia]. apply dec_digits_width.
  change (10 ^ Z.of_nat 8) with (10 ^ 8). split; [apply Z.div_pos; lia|apply Z.div_lt_upper_bound; lia].
Qed.

(** ** Properties *)

(** The decimals, the unit and its letter that [display_number] chooses. *)
Definition display_unit (number : Z) : nat * Z * ascii :=
  if number <? 10 ^ 6 then (1%nat, 10 ^ 3, "K"%char)
  else if number <? 10 ^ 9 then (1%nat, 10 ^ 6, "M"%char)
  else if number <? 10 ^ 12 then (1%nat, 10 ^ 9, "B"%char)
  else (2%nat, 10 ^ 12, "T"%char).

Lemma display_number_unit number p unit letter : 0 ≤ number < 2 ^ 64 → 1000 ≤ number →
  display_unit number = (p, unit, letter) →
  (dbl_value (dbl_of unit) == inject_Z unit)%Q ∧
  (1000 ≤ unit ≤ number ∧ number < unit * 20000000 ∧ p = (if number <? 10 ^ 12 then 1%nat else 2%nat) ∧
    unit = 10 * (unit / 10) ∧ (10 ^ 12 ≤ number → unit = 10 ^ 12)) ∧
  display_number number = snprintf_text 16 (print_scaled p (shown p number unit) ++ [letter]).
Proof.
  intros Hn Hk. unfold display_number, display_unit, shown, fmt_f. replace (number <? 1000) with false by lia.
  change (10 ^ 6) with 1000000. change (10 ^ 9) with 1000000000. change (10 ^ 12) with 1000000000000. change (10 ^ 3) with 1000.
  change (2 ^ 64) with 18446744073709551616 in Hn.
  destruct (Z.ltb_spec number 1000000); [|destruct (Z.ltb_spec number 1000000000); [|destruct (Z.ltb_spec number 1000000000000)]];
    intros [= <- <- <-]; (split; [vm_compute; reflexivity|]); (split; [|reflexivity]); repeat split; try lia;
    replace (number <? 1000000000000) with true by lia; reflexivity.
Qed.

(** [C32] The numbers of the dashboard.  Whatever the 64-bit counter, the text fits the static
    buffer, so that [snprintf] cuts nothing off; below a thousand the number itself is
    printed; above, the printed decimal is the counter in thousands, millions or
    billions, rounded to the nearest tenth although the division is on doubles, and in
    trillions it is off by at most half a hundredth and the rounding of the doubles. *)
Theorem display_number_correct (number : Z) : 0 ≤ number < 2 ^ 64 →
  (length (display_number number) ≤ 15)%nat ∧
  (number < 1000 → display_number number = fmt_u number) ∧
  ∀ p unit letter, 1000 ≤ number → display_unit number = (p, unit, letter) →
    ∃ s, display_number number = print_scaled p s ++ [letter] ∧
      (number < 10 ^ 12 → p = 1%nat ∧ 2 * Z.abs (s * (unit / 10) - number) ≤ unit / 10) ∧
      (10 ^ 12 ≤ number → p = 2%nat ∧ 2 * Z.abs (s * 10 ^ 10 - number) ≤ 10 ^ 10 + 20000).
Proof.
  intros Hn. destruct (Z.ltb_spec number 1000) as [Hs|Hs].
  - assert (length (fmt_u number) ≤ 3)%nat as Hl by (unfold fmt_u, print_dec; rewrite length_fmap; apply dec_digits_width; cbn; lia).
    assert (display_number number = fmt_u number) as ->.
    { unfold display_number. replace (number <? 1000) with true by lia. unfold snprintf_text. apply take_ge. lia. }
    split; [lia|]. split; [done|lia].
  - destruct (display_unit number) as [[p unit] letter] eqn:Eu.
    destruct (display_number_unit number p unit letter Hn Hs Eu) as (Hex & (Hu & Hlt & Hp & Hten & Hbig) & E).
    pose proof (shown_close p number unit ltac:(lia) ltac:(lia) Hex) as Hc. set (s := shown p number unit) in *. clearbody s.
    change (10 ^ 12) with 1000000000000 in *. change (10 ^ 10) with 10000000000 in *.
    change (2 ^ 64) with 18446744073709551616 in Hn. change (2 ^ 51) with 2251799813685248 in Hc.
    assert (0 ≤ s < 10 ^ Z.of_nat p * 10 ^ 8 ∧
      (number < 1000000000000 → p = 1%nat ∧ 2 * Z.abs (s * (unit / 10) - number) ≤ unit / 10) ∧
      (1000000000000 ≤ number → p = 2%nat ∧ 2 * Z.abs (s * 10000000000 - number) ≤ 10000000000 + 20000)) as (Hr & Hsm & Hbg).
    { change (10 ^ 8) with 100000000. destruct (Z.ltb_spec number 1000000000000); subst p.
      - change (10 ^ Z.of_nat 1) with 10 in *. set (u := unit / 10) in *. clearbody u. subst unit. split_and!; try done; nia.
      - rewrite (Hbig ltac:(done)) in Hc. clear Hten Hbig Hex Hu Hlt. change (10 ^ Z.of_nat 2) with 100 in *.
        split; [lia|]. split; [lia|]. intros _. split; [done|]. lia. }
    assert (length (print_scaled p s ++ [letter]) ≤ 15)%nat as Hlen.
    { rewrite length_app. pose proof (length_print_scaled p s Hr). cbn [length]. assert (p ≤ 2)%nat by (rewrite Hp; destruct (number <? _); lia). lia. }
    unfold snprintf_text in E. rewrite take_ge in E by lia. rewrite E. split; [done|]. split; [lia|].
    intros p' unit' letter' _ [= <- <- <-]. exists s. by split.
Qed.

(** ** Witnesses *)

Example display_small : display_number 7 = text "7".
Proof. vm_compute. reflexivity. Qed.
(** 1.05 is not a double; the nearest one is above it, that of 1.25 is 1.25. *)
Example display_tie : display_number 1050 = text "1.1K" ∧ display_number 1250 = text "1.2K".
Proof. split; vm_compute; reflexivity. Qed.
Example display_carry : display_number 999950 = text "1000.0K".
Proof. vm_compute. reflexivity. Qed.
Example display_max : display_number (2 ^ 64 - 1) = text "18446744.07T".
Proof. vm_compute. reflexivity. Qed.

Lemma display_number_correct_witness :
  ∃ s, display_number 2549999 = print_scaled 1 s ++ ["M"%char] ∧ 2 * Z.abs (s * 100000 - 2549999) ≤ 100000.
Proof.
  destruct (display_number_correct 2549999) as (_ & _ & H); [split; [lia|reflexivity]|].
  destruct (H 1%nat 1000000 "M"%char) as (s & E & Hs & _); [lia|reflexivity|]. exists s. split; [exact E|].
  apply Hs. reflexivity.
Defined.
