(* ===== verification/Log.v ===== *)
(** * lib/utils/log.c: the log lines and the packet dump

    [log_info] and its siblings print a timestamp, a coloured prefix and a formatted
    message; [print_pkts] prints one line per packet.  Output is text on one of the two
    standard streams.  The timestamp ([localtime] and [strftime]) and the message that
    [vprintf] formats are arguments.  The enumeration has no value outside its seven, so
    the default case of the switch in [print_pkts] is not there. *)

From Stdlib Require Import Ascii String.
From S2P Require Import Prelude CInt Packet Config ConfigParse Text.
Local Abbreviation length := List.length.
Local Open Scope Z_scope.

(** ** include/log.h *)

Definition ESC : ascii := chr 27.
Definition NL : cstring := [chr 10].
Definition RED_PREFIX : cstring := ESC :: text "[31m".
Definition YELLOW_PREFIX : cstring := ESC :: text "[33m".
Definition GREEN_PREFIX : cstring := ESC :: text "[32m".
Definition BLUE_PREFIX : cstring := ESC :: text "[34m".
Definition MAGENTA_PREFIX : cstring := ESC :: text "[35m".
Definition CYAN_PREFIX : cstring := ESC :: text "[36m".
Definition WHITE_PREFIX : cstring := ESC :: text "[37m".
Definition RESET_COLOR : cstring := ESC :: text "[0m".

Inductive log_level := LOG_INFO | LOG_ERROR | LOG_WARN | LOG_ETH_IN | LOG_ETH_OUT | LOG_VM_IN | LOG_VM_OUT.

(** ** The log lines *)

Inductive stream := Stdout | Stderr.
Definition output : Type := list (stream * cstring).

Definition print_timestamp (now : cstring) : output := [(Stdout, text "[" ++ now ++ text "] ")].

Definition log_line (to : stream) (prefix now msg : cstring) : output :=
  print_timestamp now ++ [(to, prefix); (to, msg); (to, RESET_COLOR)].

Definition log_info : cstring → cstring → output := log_line Stdout (WHITE_PREFIX ++ text "[INFO] ").
Definition log_error : cstring → cstring → output := log_line Stderr (RED_PREFIX ++ text "[ERROR] ").
Definition log_warn : cstring → cstring → output := log_line Stderr (YELLOW_PREFIX ++ text "[WARN] ").
Definition log_eth_in : cstring → cstring → output := log_line Stdout (CYAN_PREFIX ++ text "[ETH IN] ").
Definition log_eth_out : cstring → cstring → output := log_line Stdout (GREEN_PREFIX ++ text "[ETH OUT] ").
Definition log_vm_in : cstring → cstring → output := log_line Stdout (BLUE_PREFIX ++ text "[VM IN] ").
Definition log_vm_out : cstring → cstring → output := log_line Stdout (MAGENTA_PREFIX ++ text "[VM OUT] ").

(** ** The packet dump *)

Definition print_mac (mac : list Z) : cstring :=
  concat ((λ '(j, b), fmt_02x b ++ if decide (j < 5)%nat then text ":" else []) <$> zip (seq 0 6) mac).

Definition print_ip (ip : Z) : cstring :=
  fmt_u (Z.land (Z.shiftr ip 24) 0xff) ++ text "." ++ fmt_u (Z.land (Z.shiftr ip 16) 0xff) ++ text "." ++
  fmt_u (Z.land (Z.shiftr ip 8) 0xff) ++ text "." ++ fmt_u (Z.land ip 0xff).

Definition level_prefix (level : log_level) : cstring * cstring :=
  match level with
  | LOG_ETH_IN => (CYAN_PREFIX, text "[ETH IN] ")
  | LOG_ETH_OUT => (GREEN_PREFIX, text "[ETH OUT] ")
  | LOG_VM_IN => (BLUE_PREFIX, text "[VM IN] ")
  | LOG_VM_OUT => (MAGENTA_PREFIX, text "[VM OUT] ")
  | LOG_INFO => (WHITE_PREFIX, text "[INFO] ")
  | LOG_ERROR => (RED_PREFIX, text "[ERROR] ")
  | LOG_WARN => (YELLOW_PREFIX, text "[WARN] ")
  end.

Definition RTE_ETHER_TYPE_IPV6 : Z := 0x86DD.
Definition IPPROTO_ICMP : Z := 1.
Definition sizeof_ipv4_hdr : Z := 20.

Definition print_arp (m : mbuf) : cstring :=
  let b := buf m in
  text " (ARP)" ++
  if Z.of_nat sizeof_ether_hdr + 28 <=? pkt_len m then
    text " op=" ++ fmt_u (rte_be_to_cpu_16 (arp_opcode b)) ++
    (if rte_be_to_cpu_16 (arp_opcode b) =? 1 then text " (REQUEST)"
     else if rte_be_to_cpu_16 (arp_opcode b) =? 2 then text " (REPLY)" else []) ++
    text " src_ip=" ++ print_ip (rte_be_to_cpu_32 (arp_sip b)) ++
    text " dst_ip=" ++ print_ip (rte_be_to_cpu_32 (arp_tip b))
  else [].

(** The ICMP header is taken at offset 34, whatever the length of the IP header. *)
Definition print_icmp (m : mbuf) : cstring :=
  text " (ICMP)" ++
  if Z.of_nat sizeof_ether_hdr + sizeof_ipv4_hdr + 4 <=? pkt_len m then
    text " type=" ++ fmt_u (load 1 34 (buf m)) ++ text " code=" ++ fmt_u (load 1 35 (buf m))
  else [].

Definition tcp_flag (flags bit : Z) (name : cstring) : cstring :=
  if negb (Z.land flags bit =? 0) then name else [].

Definition print_tcp (m : mbuf) : cstring :=
  let b := buf m in
  text " (TCP)" ++
  let ip_hdr_len := ip_ihl b * 4 in
  if Z.of_nat sizeof_ether_hdr + ip_hdr_len + 13 <=? pkt_len m then
    let flags := load 1 (l4_off b + 13) b in
    tcp_flag flags 0x10 (text " ACK") ++ tcp_flag flags 0x02 (text " SYN") ++ tcp_flag flags 0x01 (text " FIN") ++
    tcp_flag flags 0x04 (text " RST") ++ tcp_flag flags 0x08 (text " PSH") ++
    text " sport=" ++ fmt_u (rte_be_to_cpu_16 (l4_src_port b)) ++ text " dport=" ++ fmt_u (rte_be_to_cpu_16 (l4_dst_port b)) ++
    tcp_flag flags 0x10 (text " ack=" ++ fmt_u (rte_be_to_cpu_32 (load 4 (l4_off b + 8) b))) ++
    text " seq=" ++ fmt_u (rte_be_to_cpu_32 (load 4 (l4_off b + 4) b))
  else [].

Definition print_ipv4 (m : mbuf) : cstring :=
  let b := buf m in
  text " (IPv4)" ++ text " proto=" ++ fmt_u (ip_proto b) ++
  (if ip_proto b =? IPPROTO_ICMP then print_icmp m
   else if ip_proto b =? IPPROTO_UDP then text " (UDP)"
   else if ip_proto b =? IPPROTO_TCP then print_tcp m else []) ++
  text " src_ip=" ++ print_ip (rte_be_to_cpu_32 (ip_src_addr b)) ++
  text " dst_ip=" ++ print_ip (rte_be_to_cpu_32 (ip_dst_addr b)).

(** The text between the prefix and the reset of the colour. *)
Definition pkt_text (i : nat) (m : mbuf) : cstring :=
  let b := buf m in
  let ether_type := rte_be_to_cpu_16 (eth_type b) in
  text "Packet " ++ fmt_d (Z.of_nat i) ++ text ": len=" ++ fmt_u (pkt_len m) ++ text ", ether_type=0x" ++ fmt_04x ether_type ++
  (if ether_type =? RTE_ETHER_TYPE_ARP then print_arp m
   else if ether_type =? RTE_ETHER_TYPE_IPV4 then print_ipv4 m
   else if ether_type =? RTE_ETHER_TYPE_IPV6 then text " (IPv6)" else []) ++
  text " src=" ++ print_mac (eth_src_addr b) ++ text " dst=" ++ print_mac (eth_dst_addr b).

Definition print_pkts (pkts : list nat) (count : nat) (level : log_level) (pool : gmap nat mbuf) : res cstring :=
  let '(color_code, prefix) := level_prefix level in
  foldM (λ i out,
      p ← arr_get pkts i;
      m ← heap_get pool p;
      Ok (out ++ (color_code ++ prefix ++ pkt_text i m ++ RESET_COLOR ++ NL)))
    (seq 0 count) [].

(** ** Specification *)

(** Printable ASCII. *)
Definition printable (c : ascii) : Prop := 32 ≤ code c ≤ 126.
#[export] Instance printable_dec c : Decision (printable c).
Proof. unfold printable. apply _. Defined.
Definition plain (s : cstring) : Prop := Forall printable s.

(** The line of one packet. *)
Definition pkt_line (level : log_level) (i : nat) (m : mbuf) : cstring :=
  let '(color_code, prefix) := level_prefix level in color_code ++ prefix ++ pkt_text i m ++ RESET_COLOR ++ NL.

Definition newlines (s : cstring) : nat := length (filter (λ c, c = chr 10) s).

(** ** Lemmas: characters that can be printed *)

Create HintDb plain.

Lemma plain_app s1 s2 : plain s1 → plain s2 → plain (s1 ++ s2).
Proof. intros. by apply Forall_app. Qed.

Lemma plain_nil : plain [].
Proof. constructor. Qed.

Lemma plain_if (b : bool) s1 s2 : plain s1 → plain s2 → plain (if b then s1 else s2).
Proof. by destruct b. Qed.

Lemma plain_flag flags bit s : plain s → plain (tcp_flag flags bit s).
Proof. intros Hs. apply plain_if; [done|constructor]. Qed.

Lemma plain_chr z : 32 ≤ z ≤ 126 → printable (chr z).
Proof. intros Hz. unfold printable. rewrite code_chr; lia. Qed.

Lemma plain_dec n : 0 ≤ n → plain (print_dec n).
Proof.
  intros Hn. unfold plain, print_dec. apply Forall_fmap.
  assert (∀ fuel n, 0 ≤ n → Forall (λ d, 0 ≤ d < 10) (dec_digits fuel n)) as Hd.
  { clear n Hn. intros fuel. induction fuel as [|fuel IH]; intros n Hn; cbn [dec_digits]; [constructor|].
    destruct (Z.ltb_spec n 10); [apply Forall_singleton; lia|]. apply Forall_app. split; [apply IH, Z.div_pos; lia|].
    apply Forall_singleton, Z.mod_pos_bound. lia. }
  eapply Forall_impl; [by apply Hd|]. cbn. intros d Hd'. apply plain_chr. lia.
Qed.

Lemma plain_d z : plain (fmt_d z).
Proof.
  unfold fmt_d. destruct (Z.ltb_spec z 0); [constructor; [by vm_compute|]|]; apply plain_dec; lia.
Qed.

Lemma plain_byte b : is_byte b → plain (fmt_02x b).
Proof.
  intros Hb. unfold is_byte in Hb. unfold fmt_02x, print_byte, print_hex.
  repeat (apply Forall_cons; split); [..|constructor]; apply plain_chr;
    match goal with |- context [?x <? 10] => destruct (Z.ltb_spec x 10) end; Z.to_euclidean_division_equations; lia.
Qed.

Lemma plain_x4 v : in_u 16 v → plain (fmt_04x v).
Proof.
  intros Hv. unfold in_u in Hv. change (2 ^ 16) with 65536 in Hv. unfold fmt_04x.
  apply plain_app; apply plain_byte; unfold is_byte; Z.to_euclidean_division_equations; lia.
Qed.

Lemma octet_range x : 0 ≤ Z.land x 0xff < 256.
Proof. change 0xff with (Z.ones 8). rewrite Z.land_ones by lia. by apply Z.mod_pos_bound. Qed.

Lemma plain_ip ip : plain (print_ip ip).
Proof.
  unfold print_ip, fmt_u.
  repeat apply plain_app; try (apply plain_dec, octet_range); repeat constructor; vm_compute; congruence.
Qed.

Lemma plain_mac mac : Forall is_byte mac → plain (print_mac mac).
Proof.
  intros Hm. unfold print_mac. generalize (seq 0 6). induction Hm as [|b mac Hb _ IH]; intros l.
  - destruct l; apply plain_nil.
  - destruct l as [|j l]; [constructor|]. cbn [zip zip_with fmap list_fmap concat]. apply plain_app; [|apply IH]. apply plain_app; [by apply plain_byte|].
    destruct (decide (j < 5)%nat); [|constructor]. repeat constructor; vm_compute; congruence.
Qed.

#[export] Hint Resolve plain_app plain_nil plain_if plain_flag plain_dec plain_d plain_byte plain_x4 plain_ip plain_mac : plain.

(** A closed string. *)
Ltac plain_closed := (refine (bool_decide_unpack _ _); vm_compute; exact I).
#[export] Hint Extern 1 (plain (text _)) => plain_closed : plain.

Lemma load_nonneg n off b : Forall is_byte b → 0 ≤ load n off b.
Proof.
  intros Hb. unfold load. apply of_le_bytes_bound. by apply get_bytes_is_byte.
Qed.

Lemma be16_range x : in_u 16 (rte_be_to_cpu_16 x).
Proof. apply (bswap_range 2). Qed.

Lemma be32_nonneg x : 0 ≤ rte_be_to_cpu_32 x.
Proof. apply (bswap_range 4). Qed.

Lemma be16_nonneg x : 0 ≤ rte_be_to_cpu_16 x.
Proof. apply (bswap_range 2). Qed.

#[export] Hint Resolve load_nonneg be16_range be32_nonneg be16_nonneg get_bytes_is_byte : plain.

Lemma plain_pkt_text i m : wf_buf (buf m) → 0 ≤ pkt_len m → plain (pkt_text i m).
Proof.
  intros [Hb _] Hl. assert (0 ≤ ip_proto (buf m)) by by apply load_nonneg.
  unfold pkt_text, print_arp, print_ipv4, print_icmp, print_tcp, fmt_u, eth_src_addr, eth_dst_addr. cbv zeta.
  repeat first [simple apply plain_app|simple apply plain_if|simple apply plain_flag]; auto with plain.
Qed.

(** ** Lemmas: lines *)

Lemma plain_no_newline s : plain s → newlines s = 0%nat.
Proof.
  intros Hs. unfold newlines. induction Hs as [|c s Hc _ IH]; [done|]. rewrite filter_cons_False; [done|].
  intros ->. unfold printable in Hc. rewrite code_chr in Hc; lia.
Qed.

Lemma newlines_app s1 s2 : newlines (s1 ++ s2) = (newlines s1 + newlines s2)%nat.
Proof. unfold newlines. by rewrite filter_app, length_app. Qed.

Lemma pkt_line_newlines level i m : wf_buf (buf m) → 0 ≤ pkt_len m → newlines (pkt_line level i m) = 1%nat.
Proof.
  intros Hm Hl. pose proof (plain_no_newline _ (plain_pkt_text i m Hm Hl)) as Hn.
  unfold pkt_line. destruct level; cbn [level_prefix]; rewrite !newlines_app, Hn; reflexivity.
Qed.

Lemma print_pkts_lines pkts ms count level pool :
  (count ≤ length pkts)%nat → length ms = count →
  (∀ i p, pkts !! i = Some p → (i < count)%nat → pool !! p = ms !! i) →
  print_pkts pkts count level pool = Ok (concat (imap (pkt_line level) ms)).
Proof.
  intros Hc Hl Hp. unfold print_pkts. destruct (level_prefix level) as [color prefix] eqn:Elev.
  set (f := λ i out, _). enough (∀ k, (k ≤ count)%nat →
    foldM f (seq 0 k) [] = Ok (concat (imap (pkt_line level) (take k ms)))) as Hk.
  { rewrite (Hk count) by lia. by rewrite take_ge by lia. }
  intros k. induction k as [|k IH]; intros Hk; [done|].
  rewrite seq_S, foldM_app, IH by lia. cbn [mbind res_bind foldM]. unfold f at 1. rewrite Nat.add_0_l.
  destruct (lookup_lt_is_Some_2 pkts k) as [p Hpk]; [lia|]. destruct (lookup_lt_is_Some_2 ms k) as [m Hm]; [lia|].
  rewrite (arr_get_Some _ _ _ Hpk). cbn [mbind res_bind].
  rewrite (heap_get_Some pool p m) by (rewrite (Hp k p Hpk) by lia; done). cbn [mbind res_bind].
  rewrite (take_S_r _ _ _ Hm), imap_app, concat_app. cbn [imap concat]. rewrite length_take, Nat.min_l, app_nil_r by lia.
  assert (∀ j, j = k → pkt_line level j m = color ++ prefix ++ pkt_text k m ++ RESET_COLOR ++ NL) as Hln by (intros j ->; unfold pkt_line; by rewrite Elev).
  by rewrite <- (Hln (k + 0)%nat) by lia.
Qed.

Lemma print_mac_eq mac : length mac = 6%nat → print_mac mac = ConfigParse.print_mac false ":" mac.
Proof.
  intros Hm. destruct mac as [|a [|b [|c [|d [|e [|f [|]]]]]]]; try discriminate Hm. reflexivity.
Qed.

(** Buffers that agree on the first [k] bytes. *)
Lemma get_bytes_agree k n off b b' : take k b = take k b' → (off + n ≤ k)%nat → get_bytes n off b = get_bytes n off b'.
Proof.
  intros Ht Hk. apply list_eq. intros i. rewrite !get_bytes_lookup. case_decide; [|done].
  assert (∀ l : list Z, l !! (off + i)%nat = take k l !! (off + i)%nat) as Hl by (intros l; by rewrite lookup_take_lt by lia).
  by rewrite (Hl b), (Hl b'), Ht.
Qed.

Lemma load_agree k n off b b' : take k b = take k b' → (off + n ≤ k)%nat → load n off b = load n off b'.
Proof. intros Ht Hk. unfold load. by rewrite (get_bytes_agree k n off b b'). Qed.

(** ** Properties *)

(** [C33] The dump of a burst.  As long as the packets are live, it faults nowhere and prints
    one line per packet, in order: colour, prefix, text, reset, newline.  The text holds
    printable characters only, whatever the bytes of the packet are, so that a VM cannot
    write control characters to the terminal or forge lines of the log. *)
Theorem print_pkts_correct (pkts : list nat) (ms : list mbuf) (count : nat) (level : log_level) (pool : gmap nat mbuf) :
  (count ≤ length pkts)%nat → length ms = count →
  (∀ i p, pkts !! i = Some p → (i < count)%nat → pool !! p = ms !! i) →
  Forall (λ m, wf_buf (buf m) ∧ 0 ≤ pkt_len m) ms →
  ∃ out, print_pkts pkts count level pool = Ok out ∧ out = concat (imap (pkt_line level) ms) ∧ newlines out = count ∧
    ∀ i m, ms !! i = Some m → plain (pkt_text i m).
Proof.
  intros Hc Hl Hp Hms. eexists. split; [by apply print_pkts_lines|]. split; [done|]. split.
  - rewrite <- Hl. clear Hc Hl Hp. rewrite <- (Nat.add_0_l (length ms)). change 0%nat with (newlines []) at 1.
    generalize (pkt_line_newlines level). generalize (pkt_line level). cbn [newlines filter].
    induction Hms as [|m ms [Hb Hlen] _ IH]; intros f Hf; [done|]. cbn [imap concat length].
    rewrite newlines_app, Hf by done. rewrite (IH (f ∘ S)); [done|]. intros i m' Hb' Hl'. by apply Hf.
  - intros i m Hm. pose proof (Forall_lookup_1 _ _ _ _ Hms Hm) as [Hb Hlen]. by apply plain_pkt_text.
Qed.

(** [C39] Addresses in the log can be pasted into the command line: [print_mac] and [print_ip]
    print what [parse_ether_addr] and [util_parse_ipv4] read back. *)
Theorem logged_addresses_parse (mac addr : list Z) (ip old : Z) :
  Forall is_byte mac → length mac = 6%nat → length addr = 6%nat → in_u 32 ip →
  parse_ether_addr (print_mac mac) addr = (0, mac) ∧ util_parse_ipv4 (print_ip ip) old = (0, ip).
Proof.
  intros Hb Hm Ha Hip. split.
  - rewrite print_mac_eq, <- (app_nil_r (ConfigParse.print_mac _ _ _)) by done. apply parse_ether_addr_print; auto.
  - unfold util_parse_ipv4.
    assert (∀ x, fmt_u (Z.land x 0xff) = print_dec (x mod 256)) as Hu.
    { intros x. change 0xff with (Z.ones 8). by rewrite Z.land_ones by lia. }
    unfold print_ip. rewrite !Hu, !Z.shiftr_div_pow2 by lia.
    change (print_dec ?a ++ text "." ++ ?s) with (print_dec a ++ "."%char :: s).
    change (inet_pton4 _ [] None) with (inet_pton4 (ConfigParse.print_ip (ip / 2 ^ 24 mod 256) (ip / 2 ^ 16 mod 256) (ip / 2 ^ 8 mod 256) (ip mod 256)) [] None).
    rewrite inet_pton4_print by (apply Z.mod_pos_bound; lia).
    rewrite ip_value by (apply Z.mod_pos_bound; lia). f_equal.
    unfold in_u in Hip. Z.to_euclidean_division_equations. lia.
Qed.

(** The ICMP details are wrong behind IP options: what is printed as type and code does
    not depend on anything behind the 36th byte, so the ICMP header of a packet with
    options, which starts at byte 38 or later, is never looked at. *)
Theorem icmp_ignores_options (i : nat) (m m' : mbuf) :
  take 36 (buf m) = take 36 (buf m') → pkt_len m = pkt_len m' → is_ipv4 (buf m) = true →
  ip_proto (buf m) = IPPROTO_ICMP → 5 < ip_ihl (buf m) →
  (38 ≤ l4_off (buf m))%nat ∧ pkt_text i m = pkt_text i m'.
Proof.
  intros Ht Hl Hv4 Hicmp Hihl. split; [unfold l4_off; lia|].
  assert (∀ n off, (off + n ≤ 36)%nat → load n off (buf m) = load n off (buf m')) as Hld by (intros; by apply (load_agree 36)).
  assert (∀ n off, (off + n ≤ 36)%nat → get_bytes n off (buf m) = get_bytes n off (buf m')) as Hgt by (intros; by apply (get_bytes_agree 36)).
  unfold is_ipv4 in Hv4. apply Z.eqb_eq in Hv4. unfold pkt_text. cbv zeta.
  assert (eth_type (buf m') = eth_type (buf m)) as Ht' by (symmetry; apply Hld; lia).
  assert (ip_proto (buf m') = ip_proto (buf m)) as Hp' by (symmetry; apply Hld; lia).
  rewrite Ht', Hv4. change (rte_be_to_cpu_16 (rte_cpu_to_be_16 RTE_ETHER_TYPE_IPV4)) with RTE_ETHER_TYPE_IPV4.
  cbn [Z.eqb RTE_ETHER_TYPE_IPV4 RTE_ETHER_TYPE_ARP Pos.eqb]. unfold print_ipv4, print_icmp. cbv zeta. rewrite Hp', Hicmp.
  cbn [Z.eqb IPPROTO_ICMP Pos.eqb]. unfold ip_src_addr, ip_dst_addr, eth_src_addr, eth_dst_addr.
  by rewrite !Hld, !Hgt, Hl by lia.
Qed.

(** ** Witnesses *)

(** An ARP request of 192.168.100.9 for 192.168.100.1. *)
Definition demo_logged_arp : mbuf :=
  mk_mbuf ([255;255;255;255;255;255; 2;0;0;0;0;9; 8;6;
    0;1;8;0;6;4;0;1; 2;0;0;0;0;9; 192;168;100;9; 0;0;0;0;0;0; 192;168;100;1] ++ replicate 100 0) 60 1 0 0 0 0 0 0 0 0.

Example demo_arp_text : pkt_text 0 demo_logged_arp =
  text "Packet 0: len=60, ether_type=0x0806 (ARP) op=1 (REQUEST) src_ip=192.168.100.9 dst_ip=192.168.100.1 src=02:00:00:00:00:09 dst=ff:ff:ff:ff:ff:ff".
Proof. vm_compute. reflexivity. Qed.

Lemma print_pkts_correct_witness :
  ∃ out, print_pkts [4%nat] 1 LOG_ETH_IN {[4%nat := demo_logged_arp]} = Ok out ∧ newlines out = 1%nat.
Proof.
  destruct (print_pkts_correct [4%nat] [demo_logged_arp] 1 LOG_ETH_IN {[4%nat := demo_logged_arp]}) as (out & E & _ & Hn & _).
  - cbn. lia.
  - reflexivity.
  - intros [|i] p Hp Hi; [injection Hp as <-; reflexivity|lia].
  - apply Forall_singleton. split; [|cbn; lia]. refine (bool_decide_unpack _ _). vm_compute. exact I.
  - exists out. by split.
Defined.

Lemma logged_addresses_parse_witness :
  parse_ether_addr (print_mac [2;0;0;0;0;9]) [0;0;0;0;0;0] = (0, [2;0;0;0;0;9]) ∧ util_parse_ipv4 (print_ip 0xC0A86401) 0 = (0, 0xC0A86401).
Proof.
  apply (logged_addresses_parse [2;0;0;0;0;9] [0;0;0;0;0;0] 0xC0A86401 0); try reflexivity.
  - refine (bool_decide_unpack _ _). vm_compute. exact I.
  - refine (bool_decide_unpack _ _). vm_compute. exact I.
Defined.
