(* ===== verification/Dashboard.v ===== *)
(** * src/slow/dashboard.c: the statistics on the terminal

    [control_dashboard] as the text it writes to /dev/tty: the counters of the NIC cores
    and, per vhost core, its VMs and the sums of their counters.  It runs on the slow-path
    thread and reads what the other threads publish: the device list, the plans, the home
    cores and the statistics, which are arguments here.  The four parameters of the
    function are never used, and no caller passes them. *)

From Stdlib Require Import Ascii String.
From S2P Require Import Prelude CInt Packet Dpdk Ecn Config Poll Plan Route Device VhostTx EthTx Batch EthRx SlowPath ConfigParse Text Log.
Local Abbreviation length := List.length.
Local Open Scope Z_scope.

(** What the dashboard reads: is [tty_fp] open, the counters of the NIC cores, the device
    state, and of every vhost core its [vdev_stats] and [poll_states]. *)
Record dash_world := mk_dash {
  tty_fp : bool;
  da_eth_rx : list eth_rx_stats;
  da_eth_tx : list eth_tx_stats;
  da_dev : dstate;
  da_rx : list (list vdev_rx_stats * list Z);
  da_tx : list (list vdev_tx_stats);
}.

Definition TAB : cstring := [chr 9].

(** Write a text for each element. *)
Definition each {A} (f : A → res cstring) (l : list A) : res cstring :=
  foldM (λ x out, s ← f x; Ok (out ++ s)) l [].

(** [vdev_list_ptr->vdevs[vid]->vm_id] *)
Definition vm_id_at (s : dstate) (vid : nat) : res Z :=
  slot ← arr_get (vdevs (vlist s)) vid;
  match slot with
  | None => Fault NullDeref
  | Some p => d ← heap_get (devs s) p; Ok (vm_id d)
  end.

(** The entries of a plan, as its loops visit them. *)
Definition each_vid (plan : vhost_plan) (f : nat → res cstring) : res cstring :=
  each (λ i, vid ← arr_get (plan_vids plan) i; f vid) (seq 0 (Z.to_nat (plan_num plan))).

(** ** The lists of a core *)

Definition print_byte_pkt_sum (plan : vhost_plan) (stats : list vdev_rx_stats) : res cstring :=
  out ← each_vid plan (λ vid,
    st ← arr_get stats vid;
    byte_sum ← foldM (λ j x, y ← arr_get (byte_wnd st) j; Ok (u32 (x + y))) (seq 0 WINDOW_SIZE) 0;
    pkt_sum ← foldM (λ j x, y ← arr_get (pkt_wnd st) j; Ok (u32 (x + y))) (seq 0 WINDOW_SIZE) 0;
    Ok (text "(" ++ fmt_d (Z.of_nat vid) ++ text "): " ++ display_number byte_sum ++ text "B, " ++ display_number pkt_sum ++ text "P "));
  Ok (out ++ NL).

(** [print_byte_wnd] and [print_pkt_wnd], on their window. *)
Definition print_wnd (wnd : vdev_rx_stats → list Z) (plan : vhost_plan) (stats : list vdev_rx_stats) : res cstring :=
  out ← each_vid plan (λ vid,
    st ← arr_get stats vid;
    cells ← each (λ j, x ← arr_get (wnd st) j; Ok (display_number x ++ text " ")) (seq 0 WINDOW_SIZE);
    Ok (text "(" ++ fmt_d (Z.of_nat vid) ++ text ")[" ++ cells ++ text "] "));
  Ok (out ++ NL).
Definition print_byte_wnd := print_wnd byte_wnd.
Definition print_pkt_wnd := print_wnd pkt_wnd.

Definition print_empty_polls (s : dstate) (plan : vhost_plan) (stats : list vdev_rx_stats) : res cstring :=
  out ← each_vid plan (λ vid,
    id ← vm_id_at s vid;
    st ← arr_get stats vid;
    Ok (text "(" ++ fmt_d id ++ text "):" ++ display_number (rxs_empty_poll_count st) ++ text " "));
  Ok (text "empty_polls: " ++ out ++ NL).

Definition pkts_by_vm (id pkt_count : Z) : cstring :=
  YELLOW_PREFIX ++ text "(" ++ fmt_d id ++ text "):" ++ display_number pkt_count ++ text " " ++ RESET_COLOR.

Definition print_pkts_by_rx_vdev (s : dstate) (plan : vhost_plan) (stats : list vdev_rx_stats) : res cstring :=
  out ← each_vid plan (λ vid, id ← vm_id_at s vid; st ← arr_get stats vid; Ok (pkts_by_vm id (rxs_pkt_count st)));
  Ok (YELLOW_PREFIX ++ text "pkts_by_vm: " ++ RESET_COLOR ++ out ++ NL).

Definition print_pkts_by_tx_vdev (s : dstate) (plan : vhost_plan) (stats : list vdev_tx_stats) : res cstring :=
  out ← each_vid plan (λ vid, id ← vm_id_at s vid; st ← arr_get stats vid; Ok (pkts_by_vm id (txs_pkt_count st)));
  Ok (YELLOW_PREFIX ++ text "pkts_by_vm: " ++ RESET_COLOR ++ out ++ NL).

Definition poll_state_text (name tail : string) (x : Z) : cstring :=
  RED_PREFIX ++ text name ++ display_number x ++ text tail ++ RESET_COLOR.

Definition print_poll_states (polls : list Z) : res cstring :=
  hot ← arr_get polls 0; warm ← arr_get polls 1; cool ← arr_get polls 2; cold ← arr_get polls 3; frozen ← arr_get polls 4;
  Ok (RED_PREFIX ++ text "poll_states: " ++ RESET_COLOR ++ poll_state_text "HOT " ", " hot ++
      poll_state_text "WARM " ", " warm ++ poll_state_text "COOL " ", " cool ++ poll_state_text "COLD " ", " cold ++
      poll_state_text "FROZEN " EmptyString frozen ++ NL).

(** ** The rows *)

Definition eth_rx_row (i : nat) (st : eth_rx_stats) : cstring :=
  CYAN_PREFIX ++ text "ETH RX CORE " ++ fmt_d (Z.of_nat i) ++ text ": " ++ RESET_COLOR ++
  text "pkt: " ++ display_number (ers_pkt_count st) ++ TAB ++ text "call: " ++ display_number (ers_call_count st) ++ TAB ++
  text "empty_poll: " ++ display_number (ers_empty_poll_count st) ++ TAB ++
  text "max_poll: " ++ display_number (ers_max_poll_count st) ++ TAB ++
  text "ring_enq_fail: " ++ display_number (ers_ring_enq_fail_count st) ++ NL.

Definition eth_tx_row (i : nat) (st : eth_tx_stats) : cstring :=
  GREEN_PREFIX ++ text "ETH TX CORE " ++ fmt_d (Z.of_nat i) ++ text ": " ++ RESET_COLOR ++
  text "pkt: " ++ display_number (ets_pkt_count st) ++ TAB ++ text "call: " ++ display_number (ets_call_count st) ++ TAB ++
  text "max_send: " ++ display_number (ets_max_send_count st) ++ TAB ++
  text "requeue_pkt: " ++ display_number (ets_requeue_pkt_count st) ++ TAB ++
  text "ring_deq_max: " ++ display_number (ets_ring_deq_max_count st) ++ NL.

(** The loop over the VMs of a core: the ids of the plan's entries, and sums in
    [uint64_t] over the VMs whose home is core [i].  [counters] are the fields summed. *)
Definition core_step {S} (color : cstring) (counters : list (S → Z)) (s : dstate) (i : nat) (core : list nat)
    (plan : vhost_plan) (stats : list S) (j : nat) (acc : cstring * list Z) : res (cstring * list Z) :=
  let '(out, sums) := acc in
  out ← (if Z.of_nat j <? plan_num plan then
      vid ← arr_get (plan_vids plan) j;
      id ← vm_id_at s vid;
      Ok (out ++ color ++ fmt_d id ++ text " " ++ RESET_COLOR)
    else Ok out);
  c ← arr_get core j;
  if decide (c = i) then
    st ← arr_get stats j;
    Ok (out, zip_with (λ f x, u64 (x + f st)) counters sums)
  else Ok (out, sums).

Definition core_loop {S} (color : cstring) (counters : list (S → Z)) (s : dstate) (i : nat) (core : list nat)
    (plan : vhost_plan) (stats : list S) : res (cstring * list Z) :=
  foldM (core_step color counters s i core plan stats) (seq 0 MAX_VHOSTS) ([], replicate (length counters) 0).

Definition core_head (color : cstring) (name : string) (i : nat) (plan : vhost_plan) : cstring :=
  color ++ text name ++ fmt_d (Z.of_nat i) ++ text " (" ++ fmt_u (plan_num plan) ++ text "): " ++ RESET_COLOR.

(** The sums with the tabs between them. *)
Definition rx_counters : list (vdev_rx_stats → Z) :=
  [rxs_pkt_count; rxs_call_count; rxs_empty_poll_count; rxs_max_poll_count;
   rxs_vhost_tx_ring_enq_fail_count; rxs_eth_tx_ring_enq_fail_count].
Definition tx_counters : list (vdev_tx_stats → Z) :=
  [txs_pkt_count; txs_call_count; txs_max_send_count; txs_requeue_pkt_count; txs_ring_deq_max_count].
Definition rx_seps : list cstring := [TAB; TAB; TAB ++ TAB; TAB ++ TAB; TAB ++ TAB; NL].
Definition tx_seps : list cstring := [TAB; TAB; TAB ++ TAB; TAB ++ TAB; NL].
Definition sums_text (seps : list cstring) (sums : list Z) : cstring :=
  concat (zip_with (λ x sep, display_number x ++ sep) sums seps).

Definition rx_core_rows (w : dash_world) (i : nat) : res cstring :=
  ctx ← arr_get (da_rx w) i;
  plan ← arr_get (rx_plans (da_dev w)) i;
  '(ids, sums) ← core_loop BLUE_PREFIX rx_counters (da_dev w) i (vhost_rx_core (da_dev w)) plan ctx.1;
  vms ← print_pkts_by_rx_vdev (da_dev w) plan ctx.1;
  polls ← print_poll_states ctx.2;
  Ok (core_head BLUE_PREFIX "VHOST RX CORE " i plan ++ ids ++ NL ++ sums_text rx_seps sums ++ vms ++ polls).

Definition tx_core_rows (w : dash_world) (i : nat) : res cstring :=
  stats ← arr_get (da_tx w) i;
  plan ← arr_get (tx_plans (da_dev w)) i;
  '(ids, sums) ← core_loop MAGENTA_PREFIX tx_counters (da_dev w) i (vhost_tx_core (da_dev w)) plan stats;
  vms ← print_pkts_by_tx_vdev (da_dev w) plan stats;
  Ok (core_head MAGENTA_PREFIX "VHOST TX CORE " i plan ++ ids ++ NL ++ sums_text tx_seps sums ++ vms).

Definition clear_screen : cstring := ESC :: text "[2J" ++ ESC :: text "[H".
Definition rx_header : cstring :=
  NL ++ text "pkt" ++ TAB ++ text "call" ++ TAB ++ text "empty_poll" ++ TAB ++ text "max_poll" ++ TAB ++
  text "vr_enq_fail" ++ TAB ++ text "er_enq_fail" ++ NL.
Definition tx_header : cstring :=
  NL ++ text "pkt" ++ TAB ++ text "call" ++ TAB ++ text "max_send" ++ TAB ++ text "requeue_pkt" ++ TAB ++
  text "ring_deq_max" ++ NL.

(** Writing to a file that could not be opened dereferences its NULL pointer. *)
Definition control_dashboard (config : config_t) (w : dash_world) : res cstring :=
  if negb (tty_fp w) then Fault NullDeref
  else
    eth_rx ← each (λ i, st ← arr_get (da_eth_rx w) i; Ok (eth_rx_row i st)) (seq 0 (Z.to_nat (eth_rx_cores config)));
    eth_tx ← each (λ i, st ← arr_get (da_eth_tx w) i; Ok (eth_tx_row i st)) (seq 0 (Z.to_nat (eth_tx_cores config)));
    rx ← each (rx_core_rows w) (seq 0 (Z.to_nat (vhost_rx_cores config)));
    tx ← each (tx_core_rows w) (seq 0 (Z.to_nat (vhost_tx_cores config)));
    Ok (clear_screen ++ eth_rx ++ eth_tx ++ rx_header ++ rx ++ tx_header ++ tx).

(** The body of the endless loop of [slowpath_loop], of which [slowpath_iter] is the part
    behind the dashboard: the text written, the time of the last dashboard, the state.
    [nics] are the counters of the NIC cores, [polls] and [txs] those of the vhost cores
    that the slow path does not write. *)
Definition slowpath_body `{RteRing} `{RteMempool slow_msg} (config : config_t) (fp : bool)
    (nics : list eth_rx_stats * list eth_tx_stats) (polls : list (list Z)) (txs : list (list vdev_tx_stats))
    (e : slow_env) (last_dashboard_update : Z) (w : slow_world) : res (cstring * Z * slow_world) :=
  '(out, last) ← (if negb (show_dash config =? 0) && (env_tsc_hz e <? u64 (env_cur_tsc e - last_dashboard_update)) then
      out ← control_dashboard config (mk_dash fp nics.1 nics.2 (sl_dev w) (zip (sl_stats w) polls) txs);
      Ok (out, env_cur_tsc e)
    else Ok ([], last_dashboard_update));
  w ← slowpath_iter config e w;
  Ok (out, last, w).

(** ** Specification *)

Definition slot_vm_id (s : dstate) (vid : nat) : Z :=
  from_option vm_id 0 (p ← mjoin (vdevs (vlist s) !! vid); devs s !! p).

(** The VMs whose home is core [i], and the sum of a counter over them. *)
Definition homed_at (i : nat) (core : list nat) (n : nat) : list nat := filter (λ j, core !! j = Some i) (seq 0 n).
Definition stat {S} (f : S → Z) (stats : list S) (j : nat) : Z := from_option f 0 (stats !! j).
Definition zsum (l : list Z) : Z := foldr Z.add 0 l.
Definition core_total {S} (f : S → Z) (i : nat) (core : list nat) (stats : list S) : Z :=
  zsum (stat f stats <$> homed_at i core MAX_VHOSTS).

Definition ids_text (color : cstring) (s : dstate) (vids : list nat) : cstring :=
  concat ((λ v, color ++ fmt_d (slot_vm_id s v) ++ text " " ++ RESET_COLOR) <$> vids).
Definition by_vm_text (s : dstate) (pkts : nat → Z) (vids : list nat) : cstring :=
  YELLOW_PREFIX ++ text "pkts_by_vm: " ++ RESET_COLOR ++ concat ((λ v, pkts_by_vm (slot_vm_id s v) (pkts v)) <$> vids) ++ NL.

(** The rows of a core: its VMs, the sums of their counters, and each VM's packets. *)
Definition rx_rows (s : dstate) (i : nat) (stats : list vdev_rx_stats) (polls : cstring) (plan : vhost_plan) : cstring :=
  core_head BLUE_PREFIX "VHOST RX CORE " i plan ++ ids_text BLUE_PREFIX s (plan_list plan) ++ NL ++
  sums_text rx_seps ((λ f, core_total f i (vhost_rx_core s) stats) <$> rx_counters) ++
  by_vm_text s (stat rxs_pkt_count stats) (plan_list plan) ++ polls.
Definition tx_rows (s : dstate) (i : nat) (stats : list vdev_tx_stats) (plan : vhost_plan) : cstring :=
  core_head MAGENTA_PREFIX "VHOST TX CORE " i plan ++ ids_text MAGENTA_PREFIX s (plan_list plan) ++ NL ++
  sums_text tx_seps ((λ f, core_total f i (vhost_tx_core s) stats) <$> tx_counters) ++
  by_vm_text s (stat txs_pkt_count stats) (plan_list plan).

(** 64 statistics, in the range of their type. *)
Definition stats_ok {S} (counters : list (S → Z)) (stats : list S) : Prop :=
  length stats = MAX_VHOSTS ∧ Forall (λ st, Forall (λ f, in_u 32 (f st)) counters) stats.

Definition dash_wf (config : config_t) (w : dash_world) : Prop :=
  dstate_wf (da_dev w) ∧
  (length (da_eth_rx w) = Z.to_nat (eth_rx_cores config) ∧ length (da_eth_tx w) = Z.to_nat (eth_tx_cores config)) ∧
  (length (da_rx w) = Z.to_nat (vhost_rx_cores config) ∧ length (rx_plans (da_dev w)) = length (da_rx w) ∧
   Forall (λ ctx, stats_ok rx_counters ctx.1 ∧ length ctx.2 = 5%nat) (da_rx w)) ∧
  (length (da_tx w) = Z.to_nat (vhost_tx_cores config) ∧ length (tx_plans (da_dev w)) = length (da_tx w) ∧
   Forall (stats_ok tx_counters) (da_tx w)).

(** ** Lemmas: loops that write *)

Lemma foldM_write {A} (f : A → res cstring) (g : A → cstring) l out :
  (∀ x, x ∈ l → f x = Ok (g x)) → foldM (λ x out, s ← f x; Ok (out ++ s)) l out = Ok (out ++ concat (g <$> l)).
Proof.
  revert out. induction l as [|x l IH]; intros out Hf; cbn [foldM fmap list_fmap concat]; [by rewrite app_nil_r|].
  rewrite Hf by by left. cbn [mbind res_bind]. rewrite IH by (intros; apply Hf; by right). by rewrite app_assoc.
Qed.

Lemma each_Ok {A} (f : A → res cstring) (g : A → cstring) l :
  (∀ x, x ∈ l → f x = Ok (g x)) → each f l = Ok (concat (g <$> l)).
Proof. intros Hf. unfold each. by rewrite (foldM_write f g). Qed.

Lemma seq_imap {A} (g : nat → A → cstring) (h : nat → cstring) (l : list A) :
  (∀ i x, l !! i = Some x → h i = g i x) → h <$> seq 0 (length l) = imap g l.
Proof.
  intros Hh. apply list_eq. intros i. rewrite list_lookup_fmap, list_lookup_imap.
  destruct (l !! i) as [x|] eqn:E.
  - rewrite lookup_seq_lt by (by eapply lookup_lt_Some). cbn. by rewrite (Hh i x).
  - apply lookup_ge_None in E. by rewrite lookup_seq_ge.
Qed.

Lemma each_arr {A} (f : nat → res cstring) (g : nat → A → cstring) (l : list A) n :
  length l = n → (∀ i x, l !! i = Some x → f i = Ok (g i x)) → each f (seq 0 n) = Ok (concat (imap g l)).
Proof.
  intros <- Hf. rewrite (each_Ok f (λ i, from_option (g i) [] (l !! i))).
  - rewrite (seq_imap g); [done|]. by intros i x ->.
  - intros i Hi%elem_of_seq. destruct (lookup_lt_is_Some_2 l i) as [x Hx]; [lia|]. rewrite Hx. by apply Hf.
Qed.

Lemma plan_list_lookup plan i v : plan_list plan !! i = Some v → plan_vids plan !! i = Some v ∧ (i < Z.to_nat (plan_num plan))%nat.
Proof. unfold plan_list. intros Hv. by apply lookup_take_Some in Hv. Qed.

Lemma each_vid_Ok plan (f : nat → res cstring) (g : nat → cstring) :
  plan_wf plan → (∀ v, v ∈ plan_list plan → f v = Ok (g v)) → each_vid plan f = Ok (concat (g <$> plan_list plan)).
Proof.
  intros Hp Hf. unfold each_vid. rewrite (each_arr _ (λ _, g) (plan_list plan)).
  - do 2 f_equal. apply list_eq. intros i. rewrite list_lookup_imap, list_lookup_fmap. by destruct (plan_list plan !! i).
  - by apply length_plan_list, plan_wf_shape.
  - intros i v Hv. pose proof (plan_list_lookup _ _ _ Hv) as [Hv' _]. rewrite (arr_get_Some _ _ _ Hv'). cbn [mbind res_bind].
    apply Hf. by eapply list_elem_of_lookup_2.
Qed.

(** ** Lemmas: the loop over the VMs of a core *)

Lemma vm_id_at_live s v : slots_wf s → vm_live (vdevs (vlist s)) v → vm_id_at s v = Ok (slot_vm_id s v).
Proof.
  intros (_ & _ & Hdev & _) [p Hp]. destruct (Hdev v p Hp) as (d & Hd & _).
  unfold vm_id_at, slot_vm_id. rewrite (arr_get_Some _ _ _ Hp), Hp. cbn [mbind res_bind mjoin option_join option_bind].
  by rewrite (heap_get_Some _ _ _ Hd), Hd.
Qed.

Lemma homed_at_S i core n :
  homed_at i core (S n) = homed_at i core n ++ if decide (core !! n = Some i) then [n] else [].
Proof.
  unfold homed_at. by rewrite seq_S, filter_app.
Qed.

Lemma zsum_app l1 l2 : zsum (l1 ++ l2) = zsum l1 + zsum l2.
Proof. induction l1 as [|x l1 IH]; [done|]. cbn [app zsum foldr] in *. unfold zsum in *. lia. Qed.

(** Sixty-four counters of 32 bits do not overflow 64 bits. *)
Lemma total_range {S} (counters : list (S → Z)) f i core (stats : list S) n :
  stats_ok counters stats → f ∈ counters → 0 ≤ zsum (stat f stats <$> homed_at i core n) ≤ Z.of_nat n * 2 ^ 32.
Proof.
  intros [_ Hst] Hf. assert (∀ j, 0 ≤ stat f stats j < 2 ^ 32) as Hj.
  { intros j. unfold stat. destruct (stats !! j) as [st|] eqn:E; cbn; [|lia].
    pose proof (Forall_lookup_1 _ _ _ _ Hst E) as Hc. rewrite Forall_forall in Hc. by apply Hc. }
  induction n as [|n IH]; [cbn; lia|]. rewrite homed_at_S, fmap_app, zsum_app.
  case_decide; cbn [fmap list_fmap zsum foldr]; specialize (Hj n); lia.
Qed.

Lemma zip_with_map {S} (g : (S → Z) → Z → Z) (h : (S → Z) → Z) (l : list (S → Z)) :
  zip_with g l (h <$> l) = (λ f, g f (h f)) <$> l.
Proof. induction l as [|x l IH]; [done|]. cbn. by rewrite IH. Qed.

Lemma core_loop_Ok {S} color (counters : list (S → Z)) s i core plan (stats : list S) :
  slots_wf s → plan_wf plan → length core = MAX_VHOSTS → stats_ok counters stats →
  (∀ v, v ∈ plan_list plan → vm_live (vdevs (vlist s)) v) →
  core_loop color counters s i core plan stats =
    Ok (ids_text color s (plan_list plan), (λ f, core_total f i core stats) <$> counters).
Proof.
  intros Hs Hp Hc Hst Hlive. pose proof (length_plan_list plan (plan_wf_shape _ Hp)) as Hlen.
  assert (length (plan_list plan) ≤ MAX_VHOSTS)%nat as Hle by (destruct Hp as [Hp _]; lia).
  enough (∀ n, (n ≤ MAX_VHOSTS)%nat → foldM (core_step color counters s i core plan stats) (seq 0 n) ([], replicate (length counters) 0) =
    Ok (ids_text color s (take n (plan_list plan)), (λ f, zsum (stat f stats <$> homed_at i core n)) <$> counters)) as H.
  { unfold core_loop. rewrite H by done. by rewrite take_ge. }
  intros n. induction n as [|n IH]; intros Hn.
  { cbn. do 2 f_equal. clear Hst. induction counters as [|f l IHl]; [done|]. cbn. by rewrite IHl. }
  rewrite seq_S, foldM_app, IH by lia. cbn [mbind res_bind foldM]. rewrite Nat.add_0_l. unfold core_step at 1.
  replace (if Z.of_nat n <? plan_num plan then _ else Ok (ids_text color s (take n (plan_list plan))))
    with (Ok (ids_text color s (take (Datatypes.S n) (plan_list plan)))).
  2: { destruct (Z.ltb_spec (Z.of_nat n) (plan_num plan)) as [Hlt|Hge].
       - destruct (lookup_lt_is_Some_2 (plan_list plan) n) as [v Hv]; [lia|].
         pose proof (plan_list_lookup _ _ _ Hv) as [Hv' _]. rewrite (arr_get_Some _ _ _ Hv'). cbn [mbind res_bind].
         rewrite vm_id_at_live by (try apply Hlive; try done; by eapply list_elem_of_lookup_2). cbn [mbind res_bind].
         rewrite (take_S_r _ _ _ Hv). unfold ids_text. rewrite fmap_app, concat_app. cbn [fmap list_fmap concat]. by rewrite app_nil_r.
       - by rewrite !take_ge by lia. }
  cbn [mbind res_bind]. destruct (lookup_lt_is_Some_2 core n) as [c Hcn]; [lia|]. rewrite (arr_get_Some _ _ _ Hcn). cbn [mbind res_bind].
  destruct Hst as [Hls Hf]. destruct (lookup_lt_is_Some_2 stats n) as [st Hstn]; [lia|].
  destruct (decide (c = i)) as [->|Hne].
  - rewrite (arr_get_Some _ _ _ Hstn). cbn [mbind res_bind]. rewrite zip_with_map. do 2 f_equal.
    apply list_fmap_ext. intros k f Hk. rewrite homed_at_S, decide_True, fmap_app, zsum_app by done. cbn [fmap list_fmap zsum foldr].
    unfold stat at 3. rewrite Hstn. cbn [from_option].
    pose proof (total_range counters f i core stats n (conj Hls Hf) ltac:(by eapply list_elem_of_lookup_2)) as Hr.
    pose proof (Forall_lookup_1 _ _ _ _ Hf Hstn) as Hu. pose proof (Forall_lookup_1 _ _ _ _ Hu Hk) as Hu'. unfold in_u in Hu'.
    unfold MAX_VHOSTS in Hn. rewrite Z.add_0_r. unfold u64. apply wrap_small. unfold in_u. change (2 ^ 32) with 4294967296 in *.
    change (2 ^ 64) with 18446744073709551616. cbn beta in Hu'. lia.
  - cbn [mbind res_bind]. do 2 f_equal. apply list_fmap_ext. intros k f Hk. rewrite homed_at_S, decide_False by congruence. by rewrite app_nil_r.
Qed.

(** ** Lemmas: rows *)

Lemma homed_live vds plans core i plan : homed (mk_sys vds plans core) → plans !! i = Some plan →
  plan_wf plan ∧ length core = MAX_VHOSTS ∧ ∀ v, v ∈ plan_list plan → vm_live vds v.
Proof.
  intros (_ & Hc & Hwf & Hin & _) Hp. split; [by eapply Forall_lookup_1|]. split; [exact Hc|].
  intros v Hv. by apply (Hin i plan v Hp).
Qed.

Lemma by_vm_Ok {S} (counters : list (S → Z)) (f : S → Z) s plan (stats : list S) :
  slots_wf s → plan_wf plan → stats_ok counters stats → (∀ v, v ∈ plan_list plan → vm_live (vdevs (vlist s)) v) →
  (out ← each_vid plan (λ vid, id ← vm_id_at s vid; st ← arr_get stats vid; Ok (pkts_by_vm id (f st)));
   Ok (YELLOW_PREFIX ++ text "pkts_by_vm: " ++ RESET_COLOR ++ out ++ NL)) = Ok (by_vm_text s (stat f stats) (plan_list plan)).
Proof.
  intros Hs Hp [Hl _] Hlive. rewrite (each_vid_Ok plan _ (λ v, pkts_by_vm (slot_vm_id s v) (stat f stats v))); [done|done|].
  intros v Hv. rewrite vm_id_at_live by auto. cbn [mbind res_bind].
  destruct Hp as (_ & _ & _ & Hlt). rewrite Forall_forall in Hlt. specialize (Hlt v Hv).
  destruct (lookup_lt_is_Some_2 stats v) as [st Hst]; [lia|]. rewrite (arr_get_Some _ _ _ Hst). cbn [mbind res_bind].
  unfold stat. by rewrite Hst.
Qed.

Definition polls_text (polls : list Z) : cstring := match print_poll_states polls with Ok s => s | Fault _ => [] end.

Lemma polls_Ok polls : length polls = 5%nat → print_poll_states polls = Ok (polls_text polls).
Proof. intros Hl. unfold polls_text. by destruct polls as [|a [|b [|c [|d [|e [|]]]]]]. Qed.

Lemma rx_core_rows_Ok w i ctx plan :
  dstate_wf (da_dev w) → da_rx w !! i = Some ctx → rx_plans (da_dev w) !! i = Some plan →
  stats_ok rx_counters ctx.1 → length ctx.2 = 5%nat →
  rx_core_rows w i = Ok (rx_rows (da_dev w) i ctx.1 (polls_text ctx.2) plan).
Proof.
  intros (Hs & _ & (Hh & _) & _) Hctx Hplan Hst Hpl. destruct (homed_live _ _ _ _ _ Hh Hplan) as (Hp & Hc & Hlive).
  unfold rx_core_rows. rewrite (arr_get_Some _ _ _ Hctx). cbn [mbind res_bind]. rewrite (arr_get_Some _ _ _ Hplan). cbn [mbind res_bind].
  rewrite core_loop_Ok by done. cbn [mbind res_bind]. unfold print_pkts_by_rx_vdev.
  rewrite (by_vm_Ok rx_counters) by done. cbn [mbind res_bind]. by rewrite polls_Ok.
Qed.

Lemma tx_core_rows_Ok w i stats plan :
  dstate_wf (da_dev w) → da_tx w !! i = Some stats → tx_plans (da_dev w) !! i = Some plan → stats_ok tx_counters stats →
  tx_core_rows w i = Ok (tx_rows (da_dev w) i stats plan).
Proof.
  intros (Hs & _ & (_ & _ & Hh & _) & _) Hctx Hplan Hst. destruct (homed_live _ _ _ _ _ Hh Hplan) as (Hp & Hc & Hlive).
  unfold tx_core_rows. rewrite (arr_get_Some _ _ _ Hctx). cbn [mbind res_bind]. rewrite (arr_get_Some _ _ _ Hplan). cbn [mbind res_bind].
  rewrite core_loop_Ok by done. cbn [mbind res_bind]. unfold print_pkts_by_tx_vdev. by rewrite (by_vm_Ok tx_counters).
Qed.

(** Every VM with a home is summed at one core. *)
Lemma zsum_pick {A} (g : nat → A → Z) (h : A → Z) (l : list A) c :
  zsum (imap (λ i x, g i x + if decide (c = i) then h x else 0) l) = zsum (imap g l) + from_option h 0 (l !! c).
Proof.
  revert g c. induction l as [|x l IH]; intros g c; [done|]. cbn [imap zsum foldr]. unfold zsum in *.
  destruct c as [|c].
  - rewrite decide_True by done. cbn [lookup list_lookup from_option].
    assert (imap ((λ i x, g i x + if decide (0%nat = i) then h x else 0) ∘ S) l = imap (g ∘ S) l) as ->; [|lia].
    apply imap_ext. intros i y _. cbn [compose]. rewrite decide_False by lia. lia.
  - rewrite decide_False by lia. change ((x :: l) !! S c) with (l !! c).
    assert (imap ((λ i x, g i x + if decide (S c = i) then h x else 0) ∘ S) l =
      imap (λ i x, (g ∘ S) i x + if decide (c = i) then h x else 0) l) as ->; [|rewrite IH; lia].
    apply imap_ext. intros i y _. cbn [compose]. f_equal. apply decide_ext. lia.
Qed.

(** The counter of VM [j] at its home core. *)
Definition home_stat {S} (f : S → Z) (core : list nat) (statss : list (list S)) (j : nat) : Z :=
  from_option (λ i, from_option (λ stats, stat f stats j) 0 (statss !! i)) 0 (core !! j).

Lemma totals_partition {S} (f : S → Z) core (statss : list (list S)) n : (n ≤ length core)%nat →
  zsum (imap (λ i stats, zsum (stat f stats <$> homed_at i core n)) statss) = zsum (home_stat f core statss <$> seq 0 n).
Proof.
  induction n as [|n IH]; intros Hn.
  { cbn. induction statss as [|x l IHl] using rev_ind; [done|]. by rewrite imap_app, zsum_app, IHl. }
  rewrite seq_S, fmap_app, zsum_app, <- IH by lia. cbn [fmap list_fmap zsum foldr]. rewrite Z.add_0_r.
  destruct (lookup_lt_is_Some_2 core n) as [c Hc]; [lia|]. unfold home_stat. rewrite Nat.add_0_l, Hc. cbn [from_option].
  rewrite <- (zsum_pick (λ i stats, zsum (stat f stats <$> homed_at i core n)) (λ stats, stat f stats n)).
  f_equal. apply imap_ext. intros i stats _. cbv beta. rewrite homed_at_S, fmap_app, zsum_app, Hc. f_equal.
  destruct (decide (c = i)) as [->|Hne]; [rewrite decide_True by done|rewrite decide_False by congruence]; cbn; lia.
Qed.

(** ** Lemmas: a NULL slot in the device list *)

Definition null_or_ok {A} (r : res A) : Prop := r = Fault NullDeref ∨ ∃ a, r = Ok a.

Lemma null_bind {A B} (m : res A) (k : A → res B) :
  null_or_ok m → (∀ a, m = Ok a → null_or_ok (k a)) → null_or_ok (m ≫= k).
Proof. intros [->|[a ->]] Hk; [by left|]. by apply Hk. Qed.

Lemma null_Ok {A} (a : A) : null_or_ok (Ok a).
Proof. right. by exists a. Qed.

Lemma foldM_null {A S} (f : A → S → res S) l s :
  (∀ x s, x ∈ l → null_or_ok (f x s)) → null_or_ok (foldM f l s).
Proof.
  revert s. induction l as [|x l IH]; intros s Hf; [apply null_Ok|]. cbn [foldM].
  apply null_bind; [apply Hf; by left|]. intros s' _. apply IH. intros; apply Hf; by right.
Qed.

(** The loop faults if an iteration does, whatever the state. *)
Lemma foldM_null_at {A S} (f : A → S → res S) l s x :
  (∀ x s, x ∈ l → null_or_ok (f x s)) → x ∈ l → (∀ s, f x s = Fault NullDeref) → foldM f l s = Fault NullDeref.
Proof.
  intros Hf (l1 & l2 & ->)%list_elem_of_split Hx. rewrite foldM_app.
  destruct (foldM_null f l1 s) as [->|[s' ->]]; [intros; apply Hf; set_solver|done|]. cbn [mbind res_bind foldM]. by rewrite Hx.
Qed.

(** The device list between its publication in [destroy_device] and the plan updates. *)
Definition withdrawn (s : dstate) (vid : nat) : dstate :=
  set_vlist (mk_vlist (u16 (vl_num (vlist s) - 1)) (<[vid:=None]> (vdevs (vlist s)))) s.

Lemma vm_id_at_withdrawn s vid : (vid < length (vdevs (vlist s)))%nat → vm_id_at (withdrawn s vid) vid = Fault NullDeref.
Proof. intros Hv. unfold vm_id_at, withdrawn. cbn. rewrite (arr_get_Some _ _ None); [done|]. by apply list_lookup_insert_eq. Qed.

Lemma vm_id_at_null s vid v : slots_wf s → (v < MAX_VHOSTS)%nat → null_or_ok (vm_id_at (withdrawn s vid) v).
Proof.
  intros (Hl & _ & Hdev & _) Hv. unfold vm_id_at, withdrawn. cbn [set_vlist vlist vdevs devs].
  destruct (lookup_lt_is_Some_2 (<[vid:=None]> (vdevs (vlist s))) v) as [o Ho]; [rewrite length_insert; lia|].
  rewrite (arr_get_Some _ _ _ Ho). cbn [mbind res_bind]. destruct o as [p|]; [|by left].
  apply list_lookup_insert_Some in Ho as [(_ & ? & _)|[_ Ho]]; [done|]. destruct (Hdev v p Ho) as (d & Hd & _).
  rewrite (heap_get_Some _ _ _ Hd). apply null_Ok.
Qed.

Lemma arr_get_lt {A} (l : list A) i : (i < length l)%nat → ∃ x, l !! i = Some x ∧ arr_get l i = Ok x.
Proof. intros Hi. destruct (lookup_lt_is_Some_2 l i Hi) as [x Hx]. exists x. split; [done|]. by apply arr_get_Some. Qed.

Lemma plan_vids_lt plan j : plan_wf plan → (j < Z.to_nat (plan_num plan))%nat →
  ∃ v, arr_get (plan_vids plan) j = Ok v ∧ v ∈ plan_list plan ∧ (v < MAX_VHOSTS)%nat.
Proof.
  intros Hp Hj. pose proof (length_plan_list plan (plan_wf_shape _ Hp)) as Hl.
  destruct (lookup_lt_is_Some_2 (plan_list plan) j) as [v Hv]; [lia|]. exists v.
  pose proof (plan_list_lookup _ _ _ Hv) as [Hv' _]. split; [by apply arr_get_Some|].
  assert (v ∈ plan_list plan) as Hin by (by eapply list_elem_of_lookup_2). split; [done|].
  destruct Hp as (_ & _ & _ & Hlt). rewrite Forall_forall in Hlt. by apply Hlt.
Qed.

Lemma each_vid_null plan (f : nat → res cstring) : plan_wf plan → (∀ v, (v < MAX_VHOSTS)%nat → null_or_ok (f v)) → null_or_ok (each_vid plan f).
Proof.
  intros Hp Hf. apply foldM_null. intros j out Hj%elem_of_seq. apply null_bind; [|intros; apply null_Ok].
  destruct (plan_vids_lt plan j Hp) as (v & -> & _ & Hv); [lia|]. by apply Hf.
Qed.
Section withdrawal.
Context {S : Type} (color : cstring) (counters : list (S → Z)) (s : dstate) (vid i : nat) (core : list nat)
  (plan : vhost_plan) (stats : list S).
Context (Hs : slots_wf s) (Hp : plan_wf plan) (Hc : length core = MAX_VHOSTS) (Hst : length stats = MAX_VHOSTS).

Lemma core_step_null j acc : (j < MAX_VHOSTS)%nat → null_or_ok (core_step color counters (withdrawn s vid) i core plan stats j acc).
Proof.
  intros Hj. unfold core_step. destruct acc as [out sums]. apply null_bind.
  - destruct (Z.ltb_spec (Z.of_nat j) (plan_num plan)); [|apply null_Ok].
    destruct (plan_vids_lt plan j Hp) as (v & -> & _ & Hv); [lia|]. cbn [mbind res_bind].
    apply null_bind; [by apply vm_id_at_null|]. intros id _. apply null_Ok.
  - intros out' _. destruct (arr_get_lt core j) as (c & _ & ->); [lia|]. cbn [mbind res_bind]. case_decide; [|apply null_Ok].
    destruct (arr_get_lt stats j) as (st & _ & ->); [lia|]. apply null_Ok.
Qed.

Lemma core_loop_null : null_or_ok (core_loop color counters (withdrawn s vid) i core plan stats).
Proof. apply foldM_null. intros j acc Hj%elem_of_seq. apply core_step_null. lia. Qed.

Lemma core_loop_crash : vid ∈ plan_list plan → core_loop color counters (withdrawn s vid) i core plan stats = Fault NullDeref.
Proof.
  intros (j & Hj)%list_elem_of_lookup. pose proof (length_plan_list plan (plan_wf_shape _ Hp)) as Hl.
  pose proof (plan_list_lookup _ _ _ Hj) as [Hv Hlt]. assert (j < MAX_VHOSTS)%nat by (destruct Hp as [? _]; lia).
  assert (vid < MAX_VHOSTS)%nat as Hvid.
  { destruct Hp as (_ & _ & _ & Hall). rewrite Forall_forall in Hall. apply Hall. by eapply list_elem_of_lookup_2. }
  apply (foldM_null_at _ _ _ j).
  - intros j' acc Hj'%elem_of_seq. apply core_step_null. lia.
  - apply elem_of_seq. lia.
  - intros [out sums]. unfold core_step. replace (Z.of_nat j <? plan_num plan) with true by lia.
    rewrite (arr_get_Some _ _ _ Hv). cbn [mbind res_bind]. rewrite vm_id_at_withdrawn; [done|]. destruct Hs as [-> _]. done.
Qed.

End withdrawal.

(** ** Lemmas: the whole text *)

Definition dash_text (w : dash_world) : cstring :=
  clear_screen ++ concat (imap eth_rx_row (da_eth_rx w)) ++ concat (imap eth_tx_row (da_eth_tx w)) ++
  rx_header ++ concat (imap (λ i '(ctx, plan), rx_rows (da_dev w) i ctx.1 (polls_text ctx.2) plan) (zip (da_rx w) (rx_plans (da_dev w)))) ++
  tx_header ++ concat (imap (λ i '(stats, plan), tx_rows (da_dev w) i stats plan) (zip (da_tx w) (tx_plans (da_dev w)))).

Lemma control_dashboard_Ok config w : tty_fp w = true → dash_wf config w → control_dashboard config w = Ok (dash_text w).
Proof.
  intros Htty (Hwf & (Hr & Ht) & (Hvr & Hrp & Hrx) & (Hvt & Htp & Htx)).
  unfold control_dashboard. rewrite Htty. cbn [negb].
  rewrite (each_arr _ eth_rx_row _ _ Hr) by (intros i x Hx; by rewrite (arr_get_Some _ _ _ Hx)). cbn [mbind res_bind].
  rewrite (each_arr _ eth_tx_row _ _ Ht) by (intros i x Hx; by rewrite (arr_get_Some _ _ _ Hx)). cbn [mbind res_bind].
  rewrite (each_arr (rx_core_rows w) (λ i '(ctx, plan), rx_rows (da_dev w) i ctx.1 (polls_text ctx.2) plan) (zip (da_rx w) (rx_plans (da_dev w)))).
  2: { rewrite length_zip_with. lia. }
  2: { intros i [ctx plan] (Hctx & Hplan)%lookup_zip_Some. pose proof (Forall_lookup_1 _ _ _ _ Hrx Hctx) as [??]. by apply rx_core_rows_Ok. }
  cbn [mbind res_bind].
  rewrite (each_arr _ (λ i '(stats, plan), tx_rows (da_dev w) i stats plan) (zip (da_tx w) (tx_plans (da_dev w)))).
  2: { rewrite length_zip_with. lia. }
  2: { intros i [stats plan] (Hctx & Hplan)%lookup_zip_Some. apply tx_core_rows_Ok; try done. by eapply (Forall_lookup_1 _ _ _ _ Htx). }
  done.
Qed.

Lemma control_dashboard_safe config w : tty_fp w = true → dash_wf config w → ∃ out, control_dashboard config w = Ok out.
Proof. intros. eexists. by apply control_dashboard_Ok. Qed.

(** ** Properties *)


(** The dashboard is not ordered with the vhost thread, and crashes in a window of every
    removal: [destroy_device] publishes the list without the device before it takes the
    VM out of the plans, and a dashboard that loads both in between dereferences the NULL
    slot of a VM that is still in the plan of its home core. *)
Theorem dashboard_crashes_during_removal (config : config_t) (w : dash_world) (vid p : nat) :
  dash_wf config w → slot_is (da_dev w) vid p →
  control_dashboard config (mk_dash (tty_fp w) (da_eth_rx w) (da_eth_tx w) (withdrawn (da_dev w) vid) (da_rx w) (da_tx w)) =
    Fault NullDeref.
Proof.
  intros (Hwf & (Hr & Ht) & (Hvr & Hrp & Hrx) & _) Hslot. pose proof Hwf as (Hs & _ & (Hh & _) & _).
  pose proof Hh as (_ & Hc & Hplans & Hin & Hhome). cbn [sys_vdevs sys_plans sys_core] in *.
  unfold control_dashboard. destruct (tty_fp w); [cbn [negb]|done]. cbn [da_eth_rx da_eth_tx da_rx].
  rewrite (each_arr _ eth_rx_row _ _ Hr) by (intros i x Hx; by rewrite (arr_get_Some _ _ _ Hx)). cbn [mbind res_bind].
  rewrite (each_arr _ eth_tx_row _ _ Ht) by (intros i x Hx; by rewrite (arr_get_Some _ _ _ Hx)). cbn [mbind res_bind].
  set (w' := mk_dash _ _ _ _ _ _).
  assert (∀ i, (i < length (da_rx w))%nat → null_or_ok (rx_core_rows w' i) ∧
    (vhost_rx_core (da_dev w) !! vid = Some i → rx_core_rows w' i = Fault NullDeref)) as Hrow.
  { intros i Hi. unfold rx_core_rows. cbn [w' da_rx da_dev withdrawn set_vlist rx_plans vhost_rx_core].
    destruct (arr_get_lt (da_rx w) i Hi) as (ctx & Hctx & ->). cbn [mbind res_bind].
    destruct (arr_get_lt (rx_plans (da_dev w)) i) as (plan & Hplan & ->); [lia|]. cbn [mbind res_bind].
    pose proof (Forall_lookup_1 _ _ _ _ Hplans Hplan) as Hp. pose proof (Forall_lookup_1 _ _ _ _ Hrx Hctx) as [[Hst _] Hpl]. split.
    - apply null_bind; [by eapply core_loop_null|]. intros [ids sums] _. apply null_bind; [|intros; rewrite polls_Ok by done; apply null_Ok].
      unfold print_pkts_by_rx_vdev. apply null_bind; [|intros; apply null_Ok]. apply each_vid_null; [done|]. intros v Hv.
      apply null_bind; [by apply vm_id_at_null|]. intros id _. destruct (arr_get_lt ctx.1 v) as (st & _ & ->); [lia|]. apply null_Ok.
    - intros Hi'. rewrite (core_loop_crash BLUE_PREFIX rx_counters (da_dev w) vid i (vhost_rx_core (da_dev w)) plan ctx.1); try done. apply (Hin i plan vid Hplan).
      split; [by exists p|done]. }
  destruct (Hhome vid) as (i & Hi & Hlt); [by exists p|].
  assert (each (rx_core_rows w') (seq 0 (Z.to_nat (vhost_rx_cores config))) = Fault NullDeref) as ->; [|done].
  unfold each. apply (foldM_null_at _ _ _ i).
  - intros j out Hj%elem_of_seq. apply null_bind; [|intros; apply null_Ok]. apply Hrow. lia.
  - apply elem_of_seq. lia.
  - intros out. destruct (Hrow i) as [_ Hf]; [lia|]. by rewrite (Hf Hi).
Qed.

(** With the dashboard the control loop does what it does without. *)
Lemma slowpath_body_Ok `{RteRing} `{RteMempool slow_msg} config fp nics polls txs e last w w' :
  (show_dash config ≠ 0 → fp = true ∧ dash_wf config (mk_dash fp nics.1 nics.2 (sl_dev w) (zip (sl_stats w) polls) txs)) →
  slowpath_iter config e w = Ok w' →
  ∃ out last', slowpath_body config fp nics polls txs e last w = Ok (out, last', w').
Proof.
  intros Hdash E. unfold slowpath_body. destruct (Z.eqb_spec (show_dash config) 0) as [Hs|Hs]; cbn [negb andb].
  - cbn [mbind res_bind]. rewrite E. by eexists _, _.
  - destruct (Hdash Hs) as [Hfp Hwf]. case_match.
    + destruct (control_dashboard_safe config (mk_dash fp nics.1 nics.2 (sl_dev w) (zip (sl_stats w) polls) txs) Hfp Hwf) as [out ->].
      cbn [mbind res_bind]. rewrite E. by eexists _, _.
    + cbn [mbind res_bind]. rewrite E. by eexists _, _.
Qed.

(** ** Witnesses *)

(** One core of each kind; VM 0 is new, its ids are still -1. *)
Definition demo_dash : dash_world :=
  mk_dash true [mk_eth_rx_stats 1 2 3 4 5] [mk_eth_tx_stats 1 2 3 4 5] demo_new
    [(replicate MAX_VHOSTS (demo_stats 0), [1;2;3;4;5])] [replicate MAX_VHOSTS (mk_tx_stats 0 0 0 0 0)].

Lemma demo_dash_wf : dash_wf demo_config demo_dash.
Proof.
  destruct demo_new_ok as (Hwf & _). split; [exact Hwf|]. split; [by split|].
  split; (split; [reflexivity|split; [reflexivity|]]); apply Forall_singleton.
  - split; [|reflexivity]. split; [reflexivity|]. apply Forall_replicate. refine (bool_decide_unpack _ _). vm_compute. exact I.
  - split; [reflexivity|]. apply Forall_replicate. refine (bool_decide_unpack _ _). vm_compute. exact I.
Qed.


Lemma dashboard_crashes_during_removal_witness :
  control_dashboard demo_config (mk_dash (tty_fp demo_dash) (da_eth_rx demo_dash) (da_eth_tx demo_dash)
    (withdrawn (da_dev demo_dash) 0) (da_rx demo_dash) (da_tx demo_dash)) = Fault NullDeref.
Proof.
  apply (dashboard_crashes_during_removal demo_config demo_dash 0 100 demo_dash_wf). exact (proj1 (proj2 demo_new_ok)).
Defined.
