(* ===== verification/Sync.v ===== *)
(** * include/utils_sync.h: spin locks

    The three functions are x86 sequences around [xchg], which is atomic; the model
    runs them instruction by instruction, with any number of threads interleaved.
    The loop in [util_spin_lock] exchanges again with the register it last loaded,
    not with the constant 1, so the register is part of the state. *)

From S2P Require Import Prelude CInt.
Local Open Scope Z_scope.

(** Where a thread is.  [lv] is the register [lock_val]. *)
Inductive lock_pc :=
  | Outside                  (* in none of the functions, not holding the lock *)
  | AtXchg (lv : Z)          (* at label 1 of util_spin_lock *)
  | AtPause (lv : Z)         (* at label 2 *)
  | Inside.                  (* holds the lock *)

#[export] Instance lock_pc_eq_dec : EqDecision lock_pc.
Proof. solve_decision. Defined.

Record lock_state := mk_lock { sl : Z; pcs : list lock_pc }.

(** What thread [i] does next. *)
Inductive lock_event :=
  | CallLock (i : nat)
  | Run (i : nat)
  | TryLock (i : nat)
  | Unlock (i : nat).

(** [xchg [locked], [lv]; test [lv], [lv]; jz 3f] *)
Definition util_spin_lock_xchg (lv : Z) (s : lock_state) : Z * lock_pc :=
  (lv, if sl s =? 0 then Inside else AtPause (sl s)).

(** [pause; cmpl $0, [locked]; jnz 2b; jmp 1b] *)
Definition util_spin_lock_wait (lv : Z) (s : lock_state) : Z * lock_pc :=
  (sl s, if sl s =? 0 then AtXchg lv else AtPause lv).

(** The word afterwards and the result, [lockval == 0]. *)
Definition util_spin_trylock (s : lock_state) : Z * bool := (1, sl s =? 0).

Definition util_spin_unlock (s : lock_state) : Z := 0.

Definition lock_step (e : lock_event) (s : lock_state) : option lock_state :=
  match e with
  | CallLock i =>
      pc ← pcs s !! i;
      if decide (pc = Outside) then Some (mk_lock (sl s) (<[i := AtXchg 1]> (pcs s))) else None
  | Run i =>
      pc ← pcs s !! i;
      match pc with
      | AtXchg lv => let '(w, pc) := util_spin_lock_xchg lv s in Some (mk_lock w (<[i := pc]> (pcs s)))
      | AtPause lv => let '(w, pc) := util_spin_lock_wait lv s in Some (mk_lock w (<[i := pc]> (pcs s)))
      | _ => None
      end
  | TryLock i =>
      pc ← pcs s !! i;
      if decide (pc = Outside) then
        let '(w, ok) := util_spin_trylock s in
        Some (mk_lock w (<[i := if ok : bool then Inside else Outside]> (pcs s)))
      else None
  | Unlock i =>
      pc ← pcs s !! i;
      if decide (pc = Inside) then Some (mk_lock (util_spin_unlock s) (<[i := Outside]> (pcs s))) else None
  end.

Fixpoint lock_run (es : list lock_event) (s : lock_state) : option lock_state :=
  match es with
  | [] => Some s
  | e :: es => s' ← lock_step e s; lock_run es s'
  end.

(** ** Specification: a lock is an optional owner *)

Definition init_lock (threads : nat) : lock_state := mk_lock 0 (replicate threads Outside).

(** The states that any interleaving reaches. *)
Inductive lock_reach (threads : nat) : lock_state → Prop :=
  | lock_reach_init : lock_reach threads (init_lock threads)
  | lock_reach_step e s s' : lock_reach threads s → lock_step e s = Some s' → lock_reach threads s'.

Definition owner (s : lock_state) : option nat := fst <$> list_find (λ pc, pc = Inside) (pcs s).

(** An event acquires, releases, fails to acquire what another thread owns, or is
    invisible. *)
Inductive lock_spec : lock_event → option nat → option nat → Prop :=
  | spec_call i o : lock_spec (CallLock i) o o
  | spec_acquire i : lock_spec (Run i) None (Some i)
  | spec_spin i o : o ≠ Some i → lock_spec (Run i) o o
  | spec_try_ok i : lock_spec (TryLock i) None (Some i)
  | spec_try_fail i j : i ≠ j → lock_spec (TryLock i) (Some j) (Some j)
  | spec_unlock i : lock_spec (Unlock i) (Some i) None.

(** Thread [i] is in [util_spin_lock]. *)
Definition waiting (s : lock_state) (i : nat) : Prop :=
  ∃ lv, pcs s !! i = Some (AtXchg lv) ∨ pcs s !! i = Some (AtPause lv).

(** The word tells whether there is an owner; registers of waiting threads hold 1. *)
Definition lock_inv (s : lock_state) : Prop :=
  match owner s with
  | None => sl s = 0
  | Some _ => sl s = 1
  end ∧
  (∀ i, pcs s !! i = Some Inside → owner s = Some i) ∧
  (∀ i lv, pcs s !! i = Some (AtXchg lv) ∨ pcs s !! i = Some (AtPause lv) → lv = 1).

(** ** Lemmas *)

Lemma owner_Some s i : owner s = Some i → pcs s !! i = Some Inside.
Proof.
  unfold owner. destruct (list_find _ (pcs s)) as [[j pc]|] eqn:E; [|done]. intros ?; simplify_eq/=.
  apply list_find_Some in E as (Hi & -> & _). done.
Qed.

Lemma owner_None s i : owner s = None → pcs s !! i ≠ Some Inside.
Proof.
  unfold owner. destruct (list_find _ (pcs s)) as [[j pc]|] eqn:E; [done|]. intros _ Hi.
  apply list_find_None in E. rewrite Forall_lookup in E. by apply (E _ _ Hi).
Qed.

(** The owner is determined by the threads that are inside, when there is at most one. *)
Lemma owner_unique s o :
  (∀ i, pcs s !! i = Some Inside ↔ o = Some i) → owner s = o.
Proof.
  intros H. destruct (owner s) as [i|] eqn:E; symmetry.
  - by apply H, owner_Some.
  - destruct o as [j|]; [|done]. destruct (owner_None s j E). by apply H.
Qed.

Lemma owner_iff s i : lock_inv s → pcs s !! i = Some Inside ↔ owner s = Some i.
Proof. intros (_ & H & _). split; [apply H|apply owner_Some]. Qed.

(** The owner after thread [i] moves. *)
Lemma owner_acquire s i w :
  lock_inv s → owner s = None → (i < length (pcs s))%nat →
  owner (mk_lock w (<[i:=Inside]> (pcs s))) = Some i.
Proof.
  intros Hinv Ho Hi. apply owner_unique. cbn [pcs]. intros j. destruct (decide (j = i)) as [->|Hj].
  - by rewrite list_lookup_insert_eq.
  - rewrite list_lookup_insert_ne, owner_iff, Ho by done. split; congruence.
Qed.

Lemma owner_release s i w pc :
  lock_inv s → pcs s !! i = Some Inside → pc ≠ Inside →
  owner (mk_lock w (<[i:=pc]> (pcs s))) = None.
Proof.
  intros Hinv Hi Hpc. apply owner_unique. cbn [pcs]. intros j. destruct (decide (j = i)) as [->|Hj].
  - rewrite list_lookup_insert_eq by by eapply lookup_lt_Some. split; congruence.
  - apply owner_iff in Hi; [|done]. rewrite list_lookup_insert_ne, owner_iff, Hi by done. split; congruence.
Qed.

Lemma owner_same s i w pc old :
  lock_inv s → pcs s !! i = Some old → old ≠ Inside → pc ≠ Inside →
  owner (mk_lock w (<[i:=pc]> (pcs s))) = owner s.
Proof.
  intros Hinv Hi Hold Hpc. apply owner_unique. cbn [pcs]. intros j. rewrite <- owner_iff by done.
  destruct (decide (j = i)) as [->|Hj].
  - rewrite list_lookup_insert_eq by by eapply lookup_lt_Some. rewrite Hi. split; congruence.
  - by rewrite list_lookup_insert_ne.
Qed.

(** The invariant of a state given by its word, its threads and its owner. *)
Lemma lock_inv_intro s i w pc o :
  lock_inv s → owner (mk_lock w (<[i:=pc]> (pcs s))) = o → w = (match o with Some _ => 1 | None => 0 end) →
  (o = None ∨ o = owner s ∧ pc ≠ Inside ∨ o = Some i ∧ owner s = None) →
  (∀ lv, pc = AtXchg lv ∨ pc = AtPause lv → lv = 1) →
  lock_inv (mk_lock w (<[i:=pc]> (pcs s))).
Proof.
  intros Hinv Ho Hw Hcase Hreg. unfold lock_inv. rewrite Ho. cbn [sl pcs]. split; [by destruct o|].
  split.
  - intros j Hj. destruct Hcase as [->|[[-> Hpc]|[-> Hn]]].
    + destruct (owner_None _ j Ho). done.
    + apply list_lookup_insert_Some in Hj as [(_ & Hx & _)|[_ Hj]]; [congruence|]. by apply owner_iff.
    + apply list_lookup_insert_Some in Hj as [(-> & _)|[_ Hj]]; [done|].
      apply owner_iff in Hj; [|done]. congruence.
  - destruct Hinv as (_ & _ & Hr). intros j lv Hj.
    assert (<[i:=pc]> (pcs s) !! j = pcs s !! j ∨ <[i:=pc]> (pcs s) !! j = Some pc) as [E|E].
    { destruct (decide (j = i)) as [->|?]; [|left; by apply list_lookup_insert_ne].
      destruct (decide (i < length (pcs s))%nat); [right; by apply list_lookup_insert_eq|].
      left. by rewrite list_insert_ge by lia. }
    + rewrite E in Hj. by apply (Hr j).
    + rewrite E in Hj. apply Hreg. destruct Hj; simplify_eq; auto.
Qed.

Lemma lock_inv_init n : lock_inv (init_lock n).
Proof.
  assert (∀ i pc, pcs (init_lock n) !! i = Some pc → pc = Outside) as H.
  { intros i pc. cbn. by intros [-> _]%lookup_replicate. }
  assert (owner (init_lock n) = None) as Ho.
  { apply owner_unique. intros i. split; [intros Hi; by apply H in Hi|done]. }
  unfold lock_inv. rewrite Ho. split; [done|]. split.
  - intros i Hi. by apply H in Hi.
  - intros i lv [Hi|Hi]; by apply H in Hi.
Qed.

(** A thread that is not inside moves to a point that is not inside. *)
Lemma lock_inv_same s i w pc old :
  lock_inv s → pcs s !! i = Some old → old ≠ Inside → pc ≠ Inside → w = sl s →
  (∀ lv, pc = AtXchg lv ∨ pc = AtPause lv → lv = 1) →
  lock_inv (mk_lock w (<[i:=pc]> (pcs s))) ∧ owner (mk_lock w (<[i:=pc]> (pcs s))) = owner s.
Proof.
  intros Hinv Hi Hold Hpc -> Hreg.
  assert (owner (mk_lock (sl s) (<[i:=pc]> (pcs s))) = owner s) as Ho
    by (eapply owner_same; [done|exact Hi|done|done]).
  split; [|done]. eapply lock_inv_intro; [done|exact Ho| |by auto|done].
  destruct Hinv as [Hw _]. by destruct (owner s).
Qed.

Lemma lock_inv_acquire s i old :
  lock_inv s → owner s = None → pcs s !! i = Some old →
  lock_inv (mk_lock 1 (<[i:=Inside]> (pcs s))) ∧ owner (mk_lock 1 (<[i:=Inside]> (pcs s))) = Some i.
Proof.
  intros Hinv Ho Hi.
  assert (owner (mk_lock 1 (<[i:=Inside]> (pcs s))) = Some i) as Ho'
    by (apply owner_acquire; [done|done|by eapply lookup_lt_Some]).
  split; [|done]. eapply lock_inv_intro; [done|exact Ho'|done|by auto|]. intros lv [?|?]; congruence.
Qed.

Lemma lock_inv_release s i :
  lock_inv s → pcs s !! i = Some Inside →
  lock_inv (mk_lock 0 (<[i:=Outside]> (pcs s))) ∧ owner (mk_lock 0 (<[i:=Outside]> (pcs s))) = None.
Proof.
  intros Hinv Hi.
  assert (owner (mk_lock 0 (<[i:=Outside]> (pcs s))) = None) as Ho by by apply owner_release.
  split; [|done]. eapply lock_inv_intro; [done|exact Ho|done|by auto|]. intros lv [?|?]; congruence.
Qed.

(** A thread that is not inside is not the owner. *)
Lemma not_owner s i pc : pcs s !! i = Some pc → pc ≠ Inside → owner s ≠ Some i.
Proof. intros Hi Hpc Ho%owner_Some. congruence. Qed.

Ltac regs := let lv := fresh in intros lv [?|?]; congruence.

Lemma lock_inv_step e s s' :
  lock_inv s → lock_step e s = Some s' → lock_inv s' ∧ lock_spec e (owner s) (owner s').
Proof.
  intros Hinv Hstep. pose proof Hinv as (Hw & Hin & Hr).
  destruct e as [i|i|i|i]; cbn [lock_step] in Hstep; destruct (pcs s !! i) as [pc|] eqn:Hi;
    cbn [mbind option_bind] in Hstep; try done.
  - case_decide; simplify_eq/=.
    edestruct (lock_inv_same s i (sl s) (AtXchg 1)) as [? ->]; [done|exact Hi|done|done|done|regs|].
    split; [done|constructor].
  - destruct pc as [|lv|lv|]; [done| | |done]; assert (lv = 1) as -> by (apply (Hr i); auto);
      pose proof (not_owner _ _ _ Hi ltac:(done)) as Hno.
    + unfold util_spin_lock_xchg in Hstep. simplify_eq/=. destruct (owner s) as [j|] eqn:Ho; rewrite Hw; cbn [Z.eqb].
      * edestruct (lock_inv_same s i 1 (AtPause 1)) as [? Ho']; [done|exact Hi|done|done|done|regs|].
        split; [done|]. rewrite Ho', Ho. by constructor.
      * edestruct (lock_inv_acquire s i) as [? ->]; [done|done|exact Hi|]. split; [done|constructor].
    + unfold util_spin_lock_wait in Hstep. simplify_eq/=.
      edestruct (lock_inv_same s i (sl s) (if sl s =? 0 then AtXchg 1 else AtPause 1)) as [? ->];
        [done|exact Hi|done|by destruct (sl s =? 0)|done|destruct (sl s =? 0); regs|]. split; [done|by constructor].
  - case_decide; simplify_eq/=. pose proof (not_owner _ _ _ Hi ltac:(done)) as Hno.
    destruct (owner s) as [j|] eqn:Ho; rewrite Hw; cbn [Z.eqb].
    + edestruct (lock_inv_same s i 1 Outside) as [? Ho']; [done|exact Hi|done|done|done|regs|].
      split; [done|]. rewrite Ho', Ho. constructor. congruence.
    + edestruct (lock_inv_acquire s i) as [? ->]; [done|done|exact Hi|]. split; [done|constructor].
  - case_decide; simplify_eq/=. destruct (lock_inv_release s i Hinv Hi) as [Hi' Ho].
    unfold util_spin_unlock. rewrite Ho, (Hin i Hi). split; [done|constructor].
Qed.

Lemma lock_inv_reach n s : lock_reach n s → lock_inv s ∧ length (pcs s) = n.
Proof.
  induction 1 as [|e s s' Hr [IH Hl] Hs].
  - split; [apply lock_inv_init|]. cbn. apply length_replicate.
  - split; [by eapply lock_inv_step|]. rewrite <- Hl.
    destruct e; cbn [lock_step] in Hs; destruct (pcs s !! _) as [pc|]; cbn [mbind option_bind] in Hs; try done;
      try case_decide; try destruct pc; simplify_eq/=; try done; by rewrite length_insert.
Qed.

Lemma lock_reach_run n es s s' : lock_reach n s → lock_run es s = Some s' → lock_reach n s'.
Proof.
  revert s. induction es as [|e es IH]; intros s Hr Hrun; cbn [lock_run] in Hrun; simplify_eq; [done|].
  destruct (lock_step e s) as [s1|] eqn:Hs; [|done]. apply (IH s1); [by eapply lock_reach_step|done].
Qed.

(** From a free lock, a waiting thread gets in with its own next two steps. *)
Lemma wait_free s i :
  lock_inv s → owner s = None → waiting s i →
  ∃ es s', (length es ≤ 2)%nat ∧ lock_run es s = Some s' ∧ owner s' = Some i.
Proof.
  intros Hinv Ho [lv Hw]. pose proof Hinv as (Hsl & _ & Hr). rewrite Ho in Hsl.
  assert (∀ s, lock_inv s → owner s = None → sl s = 0 → pcs s !! i = Some (AtXchg lv) →
    ∃ s', lock_step (Run i) s = Some s' ∧ owner s' = Some i) as Hx.
  { intros s1 Hi1 Ho1 Hsl1 Hp. assert (lv = 1) as -> by (destruct Hi1 as (_ & _ & Hr1); apply (Hr1 i); auto).
    eexists. cbn [lock_step]. rewrite Hp. cbn [mbind option_bind]. unfold util_spin_lock_xchg. rewrite Hsl1.
    split; [done|]. eapply lock_inv_acquire; [done|done|exact Hp]. }
  destruct Hw as [Hp|Hp].
  - destruct (Hx s Hinv Ho Hsl Hp) as (s' & Hs & Ho'). exists [Run i], s'. cbn [lock_run]. rewrite Hs. split; [cbn; lia|done].
  - assert (lv = 1) as -> by (apply (Hr i); auto).
    edestruct (lock_inv_same s i (sl s) (AtXchg 1)) as [Hinv' Ho']; [done|exact Hp|done|done|done|regs|].
    destruct (Hx _ Hinv') as (s' & Hs & Ho2); [congruence|done| |].
    { cbn. apply list_lookup_insert_eq. by eapply lookup_lt_Some. }
    exists [Run i; Run i], s'. split; [cbn; lia|]. split; [|done]. cbn [lock_run].
    assert (lock_step (Run i) s = Some (mk_lock (sl s) (<[i:=AtXchg 1]> (pcs s)))) as ->.
    { cbn [lock_step]. rewrite Hp. cbn [mbind option_bind]. unfold util_spin_lock_wait. by rewrite Hsl. }
    cbn [mbind option_bind]. rewrite Hs. done.
Qed.

(** ** Properties *)

(** [C20] The spin lock implements an abstract lock, for any number of threads and any
    interleaving of their instructions: at most one thread is inside, the word is 1
    exactly then; every instruction that takes the lock finds it free, a [trylock]
    succeeds exactly when it is free, [unlock] frees it, and nothing else changes the
    owner. *)
Theorem spinlock_refines (threads : nat) (s : lock_state) :
  lock_reach threads s →
  (sl s = 0 ∧ owner s = None ∨ sl s = 1 ∧ ∃ i, owner s = Some i ∧ (i < threads)%nat) ∧
  (∀ i, pcs s !! i = Some Inside ↔ owner s = Some i) ∧
  (∀ e s', lock_step e s = Some s' → lock_spec e (owner s) (owner s')) ∧
  (∀ i s', lock_step (TryLock i) s = Some s' → (owner s' = Some i ↔ owner s = None)).
Proof.
  intros Hreach. destruct (lock_inv_reach _ _ Hreach) as [Hinv Hl]. pose proof Hinv as (Hw & _). splits.
  - destruct (owner s) as [i|] eqn:Ho; [right|by left]. split; [done|]. exists i. split; [done|].
    rewrite <- Hl. by eapply lookup_lt_Some, owner_Some.
  - intros i. by apply owner_iff.
  - intros e s' Hs. by apply lock_inv_step.
  - intros i s' Hs. destruct (lock_inv_step _ _ _ Hinv Hs) as [_ Hsp]. inversion Hsp; split; congruence.
Qed.

(** No deadlock: a thread that is waiting can always get in.  If the lock is free its
    own next two instructions take it; if another thread holds it, that thread can
    release it, and then the same holds. *)
Theorem spinlock_progress (threads : nat) (s : lock_state) (i : nat) :
  lock_reach threads s → waiting s i →
  ∃ es s', (length es ≤ 3)%nat ∧ lock_run es s = Some s' ∧ owner s' = Some i.
Proof.
  intros Hreach Hwait. destruct (lock_inv_reach _ _ Hreach) as [Hinv _].
  destruct (owner s) as [j|] eqn:Ho.
  - pose proof (owner_Some _ _ Ho) as Hj. destruct (lock_inv_release s j Hinv Hj) as [Hinv' Ho'].
    assert (i ≠ j) as Hne by (intros ->; destruct Hwait as [? [?|?]]; congruence).
    destruct (wait_free _ i Hinv' Ho') as (es & s' & Hes & Hrun & Hi).
    { destruct Hwait as [lv Hw]. exists lv. cbn. by rewrite list_lookup_insert_ne by done. }
    exists (Unlock j :: es), s'. split; [cbn; lia|]. split; [|done]. cbn [lock_run lock_step].
    rewrite Hj. cbn [mbind option_bind]. by rewrite decide_True.
  - destruct (wait_free s i Hinv Ho Hwait) as (es & s' & ? & ? & ?). exists es, s'. split; [lia|done].
Qed.

(** ** Witnesses *)

(** Thread 0 takes the lock, thread 1 starts to spin. *)
Lemma demo_lock_run : lock_reach 2 (mk_lock 1 [Inside; AtPause 1]).
Proof.
  eapply (lock_reach_run 2 [CallLock 0; CallLock 1; Run 0; Run 1]); [apply lock_reach_init|reflexivity].
Qed.

Lemma spinlock_refines_witness : owner (mk_lock 1 [Inside; AtPause 1]) = Some 0%nat.
Proof. apply (proj1 (proj2 (spinlock_refines 2 _ demo_lock_run))). reflexivity. Defined.

Lemma spinlock_progress_witness :
  ∃ es s', lock_run es (mk_lock 1 [Inside; AtPause 1]) = Some s' ∧ owner s' = Some 1%nat.
Proof.
  destruct (spinlock_progress 2 _ 1 demo_lock_run) as (es & s' & _ & Hrun & Ho); [exists 1; by right|].
  by exists es, s'.
Defined.
