(* ===== verification/Startup.v ===== *)
(** * src/dataplane.c, src/ring.c, src/main.c: threads and rings

    [init_dataplane_topology], the launch of the worker threads and the role that
    [common_thread] gives each of them, and the creation of the rings, whose names are at
    byte level.  The success of each launch and the rings that DPDK returns are arguments.
    The contexts of the cores are in Contexts.v. *)

From Stdlib Require Import Ascii String.
From S2P Require Import Prelude CInt Dpdk Ecn Config ConfigParse Poll Plan VhostTx EthTx Batch EthRx VhostRx.
Local Abbreviation length := List.length.
Local Open Scope Z_scope.

(** ** Threads: start_threads and common_thread of main.c *)

Inductive role :=
  | EthRxCore (i : nat)
  | EthTxCore (i : nat)
  | VhostRxCore (i : nat)
  | VhostTxCore (i : nat).

#[export] Instance role_eq_dec : EqDecision role.
Proof. solve_decision. Defined.

(** The context a thread with this id runs with; [None] is [thread_error], which
    aborts.  Ids start at 1, so no index is negative. *)
Definition common_thread (c : config_t) (id : Z) : option role :=
  if id <=? eth_rx_cores c then Some (EthRxCore (Z.to_nat (id - 1)))
  else if id <=? eth_rx_cores c + eth_tx_cores c then
    Some (EthTxCore (Z.to_nat (id - eth_rx_cores c - 1)))
  else if id <=? eth_rx_cores c + eth_tx_cores c + vhost_rx_cores c then
    Some (VhostRxCore (Z.to_nat (id - eth_rx_cores c - eth_tx_cores c - 1)))
  else if id <=? eth_rx_cores c + eth_tx_cores c + vhost_rx_cores c + vhost_tx_cores c then
    Some (VhostTxCore (Z.to_nat (id - eth_rx_cores c - eth_tx_cores c - vhost_rx_cores c - 1)))
  else None.

(** [None] is a -1 return; otherwise [global->fp_cores], a [uint16_t]. *)
Definition init_dataplane_topology (alloc : bool) (c : config_t) : option Z :=
  if negb alloc then None
  else if Z.of_nat MAX_ETH_TX_QUEUES <? eth_tx_queues c then None
  else Some (u16 (eth_rx_cores c + eth_tx_cores c + vhost_rx_cores c + vhost_tx_cores c)).

(** The loop over the worker lcores; the result lists who was launched with which id. *)
Fixpoint launch_loop (launch : nat → bool) (fp_cores launched : Z) (workers : list nat)
    (out : list (nat * Z)) : Z * list (nat * Z) :=
  match workers with
  | [] => (0, out)
  | core :: workers =>
      if launched <? fp_cores then
        let id := u16 (launched + 1) in
        if launch core then launch_loop launch fp_cores (u16 (launched + 1)) workers (out ++ [(core, id)])
        else (-1, out)
      else launch_loop launch fp_cores launched workers out
  end.

(** [rte_lcore_count()] counts the workers and the main lcore. *)
Definition start_threads (launch : nat → bool) (fp_cores : Z) (workers : list nat) : Z * list (nat * Z) :=
  let cores_avail := Z.of_nat (S (length workers)) in
  if cores_avail <? fp_cores + 1 then (-1, []) else launch_loop launch fp_cores 0 workers [].

(** ** Specification *)

(** The contexts that exist. *)
Definition role_ok (c : config_t) (r : role) : Prop :=
  match r with
  | EthRxCore i => Z.of_nat i < eth_rx_cores c
  | EthTxCore i => Z.of_nat i < eth_tx_cores c
  | VhostRxCore i => Z.of_nat i < vhost_rx_cores c
  | VhostTxCore i => Z.of_nat i < vhost_tx_cores c
  end.

Definition total_cores (c : config_t) : Z :=
  eth_rx_cores c + eth_tx_cores c + vhost_rx_cores c + vhost_tx_cores c.

(** The id of the thread that serves a context. *)
Definition role_id (c : config_t) (r : role) : Z :=
  match r with
  | EthRxCore i => Z.of_nat i + 1
  | EthTxCore i => eth_rx_cores c + Z.of_nat i + 1
  | VhostRxCore i => eth_rx_cores c + eth_tx_cores c + Z.of_nat i + 1
  | VhostTxCore i => eth_rx_cores c + eth_tx_cores c + vhost_rx_cores c + Z.of_nat i + 1
  end.

Definition counts_ok (c : config_t) : Prop :=
  Forall (in_u 16) [eth_rx_cores c; eth_tx_cores c; eth_rx_queues c; eth_tx_queues c; vhost_rx_cores c; vhost_tx_cores c].

(** ** Lemmas: threads *)

Lemma counts_ok_range c :
  counts_ok c →
  0 ≤ eth_rx_cores c < 65536 ∧ 0 ≤ eth_tx_cores c < 65536 ∧ 0 ≤ vhost_rx_cores c < 65536 ∧ 0 ≤ vhost_tx_cores c < 65536.
Proof. unfold counts_ok. rewrite !Forall_cons. unfold in_u. intros (H1 & H2 & _ & _ & H3 & H4 & _). lia. Qed.

(** The dispatch is a bijection between the ids and the contexts. *)
Lemma common_thread_role c r : counts_ok c → role_ok c r → common_thread c (role_id c r) = Some r.
Proof.
  intros Hc Hr. apply counts_ok_range in Hc. unfold common_thread. destruct r as [i|i|i|i]; cbn [role_id role_ok] in *;
    repeat match goal with |- context [?a <=? ?b] => destruct (Z.leb_spec a b); try lia end; do 2 f_equal; lia.
Qed.

Lemma common_thread_id c id :
  counts_ok c → 1 ≤ id ≤ total_cores c → ∃ r, common_thread c id = Some r ∧ role_ok c r ∧ role_id c r = id.
Proof.
  intros Hc Hid. apply counts_ok_range in Hc. unfold common_thread, total_cores in *.
  repeat match goal with |- context [?a <=? ?b] => destruct (Z.leb_spec a b); try lia end;
    (eexists; split; [reflexivity|]; cbn [role_id role_ok]; lia).
Qed.

Lemma role_id_range c r : counts_ok c → role_ok c r → 1 ≤ role_id c r ≤ total_cores c.
Proof. intros Hc Hr. apply counts_ok_range in Hc. unfold total_cores. destruct r; cbn [role_id role_ok] in *; lia. Qed.

(** When every launch succeeds, the first [fp_cores] workers get the ids in order. *)
Lemma launch_loop_all launch fp launched workers out :
  (∀ w, w ∈ workers → launch w = true) → 0 ≤ launched ≤ fp → fp < 65536 → fp - launched ≤ Z.of_nat (length workers) →
  launch_loop launch fp launched workers out =
    (0, out ++ zip_with (λ w k, (w, launched + 1 + Z.of_nat k)) workers (seq 0 (Z.to_nat (fp - launched)))).
Proof.
  revert launched out. induction workers as [|w workers IH]; intros launched out Hl Hr Hfp Hlen; cbn [launch_loop].
  - cbn [length] in Hlen. by rewrite app_nil_r.
  - destruct (Z.ltb_spec launched fp) as [Hlt|Hge].
    + rewrite Hl by by left. unfold u16. rewrite wrap_small by (unfold in_u; lia).
      rewrite IH by (first [lia|intros; apply Hl; by right|cbn [length] in Hlen; lia]).
      replace (Z.to_nat (fp - launched)) with (S (Z.to_nat (fp - (launched + 1)))) by lia.
      cbn [seq zip_with]. rewrite <- seq_shift, <- app_assoc. cbn [app].
      f_equal. f_equal. f_equal; [f_equal; lia|].
      change (List.map S) with (fmap (M := list) S). rewrite zip_with_fmap_r.
      apply zip_with_ext; [|done|done]. intros ? ?. f_equal. lia.
    + replace (Z.to_nat (fp - launched)) with 0%nat by lia. cbn [seq]. rewrite zip_with_nil_r, app_nil_r.
      rewrite IH by (first [lia|intros; apply Hl; by right]).
      replace (Z.to_nat (fp - launched)) with 0%nat by lia. cbn [seq]. by rewrite zip_with_nil_r, app_nil_r.
Qed.

(** What is launched: the first [fp] workers, with the ids 1 to [fp]. *)
Lemma start_threads_all launch fp workers :
  (∀ w, w ∈ workers → launch w = true) → 0 ≤ fp < 65536 → fp ≤ Z.of_nat (length workers) →
  start_threads launch fp workers = (0, zip_with (λ w k, (w, 1 + Z.of_nat k)) workers (seq 0 (Z.to_nat fp))).
Proof.
  intros Hl Hfp Hw. unfold start_threads. destruct (Z.ltb_spec (Z.of_nat (S (length workers))) (fp + 1)); [lia|].
  rewrite launch_loop_all by (done || lia). by rewrite Z.sub_0_r.
Qed.

Lemma launched_lookup (workers : list nat) n core id :
  (n ≤ length workers)%nat →
  (core, id) ∈ zip_with (λ w k, (w, 1 + Z.of_nat k)) workers (seq 0 n) ↔
  ∃ k, (k < n)%nat ∧ workers !! k = Some core ∧ id = 1 + Z.of_nat k.
Proof.
  intros Hn. rewrite list_elem_of_lookup. split.
  - intros [k Hk]. apply lookup_zip_with_Some in Hk as (w & k' & E & Hw & Hk).
    apply lookup_seq in Hk as [-> Hk]. simplify_eq. exists k. split; [done|]. split; [done|lia].
  - intros (k & Hk & Hw & ->). exists k. apply lookup_zip_with_Some. exists core, k. split; [done|]. split; [done|].
    by apply lookup_seq.
Qed.

(** A loop that returns 0 launched as if no launch could fail. *)
Lemma launch_loop_zero launch fp launched workers out :
  (launch_loop launch fp launched workers out).1 = 0 →
  launch_loop launch fp launched workers out = launch_loop (λ _, true) fp launched workers out.
Proof.
  revert launched out. induction workers as [|w workers IH]; intros launched out; cbn [launch_loop]; [done|].
  destruct (launched <? fp); [|apply IH]. destruct (launch w); [apply IH|done].
Qed.

(** After a successful start every context has a thread. *)
Lemma threads_serve c launch workers l :
  counts_ok c → total_cores c < 65536 → start_threads launch (total_cores c) workers = (0, l) →
  ∀ r, role_ok c r → ∃ core, (core, role_id c r) ∈ l ∧ common_thread c (role_id c r) = Some r.
Proof.
  intros Hc Htot Hs r Hr. pose proof (role_id_range c r Hc Hr) as Hid. pose proof (common_thread_role c r Hc Hr) as Hct.
  assert (total_cores c ≤ Z.of_nat (length workers) ∧ start_threads (λ _, true) (total_cores c) workers = (0, l)) as [Hw Hall].
  { unfold start_threads in *. destruct (Z.ltb_spec (Z.of_nat (S (length workers))) (total_cores c + 1)); [done|].
    split; [lia|]. by rewrite <- (launch_loop_zero launch), Hs by by rewrite Hs. }
  rewrite start_threads_all in Hall by (done || lia). injection Hall as <-.
  destruct (lookup_lt_is_Some_2 workers (Z.to_nat (role_id c r - 1))) as [core Hcore]; [lia|].
  exists core. split; [|done]. apply launched_lookup; [lia|]. exists (Z.to_nat (role_id c r - 1)). split; [lia|]. split; [done|lia].
Qed.

(** ** Property *)

(** The worker threads serve exactly the contexts.  With fewer worker lcores than
    [fp_cores] nothing is launched and -1 is returned.  Otherwise, when every launch
    succeeds, the first [fp_cores] lcores get distinct ids from 1 on; every context
    of every kind is served by exactly one of them, and no thread aborts.  The number
    [fp_cores] is truncated to 16 bits: with 65536 cores or more in all, some context
    is left without a thread. *)
Theorem threads_cover_contexts (c : config_t) (fp : Z) (launch : nat → bool) (workers : list nat) :
  counts_ok c → init_dataplane_topology true c = Some fp → NoDup workers → (∀ w, w ∈ workers → launch w = true) →
  eth_tx_queues c ≤ Z.of_nat MAX_ETH_TX_QUEUES ∧ fp = total_cores c mod 65536 ∧
  (Z.of_nat (length workers) < fp → start_threads launch fp workers = (-1, [])) ∧
  (fp ≤ Z.of_nat (length workers) →
     ∃ l, start_threads launch fp workers = (0, l) ∧ length l = Z.to_nat fp ∧
       (∀ core id, (core, id) ∈ l → core ∈ workers ∧ ∃ r, common_thread c id = Some r ∧ role_ok c r) ∧
       (total_cores c < 65536 → ∀ r, role_ok c r → ∃ core, (core, role_id c r) ∈ l ∧
          ∀ core' id', (core', id') ∈ l → common_thread c id' = Some r → core' = core ∧ id' = role_id c r) ∧
       (65536 ≤ total_cores c → ∃ r, role_ok c r ∧ ∀ core id, (core, id) ∈ l → common_thread c id ≠ Some r)).
Proof.
  intros Hc Htop Hnd Hl. pose proof (counts_ok_range c Hc) as Hr. unfold init_dataplane_topology in Htop. cbn [negb] in Htop.
  destruct (Z.ltb_spec (Z.of_nat MAX_ETH_TX_QUEUES) (eth_tx_queues c)); [done|]. fold (total_cores c) in Htop. simplify_eq.
  set (fp := u16 (total_cores c)). assert (fp = total_cores c mod 65536) as Hfp by done.
  assert (0 ≤ fp < 65536) as Hrange by (rewrite Hfp; by apply Z.mod_pos_bound).
  assert (0 ≤ total_cores c) by (unfold total_cores; lia).
  assert (fp ≤ total_cores c) by (rewrite Hfp; by apply Z.mod_le).
  split; [lia|]. split; [done|]. split.
  { intros Hw. unfold start_threads. destruct (Z.ltb_spec (Z.of_nat (S (length workers))) (fp + 1)); [done|lia]. }
  intros Hw. exists (zip_with (λ w k, (w, 1 + Z.of_nat k)) workers (seq 0 (Z.to_nat fp))).
  assert (∀ core id, (core, id) ∈ zip_with (λ w k, (w, 1 + Z.of_nat k)) workers (seq 0 (Z.to_nat fp)) ↔
    ∃ k, (k < Z.to_nat fp)%nat ∧ workers !! k = Some core ∧ id = 1 + Z.of_nat k) as Hin
    by (intros; apply launched_lookup; lia).
  split; [by apply start_threads_all|]. split; [rewrite length_zip_with, length_seq; lia|]. split; [|split].
  - intros core id (k & Hk & Hcore & ->)%Hin. split; [by eapply list_elem_of_lookup_2|].
    destruct (common_thread_id c (1 + Z.of_nat k) Hc) as (r & Hcr & Hok & _); [lia|]. by exists r.
  - intros Htot r Hok. pose proof (role_id_range c r Hc Hok). rewrite Z.mod_small in Hfp by lia.
    destruct (lookup_lt_is_Some_2 workers (Z.to_nat (role_id c r - 1))) as [core Hcore]; [lia|].
    exists core. split.
    { apply Hin. exists (Z.to_nat (role_id c r - 1)). split; [lia|]. split; [done|lia]. }
    intros core' id' (k & Hk & Hk' & ->)%Hin Hrole.
    destruct (common_thread_id c (1 + Z.of_nat k) Hc) as (r' & Hcr & _ & Hid); [lia|].
    assert (r' = r) as -> by congruence. replace (Z.to_nat (role_id c r - 1)) with k in Hcore by lia.
    split; [congruence|done].
  - intros Htot. destruct (common_thread_id c (fp + 1) Hc) as (r & Hcr & Hok & Hid); [lia|]. exists r. split; [done|].
    intros core id (k & Hk & _ & ->)%Hin Hcr2.
    destruct (common_thread_id c (1 + Z.of_nat k) Hc) as (r' & Hcr' & _ & Hid'); [lia|]. assert (r' = r) as -> by congruence. lia.
Qed.

(** ** Rings: src/ring.c *)

Section rings.
Context `{RteRing}.

(** [rte_ring_create] fails when a ring of that name exists; [names] are those in use. *)
Definition create_named (A : Type) (name : cstring) (names : list cstring) : option (ring A) * list cstring :=
  if decide (name ∈ names) then (None, names)
  else match rte_ring_create A (Z.to_nat RING_SIZE) with
       | Some r => (Some r, name :: names)
       | None => (None, names)
       end.

(** The fields of [global] that hold rings: NULL until they are created. *)
Record ring_globals := mk_rings {
  g_eth_rings : list (option (ring nat));     (* eth_tx_queues elements, from malloc *)
  g_vhost_rings : list (option (ring nat));   (* MAX_VHOSTS elements *)
  g_slow_ring : option (ring (slow_msg));
  g_names : list cstring;
}.

(** [sprintf(name, "<prefix>%d", i)] *)
Definition ring_name (prefix : string) (i : nat) : cstring := list_ascii_of_string prefix ++ print_dec (Z.of_nat i).

(** The body of the two loops that fill an array of rings. *)
Definition create_ring (prefix : string) (i : nat) (s : list (option (ring nat)) * list cstring)
    : res (list (option (ring nat)) * list cstring) :=
  let '(r, names) := create_named nat (ring_name prefix i) s.2 in
  rings ← arr_set s.1 i r; Ok (rings, names).

(** [alloc] is the success of the array allocation.  The results of the ring
    creations are not checked.  The name buffers are assumed to be allocated. *)
Definition init_rings (alloc : bool) (c : config_t) (names : list cstring) : res (Z * ring_globals) :=
  if negb alloc then Ok (-1, mk_rings [] (replicate MAX_VHOSTS None) None names)
  else
    '(eth, names) ← foldM (create_ring "eth_tx_queue_ring_") (seq 0 (Z.to_nat (eth_tx_queues c)))
                      (replicate (Z.to_nat (eth_tx_queues c)) None, names);
    '(vhost, names) ← foldM (create_ring "vhost_tx_ring_") (seq 0 (Z.to_nat (nb_sockets c)))
                        (replicate MAX_VHOSTS None, names);
    let '(r, names) := create_named slow_msg (list_ascii_of_string "slowpath_ring") names in
    Ok (0, mk_rings eth vhost r names).
End rings.

(** [destroy_rings] on the handles of the rings: [rte_ring_free] and then [free]. *)
Definition destroy_rings (handles : list nat) (h : gmap nat unit) : res (gmap nat unit) :=
  foldM (λ p h, h ← heap_free h p; heap_free h p) handles h.

(** ** Lemmas: rings *)

Lemma print_dec_inj m n : 0 ≤ m < 2 ^ 64 → 0 ≤ n < 2 ^ 64 → print_dec m = print_dec n → m = n.
Proof.
  intros Hm Hn E. pose proof (strtoul_print m [] Hm ltac:(done)) as H1.
  pose proof (strtoul_print n [] Hn ltac:(done)) as H2. rewrite E in H1. congruence.
Qed.

Lemma ring_name_inj prefix i j :
  Z.of_nat i < 2 ^ 64 → Z.of_nat j < 2 ^ 64 → ring_name prefix i = ring_name prefix j → i = j.
Proof. unfold ring_name. intros Hi Hj E%(inj _). apply print_dec_inj in E; lia. Qed.

Section ring_lemmas.
Context `{RteRing}.

Lemma create_named_fresh A name names (r : ring A) :
  rte_ring_create A (Z.to_nat RING_SIZE) = Some r → name ∉ names →
  create_named A name names = (Some r, name :: names).
Proof. intros Hr Hn. unfold create_named. by rewrite decide_False, Hr. Qed.

(** The loop fills the first [n] places and registers the names. *)
Lemma create_rings_spec prefix (r : ring nat) n m names :
  rte_ring_create nat (Z.to_nat RING_SIZE) = Some r → (n ≤ m)%nat → Z.of_nat n < 2 ^ 64 →
  (∀ i, ring_name prefix i ∉ names) →
  foldM (create_ring prefix) (seq 0 n) (replicate m None, names) =
    Ok (replicate n (Some r) ++ replicate (m - n) None, rev (ring_name prefix <$> seq 0 n) ++ names).
Proof.
  intros Hr. revert m. induction n as [|n IH]; intros m Hn Hlt Hfresh; [by rewrite Nat.sub_0_r|].
  rewrite seq_S, foldM_app, IH by (done || lia). cbn [mbind res_bind foldM Nat.add].
  unfold create_ring. cbn [fst snd]. rewrite (create_named_fresh _ _ _ r Hr).
  - rewrite arr_set_lt by (rewrite length_app, !length_replicate; lia). cbn [mbind res_bind].
    rewrite insert_app_r_alt by (rewrite length_replicate; lia). rewrite length_replicate, Nat.sub_diag.
    replace (m - n)%nat with (S (m - S n)) by lia. cbn [replicate].
    rewrite fmap_app, rev_app_distr. cbn [fmap list_fmap rev app].
    change (<[0%nat:=Some r]> (None :: replicate (m - S n) None)) with (Some r :: replicate (m - S n) (@None (ring nat))).
    rewrite cons_middle, app_assoc. do 3 f_equal. by rewrite <- replicate_S_end.
  - rewrite elem_of_app, <- Permutation_rev. intros [Hin|Hin]; [|by apply (Hfresh n)].
    apply list_elem_of_fmap in Hin as (k & E & Hk). apply elem_of_seq in Hk.
    apply ring_name_inj in E; lia.
Qed.

(** One place too many: the loop writes behind the array. *)
Lemma create_rings_overflow prefix (r : ring nat) n m names :
  rte_ring_create nat (Z.to_nat RING_SIZE) = Some r → (m < n)%nat → Z.of_nat m < 2 ^ 64 - 1 →
  (∀ i, ring_name prefix i ∉ names) →
  foldM (create_ring prefix) (seq 0 n) (replicate m None, names) = Fault OutOfBounds.
Proof.
  intros Hr Hn Hlt Hfresh. replace n with (m + S (n - S m))%nat by lia. rewrite seq_app, foldM_app.
  rewrite (create_rings_spec prefix r m m) by (done || lia). cbn [mbind res_bind seq foldM Nat.add].
  assert (∀ names', create_ring prefix m (replicate m (Some r) ++ replicate (m - m) None, names') = Fault OutOfBounds) as ->;
    [|done].
  intros names'. unfold create_ring. cbn [fst snd]. destruct (create_named nat (ring_name prefix m) names').
  unfold arr_set. by rewrite decide_False by (rewrite length_app, !length_replicate; lia).
Qed.

Lemma ring_names_fresh p q (l : list nat) i names :
  (∀ i j, ring_name p i ≠ ring_name q j) → (∀ i, ring_name p i ∉ names) →
  ring_name p i ∉ rev (ring_name q <$> l) ++ names.
Proof.
  intros Hpq Hn. rewrite elem_of_app, <- Permutation_rev. intros [(j & E & _)%list_elem_of_fmap|Hin]; [|by eapply Hn].
  by eapply Hpq.
Qed.

Lemma ring_names_NoDup p n names :
  Z.of_nat n < 2 ^ 64 → NoDup names → (∀ i, ring_name p i ∉ names) →
  NoDup (rev (ring_name p <$> seq 0 n) ++ names).
Proof.
  intros Hlt Hnd Hn. apply NoDup_app. split; [|split; [|done]].
  - rewrite <- Permutation_rev. apply NoDup_fmap_2_strong; [|apply NoDup_seq].
    intros i j Hi%elem_of_seq Hj%elem_of_seq. apply ring_name_inj; lia.
  - intros x. rewrite <- Permutation_rev. intros (i & -> & _)%list_elem_of_fmap. apply Hn.
Qed.
End ring_lemmas.

(** The result when everything can be created. *)
Lemma init_rings_fresh `{RteRing} (c : config_t) (r : ring nat) (rs : ring slow_msg) :
  in_u 16 (eth_tx_queues c) → in_u 32 (nb_sockets c) → nb_sockets c ≤ Z.of_nat MAX_VHOSTS →
  rte_ring_create nat (Z.to_nat RING_SIZE) = Some r → rte_ring_create slow_msg (Z.to_nat RING_SIZE) = Some rs →
  ∃ g, init_rings true c [] = Ok (0, g) ∧ g_eth_rings g = replicate (Z.to_nat (eth_tx_queues c)) (Some r) ∧
    g_vhost_rings g = replicate (Z.to_nat (nb_sockets c)) (Some r) ++
      replicate (MAX_VHOSTS - Z.to_nat (nb_sockets c)) None ∧
    g_slow_ring g = Some rs ∧ NoDup (g_names g).
Proof.
  unfold in_u. intros Hq Hs Hnb Hr Hrs. unfold init_rings. cbn [negb].
  rewrite (create_rings_spec "eth_tx_queue_ring_" r) by (done || lia || (intros; apply not_elem_of_nil)).
  cbn [mbind res_bind]. rewrite app_nil_r, Nat.sub_diag. cbn [replicate]. rewrite app_nil_r.
  set (names := rev (ring_name "eth_tx_queue_ring_" <$> seq 0 (Z.to_nat (eth_tx_queues c)))).
  assert (∀ i, ring_name "vhost_tx_ring_" i ∉ names) as Hv.
  { intros i. unfold names. rewrite <- (app_nil_r (rev _)). apply ring_names_fresh; [done|]. intros j. apply not_elem_of_nil. }
  rewrite (create_rings_spec "vhost_tx_ring_" r) by (done || lia). cbn [mbind res_bind].
  assert (NoDup names) as Hnd.
  { unfold names. rewrite <- (app_nil_r (rev _)). apply ring_names_NoDup; [lia|constructor|]. intros j. apply not_elem_of_nil. }
  set (names2 := rev (ring_name "vhost_tx_ring_" <$> seq 0 (Z.to_nat (nb_sockets c))) ++ names).
  assert (list_ascii_of_string "slowpath_ring" ∉ names2) as Hsl.
  { unfold names2, names. rewrite elem_of_app, <- !Permutation_rev.
    by intros [(i & E & _)%list_elem_of_fmap|(i & E & _)%list_elem_of_fmap]. }
  rewrite (create_named_fresh _ _ _ rs) by done. eexists. split; [reflexivity|].
  cbn [g_eth_rings g_vhost_rings g_slow_ring g_names]. split; [done|]. split; [done|]. split; [done|].
  apply NoDup_cons. split; [done|]. apply ring_names_NoDup; [lia|done|done].
Qed.

(** More sockets than VMs: the second loop writes behind its array. *)
Lemma init_rings_overflow `{RteRing} (c : config_t) (r : ring nat) :
  in_u 16 (eth_tx_queues c) → rte_ring_create nat (Z.to_nat RING_SIZE) = Some r →
  Z.of_nat MAX_VHOSTS < nb_sockets c → init_rings true c [] = Fault OutOfBounds.
Proof.
  unfold in_u. intros Hq Hr Hnb. unfold init_rings. cbn [negb].
  rewrite (create_rings_spec "eth_tx_queue_ring_" r) by (done || lia || (intros; apply not_elem_of_nil)).
  cbn [mbind res_bind]. rewrite (create_rings_overflow _ r); [done|done|lia|unfold MAX_VHOSTS; lia|].
  intros i. apply ring_names_fresh; [done|]. intros j. apply not_elem_of_nil.
Qed.

(** ** Property *)

(** The rings.  When memory suffices and at most 64 sockets are configured, every
    ring that the cores use exists, is empty and has room for [RING_SIZE - 1] packets:
    one per NIC queue, one per socket, and the slow path's; their names are distinct
    (a second ring of a name would be refused).  The rings of VMs beyond the number of
    sockets stay NULL.  With more than 64 sockets the array of rings overflows. *)
Theorem init_rings_correct `{RteRing} (c : config_t) (r : ring nat) (rs : ring slow_msg) :
  in_u 16 (eth_tx_queues c) → in_u 32 (nb_sockets c) →
  rte_ring_create nat (Z.to_nat RING_SIZE) = Some r → rte_ring_create slow_msg (Z.to_nat RING_SIZE) = Some rs →
  (nb_sockets c ≤ Z.of_nat MAX_VHOSTS → ∃ g, init_rings true c [] = Ok (0, g) ∧
     length (g_eth_rings g) = Z.to_nat (eth_tx_queues c) ∧ Forall (λ o, o = Some r) (g_eth_rings g) ∧
     length (g_vhost_rings g) = MAX_VHOSTS ∧
     (∀ v, g_vhost_rings g !! v = Some (Some r) ↔ Z.of_nat v < nb_sockets c) ∧
     g_slow_ring g = Some rs ∧ NoDup (g_names g) ∧
     ring_items r = [] ∧ rte_ring_free_count r = Z.to_nat (RING_SIZE - 1)) ∧
  (Z.of_nat MAX_VHOSTS < nb_sockets c → init_rings true c [] = Fault OutOfBounds).
Proof.
  intros Hq Hs Hr Hrs. split; [|by apply (init_rings_overflow c r)]. intros Hnb.
  destruct (init_rings_fresh c r rs Hq Hs Hnb Hr Hrs) as (g & Hg & He & Hv & Hsl & Hnd).
  destruct (ring_create_ok _ _ _ Hr) as [Hri Hrc]. exists g. rewrite He, Hv. unfold in_u in *. splits; try done.
  - apply length_replicate.
  - by apply Forall_replicate.
  - rewrite length_app, !length_replicate. lia.
  - intros v. destruct (decide (Z.of_nat v < nb_sockets c)) as [Hlt|Hge].
    + rewrite lookup_app_l, lookup_replicate_2 by (rewrite ?length_replicate; lia). done.
    + rewrite lookup_app_r by (rewrite length_replicate; lia). split; [|done].
      intros [? _]%lookup_replicate. done.
  - rewrite ring_free_count_eq, Hri, Hrc. cbn [List.length]. unfold RING_SIZE. lia.
Qed.

(** [destroy_rings] (which nothing calls) hands every ring to [free] after
    [rte_ring_free] has already released it. *)
Lemma destroy_rings_double_free p ps (h : gmap nat unit) :
  is_Some (h !! p) → destroy_rings (p :: ps) h = Fault DoubleFree.
Proof.
  intros [u Hp]. unfold destroy_rings. cbn [foldM]. rewrite (heap_free_Some _ _ _ Hp). cbn [mbind res_bind].
  unfold heap_free. by rewrite lookup_delete_eq.
Qed.

(** ** Witnesses *)

(** One core of each kind on lcores 3, 5, 7 and 9; a fifth worker stays idle. *)
Lemma threads_cover_contexts_witness :
  ∃ l, start_threads (λ _, true) 4 [3;5;7;9;11]%nat = (0, l) ∧ l = [(3%nat,1);(5%nat,2);(7%nat,3);(9%nat,4)] ∧
    (∀ core id, (core, id) ∈ l → core ∈ [3;5;7;9;11]%nat ∧ ∃ r, common_thread demo_config id = Some r ∧ role_ok demo_config r).
Proof.
  destruct (threads_cover_contexts demo_config 4 (λ _, true) [3;5;7;9;11]%nat) as (_ & _ & _ & Hall);
    [refine (bool_decide_unpack _ _); vm_compute; exact I|reflexivity|refine (bool_decide_unpack _ _); vm_compute; exact I|done|].
  destruct (Hall ltac:(cbn; lia)) as (l & Hl & _ & Hin & _). exists l. split; [exact Hl|]. split; [|exact Hin].
  vm_compute in Hl. injection Hl as <-. reflexivity.
Defined.

(** Four NIC queues and three sockets. *)
Lemma init_rings_correct_witness :
  ∃ g, @init_rings list_ring true demo_config [] = Ok (0, g) ∧ length (g_eth_rings g) = 4%nat ∧ NoDup (g_names g) ∧
    g_vhost_rings g !! 3%nat = Some None.
Proof.
  destruct (init_rings_correct demo_config (((Z.to_nat RING_SIZE - 1)%nat, []) : @ring list_ring nat)
    (((Z.to_nat RING_SIZE - 1)%nat, []) : @ring list_ring slow_msg)) as [Hok _];
    [refine (bool_decide_unpack _ _); vm_compute; exact I|refine (bool_decide_unpack _ _); vm_compute; exact I|reflexivity|reflexivity|].
  destruct (Hok ltac:(vm_compute; discriminate)) as (g & Hg & Hl & _ & _ & _ & _ & Hn & _). exists g.
  split; [exact Hg|]. split; [exact Hl|]. split; [exact Hn|]. vm_compute in Hg. injection Hg as <-. reflexivity.
Defined.
