(* ===== verification/Contexts.v ===== *)
(** * src/dataplane.c: the contexts of the cores

    [init_dataplane_ctxs] as a sequence of allocations.  An allocation is a request
    to an oracle, numbered in program order; the first one that fails ends the
    function with -1.  The state of the sequence is the number of the next request
    and [pool_id], the static counter of [mempool_alloc]. *)

From Stdlib Require Import Ascii String.
From S2P Require Import Prelude CInt Dpdk Ecn Config ConfigParse Poll Plan VhostTx EthTx Batch EthRx VhostRx Startup.
Local Open Scope Z_scope.
Local Abbreviation length := List.length.

(** ** Allocation sequences *)

Definition alloc_m (A : Type) : Type := nat * nat → option (A * (nat * nat)).

#[export] Instance alloc_ret : MRet alloc_m := λ A a s, Some (a, s).
#[export] Instance alloc_bind : MBind alloc_m := λ A B f m s,
  match m s with Some (a, s) => f a s | None => None end.

Section alloc.
Context (ok : nat → bool).

(** One request. *)
Definition request : alloc_m unit := λ '(k, p), if ok k then Some (tt, (S k, p)) else None.

(** [rte_calloc] and [rte_malloc] return NULL for a size of 0. *)
Definition calloc (n : Z) : alloc_m unit := λ s, if n =? 0 then None else request s.

(** mempool_alloc of src/network/network.h: ["%s_%u"] names a new pool. *)
Definition mempool_alloc (name : string) : alloc_m cstring := λ '(k, p),
  if ok k then Some (list_ascii_of_string name ++ "_"%char :: print_dec (u32 (Z.of_nat p)), (S k, S p)) else None.

(** ** Contexts *)

Record eth_rx_ctx := mk_eth_rx_ctx {
  erc_queue_r : nat;
  erc_mempool : cstring;
  erc_stats : eth_rx_stats;
  erc_iteration : Z;
}.

Record eth_tx_ctx := mk_eth_tx_ctx { etc_queue_r : nat; etc_stats : eth_tx_stats }.

Record vhost_rx_ctx := mk_vhost_rx_ctx {
  vrc_id : nat;
  vrc_mempool : cstring;
  vrc_stats : list vdev_rx_stats;
  vrc_ap : list vhost_ap;
  vrc_poll_states : list Z;
  vrc_rr_vm : list Z;
  vrc_rr_eth : list Z;
}.

Record vhost_tx_ctx := mk_vhost_tx_ctx { vtc_id : nat; vtc_vms : list vhost_tx_vm }.

Record dataplane_ctxs := mk_ctxs {
  eth_rx_ctxs : list eth_rx_ctx;
  eth_tx_ctxs : list eth_tx_ctx;
  vhost_rx_ctxs : list vhost_rx_ctx;
  vhost_tx_ctxs : list vhost_tx_ctx;
}.

(** What [rte_calloc] and [rte_zmalloc] give: all fields zero. *)
Definition zero_eth_rx_stats : eth_rx_stats := mk_eth_rx_stats 0 0 0 0 0.
Definition zero_eth_tx_stats : eth_tx_stats := mk_eth_tx_stats 0 0 0 0 0.
Definition zero_vdev_rx_stats : vdev_rx_stats :=
  mk_rx_stats 0 0 0 0 0 0 (replicate WINDOW_SIZE 0) (replicate WINDOW_SIZE 0) (replicate WINDOW_SIZE 0) 0.
Definition zero_vdev_tx_stats : vdev_tx_stats := mk_tx_stats 0 0 0 0 0.

Definition init_eth_rx_ctx (i : nat) : alloc_m eth_rx_ctx :=
  _ ← calloc 1;
  pool ← mempool_alloc "eth_rx_ctxs_mempool";
  _ ← request;   (* rte_gro_ctx_create *)
  _ ← calloc 1;  (* stats *)
  mret (mk_eth_rx_ctx i pool zero_eth_rx_stats 0).

Definition init_eth_tx_ctx (i : nat) : alloc_m eth_tx_ctx :=
  _ ← calloc 1;
  _ ← request;   (* rte_gro_ctx_create *)
  _ ← calloc 1;  (* stats *)
  mret (mk_eth_tx_ctx i zero_eth_tx_stats).

(** One statistics block per VM. *)
Definition alloc_stats {S} (zero : S) : alloc_m (list S) := mapM (λ _, _ ← calloc 1; mret zero) (seq 0 MAX_VHOSTS).

Definition init_vhost_rx_ctx (i : nat) : alloc_m vhost_rx_ctx :=
  _ ← calloc 1;
  pool ← mempool_alloc "vhost_rx_ctxs_mempool";
  stats ← alloc_stats zero_vdev_rx_stats;
  mret (mk_vhost_rx_ctx i pool stats (replicate MAX_VHOSTS init_vhost_ap) (replicate 5 0)
          (replicate MAX_VHOSTS 0) (replicate MAX_ETH_TX_QUEUES 0)).

(** The pointers of [retry_pkts] are NULL, here 0; none is read before it is set. *)
Definition init_vhost_tx_vm (st : vdev_tx_stats) : vhost_tx_vm :=
  mk_tx_vm st (replicate MAX_PKT_BURST 0%nat) 0 (mk_bp VM_ACTIVE 0).

Definition init_vhost_tx_ctx (i : nat) : alloc_m vhost_tx_ctx :=
  _ ← calloc 1;
  stats ← alloc_stats zero_vdev_tx_stats;
  mret (mk_vhost_tx_ctx i (init_vhost_tx_vm <$> stats)).

Definition init_dataplane_ctxs (c : config_t) : alloc_m dataplane_ctxs :=
  _ ← calloc (eth_rx_cores c);
  _ ← calloc (eth_tx_cores c);
  _ ← calloc (vhost_rx_cores c);
  _ ← calloc (vhost_tx_cores c);
  eth_rx ← mapM init_eth_rx_ctx (seq 0 (Z.to_nat (eth_rx_cores c)));
  eth_tx ← mapM init_eth_tx_ctx (seq 0 (Z.to_nat (eth_tx_cores c)));
  vhost_rx ← mapM init_vhost_rx_ctx (seq 0 (Z.to_nat (vhost_rx_cores c)));
  vhost_tx ← mapM init_vhost_tx_ctx (seq 0 (Z.to_nat (vhost_tx_cores c)));
  _ ← calloc 1;  (* control_ctx *)
  _ ← request;   (* msg_pool *)
  mret (mk_ctxs eth_rx eth_tx vhost_rx vhost_tx).

(** ** Specification *)

(** [m] makes exactly [n] requests and [q] pools; [a p] is its result when the pool
    counter starts at [p]; it fails as soon as one request fails. *)
Definition allocates {A} (m : alloc_m A) (n q : nat) (a : nat → A) : Prop :=
  ∀ k p, m (k, p) = if forallb ok (seq k n) then Some (a p, ((k + n)%nat, (p + q)%nat)) else None.

(** ** Lemmas *)

Lemma allocates_ret {A} (a : A) : allocates (mret a) 0 0 (λ _, a).
Proof. intros k p. cbn. by rewrite !Nat.add_0_r. Qed.

Lemma allocates_request : allocates request 1 0 (λ _, tt).
Proof. intros k p. cbn. rewrite andb_true_r, Nat.add_0_r, Nat.add_1_r. done. Qed.

Lemma allocates_calloc n : n ≠ 0 → allocates (calloc n) 1 0 (λ _, tt).
Proof. intros Hn k p. unfold calloc. destruct (Z.eqb_spec n 0); [done|]. apply allocates_request. Qed.

Lemma allocates_mempool name :
  allocates (mempool_alloc name) 1 1 (λ p, list_ascii_of_string name ++ "_"%char :: print_dec (u32 (Z.of_nat p))).
Proof. intros k p. cbn. rewrite andb_true_r, !Nat.add_1_r. done. Qed.

Lemma allocates_bind {A B} (m : alloc_m A) (f : A → alloc_m B) n q n' q' a b :
  allocates m n q a → (∀ p, allocates (f (a p)) n' q' (b p)) →
  allocates (m ≫= f) (n + n') (q + q') (λ p, b p (p + q)%nat).
Proof.
  intros Hm Hf k p. unfold mbind, alloc_bind. rewrite (Hm k p), seq_app, forallb_app.
  destruct (forallb ok (seq k n)); [|done]. cbn [andb]. rewrite (Hf p). by rewrite !Nat.add_assoc.
Qed.

Lemma allocates_mapM {A} (f : nat → alloc_m A) n q a s len :
  (∀ i, allocates (f i) n q (a i)) →
  allocates (mapM f (seq s len)) (len * n) (len * q) (λ p, (λ i, a (s + i)%nat (p + i * q)%nat) <$> seq 0 len).
Proof.
  intros Hf. revert s. induction len as [|len IH]; intros s; [intros k p; cbn; by rewrite !Nat.add_0_r|].
  cbn [seq mapM]. intros k p.
  rewrite (allocates_bind _ _ n q (len * n) (len * q) (a s)
    (λ p0 p, a s p0 :: ((λ i, a (S s + i)%nat (p + i * q)%nat) <$> seq 0 len)) (Hf s)).
  - cbn [Nat.mul]. destruct (forallb _ _); [|done]. do 3 f_equal. cbn [fmap list_fmap]. f_equal.
    + by rewrite !Nat.add_0_r.
    + rewrite <- seq_shift. change (List.map S) with (fmap (M := list) S). rewrite <- list_fmap_compose.
      apply list_fmap_ext. intros i x _. cbn. f_equal; lia.
  - intros p0. intros k' p'.
    transitivity (match mapM f (seq (S s) len) (k', p') with
                  | Some (l, t) => Some (a s p0 :: l, t) | None => None end); [done|].
    rewrite (IH (S s) k' p'). by destruct (forallb _ _).
Qed.

(** An allocation of size 0 fails. *)
Lemma calloc_zero {A} (f : unit → alloc_m A) s : (calloc 0 ≫= f) s = None.
Proof. by destruct s. Qed.

Lemma bind_None {A B} (m : alloc_m A) (f : A → alloc_m B) s :
  (∀ a s, f a s = None) → (m ≫= f) s = None.
Proof. intros Hf. unfold mbind, alloc_bind. destruct (m s) as [[a s']|]; [apply Hf|done]. Qed.

(** The contexts of each kind, given the number of pools created before. *)
Definition pool_name (name : string) (p : nat) : cstring :=
  list_ascii_of_string name ++ "_"%char :: print_dec (u32 (Z.of_nat p)).

Definition eth_rx_ctx_at (i p : nat) : eth_rx_ctx :=
  mk_eth_rx_ctx i (pool_name "eth_rx_ctxs_mempool" p) zero_eth_rx_stats 0.
Definition eth_tx_ctx_at (i : nat) : eth_tx_ctx := mk_eth_tx_ctx i zero_eth_tx_stats.
Definition vhost_rx_ctx_at (i p : nat) : vhost_rx_ctx :=
  mk_vhost_rx_ctx i (pool_name "vhost_rx_ctxs_mempool" p) (replicate MAX_VHOSTS zero_vdev_rx_stats)
    (replicate MAX_VHOSTS init_vhost_ap) (replicate 5 0) (replicate MAX_VHOSTS 0) (replicate MAX_ETH_TX_QUEUES 0).
Definition vhost_tx_ctx_at (i : nat) : vhost_tx_ctx :=
  mk_vhost_tx_ctx i (replicate MAX_VHOSTS (init_vhost_tx_vm zero_vdev_tx_stats)).

Lemma allocates_stats {S} (zero : S) : allocates (alloc_stats zero) MAX_VHOSTS 0 (λ _, replicate MAX_VHOSTS zero).
Proof.
  intros k p. pose proof (allocates_mapM (λ _, _ ← calloc 1; mret zero) 1 0 (λ _ _, zero) 0 MAX_VHOSTS) as Hm.
  unfold alloc_stats. rewrite Hm, Nat.mul_1_r, Nat.mul_0_r; [done|].
  intros _. exact (allocates_bind _ _ 1 0 0 0 _ _ (allocates_calloc 1 ltac:(done)) (λ _, allocates_ret zero)).
Qed.

Lemma allocates_eq {A} (m : alloc_m A) n q a n' q' a' :
  allocates m n q a → n = n' → q = q' → (∀ p, a p = a' p) → allocates m n' q' a'.
Proof. intros Hm <- <- Ha k p. rewrite (Hm k p). by rewrite Ha. Qed.

(** Add up the requests of a sequence of steps. *)
Ltac alloc_steps :=
  first [exact (allocates_ret _)
    | eapply allocates_bind;
      [first [exact (allocates_calloc _ ltac:(done)) | exact (allocates_mempool _) | exact allocates_request
             | exact (allocates_stats _)]
      |intros ?; alloc_steps]].

Lemma allocates_eth_rx i : allocates (init_eth_rx_ctx i) 4 1 (eth_rx_ctx_at i).
Proof. eapply allocates_eq; [unfold init_eth_rx_ctx; alloc_steps|done|done|]. intros p. unfold eth_rx_ctx_at, pool_name. by rewrite Nat.add_0_r. Qed.

Lemma allocates_eth_tx i : allocates (init_eth_tx_ctx i) 3 0 (λ _, eth_tx_ctx_at i).
Proof. eapply allocates_eq; [unfold init_eth_tx_ctx; alloc_steps|done|done|done]. Qed.

Lemma allocates_vhost_rx i : allocates (init_vhost_rx_ctx i) 66 1 (vhost_rx_ctx_at i).
Proof. eapply allocates_eq; [unfold init_vhost_rx_ctx; alloc_steps|done|done|]. intros p. unfold vhost_rx_ctx_at, pool_name. by rewrite Nat.add_0_r. Qed.

Lemma allocates_vhost_tx i : allocates (init_vhost_tx_ctx i) 65 0 (λ _, vhost_tx_ctx_at i).
Proof. eapply allocates_eq; [unfold init_vhost_tx_ctx; alloc_steps|done|done|done]. Qed.

(** The contexts of a configuration when [p] pools exist, and the number of requests. *)
Definition ctxs_at (c : config_t) (p : nat) : dataplane_ctxs :=
  mk_ctxs ((λ i, eth_rx_ctx_at i (p + i)) <$> seq 0 (Z.to_nat (eth_rx_cores c)))
    (eth_tx_ctx_at <$> seq 0 (Z.to_nat (eth_tx_cores c)))
    ((λ i, vhost_rx_ctx_at i (p + Z.to_nat (eth_rx_cores c) + i)) <$> seq 0 (Z.to_nat (vhost_rx_cores c)))
    (vhost_tx_ctx_at <$> seq 0 (Z.to_nat (vhost_tx_cores c))).

Definition requests_of (c : config_t) : nat :=
  (4 + (Z.to_nat (eth_rx_cores c) * 4 + (Z.to_nat (eth_tx_cores c) * 3 + (Z.to_nat (vhost_rx_cores c) * 66
   + (Z.to_nat (vhost_tx_cores c) * 65 + 2)))))%nat.

Definition cores_present (c : config_t) : Prop :=
  eth_rx_cores c ≠ 0 ∧ eth_tx_cores c ≠ 0 ∧ vhost_rx_cores c ≠ 0 ∧ vhost_tx_cores c ≠ 0.
#[export] Instance cores_present_dec c : Decision (cores_present c).
Proof. unfold cores_present. apply _. Defined.

(** A core of each kind per index. *)
Lemma allocates_cores {A} (f : nat → alloc_m A) n q a len :
  (∀ i, allocates (f i) n q (a i)) →
  allocates (mapM f (seq 0 len)) (len * n) (len * q) (λ p, (λ i, a i (p + i * q)%nat) <$> seq 0 len).
Proof. exact (allocates_mapM f n q a 0 len). Qed.

Lemma init_dataplane_ctxs_allocates c :
  cores_present c →
  allocates (init_dataplane_ctxs c) (requests_of c) (Z.to_nat (eth_rx_cores c) + Z.to_nat (vhost_rx_cores c)) (ctxs_at c).
Proof.
  intros (H1 & H2 & H3 & H4). unfold init_dataplane_ctxs. eapply allocates_eq.
  - do 4 (eapply allocates_bind; [by apply allocates_calloc|intros ?]).
    eapply allocates_bind; [exact (allocates_cores _ _ _ _ _ allocates_eth_rx)|intros ?].
    eapply allocates_bind; [exact (allocates_cores _ _ _ _ _ allocates_eth_tx)|intros ?].
    eapply allocates_bind; [exact (allocates_cores _ _ _ _ _ allocates_vhost_rx)|intros ?].
    eapply allocates_bind; [exact (allocates_cores _ _ _ _ _ allocates_vhost_tx)|intros ?].
    alloc_steps.
  - unfold requests_of. lia.
  - lia.
  - intros p. unfold ctxs_at. cbn beta. f_equal; apply list_fmap_ext; intros i x _; f_equal; lia.
Qed.

Lemma init_dataplane_ctxs_zero c s : ¬ cores_present c → init_dataplane_ctxs c s = None.
Proof.
  intros Hc. unfold init_dataplane_ctxs.
  destruct (decide (eth_rx_cores c = 0)) as [->|]; [apply calloc_zero|]. apply bind_None. intros _ s1.
  destruct (decide (eth_tx_cores c = 0)) as [->|]; [apply calloc_zero|]. apply bind_None. intros _ s2.
  destruct (decide (vhost_rx_cores c = 0)) as [->|]; [apply calloc_zero|]. apply bind_None. intros _ s3.
  destruct (decide (vhost_tx_cores c = 0)) as [->|]; [apply calloc_zero|]. by destruct Hc.
Qed.
End alloc.

(** ** The state in which each loop starts *)

Section start.
Context `{RteRing} `{RteMempool slow_msg}.
Context (config : config_t).

(** The rings of [global], once none is NULL; [msgs] is [control_ctx->msg_pool]. *)
Record shared := mk_shared {
  sh_vm_rings : list (ring nat);
  sh_eth_rings : list (ring nat);
  sh_slow : ring slow_msg;
  sh_msgs : mempool;
}.

Definition shared_of (g : ring_globals) (msgs : mempool) : option shared :=
  vm ← mapM id (g_vhost_rings g); eth ← mapM id (g_eth_rings g); slow ← g_slow_ring g;
  Some (mk_shared vm eth slow msgs).

(** [vhost_rx_loop] zeroes its packet counters and the iteration counter. *)
Definition start_vhost_rx (ctx : vhost_rx_ctx) (sh : shared) : vrx_world :=
  mk_vrx_world ∅ (sh_vm_rings sh) (sh_eth_rings sh) (sh_slow sh) (sh_msgs sh) (vrc_stats ctx) (vrc_ap ctx)
    (vrc_poll_states ctx) 0 (vrc_rr_vm ctx) (vrc_rr_eth ctx) (vm_pkts empty_batch) (replicate MAX_ETH_TX_QUEUES []).

Definition start_eth_rx (ctx : eth_rx_ctx) (sh : shared) : rx_world :=
  mk_rx_world ∅ (sh_vm_rings sh) (sh_slow sh) (sh_msgs sh) (erc_stats ctx) (vm_pkts empty_batch).

(** The guests have received nothing, the wire carries nothing. *)
Definition start_vhost_tx (ctx : vhost_tx_ctx) (sh : shared) : tx_world :=
  mk_tx_world (vtc_vms ctx) (sh_vm_rings sh) ∅ (replicate MAX_VHOSTS []).

Definition start_eth_tx (ctx : eth_tx_ctx) (sh : shared) : eth_world :=
  mk_eth_world (sh_eth_rings sh) ∅ [] (etc_stats ctx).

(** ** Lemmas *)

Lemma mapM_id_replicate {A} n (x : A) : mapM id (replicate n (Some x)) = Some (replicate n x).
Proof. induction n as [|n IH]; [done|]. cbn. by rewrite IH. Qed.

Lemma concat_nil {A B} (f : A → list B) l : (∀ x, x ∈ l → f x = []) → concat (f <$> l) = [].
Proof.
  induction l as [|x l IH]; intros Hf; [done|]. cbn. rewrite Hf by by left. apply IH. intros y Hy. apply Hf. by right.
Qed.

(** The rings of a start with 64 sockets. *)
Definition fresh_shared (c : config_t) (r : ring nat) (rs : ring slow_msg) (msgs : mempool) : shared :=
  mk_shared (replicate MAX_VHOSTS r) (replicate (Z.to_nat (eth_tx_queues c)) r) rs msgs.

Lemma start_vhost_rx_wf i p r rs msgs :
  vrx_wf config (start_vhost_rx (vhost_rx_ctx_at i p) (fresh_shared config r rs msgs)).
Proof.
  unfold vrx_wf, start_vhost_rx, fresh_shared, vhost_rx_ctx_at, batch_clean. cbn [w_vm_rings w_eth_rings w_stats w_ap w_rr_vm w_rr_eth w_batch w_eth
    sh_vm_rings sh_eth_rings vrc_stats vrc_ap vrc_rr_vm vrc_rr_eth].
  rewrite !length_replicate. splits; try done; try (split; [done|]; apply Forall_replicate; done).
  split; [done|]. apply Forall_replicate. unfold st_wf. cbn. unfold WINDOW_SIZE. lia.
Qed.

Lemma start_eth_rx_wf i p r rs msgs : rx_wf (start_eth_rx (eth_rx_ctx_at i p) (fresh_shared config r rs msgs)).
Proof. unfold rx_wf, start_eth_rx, batch_clean. cbn. split; [done|]. by split. Qed.

Lemma start_queues i r rs msgs :
  ring_items r = [] → all_queues (start_vhost_tx (vhost_tx_ctx_at i) (fresh_shared config r rs msgs)) = [].
Proof.
  intros Hr. apply concat_nil. intros v Hv%elem_of_seq. unfold vm_queue, start_vhost_tx, fresh_shared, vhost_tx_ctx_at.
  cbn [tx_vms vhost_tx_rings vtc_vms sh_vm_rings]. rewrite !lookup_replicate_2 by lia. cbn. by rewrite Hr.
Qed.

Lemma start_vhost_tx_wf i r rs msgs :
  ring_items r = [] → tx_wf (start_vhost_tx (vhost_tx_ctx_at i) (fresh_shared config r rs msgs)).
Proof.
  intros Hr. pose proof (start_queues i r rs msgs Hr) as Hq. unfold tx_wf, start_vhost_tx, fresh_shared, vhost_tx_ctx_at.
  cbn [tx_vms vhost_tx_rings guest tx_pool vtc_vms sh_vm_rings].
  unfold start_vhost_tx, fresh_shared, vhost_tx_ctx_at in Hq. cbn [vtc_vms sh_vm_rings] in Hq. rewrite Hq.
  rewrite !length_replicate. splits; try done; [|constructor|].
  - apply Forall_replicate. unfold tx_vm_wf, init_vhost_tx_vm. cbn [retry_pkts retry_cnt tx_bp]. rewrite length_replicate.
    split; [done|]. split; [lia|lia].
  - intros q Hq'. by apply not_elem_of_nil in Hq'.
Qed.

Lemma start_eth_tx_wf i r rs msgs :
  ring_items r = [] → eth_wf (start_eth_tx (eth_tx_ctx_at i) (fresh_shared config r rs msgs)).
Proof.
  intros Hr. unfold eth_wf.
  assert (eth_queued (start_eth_tx (eth_tx_ctx_at i) (fresh_shared config r rs msgs)) = []) as ->.
  { apply concat_nil. intros q [-> _]%elem_of_replicate. done. }
  split; [constructor|]. split; [intros q Hq; by apply not_elem_of_nil in Hq|].
  apply Forall_replicate. rewrite Hr. cbn. lia.
Qed.

(** The loops of all cores start in states that satisfy their invariants. *)
Definition loops_wf (x : dataplane_ctxs) (sh : shared) : Prop :=
  Forall (λ ctx, vrx_wf config (start_vhost_rx ctx sh)) (vhost_rx_ctxs x) ∧
  Forall (λ ctx, rx_wf (start_eth_rx ctx sh)) (eth_rx_ctxs x) ∧
  Forall (λ ctx, tx_wf (start_vhost_tx ctx sh)) (vhost_tx_ctxs x) ∧
  Forall (λ ctx, eth_wf (start_eth_tx ctx sh)) (eth_tx_ctxs x) ∧
  Forall (λ ctx, Forall ap_wf (vrc_ap ctx)) (vhost_rx_ctxs x).

Lemma loops_wf_fresh c r rs msgs : ring_items r = [] → loops_wf (ctxs_at c 0) (fresh_shared config r rs msgs).
Proof.
  intros Hr. unfold loops_wf, ctxs_at. cbn [eth_rx_ctxs eth_tx_ctxs vhost_rx_ctxs vhost_tx_ctxs].
  splits; apply Forall_fmap, Forall_true; intros i.
  - apply start_vhost_rx_wf.
  - apply start_eth_rx_wf.
  - by apply start_vhost_tx_wf.
  - by apply start_eth_tx_wf.
  - change (Forall ap_wf (replicate MAX_VHOSTS init_vhost_ap)). apply Forall_replicate. split; [cbn; lia|done].
Qed.
End start.

(** The rings of 64 sockets, as the loops see them. *)
Lemma shared_of_fresh `{RteRing} `{RteMempool slow_msg} c g r rs msgs :
  g_eth_rings g = replicate (Z.to_nat (eth_tx_queues c)) (Some r) → g_vhost_rings g = replicate MAX_VHOSTS (Some r) →
  g_slow_ring g = Some rs → shared_of g msgs = Some (fresh_shared c r rs msgs).
Proof. intros He Hv Hs. unfold shared_of. by rewrite He, Hv, Hs, !mapM_id_replicate. Qed.

(** ** Properties *)

Lemma pool_name_inj name p q :
  Z.of_nat p < 2 ^ 32 → Z.of_nat q < 2 ^ 32 → pool_name name p = pool_name name q → p = q.
Proof.
  unfold pool_name. intros Hp Hq E. apply (inj _) in E. injection E as E.
  unfold u32 in E. rewrite !wrap_small in E by (unfold in_u; lia). apply print_dec_inj in E; lia.
Qed.

Lemma pool_names_NoDup name base n :
  Z.of_nat (base + n) < 2 ^ 32 → NoDup ((λ i, pool_name name (base + i)) <$> seq 0 n).
Proof.
  intros Hn. apply NoDup_fmap_2_strong; [|apply NoDup_seq].
  intros i j Hi%elem_of_seq Hj%elem_of_seq E. apply pool_name_inj in E; lia.
Qed.

(** The contexts.  The function returns -1 when a kind of core is configured with
    count 0 or when any of its requests fails, and succeeds otherwise, after exactly
    [requests_of c] requests; then there is one context per core, with its index,
    its statistics zero, every VM hot and unblocked, nothing waiting for a retry, and
    the memory pools have distinct names. *)
Theorem init_dataplane_ctxs_correct (ok : nat → bool) (c : config_t) :
  counts_ok c →
  init_dataplane_ctxs ok c (0%nat, 0%nat) =
    (if decide (cores_present c)
     then if forallb ok (seq 0 (requests_of c))
          then Some (ctxs_at c 0, (requests_of c, (Z.to_nat (eth_rx_cores c) + Z.to_nat (vhost_rx_cores c))%nat))
          else None
     else None) ∧
  (∀ i, Z.of_nat i < eth_rx_cores c → erc_queue_r <$> eth_rx_ctxs (ctxs_at c 0) !! i = Some i) ∧
  (∀ i, Z.of_nat i < eth_tx_cores c → etc_queue_r <$> eth_tx_ctxs (ctxs_at c 0) !! i = Some i) ∧
  (∀ i, Z.of_nat i < vhost_rx_cores c → vrc_id <$> vhost_rx_ctxs (ctxs_at c 0) !! i = Some i) ∧
  (∀ i, Z.of_nat i < vhost_tx_cores c → vtc_id <$> vhost_tx_ctxs (ctxs_at c 0) !! i = Some i) ∧
  NoDup ((erc_mempool <$> eth_rx_ctxs (ctxs_at c 0)) ++ (vrc_mempool <$> vhost_rx_ctxs (ctxs_at c 0))).
Proof.
  intros Hc. apply counts_ok_range in Hc. split.
  { case_decide as Hp; [|by apply init_dataplane_ctxs_zero].
    by rewrite (init_dataplane_ctxs_allocates ok c Hp 0%nat 0%nat). }
  unfold ctxs_at. cbn [eth_rx_ctxs eth_tx_ctxs vhost_rx_ctxs vhost_tx_ctxs].
  splits; try (intros i Hi; rewrite list_lookup_fmap, lookup_seq_lt by lia; done).
  rewrite <- !list_fmap_compose. unfold compose. cbn [erc_mempool vrc_mempool eth_rx_ctx_at vhost_rx_ctx_at].
  apply NoDup_app. split; [apply (pool_names_NoDup _ 0); lia|]. split; [|apply (pool_names_NoDup _ (0 + _)); lia].
  intros x (i & -> & _)%list_elem_of_fmap (j & E & _)%list_elem_of_fmap. done.
Qed.

(** What a start with 64 sockets and no failure leaves. *)
Lemma startup_eq `{RteRing} `{RteMempool slow_msg} (c : config_t) (r : ring nat) (rs : ring slow_msg) (msgs : mempool) :
  counts_ok c → cores_present c → nb_sockets c = Z.of_nat MAX_VHOSTS →
  rte_ring_create nat (Z.to_nat RING_SIZE) = Some r → rte_ring_create slow_msg (Z.to_nat RING_SIZE) = Some rs →
  ∃ g t, init_rings true c [] = Ok (0, g) ∧ init_dataplane_ctxs (λ _, true) c (0%nat, 0%nat) = Some (ctxs_at c 0, t) ∧
    shared_of g msgs = Some (fresh_shared c r rs msgs).
Proof.
  intros Hc Hp Hnb Hr Hrs.
  assert (Z.to_nat (nb_sockets c) = MAX_VHOSTS) as Hn by (rewrite Hnb; lia).
  pose proof Hc as Hc'. unfold counts_ok in Hc'. rewrite !Forall_cons in Hc'. destruct Hc' as (_ & _ & _ & Hq & _).
  destruct (init_rings_fresh c r rs) as (g & Hg & Hge & Hgv & Hgs & _); [done|unfold in_u; rewrite Hnb; unfold MAX_VHOSTS; lia|rewrite Hnb; lia|done|done|].
  exists g, (requests_of c, (Z.to_nat (eth_rx_cores c) + Z.to_nat (vhost_rx_cores c))%nat). split; [done|]. split.
  { rewrite (init_dataplane_ctxs_allocates (λ _, true) c Hp 0%nat 0%nat).
    rewrite (proj2 (forallb_forall _ _)) by done. done. }
  apply shared_of_fresh; [done| |done]. rewrite Hgv, Hn, Nat.sub_diag. cbn [replicate]. apply app_nil_r.
Qed.

(** Starting up establishes what the loops rely on.  When the rings and the contexts
    are set up without failure for 64 sockets, every core's loop starts in a state
    that satisfies its invariant, so the theorems about the loops apply from the first
    iteration on. *)
Theorem startup_establishes_invariants `{RteRing} `{RteMempool slow_msg} (c : config_t) (r : ring nat) (rs : ring slow_msg)
    (msgs : mempool) :
  counts_ok c → cores_present c → nb_sockets c = Z.of_nat MAX_VHOSTS →
  rte_ring_create nat (Z.to_nat RING_SIZE) = Some r → rte_ring_create slow_msg (Z.to_nat RING_SIZE) = Some rs →
  ∃ g x t sh, init_rings true c [] = Ok (0, g) ∧ init_dataplane_ctxs (λ _, true) c (0%nat, 0%nat) = Some (x, t) ∧
    shared_of g msgs = Some sh ∧
    length (eth_rx_ctxs x) = Z.to_nat (eth_rx_cores c) ∧ length (eth_tx_ctxs x) = Z.to_nat (eth_tx_cores c) ∧
    length (vhost_rx_ctxs x) = Z.to_nat (vhost_rx_cores c) ∧ length (vhost_tx_ctxs x) = Z.to_nat (vhost_tx_cores c) ∧
    loops_wf c x sh.
Proof.
  intros Hc Hp Hnb Hr Hrs. destruct (startup_eq c r rs msgs Hc Hp Hnb Hr Hrs) as (g & t & Hg & Hx & Hsh).
  exists g, (ctxs_at c 0), t, (fresh_shared c r rs msgs). pose proof (loops_wf_fresh c c r rs msgs (proj1 (ring_create_ok _ _ _ Hr))).
  unfold ctxs_at in *. cbn [eth_rx_ctxs eth_tx_ctxs vhost_rx_ctxs vhost_tx_ctxs].
  rewrite !length_fmap, !length_seq. by split_and!.
Qed.

(** ** Witnesses *)

(** Two eth_rx, one eth_tx, two vhost_rx and one vhost_tx cores; 64 sockets. *)
Definition boot_config : config_t :=
  mk_config 0 0 0 1 0 0 15 4 None None 64 0xC0A86401 24 [2;0;0;0;0;254] [2;0;0;0;1;254] 2 1 4 4 2 1 0.

Lemma boot_counts_ok : counts_ok boot_config.
Proof. refine (bool_decide_unpack _ _). vm_compute. exact I. Qed.

(** The last of the 214 requests fails. *)
Lemma init_dataplane_ctxs_correct_witness :
  requests_of boot_config = 214%nat ∧ init_dataplane_ctxs (λ k, negb (Nat.eqb k 213)) boot_config (0%nat, 0%nat) = None.
Proof.
  split; [reflexivity|]. rewrite (proj1 (init_dataplane_ctxs_correct (λ k, negb (Nat.eqb k 213)) boot_config boot_counts_ok)).
  vm_compute. reflexivity.
Defined.

Lemma startup_establishes_invariants_witness :
  ∃ x sh, vrx_wf boot_config (start_vhost_rx x sh) ∧ vrc_id x = 0%nat.
Proof.
  destruct (startup_establishes_invariants boot_config (((Z.to_nat RING_SIZE - 1)%nat, []) : @ring list_ring nat)
    (((Z.to_nat RING_SIZE - 1)%nat, []) : @ring list_ring slow_msg) ([] : @mempool slow_msg (list_mempool slow_msg)))
    as (g & x & t & sh & _ & Hx & _ & _ & _ & _ & _ & (Hv & _));
    [exact boot_counts_ok|refine (bool_decide_unpack _ _); vm_compute; exact I|reflexivity|reflexivity|reflexivity|].
  destruct (vhost_rx_ctxs x) as [|ctx l] eqn:E; [|exists ctx, sh; split; [by inversion Hv|]].
  - vm_compute in Hx. injection Hx as <- _. discriminate E.
  - vm_compute in Hx. injection Hx as <- _. cbn in E. injection E as <- _. reflexivity.
Defined.
