(* ===== verification/Bringup.v ===== *)
(** * src/network/network.c: bringing up the NIC

    [network_init] configures the port; then the eth_tx threads set up the transmit
    queues, the eth_rx threads the receive queues, and the main thread starts the
    device, ordered by two counters that the waiting threads poll.  The barrier is a
    step relation: any interleaving of the threads, one access to shared state per
    step.  The lock around each queue set-up call is DPDK's.  The step that starts the
    device includes what follows in the main thread, [after_start], whose answers change
    no more than what is printed.  Not modelled: the statistics printed at exit. *)

From S2P Require Import Prelude CInt Packet Dpdk Offload Config Startup.
Local Open Scope Z_scope.

(** ** The port: network_init *)

(** What [rte_eth_dev_info_get] says about a port. *)
Record dev_info := mk_dev_info {
  max_rx_queues : Z;             (* uint16_t *)
  max_tx_queues : Z;             (* uint16_t *)
  rx_offload_capa : Z;           (* uint64_t *)
  flow_type_rss_offloads : Z;    (* uint64_t *)
}.

(** [port_conf], as far as [network_init] changes it, and the queue configurations in
    [eth_devinfo] that the queues are set up with later. *)
Record port_conf := mk_port_conf {
  rxmode_offloads : Z;
  txmode_offloads : Z;
  rss_hf : Z;
}.

Record net_state := mk_net {
  eth_port_id : Z;               (* global->eth_port_id *)
  eth_addr : list Z;             (* global->eth_addr *)
  port : port_conf;
  rxconf_offloads : Z;           (* eth_devinfo.default_rxconf.offloads *)
  txconf_offloads : Z;           (* eth_devinfo.default_txconf.offloads *)
}.

(** The calls that change the device. *)
Inductive dev_call :=
  | DevConfigure (p rx_queues tx_queues : Z) (conf : port_conf)
  | DevSetMtu (p mtu : Z).

(** DPDK: the flags, which are bits of 64-bit words, the ports and their properties,
    and the results of the calls. *)
Section network_init.
Context (RX_OFFLOAD_IPV4_CKSUM RX_OFFLOAD_TCP_CKSUM : Z).
Context (ports : list Z) (is_valid_port : Z → bool) (macaddr : Z → list Z) (devinfo : Z → dev_info).
Context (dev_result : dev_call → Z).

(** [rx_offloads]: what the NIC has of the two checksum offloads. *)
Definition rx_offloads (info : dev_info) : Z :=
  let r := if Z.land (rx_offload_capa info) RX_OFFLOAD_IPV4_CKSUM =? 0 then 0 else Z.lor 0 RX_OFFLOAD_IPV4_CKSUM in
  if Z.land (rx_offload_capa info) RX_OFFLOAD_TCP_CKSUM =? 0 then r else Z.lor r RX_OFFLOAD_TCP_CKSUM.

(** The return value, the state and the calls made.  [RTE_ETH_FOREACH_DEV] leaves the
    last port in [global->eth_port_id]; the port count is cut to [uint8_t]. *)
Definition network_init (c : config_t) (g : net_state) : Z * net_state * list dev_call :=
  let count := u8 (Z.of_nat (length ports)) in
  if (count =? 0) || (1 <? count) then (-1, g, [])
  else
    let p := default (eth_port_id g) (last ports) in
    let g := mk_net p (eth_addr g) (port g) (rxconf_offloads g) (txconf_offloads g) in
    if negb (is_valid_port p) then (-1, g, [])
    else
      let info := devinfo p in
      let rx := rx_offloads info in
      let tx := txmode_offloads (port g) in
      let g := mk_net p (macaddr p) (mk_port_conf rx tx (rss_hf (port g))) rx tx in
      if (max_rx_queues info <? eth_rx_cores c) || (max_tx_queues info <? eth_tx_cores c) then (-1, g, [])
      else
        let rss := if Z.land (rss_hf (port g)) (flow_type_rss_offloads info) =? rss_hf (port g) then rss_hf (port g)
                   else Z.land (rss_hf (port g)) (flow_type_rss_offloads info) in
        let g := mk_net p (macaddr p) (mk_port_conf rx tx rss) rx tx in
        let configure := DevConfigure p (eth_rx_queues c) (eth_tx_queues c) (port g) in
        if dev_result configure <? 0 then (-1, g, [configure])
        else
          let set_mtu := DevSetMtu p PKT_MTU in
          if negb (dev_result set_mtu =? 0) then (-1, g, [configure; set_mtu])
          else (0, g, [configure; set_mtu]).
End network_init.

(** ** Lemmas: network_init *)

Lemma land_flag_bit a k : 0 ≤ k → (Z.land a (2 ^ k) =? 0) = negb (Z.testbit a k).
Proof.
  intros Hk. destruct (Z.testbit a k) eqn:Ht; cbn [negb].
  - apply Z.eqb_neq. intros H0. assert (Z.testbit (Z.land a (2 ^ k)) k = true) as Hb.
    { rewrite Z.land_spec, Ht, Z.pow2_bits_true by done. done. }
    rewrite H0, Z.bits_0 in Hb. done.
  - apply Z.eqb_eq, Z.bits_inj'. intros i Hi. rewrite Z.land_spec, Z.bits_0, Z.pow2_bits_eqb by done.
    destruct (Z.eqb_spec k i) as [<-|?]; [by rewrite Ht|by rewrite andb_false_r].
Qed.

(** The offloads asked for are those of the two that the NIC has. *)
Lemma rx_offloads_spec k1 k2 info i :
  0 ≤ k1 → 0 ≤ k2 → 0 ≤ i →
  Z.testbit (rx_offloads (2 ^ k1) (2 ^ k2) info) i = (((i =? k1) || (i =? k2)) && Z.testbit (rx_offload_capa info) i)%bool.
Proof.
  intros H1 H2 Hi. unfold rx_offloads. rewrite !land_flag_bit, Z.lor_0_l by done.
  destruct (Z.testbit (rx_offload_capa info) k1) eqn:E1, (Z.testbit (rx_offload_capa info) k2) eqn:E2; cbn [negb];
    rewrite ?Z.lor_spec, ?Z.bits_0, ?Z.pow2_bits_eqb by done;
    rewrite ?(Z.eqb_sym k1 i), ?(Z.eqb_sym k2 i);
    destruct (Z.eqb_spec i k1) as [?|?], (Z.eqb_spec i k2) as [?|?]; subst; cbn; congruence.
Qed.

(** One port: the tests and the calls, in order. *)
Lemma network_init_one f1 f2 p is_valid_port macaddr devinfo dev_result c g :
  network_init f1 f2 [p] is_valid_port macaddr devinfo dev_result c g =
  let g1 := mk_net p (eth_addr g) (port g) (rxconf_offloads g) (txconf_offloads g) in
  let rx := rx_offloads f1 f2 (devinfo p) in
  let tx := txmode_offloads (port g) in
  let g2 := mk_net p (macaddr p) (mk_port_conf rx tx (rss_hf (port g))) rx tx in
  let conf := mk_port_conf rx tx (Z.land (rss_hf (port g)) (flow_type_rss_offloads (devinfo p))) in
  let g3 := mk_net p (macaddr p) conf rx tx in
  let configure := DevConfigure p (eth_rx_queues c) (eth_tx_queues c) conf in
  if negb (is_valid_port p) then (-1, g1, [])
  else if (max_rx_queues (devinfo p) <? eth_rx_cores c) || (max_tx_queues (devinfo p) <? eth_tx_cores c) then (-1, g2, [])
  else if dev_result configure <? 0 then (-1, g3, [configure])
  else if negb (dev_result (DevSetMtu p PKT_MTU) =? 0) then (-1, g3, [configure; DevSetMtu p PKT_MTU])
  else (0, g3, [configure; DevSetMtu p PKT_MTU]).
Proof.
  unfold network_init. cbn [length last default id rss_hf port].
  change (u8 (Z.of_nat 1)) with 1. cbn [Z.eqb Z.ltb Z.compare orb Pos.compare Pos.compare_cont].
  by destruct (Z.eqb_spec (Z.land (rss_hf (port g)) (flow_type_rss_offloads (devinfo p))) (rss_hf (port g))) as [->|_].
Qed.

Lemma network_init_ports f1 f2 ports is_valid_port macaddr devinfo dev_result c g :
  length ports ≠ 1%nat → (length ports ≤ 256)%nat →
  network_init f1 f2 ports is_valid_port macaddr devinfo dev_result c g = (-1, g, []).
Proof.
  intros Hne Hl. unfold network_init. assert ((u8 (Z.of_nat (length ports)) =? 0) || (1 <? u8 (Z.of_nat (length ports))) = true) as ->; [|done].
  destruct (decide (length ports = 256)%nat) as [->|]; [done|].
  unfold u8. rewrite wrap_small by (unfold in_u; lia). lia.
Qed.

(** A refused port: the result is -1 and what the right-hand side asks for is false. *)
Ltac refused := split; [by left|]; split; [split; [intros ?; lia|]|intros ?; lia].

(** ** Threads that set up the queues of one direction *)

(** A thread waits at the barrier, is about to set up queue [i], has set it up and is
    about to count it, runs its loop, or has returned with an error. *)
Inductive qpc :=
  | QWait
  | QSetup (i : nat)
  | QCount (i : nat)
  | QRun
  | QFail.

#[export] Instance qpc_eq_dec : EqDecision qpc.
Proof. solve_decision. Defined.

Record qpool := mk_qpool {
  q_done : Z;             (* uint32_t tx_init_done or rx_init_done *)
  q_pcs : list qpc;       (* one per core *)
  q_log : list nat;       (* the queues set up so far, in order *)
}.

(** Queues [0 .. n-1] exist. *)
Definition all_set_up (n : nat) (p : qpool) : Prop := ∀ i, (i < n)%nat → i ∈ q_log p.

Section queues.
Context (n cores : nat).

(** The head of [for (i = r; i < n; i += cores)]. *)
Definition q_next (i : nat) : qpc := if decide (i < n)%nat then QSetup i else QRun.

(** Thread [k] takes a step.  [open] is the test of its barrier, [ok] the result of
    the queue set-up call; a waiting thread spins. *)
Definition q_step (open : bool) (k : nat) (ok : bool) (p : qpool) : option qpool :=
  pc ← q_pcs p !! k;
  match pc with
  | QWait => if open then Some (mk_qpool (q_done p) (<[k := q_next k]> (q_pcs p)) (q_log p)) else Some p
  | QSetup i =>
      if ok then Some (mk_qpool (q_done p) (<[k := QCount i]> (q_pcs p)) (q_log p ++ [i]))
      else Some (mk_qpool (q_done p) (<[k := QFail]> (q_pcs p)) (q_log p))
  | QCount i => Some (mk_qpool (u32 (q_done p + 1)) (<[k := q_next (i + cores)]> (q_pcs p)) (q_log p))
  | QRun | QFail => None
  end.

(** What the position of thread [k] says about its queues. *)
Definition q_thread (log : list nat) (k : nat) (pc : qpc) : Prop :=
  ∀ j, (j mod cores)%nat = k → (j < n)%nat →
    match pc with
    | QWait => j ∉ log
    | QSetup i => j ∈ log ↔ (j < i)%nat
    | QCount i => j ∈ log ↔ (j ≤ i)%nat
    | QRun => j ∈ log
    | QFail => True
    end.

(** The queue at which thread [k] is belongs to it. *)
Definition q_at (k : nat) (pc : qpc) : Prop :=
  match pc with QSetup i | QCount i => (i < n)%nat ∧ (i mod cores)%nat = k | _ => True end.

Definition counting (pc : qpc) : Prop := match pc with QCount _ => True | _ => False end.
#[export] Instance counting_dec pc : Decision (counting pc).
Proof. destruct pc; cbn; apply _. Defined.

Definition q_inv (p : qpool) : Prop :=
  length (q_pcs p) = cores ∧ NoDup (q_log p) ∧ (∀ i, i ∈ q_log p → (i < n)%nat) ∧
  0 ≤ q_done p ∧ q_done p = Z.of_nat (length (q_log p)) - Z.of_nat (length (filter counting (q_pcs p))) ∧
  ∀ k pc, q_pcs p !! k = Some pc → q_at k pc ∧ q_thread (q_log p) k pc.

(** Successful steps of the listed threads. *)
Fixpoint q_run (ks : list nat) (p : qpool) : option qpool :=
  match ks with
  | [] => Some p
  | k :: ks => p' ← q_step true k true p; q_run ks p'
  end.

(** How many steps a thread has left at most. *)
Definition q_left (pc : qpc) : nat :=
  match pc with
  | QWait => 2 * n + 2
  | QSetup i => 2 * (n - i) + 1
  | QCount i => 2 * (n - i)
  | QRun | QFail => 0
  end.

(** ** Lemmas: one direction *)

Lemma same_residue i j : (0 < cores)%nat → (j mod cores = i mod cores)%nat → (j ≤ i ↔ j < i + cores)%nat.
Proof.
  intros Hc Hm. split; [lia|]. intros Hlt. destruct (decide (j ≤ i)%nat) as [?|Hgt]; [done|].
  pose proof (Nat.div_mod_eq i cores). pose proof (Nat.div_mod_eq j cores).
  assert (i / cores < j / cores)%nat by nia. nia.
Qed.

Lemma q_next_at k i : (0 < cores)%nat → (i mod cores)%nat = k → q_at k (q_next i).
Proof. intros Hc Hi. unfold q_next. case_decide; cbn; [by split|done]. Qed.

Lemma not_counting_next i : ¬ counting (q_next i).
Proof. unfold q_next. case_decide; by intros []. Qed.

(** How many threads have set up a queue that they have not counted yet. *)
Lemma counting_insert (pcs : list qpc) k pc pc' :
  pcs !! k = Some pc →
  (¬ counting pc → ¬ counting pc' → length (filter counting (<[k:=pc']> pcs)) = length (filter counting pcs)) ∧
  (¬ counting pc → counting pc' → length (filter counting (<[k:=pc']> pcs)) = S (length (filter counting pcs))) ∧
  (counting pc → ¬ counting pc' → S (length (filter counting (<[k:=pc']> pcs))) = length (filter counting pcs)).
Proof.
  intros Hk. pose proof (count_insert counting pcs k pc pc' Hk) as H.
  split_and!; intros H1 H2; repeat case_decide; try done; lia.
Qed.

(** A step of thread [k] that leaves the log alone keeps what the others know. *)
Lemma q_thread_insert log (pcs : list qpc) k pc :
  (∀ k pc, pcs !! k = Some pc → q_at k pc ∧ q_thread log k pc) → q_at k pc → q_thread log k pc →
  ∀ k' pc', <[k:=pc]> pcs !! k' = Some pc' → q_at k' pc' ∧ q_thread log k' pc'.
Proof.
  intros Hall Hat Hth k' pc' [(-> & -> & _)|[_ H]]%list_lookup_insert_Some; [by split|by apply Hall].
Qed.

Lemma q_log_bound p : q_inv p → (length (q_log p) ≤ n)%nat.
Proof.
  intros (_ & Hnd & Hlt & _). rewrite <- (length_seq n 0).
  apply submseteq_length, NoDup_submseteq; [done|]. intros i Hi. apply elem_of_seq. specialize (Hlt i Hi). lia.
Qed.

Lemma q_inv_step open k ok p p' :
  (0 < cores)%nat → Z.of_nat n < 2 ^ 32 → q_inv p → q_step open k ok p = Some p' → q_inv p'.
Proof.
  intros Hc Hn Hinv Hstep. pose proof (q_log_bound p Hinv) as Hlen. pose proof Hinv as (Hl & Hnd & Hlt & Hpos & Hd & Hall).
  unfold q_step in Hstep. destruct (q_pcs p !! k) as [pc|] eqn:Hk; [|done]. cbn [mbind option_bind] in Hstep.
  destruct (Hall k pc Hk) as [Hat Hth].
  destruct pc as [|i|i| |]; try done.
  - destruct open; simplify_eq/=; [|done]. destruct (counting_insert _ _ _ (q_next k) Hk) as (Hcount & _ & _).
    specialize (Hcount ltac:(by intros []) (not_counting_next _)).
    unfold q_inv; cbn [q_pcs q_log q_done]. rewrite length_insert. splits; [done|done|done|lia|lia|].
    assert (k < cores)%nat by (rewrite <- Hl; by eapply lookup_lt_Some).
    apply q_thread_insert; [done|apply q_next_at; [done|by apply Nat.mod_small]|].
    intros j Hj Hjn. specialize (Hth j Hj Hjn). pose proof (Nat.Div0.mod_le j cores).
    unfold q_next. case_decide; [|lia]. split; [done|lia].
  - destruct Hat as [Hin Hik]. assert (i ∉ q_log p) as Hni by (rewrite (Hth i Hik Hin); lia).
    destruct ok; simplify_eq/=; unfold q_inv; cbn [q_pcs q_log q_done]; rewrite length_insert.
    + destruct (counting_insert _ _ _ (QCount i) Hk) as (_ & Hcount & _). specialize (Hcount ltac:(by intros []) I).
      rewrite length_app. cbn [length]. splits; [done| | |lia|lia|].
      * apply NoDup_app. split; [done|]. split; [|apply NoDup_singleton]. by intros x Hx ->%list_elem_of_singleton.
      * intros j [?|Hj]%elem_of_app; [by apply Hlt|]. by apply list_elem_of_singleton in Hj as ->.
      * intros k' pc' [(<- & <- & _)|[Hne Hk']]%list_lookup_insert_Some.
        -- split; [done|]. intros j Hj Hjn. rewrite elem_of_app, list_elem_of_singleton, (Hth j Hj Hjn). lia.
        -- destruct (Hall k' pc' Hk') as [Hat' Hth']. split; [done|]. intros j Hj Hjn. specialize (Hth' j Hj Hjn).
           assert (j ∈ q_log p ++ [i] ↔ j ∈ q_log p) as E
             by (rewrite elem_of_app, list_elem_of_singleton; split; [intros [?| ->]; [done|congruence]|by left]).
           by destruct pc'; rewrite ?E.
    + destruct (counting_insert _ _ _ QFail Hk) as (Hcount & _ & _). specialize (Hcount ltac:(by intros []) ltac:(by intros [])).
      splits; [done|done|done|lia|lia|]. by apply q_thread_insert.
  - destruct Hat as [Hin Hik]. simplify_eq/=. destruct (counting_insert _ _ _ (q_next (i + cores)) Hk) as (_ & _ & Hcount). specialize (Hcount I (not_counting_next _)).
    unfold q_inv; cbn [q_pcs q_log q_done]. rewrite length_insert.
    unfold u32. rewrite wrap_small by (unfold in_u; lia). splits; [done|done|done|lia|lia|].
    apply q_thread_insert; [done|apply q_next_at; [done|by rewrite Nat.Div0.add_mod, Nat.Div0.mod_same, Nat.add_0_r, Nat.Div0.mod_mod]|].
    intros j Hj Hjn. specialize (Hth j Hj Hjn). pose proof (same_residue i j Hc ltac:(congruence)).
    unfold q_next. case_decide; [by rewrite Hth|]. apply Hth. lia.
Qed.

(** No step takes back a count, and a pool at its barrier has done nothing. *)
Lemma q_step_mono open k ok p p' :
  Z.of_nat n < 2 ^ 32 → q_inv p → q_step open k ok p = Some p' → q_done p ≤ q_done p'.
Proof.
  intros Hn Hinv Hstep. pose proof (q_log_bound p Hinv) as Hlen. pose proof Hinv as (_ & _ & _ & Hpos & Hd & Hall).
  unfold q_step in Hstep. destruct (q_pcs p !! k) as [pc|] eqn:Hk; [|done]. cbn [mbind option_bind] in Hstep.
  destruct pc as [|i|i| |]; [destruct open|destruct ok| |done|done]; simplify_eq/=; try lia.
  pose proof (counting_insert _ _ _ QFail Hk) as (_ & _ & Hc). specialize (Hc I ltac:(by intros [])).
  unfold u32. rewrite wrap_small by (unfold in_u; lia). lia.
Qed.

(** Once every thread runs its loop every queue is set up and counted. *)
Lemma q_all_run p :
  (0 < cores)%nat → q_inv p → Forall (.= QRun) (q_pcs p) →
  all_set_up n p ∧ q_done p = Z.of_nat n.
Proof.
  intros Hc Hinv Hrun. pose proof (q_log_bound p Hinv) as Hlen. destruct Hinv as (Hl & Hnd & _ & _ & Hd & Hall).
  assert (∀ i, (i < n)%nat → i ∈ q_log p) as Hin.
  { intros i Hi. pose proof (Nat.mod_upper_bound i cores ltac:(lia)) as Hm. rewrite <- Hl in Hm at 2.
    destruct (lookup_lt_is_Some_2 _ _ Hm) as [pc Hpc]. destruct (Hall _ _ Hpc) as [_ Hth].
    rewrite Forall_lookup in Hrun. rewrite (Hrun _ _ Hpc) in Hth. by apply Hth. }
  split; [done|].
  assert (n ≤ length (q_log p))%nat as Hge.
  { rewrite <- (length_seq n 0) at 1. apply submseteq_length, NoDup_submseteq; [apply NoDup_seq|].
    intros i [_ Hi]%elem_of_seq. by apply Hin. }
  assert (filter counting (q_pcs p) = []) as Hf.
  { clear -Hrun. induction (q_pcs p) as [|pc pcs IH]; [done|]. inversion_clear Hrun as [|? ? Heq Hr]. subst pc.
    rewrite filter_cons_False; [by apply IH|by intros []]. }
  rewrite Hf in Hd. cbn in Hd. lia.
Qed.

(** Counting the last queue first needs every queue set up. *)
Lemma q_full p : q_inv p → Z.of_nat n ≤ q_done p → all_set_up n p.
Proof.
  intros Hinv Hge i Hi. destruct Hinv as (_ & Hnd & Hlt & _ & Hd & _).
  destruct (decide (i ∈ q_log p)) as [?|Hni]; [done|].
  assert (length (i :: q_log p) ≤ n)%nat; [|cbn in *; lia].
  rewrite <- (length_seq n 0). apply submseteq_length, NoDup_submseteq; [by apply NoDup_cons|].
  intros j [->|Hj]%elem_of_cons; apply elem_of_seq; [lia|]. specialize (Hlt j Hj). lia.
Qed.

Lemma sum_insert (l : list qpc) k x y :
  l !! k = Some x → (sum_list (q_left <$> <[k:=y]> l) + q_left x = sum_list (q_left <$> l) + q_left y)%nat.
Proof.
  revert k. induction l as [|z l IH]; intros [|k] Hk; simplify_eq/=; [lia|]. specialize (IH k Hk). lia.
Qed.

Lemma q_left_next i : (q_left (q_next i) ≤ 2 * (n - i) + 1)%nat.
Proof. unfold q_next. case_decide; cbn [q_left]; lia. Qed.

(** Past the barrier, a thread that has not failed and is not in its loop makes progress. *)
Lemma q_step_progress k pc p :
  (0 < cores)%nat → q_inv p → q_pcs p !! k = Some pc → pc ≠ QRun → pc ≠ QFail → Forall (.≠ QFail) (q_pcs p) →
  ∃ p', q_step true k true p = Some p' ∧ Forall (.≠ QFail) (q_pcs p') ∧
        (sum_list (q_left <$> q_pcs p') < sum_list (q_left <$> q_pcs p))%nat.
Proof.
  intros Hc (Hl & _ & _ & _ & _ & Hall) Hk Hr Hf Hok. pose proof (lookup_lt_Some _ _ _ Hk) as Hkl.
  destruct (Hall k pc Hk) as [Hat _]. unfold q_step. rewrite Hk. cbn [mbind option_bind].
  assert (∀ pc', pc' ≠ QFail → (q_left pc' < q_left pc)%nat →
    Forall (.≠ QFail) (<[k:=pc']> (q_pcs p)) ∧
    (sum_list (q_left <$> <[k:=pc']> (q_pcs p)) < sum_list (q_left <$> q_pcs p))%nat) as Hins.
  { intros pc' Hne Hlt. split; [by apply Forall_insert|]. pose proof (sum_insert _ _ _ pc' Hk). lia. }
  assert (∀ i, q_next i ≠ QFail) as Hnf by (intros i; unfold q_next; by case_decide).
  destruct pc as [|i|i| |]; try done; eexists; (split; [reflexivity|]); cbn [q_pcs]; apply Hins; try done.
  - pose proof (q_left_next k). cbn [q_left]. lia.
  - cbn [q_left] in *. lia.
  - cbn [q_left]. destruct Hat as [Hi _]. unfold q_next. case_decide; cbn [q_left]; lia.
Qed.

Lemma q_drain p :
  (0 < cores)%nat → Z.of_nat n < 2 ^ 32 → q_inv p → Forall (.≠ QFail) (q_pcs p) →
  ∃ ks p', q_run ks p = Some p' ∧ q_inv p' ∧ Forall (.= QRun) (q_pcs p').
Proof.
  intros Hc Hn. remember (sum_list (q_left <$> q_pcs p)) as m eqn:Hm. revert p Hm.
  induction m as [m IH] using lt_wf_ind. intros p -> Hinv Hok.
  destruct (decide (Forall (.= QRun) (q_pcs p))) as [Hrun|Hrun]; [by exists [], p|].
  apply not_Forall_Exists in Hrun; [|apply _]. apply Exists_exists in Hrun as (pc & Hin & Hne).
  apply list_elem_of_lookup in Hin as [k Hk]. cbn in Hne.
  destruct (q_step_progress k pc p) as (p1 & Hs & Hok1 & Hlt); [done..| |done|].
  { by apply (Forall_lookup_1 _ _ _ _ Hok Hk). }
  destruct (IH _ Hlt p1 eq_refl) as (ks & p' & Hr & Hi & Hrun); [by eapply q_inv_step|done|].
  exists (k :: ks), p'. split; [|done]. cbn [q_run]. rewrite Hs. exact Hr.
Qed.
End queues.

(** ** The barrier *)

(** The wait for the link, where [up i] is the [i]-th answer of [rte_eth_link_get]: whether it
    is up, and the number of polls. *)
Fixpoint link_polls (retries i : nat) (up : nat → bool) : bool * nat :=
  match retries with
  | O => (false, i)
  | S retries => if up i then (true, S i) else link_polls retries (S i) up
  end.

(** The rest of [network_start_eth] after [rte_eth_dev_start]: is the link up, how long was
    the delay in ms, was promiscuous mode enabled, and [start_done]. *)
Definition after_start (up : nat → bool) (promiscuous : Z) : bool * Z * bool * Z :=
  let '(link_up, polls) := link_polls 10 0 up in
  (link_up, 500 * (Z.of_nat polls - Z.b2z link_up), promiscuous =? 0, 1).

Inductive main_pc := MWait | MStart | MDone | MFail.

#[export] Instance main_pc_eq_dec : EqDecision main_pc.
Proof. solve_decision. Defined.

Record boot := mk_boot { b_tx : qpool; b_rx : qpool; b_main : main_pc }.

(** The thread that takes a step, with the result of the DPDK call it makes. *)
Inductive boot_event :=
  | TxThread (k : nat) (ok : bool)
  | RxThread (k : nat) (ok : bool)
  | MainThread (ok : bool).

Definition succeeds (e : boot_event) : Prop :=
  match e with TxThread _ ok | RxThread _ ok | MainThread ok => ok = true end.

Section barrier.
Context (tx_queues tx_cores rx_queues rx_cores : nat).

(** One step of [network_tx_queue_init]. *)
Definition network_tx_queue_init (k : nat) (ok : bool) (b : boot) : option boot :=
  tx ← q_step tx_queues tx_cores true k ok (b_tx b); Some (mk_boot tx (b_rx b) (b_main b)).

(** One step of [network_rx_queue_init]; the threads wait at [tx_init_done < config.eth_tx_cores]. *)
Definition network_rx_queue_init (k : nat) (ok : bool) (b : boot) : option boot :=
  rx ← q_step rx_queues rx_cores (negb (q_done (b_tx b) <? Z.of_nat tx_cores)) k ok (b_rx b);
  Some (mk_boot (b_tx b) rx (b_main b)).

(** One step of [network_start_eth]: the wait, then [rte_eth_dev_start]. *)
Definition network_start_eth (ok : bool) (b : boot) : option boot :=
  match b_main b with
  | MWait => Some (mk_boot (b_tx b) (b_rx b) (if q_done (b_rx b) <? Z.of_nat rx_cores then MWait else MStart))
  | MStart => Some (mk_boot (b_tx b) (b_rx b) (if ok then MDone else MFail))
  | MDone | MFail => None
  end.

Definition boot_step (e : boot_event) (b : boot) : option boot :=
  match e with
  | TxThread k ok => network_tx_queue_init k ok b
  | RxThread k ok => network_rx_queue_init k ok b
  | MainThread ok => network_start_eth ok b
  end.

Fixpoint boot_run (es : list boot_event) (b : boot) : option boot :=
  match es with
  | [] => Some b
  | e :: es => b' ← boot_step e b; boot_run es b'
  end.

(** The threads as they are launched: the queue counts are zero and thread [k]
    starts at queue [k]. *)
Definition boot_init : boot :=
  mk_boot (mk_qpool 0 (q_next tx_queues <$> seq 0 tx_cores) []) (mk_qpool 0 (replicate rx_cores QWait) []) MWait.

(** ** Specification *)

Inductive boot_reach : boot → Prop :=
  | boot_reach_init : boot_reach boot_init
  | boot_reach_step e b b' : boot_reach b → boot_step e b = Some b' → boot_reach b'.

Definition no_failure (b : boot) : Prop :=
  Forall (.≠ QFail) (q_pcs (b_tx b)) ∧ Forall (.≠ QFail) (q_pcs (b_rx b)) ∧ b_main b ≠ MFail.

(** Both pools are consistent and nobody is past a barrier that is closed. *)
Definition boot_inv (b : boot) : Prop :=
  q_inv tx_queues tx_cores (b_tx b) ∧ q_inv rx_queues rx_cores (b_rx b) ∧
  (Z.of_nat tx_cores ≤ q_done (b_tx b) ∨ (Forall (.= QWait) (q_pcs (b_rx b)) ∧ q_log (b_rx b) = [])) ∧
  (b_main b ≠ MWait → Z.of_nat rx_cores ≤ q_done (b_rx b)).

(** ** Lemmas: the link *)

Lemma link_polls_spec n i up : let '(link_up, polls) := link_polls n i up in
  link_up = existsb up (seq i n) ∧ (i ≤ polls ≤ i + n)%nat ∧ (link_up = false → polls = i + n)%nat ∧ (link_up = true → i < polls)%nat.
Proof.
  revert i. induction n as [|n IH]; intros i; cbn [link_polls seq existsb]; [split_and!; done || lia|].
  destruct (up i); cbn [orb]; [split_and!; done || lia|]. specialize (IH (S i)).
  destruct (link_polls n (S i) up) as [link_up polls]. destruct IH as (-> & Hp & Hn & Hy). split_and!; try done; try lia; intros E;
    specialize (Hn E) || specialize (Hy E); lia.
Qed.

(** The wait ends after at most five seconds, and the start counts as done even when the
    link is down. *)
Lemma after_start_correct up promiscuous : let '(link_up, ms, _, start_done) := after_start up promiscuous in
  link_up = existsb up (seq 0 10) ∧ 0 ≤ ms ≤ 5000 ∧ (link_up = false → ms = 5000) ∧ start_done = 1.
Proof.
  unfold after_start. pose proof (link_polls_spec 10 0 up) as Hl. destruct (link_polls 10 0 up) as [link_up polls].
  destruct Hl as (-> & Hp & Hn & Hy). destruct (existsb up (seq 0 10)); cbn [Z.b2z].
  - specialize (Hy eq_refl). split_and!; done || lia.
  - specialize (Hn eq_refl). split_and!; done || lia.
Qed.

(** ** Lemmas: the barrier *)

(** Steps of one direction as steps of the whole. *)
Lemma boot_run_tx ks b tx :
  q_run tx_queues tx_cores ks (b_tx b) = Some tx →
  boot_run ((λ k, TxThread k true) <$> ks) b = Some (mk_boot tx (b_rx b) (b_main b)).
Proof.
  revert b. induction ks as [|k ks IH]; intros b Hr; cbn [q_run] in Hr; [destruct b; by simplify_eq|].
  cbn [fmap list_fmap boot_run boot_step]. unfold network_tx_queue_init.
  destruct (q_step _ _ _ _ _ _) as [tx1|]; [|done]. cbn [mbind option_bind] in *. by rewrite IH.
Qed.

Lemma boot_run_rx ks b rx :
  Z.of_nat tx_cores ≤ q_done (b_tx b) → q_run rx_queues rx_cores ks (b_rx b) = Some rx →
  boot_run ((λ k, RxThread k true) <$> ks) b = Some (mk_boot (b_tx b) rx (b_main b)).
Proof.
  intros Hopen. revert b Hopen. induction ks as [|k ks IH]; intros b Hopen Hr; cbn [q_run] in Hr; [destruct b; by simplify_eq|].
  cbn [fmap list_fmap boot_run boot_step]. unfold network_rx_queue_init.
  replace (q_done (b_tx b) <? Z.of_nat tx_cores) with false by lia. cbn [negb].
  destruct (q_step _ _ _ _ _ _) as [rx1|]; [|done]. cbn [mbind option_bind] in *. by rewrite IH.
Qed.

Lemma boot_run_app es1 es2 b b1 : boot_run es1 b = Some b1 → boot_run (es1 ++ es2) b = boot_run es2 b1.
Proof.
  revert b. induction es1 as [|e es1 IH]; intros b Hr; cbn [boot_run app] in *; [by simplify_eq|].
  destruct (boot_step e b); [|done]. cbn [mbind option_bind] in *. by apply IH.
Qed.

(** From the end of both directions the main thread needs at most two steps. *)
Lemma boot_main_finish b :
  Z.of_nat rx_cores ≤ q_done (b_rx b) → b_main b ≠ MFail →
  ∃ es, Forall succeeds es ∧ boot_run es b = Some (mk_boot (b_tx b) (b_rx b) MDone).
Proof.
  intros Hd Hm. assert ((q_done (b_rx b) <? Z.of_nat rx_cores) = false) as Hb by lia.
  destruct b as [tx rx m]; cbn [b_tx b_rx b_main] in *. destruct m.
  - exists [MainThread true; MainThread true]. split; [by repeat constructor|]. cbn. by rewrite Hb.
  - exists [MainThread true]. split; [by repeat constructor|done].
  - exists []. split; [constructor|done].
  - done.
Qed.

Context (Htc : (0 < tx_cores)%nat) (Hrc : (0 < rx_cores)%nat).
Context (Htq : Z.of_nat tx_queues < 2 ^ 32) (Hrq : Z.of_nat rx_queues < 2 ^ 32).

Lemma boot_inv_init : boot_inv boot_init.
Proof.
  unfold boot_inv, boot_init; cbn [b_tx b_rx b_main q_pcs q_log q_done]. splits.
  - unfold q_inv; cbn [q_pcs q_log q_done]. rewrite length_fmap, length_seq. splits; [done|constructor|by intros i ?%elem_of_nil|done| |].
    + assert (∀ l, filter counting (q_next tx_queues <$> l) = []) as ->; [|done].
      induction l as [|i l IH]; [done|]. cbn [fmap list_fmap]. rewrite filter_cons_False; [done|apply not_counting_next].
    + intros k pc Hk. apply list_lookup_fmap_Some in Hk as (i & -> & [-> Hi]%lookup_seq). cbn [Nat.add].
      split; [apply q_next_at; [done|by apply Nat.mod_small]|].
      intros j Hj Hjn. pose proof (Nat.Div0.mod_le j tx_cores).
      unfold q_next. case_decide; [|lia]. split; [by intros ?%elem_of_nil|lia].
  - unfold q_inv; cbn [q_pcs q_log q_done]. rewrite length_replicate. splits; [done|constructor|by intros i ?%elem_of_nil|done| |].
    + assert (∀ m, filter counting (replicate m QWait) = []) as ->; [|done]. by induction m.
    + intros k pc [-> _]%lookup_replicate. split; [done|]. by intros j _ _ ?%elem_of_nil.
  - right. split; [by apply Forall_replicate|done].
  - done.
Qed.

Lemma boot_inv_step e b b' : boot_inv b → boot_step e b = Some b' → boot_inv b'.
Proof.
  intros (Ht & Hr & Hbar & Hm) Hs. destruct e as [k ok|k ok|ok]; cbn [boot_step] in Hs.
  - unfold network_tx_queue_init in Hs. destruct (q_step _ _ _ _ _ _) as [tx|] eqn:Hq; simplify_eq/=.
    pose proof (q_step_mono _ _ _ _ _ _ _ Htq Ht Hq). split_and!; cbn; [by eapply q_inv_step|done| |done].
    destruct Hbar as [?|?]; [left; lia|by right].
  - unfold network_rx_queue_init in Hs. destruct (q_step _ _ _ _ _ _) as [rx|] eqn:Hq; simplify_eq/=.
    pose proof (q_step_mono _ _ _ _ _ _ _ Hrq Hr Hq). split_and!; cbn; [done|by eapply q_inv_step| |intros ?; specialize (Hm ltac:(done)); lia].
    destruct (q_done (b_tx b) <? Z.of_nat tx_cores) eqn:Hopen; [right|left; lia].
    destruct Hbar as [?|[Hw Hl]]; [lia|]. unfold q_step in Hq. destruct (q_pcs (b_rx b) !! k) as [pc|] eqn:Hk; [|done].
    pose proof (Forall_lookup_1 _ _ _ _ Hw Hk) as ->. cbn in Hq. by simplify_eq.
  - unfold network_start_eth in Hs. destruct (b_main b) eqn:Hmain; simplify_eq; split_and!; cbn; try done.
    + destruct (q_done (b_rx b) <? Z.of_nat rx_cores) eqn:?; [done|lia].
    + intros _. by apply Hm.
Qed.

Lemma boot_reach_inv b : boot_reach b → boot_inv b.
Proof. induction 1; [apply boot_inv_init|by eapply boot_inv_step]. Qed.

End barrier.

(** ** Properties *)

(** Bringing up the port succeeds exactly when there is one valid port, with at least
    as many queues as there are cores, and both device calls succeed.  The device is
    then configured with the queues of the configuration, the receive checksum
    offloads that the NIC has, the RSS functions it supports and the transmit offloads
    as they were, whether it has them or not. *)
Theorem network_init_correct (k1 k2 : Z) (ports : list Z) (is_valid_port : Z → bool) (macaddr : Z → list Z)
    (devinfo : Z → dev_info) (dev_result : dev_call → Z) (c : config_t) (g g' : net_state) (r : Z)
    (calls : list dev_call) :
  0 ≤ k1 → 0 ≤ k2 → (length ports ≤ 256)%nat →
  network_init (2 ^ k1) (2 ^ k2) ports is_valid_port macaddr devinfo dev_result c g = (r, g', calls) →
  let configure p conf := DevConfigure p (eth_rx_queues c) (eth_tx_queues c) conf in
  (r = -1 ∨ r = 0) ∧
  (r = 0 ↔ ∃ p, ports = [p] ∧ is_valid_port p = true ∧ eth_rx_cores c ≤ max_rx_queues (devinfo p) ∧
     eth_tx_cores c ≤ max_tx_queues (devinfo p) ∧ 0 ≤ dev_result (configure p (port g')) ∧
     dev_result (DevSetMtu p PKT_MTU) = 0) ∧
  (r = 0 → ∃ p, ports = [p] ∧ calls = [configure p (port g'); DevSetMtu p PKT_MTU] ∧
     eth_port_id g' = p ∧ eth_addr g' = macaddr p ∧ rxconf_offloads g' = rxmode_offloads (port g') ∧
     (∀ i, 0 ≤ i → Z.testbit (rxmode_offloads (port g')) i =
        (((i =? k1) || (i =? k2)) && Z.testbit (rx_offload_capa (devinfo p)) i)%bool) ∧
     rss_hf (port g') = Z.land (rss_hf (port g)) (flow_type_rss_offloads (devinfo p)) ∧
     txmode_offloads (port g') = txmode_offloads (port g) ∧ txconf_offloads g' = txmode_offloads (port g)).
Proof.
  intros H1 H2 Hl Hrun configure. destruct ports as [|p [|p2 ports]].
  - rewrite network_init_ports in Hrun by (cbn; lia). simplify_eq. refused. by intros (p & ? & _).
  - rewrite network_init_one in Hrun. destruct (is_valid_port p) eqn:Hv; cbn [negb] in Hrun; simplify_eq/=.
    2:{ refused. intros (? & ? & ? & _). congruence. }
    destruct ((max_rx_queues (devinfo p) <? eth_rx_cores c) || _)%bool eqn:Hq; simplify_eq/=.
    { refused. intros (? & [= <-] & _ & ? & ? & _). lia. }
    apply orb_false_iff in Hq as [Hq1 Hq2].
    destruct (dev_result _ <? 0) eqn:Hc; simplify_eq/=.
    { refused. intros (? & [= <-] & _ & _ & _ & ? & _). unfold configure in *. lia. }
    destruct (dev_result (DevSetMtu p PKT_MTU) =? 0) eqn:Hmtu; simplify_eq/=.
    2:{ refused. intros (? & [= <-] & _ & _ & _ & _ & ?). lia. }
    split; [by right|]. split; [split; [intros _|done]; exists p; unfold configure; split_and!; [done|done|lia..]|].
    intros _. exists p. split_and!; try done. intros i Hi. by apply rx_offloads_spec.
  - rewrite network_init_ports in Hrun by (done || (cbn; lia)). simplify_eq. refused. by intros (? & ? & _).
Qed.

(** [C10] With no more queues than cores in either direction the counters order the bring-up
    as the comments in the source say: whatever the interleaving and whichever set-up
    calls fail, a receive queue is set up only when all transmit queues are, and the
    device is started only when every queue is set up. *)
Theorem bringup_order (tx_queues tx_cores rx_queues rx_cores : nat) (b : boot) :
  (0 < tx_cores)%nat → (0 < rx_cores)%nat → Z.of_nat tx_cores < 2 ^ 32 → Z.of_nat rx_cores < 2 ^ 32 →
  (tx_queues ≤ tx_cores)%nat → (rx_queues ≤ rx_cores)%nat →
  boot_reach tx_queues tx_cores rx_queues rx_cores b →
  (q_log (b_rx b) ≠ [] → all_set_up tx_queues (b_tx b)) ∧
  (b_main b ≠ MWait → all_set_up tx_queues (b_tx b) ∧ all_set_up rx_queues (b_rx b)).
Proof.
  intros Htc Hrc Htw Hrw Ht Hr Hreach.
  apply boot_reach_inv in Hreach as (It & Ir & Hbar & Hm); [|lia..].
  assert (q_log (b_rx b) ≠ [] → all_set_up tx_queues (b_tx b)) as Htx.
  { intros Hl. destruct Hbar as [Hd|[_ ?]]; [|done]. apply (q_full _ _ _ It); lia. }
  split; [done|]. intros Hmain. specialize (Hm Hmain). split; [|apply (q_full _ _ _ Ir); lia].
  apply Htx. intros Hnil. destruct Ir as (_ & _ & _ & _ & Hd & _). rewrite Hnil in Hd. cbn in Hd. lia.
Qed.

(** With fewer transmit queues than transmit cores the receive threads spin for ever,
    and with fewer receive queues than receive cores the main thread does: the counters
    count queues and are compared with a number of cores. *)
Theorem bringup_stuck (tx_queues tx_cores rx_queues rx_cores : nat) (b : boot) :
  (0 < tx_cores)%nat → (0 < rx_cores)%nat → Z.of_nat tx_queues < 2 ^ 32 → Z.of_nat rx_queues < 2 ^ 32 →
  (tx_queues < tx_cores ∨ rx_queues < rx_cores)%nat →
  boot_reach tx_queues tx_cores rx_queues rx_cores b →
  b_main b = MWait ∧ ((tx_queues < tx_cores)%nat → q_log (b_rx b) = [] ∧ Forall (.= QWait) (q_pcs (b_rx b))).
Proof.
  intros Htc Hrc Htw Hrw Hlt Hreach.
  apply boot_reach_inv in Hreach as (It & Ir & Hbar & Hm); [|lia..].
  pose proof (q_log_bound _ _ _ It). pose proof (q_log_bound _ _ _ Ir).
  pose proof It as (_ & _ & _ & _ & Hdt & _). pose proof Ir as (_ & _ & _ & _ & Hdr & _).
  assert ((tx_queues < tx_cores)%nat → q_log (b_rx b) = [] ∧ Forall (.= QWait) (q_pcs (b_rx b))) as Hw.
  { intros Hq. destruct Hbar as [?|[??]]; [lia|done]. }
  split; [|done]. destruct (decide (b_main b = MWait)) as [?|Hne]; [done|]. specialize (Hm Hne).
  destruct Hlt as [Hq|Hq]; [|lia]. destruct (Hw Hq) as [Hnil _]. rewrite Hnil in Hdr. cbn in Hdr. lia.
Qed.

(** [C21] With at least one queue per core the bring-up cannot deadlock: from any state
    reached without a failure, some schedule of successful steps starts the device,
    with every queue set up and every data-plane thread in its loop. *)
Theorem bringup_completes (tx_queues tx_cores rx_queues rx_cores : nat) (b : boot) :
  (0 < tx_cores ≤ tx_queues)%nat → (0 < rx_cores ≤ rx_queues)%nat →
  Z.of_nat tx_queues < 2 ^ 32 → Z.of_nat rx_queues < 2 ^ 32 →
  boot_reach tx_queues tx_cores rx_queues rx_cores b → no_failure b →
  ∃ es b', Forall succeeds es ∧ boot_run tx_queues tx_cores rx_queues rx_cores es b = Some b' ∧
    b_main b' = MDone ∧ Forall (.= QRun) (q_pcs (b_tx b')) ∧ Forall (.= QRun) (q_pcs (b_rx b')) ∧
    all_set_up tx_queues (b_tx b') ∧ all_set_up rx_queues (b_rx b').
Proof.
  intros [Htc Htq] [Hrc Hrq] Htw Hrw Hreach (Hft & Hfr & Hmain).
  apply boot_reach_inv in Hreach as (It & Ir & _ & _); [|lia..].
  destruct (q_drain _ _ _ Htc Htw It Hft) as (kt & tx & Ht & It' & Htr).
  destruct (q_drain _ _ _ Hrc Hrw Ir Hfr) as (kr & rx & Hr & Ir' & Hrr).
  destruct (q_all_run _ _ _ Htc It' Htr) as [Hts Htd]. destruct (q_all_run _ _ _ Hrc Ir' Hrr) as [Hrs Hrd].
  destruct (boot_main_finish tx_queues tx_cores rx_queues rx_cores (mk_boot tx rx (b_main b))) as (em & Hem & Hrm); [cbn; lia|done|].
  exists (((λ k, TxThread k true) <$> kt) ++ ((λ k, RxThread k true) <$> kr) ++ em), (mk_boot tx rx MDone).
  split; [|split; [|done]].
  - rewrite !Forall_app. split_and!; [apply Forall_fmap, Forall_true; done..|done].
  - erewrite boot_run_app; [|by apply boot_run_tx]. cbn [b_rx b_main].
    erewrite boot_run_app; [exact Hrm|]. apply (boot_run_rx _ _ _ _ _ (mk_boot tx (b_rx b) (b_main b))); [cbn; lia|done].
Qed.

(** With more queues than cores the barrier opens early: with two transmit queues on
    one core, a receive queue is set up and the device started while transmit queue 1
    does not exist. *)
Theorem bringup_broken :
  ∃ es b, Forall succeeds es ∧ boot_run 2 1 1 1 es (boot_init 2 1 1) = Some b ∧
    b_main b = MDone ∧ q_log (b_rx b) = [0%nat] ∧ 1%nat ∉ q_log (b_tx b).
Proof.
  exists [TxThread 0 true; TxThread 0 true; RxThread 0 true; RxThread 0 true; RxThread 0 true; MainThread true; MainThread true].
  eexists. split; [by repeat constructor|]. split; [reflexivity|]. cbn.
  split_and!; [done|done|]. by intros ?%list_elem_of_singleton.
Qed.

(** ** Witnesses *)

(** The states that a run reaches are reachable. *)
Lemma boot_reach_run tq tc rq rc es b b' :
  boot_reach tq tc rq rc b → boot_run tq tc rq rc es b = Some b' → boot_reach tq tc rq rc b'.
Proof.
  revert b. induction es as [|e es IH]; intros b Hb Hr; cbn [boot_run] in Hr; [by simplify_eq|].
  destruct (boot_step _ _ _ _ e b) as [b1|] eqn:He; [|done]. apply (IH b1); [by eapply boot_reach_step|done].
Qed.

(** Two cores per direction; the second transmit queue is set up but not counted. *)
Definition demo_boot : boot :=
  mk_boot (mk_qpool 1 [QRun; QCount 1] [0; 1]%nat) (mk_qpool 0 [QWait; QWait] []) MWait.

Lemma demo_boot_reach : boot_reach 2 2 2 2 demo_boot.
Proof.
  eapply (boot_reach_run _ _ _ _ [TxThread 0 true; TxThread 1 true; TxThread 0 true; RxThread 1 true]);
    [apply boot_reach_init|reflexivity].
Qed.

(** A NIC with 8 queues each way and one of the two receive offloads. *)
Definition demo_nic : dev_info := mk_dev_info 8 8 2 0x38D34.
Definition demo_net : net_state := mk_net 0 [] (mk_port_conf 0 0x802E 0x3FFFF) 0 0.

Lemma network_init_correct_witness :
  ∃ g calls, network_init (2 ^ 1) (2 ^ 3) [0] (λ _, true) (λ _, [2; 0; 0; 0; 0; 1]) (λ _, demo_nic) (λ _, 0)
    init_config demo_net = (0, g, calls) ∧ rxmode_offloads (port g) = 2 ∧
    rss_hf (port g) = Z.land 0x3FFFF 0x38D34 ∧ length calls = 2%nat.
Proof.
  eexists _, _. split; [reflexivity|]. split; [reflexivity|].
  match goal with |- rss_hf (port ?g) = _ ∧ length ?cs = _ =>
    destruct (network_init_correct 1 3 [0] (λ _, true) (λ _, [2; 0; 0; 0; 0; 1]) (λ _, demo_nic) (λ _, 0)
      init_config demo_net g 0 cs) as (_ & _ & H); [lia|lia|cbn; lia|reflexivity|] end.
  destruct (H eq_refl) as (p & Hp & Hc & _ & _ & _ & _ & Hrss & _). injection Hp as <-. rewrite Hc, Hrss. by split.
Defined.

Lemma bringup_order_witness :
  ∃ b, boot_reach 2 2 2 2 b ∧ b_main b = MStart ∧ all_set_up 2 (b_tx b) ∧ all_set_up 2 (b_rx b).
Proof.
  assert (∃ b, boot_run 2 2 2 2 [TxThread 1 true; RxThread 0 true; RxThread 1 true; RxThread 0 true; RxThread 1 true;
    RxThread 0 true; RxThread 1 true; MainThread true] demo_boot = Some b ∧ b_main b = MStart) as (b & Hrun & Hm)
    by (eexists; split; reflexivity).
  pose proof (boot_reach_run _ _ _ _ _ _ _ demo_boot_reach Hrun) as Hreach. exists b. split; [done|]. split; [done|].
  apply (bringup_order 2 2 2 2 b); [lia|lia|lia|lia|lia|lia|done|]. by rewrite Hm.
Defined.

Lemma bringup_stuck_witness : b_main (boot_init 1 2 2) = MWait.
Proof. refine (proj1 (bringup_stuck 1 2 2 2 _ _ _ _ _ _ _)); [lia|lia|lia|lia|left; lia|apply boot_reach_init]. Defined.

Lemma bringup_completes_witness :
  ∃ es b', Forall succeeds es ∧ boot_run 2 2 2 2 es demo_boot = Some b' ∧ b_main b' = MDone.
Proof.
  destruct (bringup_completes 2 2 2 2 demo_boot) as (es & b' & H1 & H2 & H3 & _);
    [lia|lia|lia|lia|apply demo_boot_reach| |by exists es, b'].
  split; [|split]; [by repeat constructor..|done].
Defined.
