(* ===== verification/Drivers.v ===== *)
(** * src/vhost/device.c: registering the vhost sockets

    [register_vhost_drivers] publishes an empty device list, resets the routes, writes
    the socket paths into one buffer, [PATH_MAX] bytes each, and registers, configures
    and starts a vhost-user driver per path; the SIGINT handler unregisters them all.
    The buffer is memory at byte level.  The calls into DPDK go through an oracle that
    sees the calls made before. *)

From Stdlib Require Import Ascii String.
From S2P Require Import Prelude CInt Config ConfigParse Plan Route Device Startup.
Local Abbreviation length := List.length.
Local Open Scope Z_scope.

Definition NUL : ascii := Ascii.zero.

(** ** Strings in memory *)

(** The string at an offset: up to the first NUL. *)
Fixpoint until_nul (s : list ascii) : cstring :=
  match s with
  | [] => []
  | c :: s => if decide (c = NUL) then [] else c :: until_nul s
  end.

Definition string_at (off : nat) (mem : list ascii) : cstring := until_nul (drop off mem).

(** Writing bytes at an offset. *)
Definition mem_write (off : nat) (bytes mem : list ascii) : res (list ascii) :=
  if (off + length bytes <=? length mem)%nat then Ok (take off mem ++ bytes ++ drop (off + length bytes) mem) else Fault OutOfBounds.

(** What [snprintf] into [size] bytes writes. *)
Definition snprintf (size : nat) (s : cstring) : list ascii := take (size - 1) s ++ [NUL].

(** ** register_vhost_drivers and unregister_vhost_drivers *)

(** [rte_vhost_driver_...] on a path. *)
Inductive drv_call :=
  | DrvRegister (path : cstring) (flags : Z)
  | DrvEnableFeatures (path : cstring) (features : Z)
  | DrvCallbackRegister (path : cstring)
  | DrvStart (path : cstring)
  | DrvUnregister (path : cstring).

Inductive virtio_feature :=
  | F_MTU | F_MRG_RXBUF | F_CTRL_VQ | F_CSUM | F_GUEST_CSUM | F_GUEST_UFO | F_HOST_TSO4 | F_HOST_TSO6.

(** The calls made, with their results. *)
Abbreviation drv_log := (list (drv_call * Z)).

Record driver_state := mk_drivers {
  dr_vlist : option vdev_list;
  dr_routing : list Z;
  dr_files : option (list ascii);    (* config.socket_files *)
  dr_log : drv_log;
}.

Section drivers.
(** DPDK: a flag, the feature bits and the results of the calls. *)
Context (RTE_VHOST_USER_CLIENT : Z) (VIRTIO_NET : virtio_feature → Z) (drv : drv_log → drv_call → Z).

Definition invoke (call : drv_call) (log : drv_log) : Z * drv_log :=
  let r := drv log call in (r, log ++ [(call, r)]).

(** What backend and guest may agree on. *)
Definition features : Z :=
  fold_left (λ acc f, Z.lor acc (Z.shiftl 1 (VIRTIO_NET f)))
    [F_MRG_RXBUF; F_CTRL_VQ; F_CSUM; F_GUEST_CSUM; F_GUEST_UFO; F_HOST_TSO4; F_HOST_TSO6]
    (Z.shiftl 1 (VIRTIO_NET F_MTU)).

(** ["%s/sock%d"] *)
Definition socket_path (dir : cstring) (i : nat) : cstring := dir ++ ring_name "/sock" i.

Definition write_path (dir : cstring) (i : nat) (mem : list ascii) : res (list ascii) :=
  mem_write (i * PATH_MAX) (snprintf PATH_MAX (socket_path dir i)) mem.

(** The body of the second loop: the calls and [registered_count]. *)
Definition register_socket (flags : Z) (mem : list ascii) (s : drv_log * Z) (i : nat) : drv_log * Z :=
  let '(log, registered_count) := s in
  let file := string_at (i * PATH_MAX) mem in
  let '(r, log) := invoke (DrvRegister file flags) log in
  if negb (r =? 0) then (log, registered_count)
  else
    let '(_, log) := invoke (DrvEnableFeatures file features) log in
    let '(r, log) := invoke (DrvCallbackRegister file) log in
    if negb (r =? 0) then
      let '(_, log) := invoke (DrvUnregister file) log in (log, registered_count)
    else
      let '(r, log) := invoke (DrvStart file) log in
      if r <? 0 then
        let '(_, log) := invoke (DrvUnregister file) log in (log, registered_count)
      else (log, registered_count + 1).

(** [malloc] gets the size, an [int] times a [uint32_t]; the [int] offset of a path
    does not overflow below 2^19 sockets.  Printing a NULL directory is undefined. *)
Definition register_vhost_drivers (alloc_list : bool) (malloc : Z → option (list ascii)) (c : config_t)
    (routing : list Z) (log : drv_log) : res (Z * driver_state) :=
  if negb alloc_list then Ok (-1, mk_drivers None routing (socket_files c) log)
  else
    let vlist := mk_vlist 0 (replicate MAX_VHOSTS None) in
    let routing := init_route_table routing in
    let flags := if client_mode c =? 0 then 0 else Z.lor 0 RTE_VHOST_USER_CLIENT in
    match malloc (u32 (Z.of_nat PATH_MAX * nb_sockets c)) with
    | None => Ok (-1, mk_drivers (Some vlist) routing None log)
    | Some mem =>
        let sockets := seq 0 (Z.to_nat (nb_sockets c)) in
        mem ← foldM (λ i mem, match socket_dir c with None => Fault NullDeref | Some dir => write_path dir i mem end) sockets mem;
        let '(log, registered_count) := fold_left (register_socket flags mem) sockets (log, 0) in
        Ok (if registered_count =? 0 then -1 else 0, mk_drivers (Some vlist) routing (Some mem) log)
    end.

(** The results are only logged.  Offsets from a NULL [path] are undefined. *)
Definition unregister_vhost_drivers (socket_num : nat) (path : option (list ascii)) (log : drv_log) : res drv_log :=
  foldM (λ i log, match path with
                  | None => Fault NullDeref
                  | Some mem => Ok (invoke (DrvUnregister (string_at (i * PATH_MAX) mem)) log).2
                  end) (seq 0 socket_num) log.
End drivers.

(** ** Specification: what a log says about a path *)

(** Registered with the library, and started. *)
Definition log_step (path : cstring) (s : bool * bool) (e : drv_call * Z) : bool * bool :=
  match e with
  | (DrvRegister p _, r) => if decide (p = path ∧ r = 0) then (true, false) else s
  | (DrvStart p, r) => if decide (p = path ∧ 0 ≤ r) then (s.1, true) else s
  | (DrvUnregister p, r) => if decide (p = path ∧ r = 0) then (false, false) else s
  | _ => s
  end.

Definition path_state (path : cstring) (log : drv_log) : bool * bool := fold_left (log_step path) log (false, false).
Definition registered (path : cstring) (log : drv_log) : bool := (path_state path log).1.
Definition serving (path : cstring) (log : drv_log) : bool := (path_state path log).2.

(** Unregistering a registered path succeeds. *)
Definition unregister_works (drv : drv_log → drv_call → Z) : Prop :=
  ∀ log path, registered path log = true → drv log (DrvUnregister path) = 0.

(** Nothing is half open: a path is registered only if its driver was started. *)
Definition settled (log : drv_log) : Prop := ∀ path, path_state path log = (serving path log, serving path log).

(** ** Lemmas: strings *)

Lemma until_nul_app (s rest : list ascii) : NUL ∉ s → until_nul (s ++ NUL :: rest) = s.
Proof.
  induction s as [|c s IH]; intros Hs; cbn [app until_nul]; [by rewrite decide_True|].
  apply not_elem_of_cons in Hs as [Hc Hs]. rewrite decide_False by congruence. by rewrite IH.
Qed.

Lemma length_dec_digits fuel n : (length (dec_digits fuel n) ≤ fuel)%nat.
Proof.
  revert n. induction fuel as [|fuel IH]; intros n; cbn [dec_digits]; [done|].
  case_match; [cbn; lia|]. rewrite length_app. specialize (IH (n / 10)). cbn. lia.
Qed.

Lemma print_dec_no_nul n : 0 ≤ n < 2 ^ 64 → NUL ∉ print_dec n.
Proof.
  intros Hn Hin. destruct (print_dec_digits n Hn) as (_ & _ & H).
  apply list_elem_of_lookup in Hin as [i Hi]. destruct (Forall2_lookup_l _ _ _ _ _ H Hi) as (d & _ & Hd). done.
Qed.

Section socket_paths.
Context (dir : cstring) (Hdir : NUL ∉ dir) (Hlen : (length dir + 26 ≤ PATH_MAX)%nat).

Lemma socket_path_no_nul i : Z.of_nat i < 2 ^ 64 → NUL ∉ socket_path dir i.
Proof.
  intros Hi. unfold socket_path, ring_name. rewrite !not_elem_of_app. split; [done|].
  split; [|apply print_dec_no_nul; lia]. refine (bool_decide_unpack _ _). vm_compute. exact I.
Qed.

Lemma socket_path_short i : (length (socket_path dir i) < PATH_MAX)%nat.
Proof.
  unfold socket_path, ring_name, print_dec. rewrite !length_app, length_fmap.
  pose proof (length_dec_digits 20 (Z.of_nat i)). change (length (list_ascii_of_string "/sock")) with 5%nat. lia.
Qed.

Lemma snprintf_path i : snprintf PATH_MAX (socket_path dir i) = socket_path dir i ++ [NUL].
Proof. unfold snprintf. rewrite take_ge; [done|]. pose proof (socket_path_short i). lia. Qed.

Lemma socket_path_inj i j :
  Z.of_nat i < 2 ^ 64 → Z.of_nat j < 2 ^ 64 → socket_path dir i = socket_path dir j → i = j.
Proof. unfold socket_path. intros Hi Hj E%(inj _). by eapply ring_name_inj. Qed.

(** Slot [j] of the buffer holds path [j]. *)
Definition slot_holds (mem : list ascii) (j : nat) : Prop :=
  ∃ rest, drop (j * PATH_MAX) mem = socket_path dir j ++ NUL :: rest.

Lemma slot_holds_string mem j : Z.of_nat j < 2 ^ 64 → slot_holds mem j → string_at (j * PATH_MAX) mem = socket_path dir j.
Proof. intros Hj [rest E]. unfold string_at. rewrite E. by apply until_nul_app, socket_path_no_nul. Qed.

Lemma write_path_spec i mem :
  (S i * PATH_MAX ≤ length mem)%nat →
  ∃ mem', write_path dir i mem = Ok mem' ∧ length mem' = length mem ∧ slot_holds mem' i ∧
          ∀ j, (j < i)%nat → slot_holds mem j → slot_holds mem' j.
Proof.
  intros Hmem. pose proof (socket_path_short i) as Hi. unfold write_path, mem_write. rewrite snprintf_path.
  set (bytes := socket_path dir i ++ [NUL]). assert (length bytes = S (length (socket_path dir i))) as Hb
    by (unfold bytes; rewrite length_app; cbn; lia).
  rewrite (proj2 (Nat.leb_le _ _)) by lia. eexists. split; [reflexivity|]. split; [|split].
  - rewrite !length_app, length_take, length_drop. lia.
  - exists (drop (i * PATH_MAX + length bytes) mem). rewrite drop_app_length' by (rewrite length_take; lia).
    unfold bytes. by rewrite <- app_assoc.
  - intros j Hj [rest E]. pose proof (socket_path_short j) as Hsj.
    exists (take ((i - j) * PATH_MAX - S (length (socket_path dir j))) rest ++ bytes ++ drop (i * PATH_MAX + length bytes) mem).
    rewrite drop_app_le by (rewrite length_take; nia).
    replace (take (i * PATH_MAX) mem) with (take (j * PATH_MAX + (i - j) * PATH_MAX) mem) by (f_equal; nia).
    rewrite <- take_drop_commute, E, cons_middle, (app_assoc (socket_path dir j) [NUL] rest).
    replace ((i - j) * PATH_MAX)%nat
      with (S (length (socket_path dir j)) + ((i - j) * PATH_MAX - S (length (socket_path dir j))))%nat at 1 by nia.
    rewrite (take_app_add' (socket_path dir j ++ [NUL])), <- !app_assoc; [done|]. rewrite length_app. cbn. lia.
Qed.

(** The whole loop. *)
Lemma write_paths_spec n mem :
  (n * PATH_MAX ≤ length mem)%nat →
  ∃ mem', foldM (write_path dir) (seq 0 n) mem = Ok mem' ∧ length mem' = length mem ∧ ∀ j, (j < n)%nat → slot_holds mem' j.
Proof.
  induction n as [|n IH]; intros Hmem; [exists mem; by split_and!; try lia|].
  destruct IH as (mem1 & H1 & Hl1 & Hs1); [lia|]. rewrite seq_S, foldM_app, H1. cbn [mbind res_bind foldM Nat.add].
  destruct (write_path_spec n mem1) as (mem2 & H2 & Hl2 & Hn & Hs2); [lia|]. rewrite H2. exists mem2.
  split; [done|]. split; [lia|]. intros j Hj. destruct (decide (j = n)) as [->|Hne]; [done|]. apply Hs2; [lia|]. apply Hs1. lia.
Qed.
End socket_paths.

(** ** Lemmas: the log *)

Definition call_path (call : drv_call) : cstring :=
  match call with
  | DrvRegister p _ | DrvEnableFeatures p _ | DrvCallbackRegister p | DrvStart p | DrvUnregister p => p
  end.

Lemma path_state_snoc path log e : path_state path (log ++ [e]) = log_step path (path_state path log) e.
Proof. unfold path_state. by rewrite fold_left_app. Qed.

Lemma log_step_other path s call r : call_path call ≠ path → log_step path s (call, r) = s.
Proof. intros Hne. destruct call; cbn in *; try done; by rewrite decide_False by (by intros [? _]). Qed.

Section logs.
Context (VIRTIO_NET : virtio_feature → Z) (drv : drv_log → drv_call → Z) (Hun : unregister_works drv).

(** What one socket adds to the log: whatever happens it ends settled, and it is
    counted exactly when it serves. *)
Lemma register_socket_spec flags mem log n i :
  let file := string_at (i * PATH_MAX) mem in
  path_state file log = (false, false) →
  ∃ log' b, register_socket VIRTIO_NET drv flags mem (log, n) i = (log', n + (if b : bool then 1 else 0)) ∧
    path_state file log' = (b, b) ∧ ∀ p, p ≠ file → path_state p log' = path_state p log.
Proof.
  intros file Hfile. unfold register_socket. fold file.
  assert (∀ l call r p, call_path call = file → p ≠ file → path_state p (l ++ [(call, r)]) = path_state p l) as Hother.
  { intros l call r p Hc Hp. rewrite path_state_snoc. apply log_step_other. congruence. }
  unfold invoke. destruct (Z.eqb_spec (drv log (DrvRegister file flags)) 0) as [Hr|Hr]; cbn [negb].
  2:{ eexists _, false. rewrite Z.add_0_r. split; [reflexivity|]. split; [|by intros; apply Hother].
      rewrite path_state_snoc, Hfile. cbn. by rewrite decide_False by (by intros [_ ?]). }
  set (log1 := log ++ [_]). set (log2 := log1 ++ [_]). set (log3 := log2 ++ [_]).
  assert (path_state file log3 = (true, false)) as H3.
  { unfold log3, log2, log1. rewrite !path_state_snoc, Hfile. cbn. by rewrite decide_True. }
  assert (∀ p, p ≠ file → path_state p log3 = path_state p log) as Ho3.
  { intros p Hp. unfold log3, log2, log1. by rewrite !Hother. }
  destruct (Z.eqb_spec (drv log2 (DrvCallbackRegister file)) 0) as [Hcb|Hcb]; cbn [negb].
  2:{ eexists _, false. rewrite Z.add_0_r. split; [reflexivity|]. split; [|by intros; rewrite Hother, Ho3].
      rewrite path_state_snoc, H3. cbn. rewrite decide_True; [done|]. split; [done|]. apply Hun. unfold registered. by rewrite H3. }
  set (log4 := log3 ++ [_]). destruct (Z.ltb_spec (drv log3 (DrvStart file)) 0) as [Hs|Hs].
  - assert (path_state file log4 = (true, false)) as H4.
    { unfold log4. rewrite path_state_snoc, H3. cbn. rewrite decide_False; [done|]. intros [_ ?]. lia. }
    eexists _, false. rewrite Z.add_0_r. split; [reflexivity|]. split; [|by intros; unfold log4; rewrite !Hother, Ho3].
    rewrite path_state_snoc, H4. cbn. rewrite decide_True; [done|]. split; [done|]. apply Hun. unfold registered. by rewrite H4.
  - eexists _, true. split; [reflexivity|]. split; [|by intros; unfold log4; rewrite Hother, Ho3].
    unfold log4. rewrite path_state_snoc, H3. cbn. by rewrite decide_True.
Qed.

(** The loop over [k] distinct paths. *)
Lemma register_sockets_spec flags mem k :
  (∀ i j, (i < k)%nat → (j < k)%nat → string_at (i * PATH_MAX) mem = string_at (j * PATH_MAX) mem → i = j) →
  ∃ log, fold_left (register_socket VIRTIO_NET drv flags mem) (seq 0 k) ([], 0) =
      (log, Z.of_nat (length (filter (λ i, serving (string_at (i * PATH_MAX) mem) log = true) (seq 0 k)))) ∧
    settled log ∧ ∀ p, serving p log = true → ∃ i, (i < k)%nat ∧ p = string_at (i * PATH_MAX) mem.
Proof.
  induction k as [|k IH]; intros Hinj; [by exists []|].
  destruct IH as (log & Hf & Hset & Hin); [intros; apply Hinj; (done || lia)|].
  rewrite seq_S, fold_left_app, Hf. cbn [fold_left Nat.add]. set (file := string_at (k * PATH_MAX) mem).
  assert (path_state file log = (false, false)) as Hfresh.
  { rewrite Hset. destruct (serving file log) eqn:Hs; [|done]. destruct (Hin _ Hs) as (i & Hi & E).
    apply Hinj in E; lia. }
  destruct (register_socket_spec flags mem log (Z.of_nat (length (filter (λ i, serving (string_at (i * PATH_MAX) mem) log = true) (seq 0 k)))) k Hfresh)
    as (log' & b & -> & Hb & Ho).
  exists log'. assert (∀ p, p ≠ file → serving p log' = serving p log) as Hs by (intros p Hp; unfold serving; by rewrite Ho).
  assert (serving file log' = b) as Hsb by (unfold serving, file; by rewrite Hb).
  split; [f_equal|split].
  - rewrite filter_app, length_app, Nat2Z.inj_add. f_equal.
    + do 2 f_equal. apply filter_ext_in. intros i Hi%elem_of_seq. rewrite Hs; [done|].
      intros E. apply Hinj in E; lia.
    + destruct b; [rewrite filter_cons_True|rewrite filter_cons_False]; try done; fold file; congruence.
  - intros p. destruct (decide (p = file)) as [->|Hne]; [rewrite Hsb; exact Hb|]. by rewrite Ho, Hs.
  - intros p Hp. destruct (decide (p = file)) as [->|Hne]; [exists k; split; [lia|done]|].
    rewrite Hs in Hp by done. destruct (Hin p Hp) as (i & Hi & ->). exists i. split; [lia|done].
Qed.
(** Unregistering [k] paths: those are gone and the others as they were. *)
Lemma unregister_spec mem k log :
  settled log →
  ∃ log', unregister_vhost_drivers drv k (Some mem) log = Ok log' ∧
    (∀ i, (i < k)%nat → path_state (string_at (i * PATH_MAX) mem) log' = (false, false)) ∧
    ∀ p, path_state p log' = path_state p log ∨ path_state p log' = (false, false).
Proof.
  intros Hset. induction k as [|k IH]; [exists log; split_and!; [done|lia|by left]|].
  destruct IH as (log1 & Hr & Hin & Hp). unfold unregister_vhost_drivers in *. rewrite seq_S, foldM_app, Hr.
  cbn [mbind res_bind foldM Nat.add]. eexists. split; [reflexivity|]. unfold invoke. cbn [snd].
  set (file := string_at (k * PATH_MAX) mem).
  assert (path_state file (log1 ++ [(DrvUnregister file, drv log1 (DrvUnregister file))]) = (false, false)) as Hk.
  { rewrite path_state_snoc. cbn. case_decide as Hd; [done|].
    destruct (Hp file) as [E|E]; [|done]. rewrite E, Hset. destruct (serving file log) eqn:Hs; [|done].
    destruct Hd. split; [done|]. apply Hun. unfold registered. by rewrite E, Hset, Hs. }
  assert (∀ p, p ≠ file → path_state p (log1 ++ [(DrvUnregister file, drv log1 (DrvUnregister file))]) = path_state p log1) as Ho.
  { intros p Hne. rewrite path_state_snoc. apply log_step_other. cbn. congruence. }
  split.
  - intros i Hi. destruct (decide (string_at (i * PATH_MAX) mem = file)) as [->|Hne]; [done|]. rewrite Ho by done.
    apply Hin. destruct (decide (i = k)) as [->|]; [done|lia].
  - intros p. destruct (decide (p = file)) as [->|Hne]; [by right|]. rewrite Ho by done. apply Hp.
Qed.
End logs.

(** ** Properties *)

(** [C22] Registration, with both allocations made: the device list is empty, no route is
    set, slot [i] of [config.socket_files] holds the path [dir/sock<i>], whatever DPDK
    answered no driver is left half open, only those paths are served, and the result
    is 0 exactly when at least one of them is. *)
Theorem register_vhost_drivers_correct (CLIENT : Z) (VIRTIO_NET : virtio_feature → Z) (drv : drv_log → drv_call → Z)
    (malloc : Z → option (list ascii)) (c : config_t) (routing : list Z) (mem : list ascii) (dir : cstring) (n : nat) :
  unregister_works drv → socket_dir c = Some dir → NUL ∉ dir → (length dir + 26 ≤ PATH_MAX)%nat →
  nb_sockets c = Z.of_nat n → Z.of_nat n < 2 ^ 19 → length routing = ROUTE_SIZE →
  malloc (Z.of_nat (n * PATH_MAX)) = Some mem → length mem = (n * PATH_MAX)%nat →
  ∃ r files log,
    register_vhost_drivers CLIENT VIRTIO_NET drv true malloc c routing [] =
      Ok (r, mk_drivers (Some (mk_vlist 0 (replicate MAX_VHOSTS None))) (replicate ROUTE_SIZE (-1)) (Some files) log) ∧
    (∀ i, (i < n)%nat → string_at (i * PATH_MAX) files = socket_path dir i) ∧
    settled log ∧ (∀ p, serving p log = true → ∃ i, (i < n)%nat ∧ p = socket_path dir i) ∧
    ((r = 0 ∧ ∃ p, serving p log = true) ∨ (r = -1 ∧ ∀ p, serving p log = false)).
Proof.
  intros Hun Hdir Hnul Hlen Hn Hbig Hrt Hm Hml.
  destruct (write_paths_spec dir Hlen n mem) as (files & Hw & Hfl & Hslots); [lia|].
  assert (∀ i, (i < n)%nat → string_at (i * PATH_MAX) files = socket_path dir i) as Hstr.
  { intros i Hi. apply slot_holds_string; (done || lia || by apply Hslots). }
  set (flags := if client_mode c =? 0 then 0 else Z.lor 0 CLIENT).
  destruct (register_sockets_spec VIRTIO_NET drv Hun flags files n) as (log & Hf & Hset & Hin).
  { intros i j Hi Hj. rewrite !Hstr by done. apply socket_path_inj; lia. }
  eexists _, files, log. split; [|split; [exact Hstr|split; [exact Hset|split]]].
  - unfold register_vhost_drivers. cbn [negb]. rewrite Hn, Nat2Z.id.
    replace (u32 (Z.of_nat PATH_MAX * Z.of_nat n)) with (Z.of_nat (n * PATH_MAX))
      by (unfold u32; rewrite wrap_small; [|unfold in_u]; change (Z.of_nat PATH_MAX) with 4096; unfold PATH_MAX; lia).
    rewrite Hm, Hdir. fold (write_path dir). change (λ i mem0, write_path dir i mem0) with (write_path dir).
    rewrite Hw. cbn [mbind res_bind]. fold flags. rewrite Hf, init_route_table_eq by done. reflexivity.
  - intros p Hp. destruct (Hin p Hp) as (i & Hi & ->). exists i. split; [done|by apply Hstr].
  - destruct (filter (λ i, serving (string_at (i * PATH_MAX) files) log = true) (seq 0 n)) as [|i l] eqn:Hfil; cbn.
    + right. split; [done|]. intros p. destruct (serving p log) eqn:Hs; [|done]. destruct (Hin p Hs) as (i & Hi & ->).
      assert (i ∈ filter (λ i, serving (string_at (i * PATH_MAX) files) log = true) (seq 0 n)) as Hbad
        by (apply list_elem_of_filter; split; [done|apply elem_of_seq; lia]).
      rewrite Hfil in Hbad. by apply elem_of_nil in Hbad.
    + left. split; [done|]. assert (i ∈ i :: l) as Hi by by left. rewrite <- Hfil in Hi.
      apply list_elem_of_filter in Hi as [Hs _]. eauto.
Qed.

(** Interrupting the process after registration unregisters every driver that serves a
    path; before [config.socket_files] is allocated the handler is undefined. *)
Theorem sigint_unregisters (drv : drv_log → drv_call → Z) (files : list ascii) (dir : cstring) (n : nat) (log : drv_log) :
  unregister_works drv → settled log →
  (∀ i, (i < n)%nat → string_at (i * PATH_MAX) files = socket_path dir i) →
  (∀ p, serving p log = true → ∃ i, (i < n)%nat ∧ p = socket_path dir i) →
  (∃ log', unregister_vhost_drivers drv n (Some files) log = Ok log' ∧
     ∀ p, registered p log' = false ∧ serving p log' = false) ∧
  ((0 < n)%nat → unregister_vhost_drivers drv n None log = Fault NullDeref).
Proof.
  intros Hun Hset Hstr Hin. split.
  - destruct (unregister_spec drv Hun files n log Hset) as (log' & Hr & Hgone & Hp). exists log'. split; [done|].
    intros p. assert (path_state p log' = (false, false)) as E; [|unfold registered, serving; by rewrite E].
    destruct (serving p log) eqn:Hs.
    + destruct (Hin p Hs) as (i & Hi & ->). rewrite <- Hstr by done. by apply Hgone.
    + destruct (Hp p) as [E|E]; [|done]. by rewrite E, Hset, Hs.
  - intros Hn. destruct n; [lia|done].
Qed.

(** ** Witnesses *)

Definition demo_dir : cstring := list_ascii_of_string "/tmp/vhost".

(** The second socket is refused. *)
Definition demo_drv (log : drv_log) (call : drv_call) : Z :=
  match call with DrvRegister p _ => if decide (p = socket_path demo_dir 1) then -1 else 0 | _ => 0 end.

Lemma demo_drv_works : unregister_works demo_drv.
Proof. by intros log path _. Qed.

Definition demo_sockets : config_t :=
  mk_config 0 0 0 1 0 0 15 4 (Some demo_dir) None 2 0 0 [0; 0; 0; 0; 0; 0] [0; 0; 0; 0; 0; 0] 1 1 1 1 1 1 0.

Lemma demo_dir_no_nul : NUL ∉ demo_dir.
Proof. refine (bool_decide_unpack _ _). vm_compute. exact I. Qed.

Lemma register_vhost_drivers_correct_witness :
  ∃ files log, register_vhost_drivers 1 (λ _, 0) demo_drv true (λ size, Some (replicate (Z.to_nat size) "*"%char))
      demo_sockets route_static [] =
      Ok (0, mk_drivers (Some (mk_vlist 0 (replicate MAX_VHOSTS None))) (replicate ROUTE_SIZE (-1)) (Some files) log) ∧
    string_at PATH_MAX files = socket_path demo_dir 1 ∧ settled log.
Proof.
  destruct (register_vhost_drivers_correct 1 (λ _, 0) demo_drv (λ size, Some (replicate (Z.to_nat size) "*"%char))
    demo_sockets route_static (replicate (2 * PATH_MAX) "*"%char) demo_dir 2)
    as (r & files & log & Hrun & Hstr & Hset & _ & Hr);
    [apply demo_drv_works|reflexivity|apply demo_dir_no_nul|refine (bool_decide_unpack _ _); vm_compute; exact I
    |reflexivity|lia|reflexivity|f_equal; by rewrite Nat2Z.id|by rewrite length_replicate|].
  exists files, log. rewrite Hrun. split; [|split; [|exact Hset]].
  - destruct Hr as [[-> _]|[-> _]]; [done|]. exfalso.
    assert (match register_vhost_drivers 1 (λ _, 0) demo_drv true (λ size, Some (replicate (Z.to_nat size) "*"%char))
      demo_sockets route_static [] with Ok (r, _) => r | Fault _ => -1 end = 0) as E by (vm_compute; reflexivity).
    rewrite Hrun in E. discriminate E.
  - rewrite <- (Nat.mul_1_l PATH_MAX). apply Hstr. lia.
Defined.

Lemma sigint_unregisters_witness :
  ∃ log', unregister_vhost_drivers demo_drv 1 (Some (socket_path demo_dir 0 ++ [NUL]))
      [(DrvRegister (socket_path demo_dir 0) 0, 0); (DrvStart (socket_path demo_dir 0), 0)] = Ok log' ∧
    ∀ p, registered p log' = false ∧ serving p log' = false.
Proof.
  refine (proj1 (sigint_unregisters demo_drv _ demo_dir 1 _ demo_drv_works _ _ _)).
  - intros p. unfold serving, path_state. cbn [fold_left log_step]. repeat case_decide; try done; intuition lia.
  - intros i Hi. replace i with 0%nat by lia. by vm_compute.
  - intros p. unfold serving, path_state. cbn [fold_left log_step]. intros Hp. exists 0%nat. split; [lia|].
    repeat case_decide; try done; intuition congruence.
Defined.
