(* ===== verification/Main.v ===== *)
(** * src/main.c: the start of the process

    [main] runs the initialisation steps of the other files in order and ends in the
    slow-path loop, or exits with a failure, after [network_cleanup] when the NIC was
    being set up.  What the steps ask of DPDK, of the C library and of the command line
    is in one record, [platform].  Not modelled: signal handlers (the SIGINT handler is
    in Drivers.v), the one-second sleeps of the readiness loop and the log. *)

From Stdlib Require Import Ascii String.
From S2P Require Import Prelude CInt Packet Dpdk Ecn Offload Poll Plan Config Route Device VhostTx EthTx Batch.
From S2P Require Import EthRx VhostRx SlowPath ConfigParse Startup Contexts Bringup Drivers.
Local Abbreviation length := List.length.
Local Open Scope Z_scope.

Record platform := mk_platform {
  pf_eal : Z;                                (* rte_eal_init *)
  pf_fs : fs_env;
  pf_options : list getopt_result;           (* what getopt_long finds in argv *)
  pf_topology_alloc : bool;
  pf_rings_alloc : bool;
  pf_ctx_alloc : nat → bool;
  pf_plan_alloc : nat → bool;
  pf_rx_flags : Z * Z;                       (* the two receive checksum offloads *)
  pf_ports : list Z;
  pf_is_valid_port : Z → bool;
  pf_macaddr : Z → list Z;
  pf_devinfo : Z → dev_info;
  pf_dev_result : dev_call → Z;
  pf_net : net_state;                        (* the static port_conf *)
  pf_workers : list nat;
  pf_launch : nat → bool;
  pf_dev_start : bool;                       (* rte_eth_dev_start *)
  pf_vlist_alloc : bool;
  pf_malloc : Z → option (list ascii);
  pf_client_flag : Z;
  pf_virtio_net : virtio_feature → Z;
  pf_drv : drv_log → drv_call → Z;
}.

(** What the process has set up when it enters [slowpath_loop]. *)
Record system `{RteRing} := mk_system {
  sys_config : config_t;
  sys_fp_cores : Z;
  sys_rings : ring_globals;
  sys_ctxs : dataplane_ctxs;
  sys_plans : list vhost_plan * list vhost_plan;
  sys_net : net_state;
  sys_calls : list dev_call;
  sys_threads : list (nat * Z);
  sys_drivers : driver_state;
}.

(** The steps that can fail, in order. *)
Inductive stage :=
  | StEal | StConfig | StTopology | StRings | StContexts | StPlans | StNetwork | StThreads | StStart | StReady | StDrivers.

(** The labels [error_network_cleanup] and [error_dataplane_cleanup], which come to the
    same, and [error_exit]; every failure exits with [EXIT_FAILURE]. *)
Inductive outcome `{RteRing} :=
  | Exit (failed : stage) (cleanup : bool)
  | Running (s : system).

Section main.
Context `{RteRing}.

(** The readiness loop: a context is missing when its pointer is NULL. *)
Definition all_ready (c : config_t) (x : dataplane_ctxs) : bool :=
  forallb (λ i, bool_decide (is_Some (eth_rx_ctxs x !! i))) (seq 0 (Z.to_nat (eth_rx_cores c))) &&
  forallb (λ i, bool_decide (is_Some (eth_tx_ctxs x !! i))) (seq 0 (Z.to_nat (eth_tx_cores c))) &&
  forallb (λ i, bool_decide (is_Some (vhost_rx_ctxs x !! i))) (seq 0 (Z.to_nat (vhost_rx_cores c))) &&
  forallb (λ i, bool_decide (is_Some (vhost_tx_ctxs x !! i))) (seq 0 (Z.to_nat (vhost_tx_cores c))).

(** The main thread, given that its wait in [network_start_eth] ends (see Bringup.v). *)
Definition main (pf : platform) : res outcome :=
  if pf_eal pf <? 0 then Ok (Exit StEal false)
  else
    let '(r, c) := parse_config (pf_fs pf) (pf_options pf) init_config in
    if negb (r =? 0) then Ok (Exit StConfig false)
    else
      match init_dataplane_topology (pf_topology_alloc pf) c with
      | None => Ok (Exit StTopology false)
      | Some fp_cores =>
          '(r, rings) ← init_rings (pf_rings_alloc pf) c [];
          if negb (r =? 0) then Ok (Exit StRings false)
          else
            match init_dataplane_ctxs (pf_ctx_alloc pf) c (0%nat, 0%nat) with
            | None => Ok (Exit StContexts false)
            | Some (ctxs, _) =>
                match init_vhost_plans (Z.to_nat (vhost_rx_cores c)) (Z.to_nat (vhost_tx_cores c)) (pf_plan_alloc pf) with
                | None => Ok (Exit StPlans false)
                | Some plans =>
                    let '(r, net, calls) := network_init (pf_rx_flags pf).1 (pf_rx_flags pf).2 (pf_ports pf)
                      (pf_is_valid_port pf) (pf_macaddr pf) (pf_devinfo pf) (pf_dev_result pf) c (pf_net pf) in
                    if negb (r =? 0) then Ok (Exit StNetwork true)
                    else
                      let '(r, threads) := start_threads (pf_launch pf) fp_cores (pf_workers pf) in
                      if negb (r =? 0) then Ok (Exit StThreads true)
                      else if negb (pf_dev_start pf) then Ok (Exit StStart true)
                      else if negb (all_ready c ctxs) then Ok (Exit StReady true)
                      else
                        '(r, drivers) ← register_vhost_drivers (pf_client_flag pf) (pf_virtio_net pf) (pf_drv pf)
                          (pf_vlist_alloc pf) (pf_malloc pf) c route_static [];
                        if negb (r =? 0) then Ok (Exit StDrivers true)
                        else Ok (Running (mk_system _ c fp_cores rings ctxs plans net calls threads drivers))
                end
            end
      end.

(** ** Specification *)

(** The state of the slow path and the vhost callbacks when the loop is entered. *)
Definition dstate_of (s : system) : option dstate :=
  vl ← dr_vlist (sys_drivers s);
  Some (mk_dstate ∅ vl (dr_routing (sys_drivers s)) (replicate MAX_VHOSTS None)
    (sys_plans s).1 (replicate MAX_VHOSTS 0%nat) (sys_plans s).2 (replicate MAX_VHOSTS 0%nat) []).

(** ** Lemmas *)

Lemma parse_config_range fs opts c : config_wf c → config_wf (parse_config fs opts c).2.
Proof.
  revert c. induction opts as [|o opts IH]; intros c Hc; [done|]. rewrite parse_config_cons.
  pose proof (parse_option_wf fs o c Hc). destruct ((parse_option fs o c).1 =? 0); [by apply IH|done].
Qed.

Lemma config_wf_counts c : config_wf c → counts_ok c ∧ in_u 16 (eth_tx_queues c) ∧ in_u 32 (nb_sockets c).
Proof.
  intros (H32 & H16 & _). split; [done|]. rewrite !Forall_cons in H16. rewrite !Forall_cons in H32.
  destruct H16 as (_ & _ & _ & Hq & _), H32 as (_ & _ & _ & _ & _ & _ & _ & _ & Hn & _). by split.
Qed.

(** Rings that were all created. *)
Lemma init_rings_ok alloc c r rs g :
  config_wf c → rte_ring_create nat (Z.to_nat RING_SIZE) = Some r → rte_ring_create slow_msg (Z.to_nat RING_SIZE) = Some rs →
  init_rings alloc c [] = Ok (0, g) →
  nb_sockets c ≤ Z.of_nat MAX_VHOSTS ∧ g_eth_rings g = replicate (Z.to_nat (eth_tx_queues c)) (Some r) ∧
  g_vhost_rings g = replicate (Z.to_nat (nb_sockets c)) (Some r) ++ replicate (MAX_VHOSTS - Z.to_nat (nb_sockets c)) None ∧
  g_slow_ring g = Some rs.
Proof.
  intros (_ & Hq & Hn)%config_wf_counts Hr Hrs Hg. destruct alloc; [|done].
  destruct (decide (nb_sockets c ≤ Z.of_nat MAX_VHOSTS)) as [Hle|Hgt].
  - destruct (init_rings_fresh c r rs Hq Hn Hle Hr Hrs) as (g' & Hg' & He & Hv & Hs & _).
    rewrite Hg in Hg'. by simplify_eq.
  - rewrite (init_rings_overflow c r Hq Hr) in Hg by lia. done.
Qed.

Lemma init_dataplane_ctxs_ok ok c x t :
  init_dataplane_ctxs ok c (0%nat, 0%nat) = Some (x, t) → cores_present c ∧ x = ctxs_at c 0.
Proof.
  intros Hx. destruct (decide (cores_present c)) as [Hp|Hp]; [|by rewrite init_dataplane_ctxs_zero in Hx].
  split; [done|]. rewrite (init_dataplane_ctxs_allocates ok c Hp 0%nat 0%nat) in Hx.
  destruct (forallb _ _); [by simplify_eq|done].
Qed.

Lemma init_vhost_plans_ok rx tx alloc plans :
  init_vhost_plans rx tx alloc = Some plans → plans = (replicate rx empty_plan, replicate tx empty_plan).
Proof.
  unfold init_vhost_plans, init_plans. intros Hp.
  destruct (alloc 0%nat), (forallb alloc _), (alloc (0 + rx + 1)%nat), (forallb _ (seq 1 tx)); by simplify_eq/=.
Qed.

Lemma init_dataplane_topology_ok alloc c fp :
  init_dataplane_topology alloc c = Some fp → eth_tx_queues c ≤ Z.of_nat MAX_ETH_TX_QUEUES ∧ fp = u16 (total_cores c).
Proof.
  unfold init_dataplane_topology. destruct alloc; [|done]. cbn [negb].
  destruct (Z.ltb_spec (Z.of_nat MAX_ETH_TX_QUEUES) (eth_tx_queues c)); [done|]. intros [= <-]. by split; [lia|].
Qed.

Lemma register_ok flag net drv alloc malloc c routing log dr :
  register_vhost_drivers flag net drv alloc malloc c routing log = Ok (0, dr) →
  dr_vlist dr = Some (mk_vlist 0 (replicate MAX_VHOSTS None)) ∧ dr_routing dr = init_route_table routing ∧
  0 < nb_sockets c ∧ is_Some (socket_dir c).
Proof.
  unfold register_vhost_drivers. destruct alloc; [|done]. cbn [negb]. destruct (malloc _) as [mem|]; [|done].
  intros Hr. res_inv. destruct (fold_left _ _ (log, 0)) as [log' n] eqn:Hf. res_inv.
  destruct (Z.eqb_spec n 0) as [->|Hne]; [done|]. cbn [dr_vlist dr_routing].
  destruct (Z.to_nat (nb_sockets c)) as [|k] eqn:Hk; [cbn in Hf; congruence|].
  split; [done|]. split; [done|]. split; [lia|].
  cbn [seq foldM] in E. destruct (socket_dir c); [done|discriminate].
Qed.

Lemma network_init_calls f1 f2 ports valid mac info result c g g' calls :
  (length ports ≤ 256)%nat → network_init f1 f2 ports valid mac info result c g = (0, g', calls) →
  ∃ p, ports = [p] ∧ calls = [DevConfigure p (eth_rx_queues c) (eth_tx_queues c) (port g'); DevSetMtu p PKT_MTU].
Proof.
  intros Hl Hrun. destruct ports as [|p [|p2 ports]].
  - by rewrite network_init_ports in Hrun by (cbn; lia).
  - exists p. split; [done|]. rewrite network_init_one in Hrun. cbv zeta in Hrun. cbn [port txmode_offloads rss_hf] in Hrun.
    destruct (negb _); [done|]. destruct (_ || _); [done|]. destruct (_ <? 0); [done|]. destruct (negb _); [done|]. by simplify_eq.
  - by rewrite network_init_ports in Hrun by (done || (cbn; lia)).
Qed.

(** What each step returned when [main] got to the slow path. *)
Lemma main_steps pf s :
  main pf = Ok (Running s) → let c := sys_config s in
  config_wf c ∧ init_dataplane_topology (pf_topology_alloc pf) c = Some (sys_fp_cores s) ∧
  init_rings (pf_rings_alloc pf) c [] = Ok (0, sys_rings s) ∧
  (∃ t, init_dataplane_ctxs (pf_ctx_alloc pf) c (0%nat, 0%nat) = Some (sys_ctxs s, t)) ∧
  init_vhost_plans (Z.to_nat (vhost_rx_cores c)) (Z.to_nat (vhost_tx_cores c)) (pf_plan_alloc pf) = Some (sys_plans s) ∧
  network_init (pf_rx_flags pf).1 (pf_rx_flags pf).2 (pf_ports pf) (pf_is_valid_port pf) (pf_macaddr pf) (pf_devinfo pf)
    (pf_dev_result pf) c (pf_net pf) = (0, sys_net s, sys_calls s) ∧
  start_threads (pf_launch pf) (sys_fp_cores s) (pf_workers pf) = (0, sys_threads s) ∧
  register_vhost_drivers (pf_client_flag pf) (pf_virtio_net pf) (pf_drv pf) (pf_vlist_alloc pf) (pf_malloc pf) c
    route_static [] = Ok (0, sys_drivers s).
Proof.
  intros Hmain. unfold main in Hmain. destruct (pf_eal pf <? 0); [done|].
  pose proof (parse_config_range (pf_fs pf) (pf_options pf) init_config init_config_wf) as Hwf.
  destruct (parse_config (pf_fs pf) (pf_options pf) init_config) as [r0 c]. cbn [snd] in Hwf.
  destruct (r0 =? 0); [|done]. cbn [negb] in Hmain.
  destruct (init_dataplane_topology _ c) as [fp|] eqn:Htop; [|done].
  destruct (init_rings _ c []) as [[r1 g]|] eqn:Hrings; [|done]. cbn [mbind res_bind] in Hmain.
  destruct (Z.eqb_spec r1 0) as [->|]; [|done]. cbn [negb] in Hmain.
  destruct (init_dataplane_ctxs _ c _) as [[x t]|] eqn:Hctx; [|done].
  destruct (init_vhost_plans _ _ _) as [plans|] eqn:Hplans; [|done].
  destruct (network_init _ _ _ _ _ _ _ c _) as [[r2 net] calls] eqn:Hnet.
  destruct (Z.eqb_spec r2 0) as [->|]; [|done]. cbn [negb] in Hmain.
  destruct (start_threads _ fp _) as [r3 threads] eqn:Hthr. destruct (Z.eqb_spec r3 0) as [->|]; [|done]. cbn [negb] in Hmain.
  destruct (pf_dev_start pf); [|done]. destruct (all_ready c x); [|done]. cbn [negb] in Hmain.
  destruct (register_vhost_drivers _ _ _ _ _ c _ _) as [[r4 dr]|] eqn:Hdr; [|done]. cbn [mbind res_bind] in Hmain.
  destruct (Z.eqb_spec r4 0) as [->|]; [|done]. cbn [negb] in Hmain. injection Hmain as <-.
  intros c'. cbn [sys_config sys_calls sys_net sys_threads sys_rings sys_ctxs sys_fp_cores sys_plans sys_drivers] in *.
  split_and!; [done..|by exists t|done|done|done|done].
Qed.
End main.

(** ** Properties *)

(** [C9] When [main] reaches the slow-path loop the system is in order.  The configuration
    is in range with at least one core of each kind and no more sockets or NIC queues
    than the tables hold; the device got one configuration and its MTU; with fewer than
    65536 cores every context has a thread, and with 64 sockets all loops start in states
    that satisfy their invariants; the slow path starts in the state from which
    Device.v proves the life cycle of the VMs safe. *)
Theorem main_running_correct `{RteRing} `{RteMempool slow_msg} (pf : platform) (s : system) (r : ring nat)
    (rs : ring slow_msg) (msgs : mempool) :
  rte_ring_create nat (Z.to_nat RING_SIZE) = Some r → rte_ring_create slow_msg (Z.to_nat RING_SIZE) = Some rs →
  main pf = Ok (Running s) →
  let c := sys_config s in
  config_wf c ∧ cores_present c ∧ 0 < nb_sockets c ≤ Z.of_nat MAX_VHOSTS ∧ eth_tx_queues c ≤ Z.of_nat MAX_ETH_TX_QUEUES ∧
  is_Some (socket_dir c) ∧
  ((length (pf_ports pf) ≤ 256)%nat → ∃ p, pf_ports pf = [p] ∧
     sys_calls s = [DevConfigure p (eth_rx_queues c) (eth_tx_queues c) (port (sys_net s)); DevSetMtu p PKT_MTU]) ∧
  (total_cores c < 65536 → ∀ role, role_ok c role →
     ∃ core, (core, role_id c role) ∈ sys_threads s ∧ common_thread c (role_id c role) = Some role) ∧
  (nb_sockets c = Z.of_nat MAX_VHOSTS →
     ∃ sh, shared_of (sys_rings s) msgs = Some sh ∧ loops_wf c (sys_ctxs s) sh) ∧
  ∃ d, dstate_of s = Some d ∧ d = init_dstate (Z.to_nat (vhost_rx_cores c)) (Z.to_nat (vhost_tx_cores c)) ∧ dstate_wf d.
Proof.
  intros Hr Hrs Hmain c. destruct (main_steps pf s Hmain) as (Hwf & Htop & Hrings & (t & Hctx) & Hplans & Hnet & Hthr & Hdr).
  fold c in Hwf, Htop, Hrings, Hctx, Hplans, Hnet, Hthr, Hdr. destruct (config_wf_counts c Hwf) as (Hcounts & Hq & Hn).
  destruct (init_rings_ok _ c r rs _ Hwf Hr Hrs Hrings) as (Hle & He & Hv & Hs).
  apply init_dataplane_ctxs_ok in Hctx as [Hp Hctx]. apply init_dataplane_topology_ok in Htop as [Htq Hfp].
  apply init_vhost_plans_ok in Hplans. apply register_ok in Hdr as (Hvl & Hrt & Hpos & Hdir).
  split_and!; try done.
  - intros Hports. by eapply network_init_calls.
  - intros Htot. pose proof (counts_ok_range c Hcounts). eapply threads_serve; [done|done|].
    rewrite Hfp in Hthr. unfold u16 in Hthr. rewrite wrap_small in Hthr by (unfold in_u, total_cores in *; lia). exact Hthr.
  - intros H64. exists (fresh_shared c r rs msgs). split.
    + apply shared_of_fresh; [done| |done]. rewrite Hv, H64. unfold MAX_VHOSTS. done.
    + rewrite Hctx. apply loops_wf_fresh. by apply ring_create_ok in Hr as [? _].
  - eexists. unfold dstate_of. rewrite Hvl, Hrt, Hplans. cbn [mbind option_bind fst snd].
    split; [reflexivity|]. split; [done|]. pose proof (counts_ok_range c Hcounts).
    apply dstate_wf_init; unfold cores_present in *; lia.
Qed.

(** Between [network_start_eth] and [register_vhost_drivers] the cores already poll
    the NIC, while [vdev_list] is NULL and the route table is all zero, which routes
    every address to VM 0: a frame for the local subnet makes the eth_rx core read
    through the NULL pointer.  After registration no address has a route, and the
    assumption of the eth_rx theorems holds. *)
Theorem traffic_before_registration `{RteRing} `{RteMempool slow_msg} `{RteFlags} `{RteCksum} (config : config_t)
    (e : rx_env) (queue p : nat) (m : mbuf) (w : rx_world) :
  env_burst e = [(p, m)] → arp_req_for_us config (buf m) = false → eth_dst_is_local_subnet config (buf m) ≠ 0 →
  (env_vdevs e = None → env_routing e = route_static → eth_rx_visit config e queue w = Fault NullDeref) ∧
  (env_routing e = init_route_table route_static →
     routes_live e ∧ eth_verdict config (env_routing e) (buf m) = Drop).
Proof.
  intros Hb Harp Hdst. assert (∀ ip, (last_octet ip < ROUTE_SIZE)%nat) as Hlt by apply last_octet_lt. split.
  - intros Hv Hr. unfold eth_rx_visit. rewrite Hb. cbn [fmap list_fmap fst]. rewrite decide_False by done.
    cbn [foldM]. unfold eth_rx_packet at 1. cbn [l_pool].
    rewrite (heap_get_Some _ p m) by (rewrite lookup_union, list_to_map_cons, lookup_insert_eq; apply union_Some_l).
    cbn [mbind res_bind]. rewrite Harp. apply Z.eqb_neq in Hdst. rewrite Hdst, Hr, Hv. unfold find_vid_by_ip.
    rewrite (arr_get_Some _ _ 0) by (unfold route_static; by apply lookup_replicate_2, Hlt). done.
  - rewrite init_route_table_eq by done. intros Hr. split.
    + split; [by rewrite Hr, length_replicate|]. intros o v. rewrite Hr. intros [-> _]%lookup_replicate. lia.
    + unfold eth_verdict. rewrite Harp. apply Z.eqb_neq in Hdst. rewrite Hdst, Hr.
      by rewrite lookup_replicate_2 by apply Hlt.
Qed.

(** ** Witnesses *)

(** [--ip-addr 192.168.100.1/24 --socket-dir /tmp --nb-sockets 2], one core of each kind
    and two queues each way, on a machine where everything works. *)
Definition demo_options : list getopt_result :=
  [Opt CP_IP_ADDR (list_ascii_of_string "192.168.100.1/24"); Opt CP_SOCKET_DIR (list_ascii_of_string "/tmp");
   Opt CP_NB_SOCKETS (["2"%char]); Opt CP_ETH_RX_CORES ["1"%char]; Opt CP_ETH_TX_CORES ["1"%char];
   Opt CP_ETH_RX_QUEUES ["2"%char]; Opt CP_ETH_TX_QUEUES ["2"%char]; Opt CP_VHOST_RX_CORES ["1"%char];
   Opt CP_VHOST_TX_CORES ["1"%char]].

Definition demo_platform : platform :=
  mk_platform 5 (mk_fs (λ _, true) true) demo_options true true (λ _, true) (λ _, true) (2 ^ 1, 2 ^ 3) [0] (λ _, true)
    (λ _, [2; 0; 0; 0; 0; 1]) (λ _, demo_nic) (λ _, 0) demo_net [1; 2; 3; 4; 5]%nat (λ _, true) true true
    (λ size, Some (replicate (Z.to_nat size) "*"%char)) 1 (λ _, 0) (λ _ _, 0).

(** It gets to the slow path, with two sockets and four threads. *)
Definition demo_check (o : res (@outcome list_ring)) : bool :=
  match o with
  | Ok (Running s) => (nb_sockets (sys_config s) =? 2) && (length (sys_threads s) =? 4)%nat
  | _ => false
  end.

Lemma demo_main_check : demo_check (main demo_platform) = true.
Proof. vm_compute. reflexivity. Qed.

Lemma demo_main_runs : ∃ s, @main list_ring demo_platform = Ok (Running s) ∧ nb_sockets (sys_config s) = 2.
Proof.
  pose proof demo_main_check as H. destruct (main demo_platform) as [[st cl|s]|f]; [done| |done].
  exists s. split; [done|]. cbn [demo_check] in H. apply andb_prop in H as [H _]. by apply Z.eqb_eq.
Qed.

Lemma main_running_correct_witness :
  ∃ s, @main list_ring demo_platform = Ok (Running s) ∧ cores_present (sys_config s) ∧
    ∃ d, dstate_of s = Some d ∧ dstate_wf d.
Proof.
  destruct demo_main_runs as (s & Hs & Hn). exists s. split; [exact Hs|].
  destruct (main_running_correct demo_platform s (((Z.to_nat RING_SIZE - 1)%nat, []) : @ring list_ring nat)
    (((Z.to_nat RING_SIZE - 1)%nat, []) : @ring list_ring slow_msg)
    ([] : @mempool slow_msg (list_mempool slow_msg)) eq_refl eq_refl Hs)
    as (_ & Hc & _ & _ & _ & _ & _ & _ & (d & Hd & _ & Hwf)).
  split; [exact Hc|]. exists d. split; [exact Hd|exact Hwf].
Defined.

Lemma traffic_before_registration_witness :
  eth_rx_visit demo_config
    (mk_rx_env [(10%nat, demo_mbuf (demo_ip_buf 0 17 [192;168;100;9] [192;168;100;5]))] None ∅ route_static) 0
    demo_rx_world = Fault NullDeref.
Proof.
  set (m := demo_mbuf (demo_ip_buf 0 17 [192;168;100;9] [192;168;100;5])).
  refine (proj1 (traffic_before_registration demo_config (mk_rx_env [(10%nat, m)] None ∅ route_static) 0 10 m
    demo_rx_world eq_refl _ _) eq_refl eq_refl).
  - vm_compute. reflexivity.
  - vm_compute. discriminate.
Defined.
