(* ===== verification/DataPlane.v ===== *)
(** * The data plane as a whole

    Any number of vhost_rx and eth_rx cores produce packets, vhost_tx and eth_tx cores
    consume them, through the rings of [global] and one pool of mbufs.  A step is a
    visit by one of the cores, as defined in their files, on the shared state; visits
    interleave in any order.  A vhost_tx core keeps packets for a retry in arrays indexed
    by vid, of which only the elements of its own VMs are in use ([Plan.plans_partition]):
    the elements of all cores are one array here, each from the core that serves the VM
    (TxCores.v justifies that).
    Visits are atomic here; RingSteps.v cuts them up.  The slow path is not a step here:
    System.v puts it and the device callbacks next to these steps.  Mbufs that a receive call
    returns come from a free pool entry. *)

From S2P Require Import Prelude CInt Packet Dpdk Ecn Offload Config Poll Plan Route Device VhostTx EthTx Batch EthRx VhostRx.
Local Open Scope Z_scope.

Section plane.
Context `{RteRing} `{RteMempool slow_msg} `{RteFlags} `{RteCksum} `{RteThash} `{RteEther}.
Context (config : config_t) (eth_addr : list Z).

(** The shared state, and the worlds of the receiving cores, of [vhost_tx], and the
    counters of the eth_tx cores; of a world only the fields that are not shared count. *)
Record plane := mk_plane {
  pl_pool : gmap nat mbuf;
  pl_vm_rings : list (ring nat);
  pl_eth_rings : list (ring nat);
  pl_slow : ring slow_msg;
  pl_msgs : mempool;
  pl_vrx : list vrx_world;          (* per vhost_rx core *)
  pl_rx : list rx_world;            (* per eth_rx core *)
  pl_tx : tx_world;
  pl_wire : list (nat * mbuf);
  pl_eth : list eth_tx_stats;       (* per eth_tx core *)
}.

(** The world a core works on: its own state with the shared state. *)
Definition load_vrx (pl : plane) (w : vrx_world) : vrx_world :=
  mk_vrx_world (pl_pool pl) (pl_vm_rings pl) (pl_eth_rings pl) (pl_slow pl) (pl_msgs pl) (w_stats w) (w_ap w)
    (w_poll_states w) (w_iteration w) (w_rr_vm w) (w_rr_eth w) (w_batch w) (w_eth w).
Definition load_rx (pl : plane) (w : rx_world) : rx_world :=
  mk_rx_world (pl_pool pl) (pl_vm_rings pl) (pl_slow pl) (pl_msgs pl) (rx_stats w) (rx_batch w).
Definition load_tx (pl : plane) : tx_world :=
  mk_tx_world (tx_vms (pl_tx pl)) (pl_vm_rings pl) (pl_pool pl) (guest (pl_tx pl)).
Definition load_eth (pl : plane) (st : eth_tx_stats) : eth_world :=
  mk_eth_world (pl_eth_rings pl) (pl_pool pl) (pl_wire pl) st.

(** A visit by one of the cores, with what its environment answers. *)
Inductive plane_event :=
  | VhostRxVisit (core : nat) (e : vrx_env) (vid : nat)
  | EthRxVisit (core : nat) (e : rx_env) (queue : nat)
  | VhostTxVisit (e : tx_env) (vid : nat)
  | EthTxVisit (core : nat) (take : nat → Z) (queue : nat).

Definition plane_step (ev : plane_event) (pl : plane) : res plane :=
  match ev with
  | VhostRxVisit core e vid =>
      w ← arr_get (pl_vrx pl) core;
      w ← vhost_rx_visit config e vid (load_vrx pl w);
      Ok (mk_plane (w_pool w) (w_vm_rings w) (w_eth_rings w) (w_slow w) (w_msgs w) (<[core := w]> (pl_vrx pl)) (pl_rx pl)
            (pl_tx pl) (pl_wire pl) (pl_eth pl))
  | EthRxVisit core e queue =>
      w ← arr_get (pl_rx pl) core;
      w ← eth_rx_visit config e queue (load_rx pl w);
      Ok (mk_plane (rx_pool w) (rx_rings w) (pl_eth_rings pl) (slowpath_ring w) (msg_pool w) (pl_vrx pl) (<[core := w]> (pl_rx pl))
            (pl_tx pl) (pl_wire pl) (pl_eth pl))
  | VhostTxVisit e vid =>
      w ← vhost_tx_visit e vid (load_tx pl);
      Ok (mk_plane (tx_pool w) (vhost_tx_rings w) (pl_eth_rings pl) (pl_slow pl) (pl_msgs pl) (pl_vrx pl) (pl_rx pl) w
            (pl_wire pl) (pl_eth pl))
  | EthTxVisit core take queue =>
      st ← arr_get (pl_eth pl) core;
      w ← eth_tx_visit config eth_addr (mk_eth_env take []) queue (load_eth pl st);
      Ok (mk_plane (eth_pool w) (pl_vm_rings pl) (eth_tx_queue_rings w) (pl_slow pl) (pl_msgs pl) (pl_vrx pl) (pl_rx pl) (pl_tx pl)
            (wire w) (<[core := eth_stats w]> (pl_eth pl)))
  end.

Fixpoint plane_run (evs : list plane_event) (pl : plane) : res plane :=
  match evs with
  | [] => Ok pl
  | ev :: evs => pl ← plane_step ev pl; plane_run evs pl
  end.

(** ** Specification *)

(** Every packet that waits somewhere: for a VM or for the wire. *)
Definition waiting (pl : plane) : list nat := all_queues (load_tx pl) ++ concat (ring_items <$> pl_eth_rings pl).

(** The invariants of the receiving cores. *)
Definition cores_wf (pl : plane) : Prop :=
  Forall (λ w, vrx_wf config (load_vrx pl w)) (pl_vrx pl) ∧ Forall (λ w, rx_wf (load_rx pl w)) (pl_rx pl).

Definition plane_inv (pl : plane) : Prop :=
  cores_wf pl ∧ length (pl_vm_rings pl) = MAX_VHOSTS ∧
  (length (tx_vms (pl_tx pl)) = MAX_VHOSTS ∧ length (guest (pl_tx pl)) = MAX_VHOSTS ∧ Forall tx_vm_wf (tx_vms (pl_tx pl))) ∧
  Forall (λ r, (length (ring_items r) ≤ ring_capacity r)%nat) (pl_eth_rings pl) ∧
  NoDup (waiting pl) ∧ live (pl_pool pl) (waiting pl).

(** A burst received into free mbufs. *)
Definition fresh_burst (e : rx_env) (pl : plane) : Prop := ∀ p, p ∈ (env_burst e).*1 → pl_pool pl !! p = None.

(** What a visit relies on: the promises of DPDK, and enough messages. *)
Definition event_ok (ev : plane_event) (pl : plane) : Prop :=
  match ev with
  | VhostRxVisit core e vid => (core < length (pl_vrx pl))%nat ∧ entry_ok config e vid ∧ fresh_burst (vr_rx e) pl ∧
      (slow_need config (vr_rx e) ≤ length (pool_objs (pl_msgs pl)))%nat
  | EthRxVisit core e _ => (core < length (pl_rx pl))%nat ∧ rx_env_ok e ∧ fresh_burst e pl ∧
      (length (with_verdict (rx_verdict config e) ToSlow (env_burst e).*1) ≤ length (pool_objs (pl_msgs pl)))%nat
  | VhostTxVisit e _ => env_ok e
  | EthTxVisit core take queue => (core < length (pl_eth pl))%nat ∧ (∀ n, 0 ≤ take n ≤ Z.of_nat n) ∧ (queue < length (pl_eth_rings pl))%nat
  end.

Fixpoint run_ok (evs : list plane_event) (pl : plane) : Prop :=
  match evs with
  | [] => True
  | ev :: evs => event_ok ev pl ∧ ∀ pl', plane_step ev pl = Ok pl' → run_ok evs pl'
  end.

(** The packets that the receive loops switch to VM [v], in the order of the visits. *)
Definition switched (v : nat) (ev : plane_event) : list nat :=
  match ev with
  | VhostRxVisit _ e _ => with_verdict (vrx_verdict config (vr_rx e)) (ToVm v) (env_burst (vr_rx e)).*1
  | EthRxVisit _ e _ => with_verdict (rx_verdict config e) (ToVm v) (env_burst e).*1
  | VhostTxVisit _ _ | EthTxVisit _ _ _ => []
  end.
Definition switched_to (v : nat) (evs : list plane_event) : list nat := concat (switched v <$> evs).

(** From [pl] to [pl'] the queue of VM [v] was extended by packets switched to it, and
    lost a prefix, of which the guest received a subsequence. *)
Definition delivers (v : nat) (wants : list nat) (pl pl' : plane) : Prop :=
  ∃ enq gone sent, enq `sublist_of` wants ∧
    vm_queue (load_tx pl) v ++ enq = gone ++ vm_queue (load_tx pl') v ∧ sent `sublist_of` gone ∧
    guest (pl_tx pl') !! v = (λ g, g ++ sent) <$> guest (pl_tx pl) !! v.

(** What a ring takes of the packets meant for it. *)
Definition accepted (rings : list (ring nat)) (V : nat → verdict) (burst : list nat) (tag : nat → verdict) (v : nat) : list nat :=
  match rings !! v with Some r => take (rte_ring_free_count r) (with_verdict V (tag v) burst) | None => [] end.

(** The vid is served: there is a device, and its gate is open. *)
Definition vrx_open (e : vrx_env) (vid : nat) (w : vrx_world) : bool :=
  bool_decide (vid < MAX_VHOSTS)%nat &&
  match env_vdevs (vr_rx e) ≫= (λ l, l !! vid), w_ap w !! vid with
  | Some (Some _), Some ap => bool_decide (is_Some (poll_gate ap (w_iteration w) (vr_now e)))
  | _, _ => false
  end.

(** What a visit puts on the ring of VM [v]. *)
Definition enqueues (v : nat) (ev : plane_event) (pl : plane) : list nat :=
  match ev with
  | VhostRxVisit core e vid =>
      match pl_vrx pl !! core with
      | Some w => if vrx_open e vid w then accepted (pl_vm_rings pl) (vrx_verdict config (vr_rx e)) (env_burst (vr_rx e)).*1 ToVm v else []
      | None => []
      end
  | EthRxVisit _ e _ => accepted (pl_vm_rings pl) (rx_verdict config e) (env_burst e).*1 ToVm v
  | VhostTxVisit _ _ | EthTxVisit _ _ _ => []
  end.

(** [enq] comes to the queue of VM [v], and nothing leaves it. *)
Definition grows (v : nat) (enq : list nat) (pl pl' : plane) : Prop :=
  pl_tx pl' = pl_tx pl ∧ vm_queue (load_tx pl') v = vm_queue (load_tx pl) v ++ enq.

(** *** What the slow path sees of a visit *)

Definition event_burst (ev : plane_event) : list nat :=
  match ev with
  | VhostRxVisit _ e _ => (env_burst (vr_rx e)).*1
  | EthRxVisit _ e _ => (env_burst e).*1
  | VhostTxVisit _ _ | EthTxVisit _ _ _ => []
  end.
Definition event_verdict (ev : plane_event) : nat → verdict :=
  match ev with
  | VhostRxVisit _ e _ => vrx_verdict config (vr_rx e)
  | EthRxVisit _ e _ => rx_verdict config e
  | VhostTxVisit _ _ | EthTxVisit _ _ _ => λ _, Drop
  end.

(** The requests [reqs] became messages, of which those that fit were put on the slow ring. *)
Definition posted {A} (f : A → slow_msg → slow_msg) (reqs : list A) (pl pl' : plane) : Prop :=
  ∃ slow, slow_ok f reqs slow (pl_msgs pl) (pl_msgs pl') ∧
    ring_items (pl_slow pl') = ring_items (pl_slow pl) ++ take (rte_ring_free_count (pl_slow pl)) slow.

Definition slow_same (pl pl' : plane) : Prop := (pl_slow pl', pl_msgs pl') = (pl_slow pl, pl_msgs pl).

Definition slow_effect (ev : plane_event) (pl pl' : plane) : Prop :=
  match ev with
  | VhostRxVisit _ e vid => slow_same pl pl' ∨
      (vid < MAX_VHOSTS)%nat ∧ ∃ l, posted (req_msg vid) (slow_reqs config l (vr_rx e) (event_burst ev)) pl pl'
  | EthRxVisit _ _ queue =>
      posted (eth_arp_msg queue) (with_verdict (event_verdict ev) ToSlow (event_burst ev)) pl pl' ∧
      live (pl_pool pl') (with_verdict (event_verdict ev) ToSlow (event_burst ev))
  | VhostTxVisit _ _ | EthTxVisit _ _ _ => slow_same pl pl'
  end.

(** Mbufs that neither arrive nor wait are left alone. *)
Definition plane_frame (ev : plane_event) (pl pl' : plane) : Prop :=
  (∀ p, p ∉ event_burst ev → p ∉ waiting pl → pl_pool pl' !! p = pl_pool pl !! p) ∧
  (∀ p, p ∈ waiting pl' → p ∈ waiting pl ∨ p ∈ event_burst ev ∧ event_verdict ev p ≠ ToSlow) ∧
  length (pl_vrx pl') = length (pl_vrx pl) ∧ slow_effect ev pl pl'.

(** ** Lemmas: queues that grow *)

Lemma concat_grow (f g add : nat → list nat) (l : list nat) :
  (∀ v, v ∈ l → g v = f v ++ add v) → concat (g <$> l) ≡ₚ concat (f <$> l) ++ concat (add <$> l).
Proof.
  induction l as [|v l IH]; intros Hg; [done|]. cbn [fmap list_fmap concat].
  rewrite Hg by by left. rewrite (IH ltac:(intros; apply Hg; by right)). solve_Permutation.
Qed.

Lemma perm_swap_middle (a b c d : list nat) : (a ++ b) ++ c ++ d ≡ₚ (a ++ c) ++ b ++ d.
Proof. rewrite <- !app_assoc. apply Permutation_app_head, Permutation_app_swap_app. Qed.

Lemma elem_of_concat {A} (ls : list (list A)) p : p ∈ concat ls ↔ ∃ l, l ∈ ls ∧ p ∈ l.
Proof.
  induction ls as [|l ls IH]; cbn [concat].
  - split; [by intros ?%elem_of_nil|by intros (l & ?%elem_of_nil & _)].
  - rewrite elem_of_app, IH. split.
    + intros [Hp|(l' & Hl & Hp)]; [exists l|exists l']; by rewrite elem_of_cons; auto.
    + intros (l' & [->|Hl]%elem_of_cons & Hp); [by left|right; by exists l'].
Qed.

(** Lists that a key tells apart. *)
Lemma NoDup_keyed {K} (key : nat → K) (tag : nat → K) (add : nat → list nat) (l : list nat) :
  Inj (=) (=) tag → NoDup l → (∀ v, NoDup (add v)) → (∀ v p, p ∈ add v → key p = tag v) → NoDup (concat (add <$> l)).
Proof.
  intros Htag Hl Hadd Hkey. induction Hl as [|v l Hv _ IH]; [constructor|]. cbn [fmap list_fmap concat].
  apply NoDup_app. split; [done|]. split; [|done]. intros p Hp (k & Hk & Hpk)%elem_of_concat.
  apply list_elem_of_fmap in Hk as (u & -> & Hu). assert (u = v) as ->; [|done].
  apply Htag. by rewrite <- (Hkey u p Hpk), <- (Hkey v p Hp).
Qed.

(** Each ring [v] of an array gained [add v]. *)
Definition rings_ext (rings rings' : list (ring nat)) (add : nat → list nat) : Prop :=
  length rings' = length rings ∧
  ∀ v r, rings !! v = Some r → ∃ r', rings' !! v = Some r' ∧ ring_capacity r' = ring_capacity r ∧
    ring_items r' = ring_items r ++ add v.

(** What is added comes from a burst, by verdict. *)
Definition from_burst (V : nat → verdict) (burst : list nat) (tag : nat → verdict) (add : nat → list nat) : Prop :=
  ∀ v, NoDup (add v) ∧ ∀ p, p ∈ add v → V p = tag v ∧ p ∈ burst.

Lemma rings_ext_refl rings : rings_ext rings rings (λ _, []).
Proof. split; [done|]. intros v r Hr. exists r. by rewrite app_nil_r. Qed.

Lemma rings_items (rings : list (ring nat)) :
  ring_items <$> rings = (λ q, default [] (ring_items <$> rings !! q)) <$> seq 0 (length rings).
Proof.
  apply list_eq. intros i. rewrite !list_lookup_fmap. destruct (decide (i < length rings)%nat) as [Hi|Hi].
  - rewrite lookup_seq_lt by done. destruct (lookup_lt_is_Some_2 rings i Hi) as [r Hr]. cbn. by rewrite Hr.
  - rewrite (lookup_seq_ge 0) by lia. by rewrite (lookup_ge_None_2 rings) by lia.
Qed.

Lemma eth_queued_ext rings rings' add :
  rings_ext rings rings' add →
  concat (ring_items <$> rings') ≡ₚ concat (ring_items <$> rings) ++ concat (add <$> seq 0 (length rings)).
Proof.
  intros [Hl He]. rewrite (rings_items rings'), (rings_items rings), Hl. apply concat_grow.
  intros v Hv%elem_of_seq. destruct (lookup_lt_is_Some_2 rings v) as [r Hr]; [lia|].
  destruct (He v r Hr) as (r' & Hr' & _ & Hi). rewrite Hr, Hr'. exact Hi.
Qed.

Lemma vm_queue_ext pl pl' add v :
  rings_ext (pl_vm_rings pl) (pl_vm_rings pl') add → tx_vms (pl_tx pl') = tx_vms (pl_tx pl) →
  length (tx_vms (pl_tx pl)) = MAX_VHOSTS → length (pl_vm_rings pl) = MAX_VHOSTS → (v < MAX_VHOSTS)%nat →
  vm_queue (load_tx pl') v = vm_queue (load_tx pl) v ++ add v.
Proof.
  intros [_ He] Hvms Hl1 Hl2 Hv. unfold vm_queue, load_tx. cbn [tx_vms vhost_tx_rings]. rewrite Hvms.
  destruct (lookup_lt_is_Some_2 (tx_vms (pl_tx pl)) v) as [vm ->]; [lia|].
  destruct (lookup_lt_is_Some_2 (pl_vm_rings pl) v) as [r Hr]; [lia|]. rewrite Hr.
  destruct (He v r Hr) as (r' & -> & _ & ->). by rewrite app_assoc.
Qed.

(** Producing keeps the waiting packets distinct. *)
Lemma waiting_produce V burst addv adde pl pl' :
  rings_ext (pl_vm_rings pl) (pl_vm_rings pl') addv → rings_ext (pl_eth_rings pl) (pl_eth_rings pl') adde →
  tx_vms (pl_tx pl') = tx_vms (pl_tx pl) → length (tx_vms (pl_tx pl)) = MAX_VHOSTS → length (pl_vm_rings pl) = MAX_VHOSTS →
  from_burst V burst ToVm addv → from_burst V burst ToEth adde →
  (∀ p, p ∈ burst → p ∉ waiting pl) → NoDup (waiting pl) →
  NoDup (waiting pl') ∧ ∀ p, p ∈ waiting pl' → p ∈ waiting pl ∨ (∃ v, p ∈ addv v) ∨ ∃ q, p ∈ adde q.
Proof.
  intros Hv He Hvms Hl1 Hl2 Hbv Hbe Hfresh Hnd.
  set (news := concat (addv <$> seq 0 MAX_VHOSTS) ++ concat (adde <$> seq 0 (length (pl_eth_rings pl)))).
  assert (waiting pl' ≡ₚ waiting pl ++ news) as Hperm.
  { unfold waiting, all_queues, news. rewrite (eth_queued_ext _ _ _ He).
    rewrite (concat_grow (vm_queue (load_tx pl)) _ addv); [apply perm_swap_middle|].
    intros v Hv'%elem_of_seq. apply vm_queue_ext; (done || lia). }
  assert (∀ tag add l p, from_burst V burst tag add → p ∈ concat (add <$> l) → ∃ v, p ∈ add v ∧ V p = tag v ∧ p ∈ burst) as Hin.
  { intros tag add l p Hb (k & Hk & Hp)%elem_of_concat. apply list_elem_of_fmap in Hk as (v & -> & _).
    exists v. split; [done|]. by apply Hb. }
  assert (NoDup news) as Hnews.
  { unfold news. apply NoDup_app. split; [|split].
    - apply (NoDup_keyed V ToVm); [by intros ?? [=]|apply NoDup_seq|intros v; apply Hbv|intros v p Hp; exact (proj1 (proj2 (Hbv v) p Hp))].
    - intros p (v & _ & E & _)%(Hin ToVm _ _ _ Hbv) (q & _ & E' & _)%(Hin ToEth _ _ _ Hbe). congruence.
    - apply (NoDup_keyed V ToEth); [by intros ?? [=]|apply NoDup_seq|intros v; apply Hbe|intros v p Hp; exact (proj1 (proj2 (Hbe v) p Hp))]. }
  assert (∀ p, p ∈ news → (∃ v, p ∈ addv v) ∨ ∃ q, p ∈ adde q) as Hn.
  { intros p [(v & ? & _)%(Hin ToVm _ _ _ Hbv)|(q & ? & _)%(Hin ToEth _ _ _ Hbe)]%elem_of_app; [left|right]; eauto. }
  rewrite Hperm. split.
  - apply NoDup_app. split; [done|]. split; [|done]. intros p Hp Hnp. apply (Hfresh p); [|done].
    destruct (Hn p Hnp) as [[v Hpv]|[q Hpq]]; [exact (proj2 (proj2 (Hbv v) p Hpv))|exact (proj2 (proj2 (Hbe q) p Hpq))].
  - intros p. rewrite Hperm, elem_of_app. intros [?|?]; [by left|right; auto].
Qed.

(** *** What the rings take *)

Lemma accepted_nil rings V tag v : accepted rings V [] tag v = [].
Proof. unfold accepted, with_verdict. destruct (rings !! v); [apply take_nil|done]. Qed.

Lemma accepted_sublist rings V burst tag v : accepted rings V burst tag v `sublist_of` with_verdict V (tag v) burst.
Proof. unfold accepted. destruct (rings !! v); [apply sublist_take|apply sublist_nil_l]. Qed.

Lemma enqueues_switched v ev pl : enqueues v ev pl `sublist_of` switched v ev.
Proof.
  destruct ev as [core e vid|core e queue|e vid|core tk queue]; cbn [enqueues switched]; try done; [|apply accepted_sublist].
  destruct (pl_vrx pl !! core); [|apply sublist_nil_l]. destruct (vrx_open _ _ _); [apply accepted_sublist|apply sublist_nil_l].
Qed.

Lemma grows_delivers v enq wants pl pl' : grows v enq pl pl' → enq `sublist_of` wants → delivers v wants pl pl'.
Proof.
  intros [Htx Hq] Hs. exists enq, [], []. rewrite Hq, Htx. split_and!; try done.
  destruct (guest (pl_tx pl) !! v); cbn; [by rewrite app_nil_r|done].
Qed.

Lemma accepted_from_burst rings V burst tag : NoDup burst → from_burst V burst tag (accepted rings V burst tag).
Proof.
  intros Hnd v. split.
  - eapply sublist_NoDup; [|apply accepted_sublist]. by apply NoDup_filter.
  - intros p Hp. apply with_verdict_mem. exact (elem_of_sublist _ _ _ Hp (accepted_sublist rings V burst tag v)).
Qed.

Lemma accepted_ext rings rings' V burst tag :
  length rings' = length rings →
  (∀ v r, rings !! v = Some r → ∃ r', rings' !! v = Some r' ∧ ring_capacity r' = ring_capacity r ∧
     ring_items r' = ring_items r ++ take (rte_ring_free_count r) (with_verdict V (tag v) burst)) →
  rings_ext rings rings' (accepted rings V burst tag).
Proof.
  intros Hl He. split; [done|]. intros v r Hr. unfold accepted. rewrite Hr. by apply He.
Qed.

Lemma accepted_capacity rings rings' V burst tag :
  rings_ext rings rings' (accepted rings V burst tag) →
  Forall (λ r, (length (ring_items r) ≤ ring_capacity r)%nat) rings →
  Forall (λ r, (length (ring_items r) ≤ ring_capacity r)%nat) rings'.
Proof.
  intros [Hl He] Hcap. apply Forall_lookup. intros q r' Hr'.
  destruct (lookup_lt_is_Some_2 rings q) as [r Hr]; [rewrite <- Hl; by eapply lookup_lt_Some|].
  pose proof (Forall_lookup_1 _ _ _ _ Hcap Hr) as Hc. cbn in Hc.
  destruct (He q r Hr) as (r2 & Hr2 & Hc2 & Hi). assert (r2 = r') as -> by congruence.
  rewrite Hi, Hc2, length_app. unfold accepted. rewrite Hr, length_take, ring_free_count_eq. lia.
Qed.

(** ** Lemmas: invariants of the cores that do not move *)

Lemma vrx_wf_frame pl pl' w :
  vrx_wf config (load_vrx pl w) → length (pl_vm_rings pl') = length (pl_vm_rings pl) →
  length (pl_eth_rings pl') = length (pl_eth_rings pl) → vrx_wf config (load_vrx pl' w).
Proof.
  unfold vrx_wf, load_vrx. cbn [w_vm_rings w_eth_rings w_stats w_ap w_rr_vm w_rr_eth w_batch w_eth].
  intros (Hw1 & Hw2 & Hrest) -> ->. by split; [|split].
Qed.

Lemma rx_wf_frame pl pl' w :
  rx_wf (load_rx pl w) → length (pl_vm_rings pl') = length (pl_vm_rings pl) → rx_wf (load_rx pl' w).
Proof. unfold rx_wf, load_rx. cbn [rx_rings rx_batch rx_stats]. by intros ? ->. Qed.

(** The cores that do not move keep their invariants. *)
Lemma vrx_frames pl pl' : cores_wf pl → length (pl_vm_rings pl') = length (pl_vm_rings pl) →
  length (pl_eth_rings pl') = length (pl_eth_rings pl) → Forall (λ w, vrx_wf config (load_vrx pl' w)) (pl_vrx pl).
Proof. intros [Hv _] H1' H2'. eapply Forall_impl; [exact Hv|]. cbn. intros w Hw. by apply (vrx_wf_frame pl). Qed.

Lemma rx_frames pl pl' : cores_wf pl → length (pl_vm_rings pl') = length (pl_vm_rings pl) →
  Forall (λ w, rx_wf (load_rx pl' w)) (pl_rx pl).
Proof. intros [_ Hr] H1'. eapply Forall_impl; [exact Hr|]. cbn. intros w Hw. by apply (rx_wf_frame pl). Qed.

(** A step that moves nothing but private state and messages. *)
Lemma waiting_same pl pl' :
  pl_vm_rings pl' = pl_vm_rings pl → pl_eth_rings pl' = pl_eth_rings pl → tx_vms (pl_tx pl') = tx_vms (pl_tx pl) →
  waiting pl' = waiting pl ∧ ∀ v, vm_queue (load_tx pl') v = vm_queue (load_tx pl) v.
Proof.
  intros Hr He Hv. assert (∀ v, vm_queue (load_tx pl') v = vm_queue (load_tx pl) v) as Hq.
  { intros v. unfold vm_queue, load_tx. cbn [tx_vms vhost_tx_rings]. by rewrite Hr, Hv. }
  split; [|done]. unfold waiting, all_queues. rewrite He.
  f_equal. f_equal. apply list_fmap_ext. by intros.
Qed.

(** ** Lemmas: one visit *)

Lemma vrx_outcome e vid w :
  queues_ok config → vrx_wf config w → entry_ok config e vid →
  (slow_need config (vr_rx e) ≤ length (pool_objs (w_msgs w)))%nat →
  ∃ w' w1, vhost_rx_visit config e vid w = Ok w' ∧ vrx_wf config w' ∧
    (w_pool w1, w_vm_rings w1, w_eth_rings w1, w_slow w1, w_msgs w1) =
      (w_pool w, w_vm_rings w, w_eth_rings w, w_slow w, w_msgs w) ∧
    (w' = w1 ∧ (vrx_open e vid w = false ∨ env_burst (vr_rx e) = []) ∨
     (vid < MAX_VHOSTS)%nat ∧ vrx_open e vid w = true ∧ ∃ learning st, vrx_visited config (vr_rx e) vid learning st w1 w').
Proof.
  intros Hq Hwf (He & vdevs & Hvl & Hlen & Hdev) Hsup. unfold vrx_open. rewrite Hvl. cbn [mbind option_bind].
  destruct (decide (vid < MAX_VHOSTS)%nat) as [Hv|Hv].
  2:{ exists w, w. unfold vhost_rx_visit. rewrite Hvl. cbn [mbind res_bind]. rewrite decide_True by lia.
      rewrite (bool_decide_eq_false_2 (vid < MAX_VHOSTS)%nat) by done. split_and!; try done. left. auto. }
  rewrite (bool_decide_eq_true_2 (vid < MAX_VHOSTS)%nat) by done. cbn [andb].
  destruct (lookup_lt_is_Some_2 vdevs vid) as [[ptr|] Hslot]; [lia| |].
  2:{ exists w, w. unfold vhost_rx_visit. rewrite Hvl. cbn [mbind res_bind]. rewrite decide_False by lia.
      rewrite (arr_get_Some _ _ _ Hslot), Hslot. split_and!; try done. left. auto. }
  destruct (Hdev ptr Hslot) as (d & Hd & Hmax). pose proof (slow_reqs_need config (learning d) (vr_rx e)) as Hneed.
  destruct (vhost_rx_visit_spec config e vid w vdevs ptr d) as (ap & st & w' & Hap & _ & Hvis & Hwf' & Hm); try done; [lia|].
  rewrite Hslot, Hap. exists w'. destruct (poll_gate _ _ _) as [ap'|].
  2:{ subst w'. exists w. split_and!; try done. left. auto. }
  destruct Hm as (st' & _ & _ & Hm). eexists. split; [done|]. split; [done|].
  split; [|destruct (decide _) as [Hz|_]; [left; split; [exact Hm|right]|right; split_and!; [done|done|by eexists _, _]]]; [done|].
  by destruct (env_burst (vr_rx e)).
Qed.

Lemma vrx_fate_other e w p o : p ∉ (env_burst e).*1 → vrx_fate config e w p o = o.
Proof.
  intros Hp. unfold vrx_fate. destruct (decide (vrx_verdict config e p = Drop)) as [->|Hne]; [done|].
  by destruct Hp; apply (verdict_burst config).
Qed.

(** A producer's visit: the invariant of the whole follows from what it did to the rings
    and the pool. *)
Lemma plane_produce V burst adde pl pl' :
  plane_inv pl → NoDup burst → (∀ p, p ∈ burst → pl_pool pl !! p = None) →
  rings_ext (pl_vm_rings pl) (pl_vm_rings pl') (accepted (pl_vm_rings pl) V burst ToVm) →
  rings_ext (pl_eth_rings pl) (pl_eth_rings pl') adde → from_burst V burst ToEth adde →
  Forall (λ r, (length (ring_items r) ≤ ring_capacity r)%nat) (pl_eth_rings pl') →
  pl_tx pl' = pl_tx pl → cores_wf pl' →
  (∀ p, p ∉ burst → pl_pool pl' !! p = pl_pool pl !! p) →
  (∀ p v, p ∈ accepted (pl_vm_rings pl) V burst ToVm v → is_Some (pl_pool pl' !! p)) →
  (∀ p q, p ∈ adde q → is_Some (pl_pool pl' !! p)) →
  plane_inv pl' ∧ (∀ v, (v < MAX_VHOSTS)%nat → grows v (accepted (pl_vm_rings pl) V burst ToVm v) pl pl') ∧
  ∀ p, p ∈ waiting pl' → p ∈ waiting pl ∨ p ∈ burst ∧ V p ≠ ToSlow.
Proof.
  intros (Hco & Hl & (Hvms & Hg & Htxf) & Hcap & Hnd & Hlive) Hndb Hfresh Hv He Hfe Hcap' Htx Hco' Hpool Hpv Hpe.
  assert (∀ p, p ∈ burst → p ∉ waiting pl) as Hnew.
  { intros p Hp [m Hm]%Hlive. rewrite Hfresh in Hm by done. done. }
  destruct (waiting_produce V burst _ adde pl pl' Hv He) as [Hnd' Hin]; try done; [by rewrite Htx|by apply accepted_from_burst|].
  split; [split_and!; try done|split]; try by rewrite Htx.
  - destruct Hv as [-> _]. done.
  - intros p [Hp|[[v Hp]|[q Hp]]]%Hin; [|by eapply Hpv|by eapply Hpe].
    rewrite Hpool; [by apply Hlive|]. intros Hb. by apply (Hnew p).
  - intros v Hlt. split; [done|]. apply vm_queue_ext; try done; by rewrite ?Htx.
  - intros p [Hp|[[v Hp]|[q Hp]]]%Hin; [by left| |]; right.
    + destruct (accepted_from_burst (pl_vm_rings pl) V burst ToVm Hndb v) as [_ Hb]. destruct (Hb p Hp) as [-> ?]. done.
    + destruct (Hfe q) as [_ Hb]. destruct (Hb p Hp) as [-> ?]. done.
Qed.

(** A visit that found nothing. *)
Lemma plane_idle pl pl' :
  plane_inv pl → (pl_pool pl', pl_vm_rings pl', pl_eth_rings pl') = (pl_pool pl, pl_vm_rings pl, pl_eth_rings pl) →
  pl_tx pl' = pl_tx pl → cores_wf pl' →
  plane_inv pl' ∧ (∀ v, (v < MAX_VHOSTS)%nat → grows v [] pl pl') ∧ waiting pl' = waiting pl.
Proof.
  intros (Hco & Hl & (Hvms & Hg & Htxf) & Hcap & Hnd & Hlive) [= Hp Hv He] Htx Hco'.
  destruct (waiting_same pl pl' Hv He) as [Hw Hq]; [by rewrite Htx|].
  split; [split_and!; try done; try by rewrite ?Htx, ?He, ?Hw, ?Hp, ?Hv|split; [|exact Hw]].
  intros v Hlt. split; [done|]. by rewrite app_nil_r, Hq.
Qed.

Lemma plane_vhost_rx core e vid pl :
  queues_ok config → plane_inv pl → event_ok (VhostRxVisit core e vid) pl →
  ∃ pl', plane_step (VhostRxVisit core e vid) pl = Ok pl' ∧ plane_inv pl' ∧
    (∀ v, (v < MAX_VHOSTS)%nat → grows v (enqueues v (VhostRxVisit core e vid) pl) pl pl') ∧ plane_frame (VhostRxVisit core e vid) pl pl'.
Proof.
  intros Hq Hinv (Hcore & He & Hfresh & Hsup). pose proof Hinv as (Hco & Hl & _ & Hcap & _).
  destruct (lookup_lt_is_Some_2 (pl_vrx pl) core Hcore) as [w0 Hw0].
  assert (vrx_wf config (load_vrx pl w0)) as Hvrx by (destruct Hco as [Hv _]; by eapply (Forall_lookup_1 _ _ _ _ Hv)).
  destruct (vrx_outcome e vid (load_vrx pl w0) Hq Hvrx He Hsup) as (w' & w1 & Hrun & Hwf' & [= Hp1 Hv1 He1 Hs1 Hm1] & Hout).
  cbn [plane_step]. rewrite (arr_get_Some _ _ _ Hw0). cbn [mbind res_bind]. rewrite Hrun. cbn [mbind res_bind].
  eexists. split; [reflexivity|]. set (pl' := mk_plane _ _ _ _ _ _ _ _ _ _).
  assert (length (w_vm_rings w') = length (pl_vm_rings pl)) as Hlr by (destruct Hwf' as [Hlb _]; congruence).
  assert (length (w_eth_rings w') = length (pl_eth_rings pl)) as Hler.
  { destruct Hout as [(-> & _)|(_ & _ & learning & st & Hvis)]; [by rewrite He1|].
    destruct Hvis as (_ & (Hle & _) & _). rewrite Hle, He1. done. }
  assert (cores_wf pl') as Hco'.
  { split; [|by apply (rx_frames pl pl')]. apply Forall_insert; [by apply (vrx_frames pl pl')|]. by destruct w'. }
  change (vrx_open e vid (load_vrx pl w0)) with (vrx_open e vid w0) in Hout.
  assert (∀ v, enqueues v (VhostRxVisit core e vid) pl = if vrx_open e vid w0
    then accepted (pl_vm_rings pl) (vrx_verdict config (vr_rx e)) (env_burst (vr_rx e)).*1 ToVm v else []) as Henq by (intros v; cbn; by rewrite Hw0).
  destruct Hout as [(-> & Hidle)|(Hvid & Hopen & learning & st & Hvis)].
  { destruct (plane_idle pl pl') as (Hi & Hd & Hw); try done; [cbn; by rewrite Hp1, Hv1, He1|].
    split; [exact Hi|]. split; [intros v Hv; rewrite Henq; destruct Hidle as [->| ->]; [by apply Hd|]|].
    { rewrite accepted_nil. destruct (vrx_open e vid w0); by apply Hd. } split; [cbn; by rewrite Hp1|]. split; [rewrite Hw; by left|]. split; [cbn; by rewrite length_insert|left].
    unfold slow_same. cbn. by rewrite Hs1, Hm1. }
  destruct Hvis as ((Hlv & Hevm) & (Hle & Heeth) & Hpool & (slow & Hslow & Hsi) & _). rewrite Hv1 in Hlv, Hevm. rewrite He1 in Hle, Heeth.
  destruct He as ((_ & Hnd & _) & _). set (V := vrx_verdict config (vr_rx e)) in *. set (burst := (env_burst (vr_rx e)).*1) in *.
  pose proof (accepted_ext _ _ V burst ToEth Hle Heeth) as Hext.
  assert (∀ p, p ∈ burst → is_Some (vrx_received (vr_rx e) w1 !! p)) as Hrec.
  { intros p ([p' m] & -> & Hin)%list_elem_of_fmap. unfold vrx_received. rewrite lookup_union.
    rewrite (elem_of_list_to_map_1 _ _ m) by done. by rewrite union_Some_l. }
  assert (∀ tag (rings : list (ring nat)) p v, p ∈ accepted rings V burst tag v → V p = tag v ∧ p ∈ burst) as Hacc.
  { intros tag rings p v. apply accepted_from_burst. exact Hnd. }
  assert (∀ p, p ∉ burst → pl_pool pl' !! p = pl_pool pl !! p) as Hother.
  { intros p Hp. cbn. rewrite Hpool, vrx_fate_other by done. unfold vrx_received. rewrite lookup_union_r, Hp1; [done|].
    by apply not_elem_of_list_to_map_1. }
  destruct (plane_produce V burst (accepted (pl_eth_rings pl) V burst ToEth) pl pl') as (Hi & Hd & Hw); try done.
  - by apply accepted_ext.
  - by apply accepted_from_burst.
  - by eapply accepted_capacity.
  - intros p v Hp. destruct (Hacc _ _ p v Hp) as [HV Hb]. cbn. rewrite Hpool. unfold vrx_fate. fold V. rewrite HV.
    destruct (w_vm_rings w1 !! v), (w_rr_vm w1 !! v); rewrite ?fmap_is_Some; by apply Hrec.
  - intros p q Hp. destruct (Hacc _ _ p q Hp) as [HV Hb]. cbn. rewrite Hpool. unfold vrx_fate. fold V. rewrite HV.
    unfold accepted in Hp. rewrite He1. cbn [load_vrx w_eth_rings] in Hp |- *. destruct (pl_eth_rings pl !! q) as [r|]; [|by apply Hrec].
    destruct (w_rr_eth w1 !! q); [|by apply Hrec]. fold burst. rewrite decide_False; [rewrite fmap_is_Some; by apply Hrec|].
    assert (NoDup (with_verdict V (ToEth q) burst)) as Hndv by by apply NoDup_filter.
    rewrite <- (take_drop (rte_ring_free_count r) (with_verdict V (ToEth q) burst)) in Hndv.
    apply NoDup_app in Hndv as (_ & Hd & _). by apply Hd.
  - split; [exact Hi|]. split; [intros v Hv; rewrite Henq, Hopen; by apply Hd|]. split_and!; [by intros; apply Hother|exact Hw|cbn; by rewrite length_insert|right].
    split; [exact Hvid|]. exists learning, slow. rewrite Hs1, Hm1 in *. by split.
Qed.

Lemma plane_eth_rx core e queue pl :
  plane_inv pl → event_ok (EthRxVisit core e queue) pl →
  ∃ pl', plane_step (EthRxVisit core e queue) pl = Ok pl' ∧ plane_inv pl' ∧
    (∀ v, (v < MAX_VHOSTS)%nat → grows v (enqueues v (EthRxVisit core e queue) pl) pl pl') ∧ plane_frame (EthRxVisit core e queue) pl pl'.
Proof.
  intros Hinv (Hcore & He & Hfresh & Hsup). pose proof Hinv as (Hco & Hl & _ & Hcap & _).
  destruct (lookup_lt_is_Some_2 (pl_rx pl) core Hcore) as [w0 Hw0].
  assert (rx_wf (load_rx pl w0)) as Hrx by (destruct Hco as [_ Hr]; by eapply (Forall_lookup_1 _ _ _ _ Hr)).
  destruct (eth_rx_visit_spec config e queue (load_rx pl w0) He Hrx Hsup) as (w' & Hrun & Hwf' & (Hlv & Hevm) & Hpool & (slow & Hslow & Hsi & _)).
  cbn [plane_step]. rewrite (arr_get_Some _ _ _ Hw0). cbn [mbind res_bind]. rewrite Hrun. cbn [mbind res_bind].
  eexists. split; [reflexivity|]. set (pl' := mk_plane _ _ _ _ _ _ _ _ _ _).
  assert (cores_wf pl') as Hco'.
  { split; [by apply (vrx_frames pl pl')|]. apply Forall_insert; [by apply (rx_frames pl pl')|]. by destruct w'. }
  destruct He as (_ & Hnd & _). set (V := rx_verdict config e) in *. set (burst := (env_burst e).*1) in *.
  assert (∀ p, p ∉ burst → pl_pool pl' !! p = pl_pool pl !! p) as Hother.
  { intros p Hp. cbn. rewrite Hpool, decide_False, option_fmap_id by done. unfold received. rewrite lookup_union_r; [done|].
    by apply not_elem_of_list_to_map_1. }
  assert (∀ p, p ∈ burst → is_Some (pl_pool pl' !! p)) as Hlive.
  { intros p ([p' m] & -> & Hin)%list_elem_of_fmap. cbn [pl' pl_pool]. rewrite Hpool.
    apply fmap_is_Some. unfold received. rewrite lookup_union, (elem_of_list_to_map_1 _ _ m) by done. by rewrite union_Some_l. }
  destruct (plane_produce V burst (λ _, []) pl pl') as (Hi & Hd & Hw); try done.
  - by apply accepted_ext.
  - apply rings_ext_refl.
  - intros v. split; [constructor|]. by intros p ?%elem_of_nil.
  - intros p v Hp. destruct (accepted_from_burst (pl_vm_rings pl) V burst ToVm Hnd v) as [_ Hb]. by apply Hlive, Hb.
  - by intros p q ?%elem_of_nil.
  - split; [exact Hi|]. split; [exact Hd|]. split_and!; [by intros; apply Hother|exact Hw|done|].
    split; [by exists slow|]. intros p [_ Hp]%with_verdict_mem. by apply Hlive.
Qed.

Lemma plane_tx_wf pl st : plane_inv pl → tx_wf (load_tx pl) ∧ eth_wf (load_eth pl st) ∧
  ∀ p, p ∈ all_queues (load_tx pl) → p ∉ eth_queued (load_eth pl st).
Proof.
  intros (_ & Hl & (Hvms & Hg & Htxf) & Hcap & Hnd & Hlive). apply NoDup_app in Hnd as (Hnd1 & Hd & Hnd2).
  apply live_app in Hlive as [Hl1 Hl2]. split; [|split; [by split|exact Hd]].
  unfold tx_wf. cbn [load_tx tx_vms vhost_tx_rings guest tx_pool]. by split_and!.
Qed.

Lemma plane_vhost_tx e vid pl :
  plane_inv pl → env_ok e →
  ∃ pl', plane_step (VhostTxVisit e vid) pl = Ok pl' ∧ plane_inv pl' ∧
    (∀ v, (v < MAX_VHOSTS)%nat → delivers v (switched v (VhostTxVisit e vid)) pl pl') ∧ plane_frame (VhostTxVisit e vid) pl pl'.
Proof.
  intros Hinv He. destruct (plane_tx_wf pl (mk_eth_tx_stats 0 0 0 0 0) Hinv) as (Htx & (Hnde & Hle & _) & Hdisj).
  pose proof Hinv as (Hco & Hl & _ & Hcap & _).
  destruct (visit_progress e vid (load_tx pl) Htx He) as (w' & Hrun & Hwf' & Hq & Hsub & Hpool).
  cbn [plane_step]. rewrite Hrun. cbn [mbind res_bind]. eexists. split; [reflexivity|]. set (pl' := mk_plane _ _ _ _ _ _ _ _ _ _).
  destruct Hwf' as (Hl1 & Hl2 & Hl3 & Hf & Hnd & Hlive).
  assert (length (vhost_tx_rings w') = length (pl_vm_rings pl)) as Hlr by congruence.
  assert (load_tx pl' = w') as Hload by by destruct w'.
  change (eth_queued (load_eth pl _)) with (concat (ring_items <$> pl_eth_rings pl)) in *.
  split; [unfold plane_inv; split_and!; try done|split].
  - split; [by apply (vrx_frames pl pl')|by apply (rx_frames pl pl')].
  - unfold waiting. rewrite Hload. apply NoDup_app. split; [done|]. split; [|done].
    intros p Hp. by apply Hdisj, Hsub.
  - unfold waiting. rewrite Hload. apply live_app. split; [exact Hlive|]. intros p Hp. cbn [pl' pl_pool].
    rewrite Hpool, decide_False; [by apply Hle|]. intros [Hin _]. by apply (Hdisj p).
  - intros v Hv. destruct (Hq v Hv) as (gone & sent & Hg & Hs & Hgst). exists [], gone, sent.
    split; [done|]. rewrite Hload, app_nil_r. by split_and!.
  - split_and!; [|unfold waiting; rewrite Hload|done|done].
    + intros p _ [Hp _]%not_elem_of_app. cbn [pl' pl_pool]. rewrite Hpool, decide_False; [done|]. by intros [? _].
    + intros p [Hp|Hp]%elem_of_app; left; apply elem_of_app; [left; by apply Hsub|by right].
Qed.

(** The burst a visit of eth_tx takes. *)
Definition take_burst (r : ring nat) : list nat := take MAX_PKT_BURST (ring_items r).

Lemma requeued_of k b r p : p ∈ requeued (take_burst r) k b → p ∈ ring_items r.
Proof. unfold requeued, take_burst. intros Hp. eapply elem_of_take_of, elem_of_drop_of, elem_of_take_of, Hp. Qed.

Lemma plane_eth_tx core take queue pl :
  plane_inv pl → event_ok (EthTxVisit core take queue) pl →
  ∃ pl', plane_step (EthTxVisit core take queue) pl = Ok pl' ∧ plane_inv pl' ∧
    (∀ v, (v < MAX_VHOSTS)%nat → grows v (enqueues v (EthTxVisit core take queue) pl) pl pl') ∧ plane_frame (EthTxVisit core take queue) pl pl'.
Proof.
  intros Hinv (Hcore & Htake & Hlt). destruct (lookup_lt_is_Some_2 (pl_eth pl) core Hcore) as [st0 Hst0].
  destruct (plane_tx_wf pl st0 Hinv) as ((_ & _ & _ & _ & Hndt & Hlt') & Hewf & Hdisj).
  pose proof Hinv as (Hco & Hlv & (Hvms & Hgu & Htxf) & Hcap & _).
  destruct (lookup_lt_is_Some_2 (pl_eth_rings pl) queue Hlt) as [r Hr].
  assert (eth_env_ok (mk_eth_env take []) (load_eth pl st0)) as Henv.
  { split; [done|]. split; [apply Hewf|]. by intros p ?%elem_of_nil. }
  destruct (eth_tx_visit_spec config eth_addr (mk_eth_env take []) queue (load_eth pl st0) r Hewf Henv Hr)
    as (k & a & b & w' & r' & ms & Hrun & Hk & Ha & Hb & Hrings & Hi & Hc & _ & _ & Hpool).
  pose proof (eth_wf_visit config eth_addr (mk_eth_env take []) queue (load_eth pl st0) r k a b w' r' Hewf Henv Hr Ha Hb Hrings Hi Hc Hpool)
    as (Hnd' & Hl' & Hcap').
  cbn [plane_step]. rewrite (arr_get_Some _ _ _ Hst0). cbn [mbind res_bind]. rewrite Hrun. cbn [mbind res_bind].
  eexists. split; [reflexivity|]. set (pl' := mk_plane _ _ _ _ _ _ _ _ _ _).
  destruct (concat_insert_items (pl_eth_rings pl) queue r Hr) as (L & HL & HL'). specialize (HL' r').
  change (eth_tx_queue_rings (load_eth pl st0)) with (pl_eth_rings pl) in Hrings. rewrite <- Hrings in HL'.
  fold (eth_queued (load_eth pl st0)) in HL. fold (eth_queued w') in HL'.
  assert (∀ p, p ∈ take_burst r → p ∈ eth_queued (load_eth pl st0)) as Hburst.
  { intros p Hp. rewrite HL. apply elem_of_app. left. by eapply elem_of_take_of. }
  assert (∀ p, p ∈ eth_queued w' → p ∈ eth_queued (load_eth pl st0)) as Hsub.
  { intros p. rewrite HL', HL, !elem_of_app, Hi. cbn [env_arrive]. rewrite take_nil. cbn [app].
    intros [[Hp|Hp]%elem_of_app|Hp]; [left; by eapply elem_of_drop_of|left; by eapply requeued_of|by right]. }
  assert (∀ p, p ∉ take_burst r → eth_pool w' !! p = pl_pool pl !! p) as Hsame.
  { intros p Hn. rewrite Hpool.
    unfold take_burst in Hn. rewrite !decide_False; [by rewrite option_fmap_id|done|].
    intros [Hg|Hg]%elem_of_app; apply Hn; [by eapply elem_of_take_of|by eapply elem_of_drop_of]. }
  assert (length (pl_eth_rings pl') = length (pl_eth_rings pl)) as Hle by (cbn [pl' pl_eth_rings]; by rewrite Hrings, length_insert).
  assert (waiting pl' = all_queues (load_tx pl) ++ eth_queued w') as Hwait by done.
  split; [unfold plane_inv; rewrite Hwait; split_and!; try done|split].
  - split; [by apply (vrx_frames pl pl')|by apply (rx_frames pl pl')].
  - apply NoDup_app. split; [exact Hndt|]. split; [|exact Hnd'].
    intros p Hp Hp'. exact (Hdisj p Hp (Hsub p Hp')).
  - apply live_app. split; [|exact Hl']. intros p Hp. cbn [pl' pl_pool].
    rewrite Hsame by (intros Hb'; exact (Hdisj p Hp (Hburst p Hb'))). by apply Hlt'.
  - intros v Hv. split; [done|]. by rewrite app_nil_r.
  - split_and!; [|rewrite Hwait|done|done].
    + intros p _ [_ Hp]%not_elem_of_app. apply Hsame. by intros ?%Hburst.
    + intros p [Hp|Hp]%elem_of_app; left; apply elem_of_app; [by left|right; by apply Hsub].
Qed.

(** ** Lemmas: runs *)

Lemma delivers_refl v pl : delivers v [] pl pl.
Proof.
  exists [], [], []. split; [done|]. split; [by rewrite app_nil_r|]. split; [done|].
  destruct (guest (pl_tx pl) !! v); cbn; [by rewrite app_nil_r|done].
Qed.

Lemma delivers_trans v w1 w2 pl1 pl2 pl3 :
  delivers v w1 pl1 pl2 → delivers v w2 pl2 pl3 → delivers v (w1 ++ w2) pl1 pl3.
Proof.
  intros (e1 & g1 & s1 & He1 & Hq1 & Hs1 & Hg1) (e2 & g2 & s2 & He2 & Hq2 & Hs2 & Hg2).
  exists (e1 ++ e2), (g1 ++ g2), (s1 ++ s2). split; [by apply sublist_app|]. split; [|split; [by apply sublist_app|]].
  - by rewrite app_assoc, Hq1, <- !app_assoc, Hq2.
  - rewrite Hg2, Hg1. destruct (guest (pl_tx pl1) !! v); cbn; [by rewrite app_assoc|done].
Qed.

Lemma plane_event_safe ev pl :
  queues_ok config → plane_inv pl → event_ok ev pl →
  ∃ pl', plane_step ev pl = Ok pl' ∧ plane_inv pl' ∧
    (∀ v, (v < MAX_VHOSTS)%nat → delivers v (switched v ev) pl pl') ∧ plane_frame ev pl pl'.
Proof.
  intros Hq Hinv Hev.
  assert ((∃ pl', plane_step ev pl = Ok pl' ∧ plane_inv pl' ∧ (∀ v, (v < MAX_VHOSTS)%nat → grows v (enqueues v ev pl) pl pl') ∧ plane_frame ev pl pl') →
    ∃ pl', plane_step ev pl = Ok pl' ∧ plane_inv pl' ∧ (∀ v, (v < MAX_VHOSTS)%nat → delivers v (switched v ev) pl pl') ∧ plane_frame ev pl pl') as Hgrow.
  { intros (pl' & Hs & Hi & Hg & Hf). exists pl'. split_and!; try done; [|apply Hf..]. intros v Hv.
    eapply grows_delivers; [by apply Hg|apply enqueues_switched]. }
  destruct ev as [core e vid|core e queue|e vid|core take queue]; [apply Hgrow|apply Hgrow| |apply Hgrow].
  - by apply plane_vhost_rx.
  - by apply plane_eth_rx.
  - by apply plane_vhost_tx.
  - by apply plane_eth_tx.
Qed.

(** Only the visits of its own core take packets from a VM's queue. *)
Lemma plane_event_grows ev pl pl' v :
  queues_ok config → plane_inv pl → event_ok ev pl → (∀ e, ev ≠ VhostTxVisit e v) → (v < MAX_VHOSTS)%nat →
  plane_step ev pl = Ok pl' →
  tx_vms (pl_tx pl') !! v = tx_vms (pl_tx pl) !! v ∧ guest (pl_tx pl') !! v = guest (pl_tx pl) !! v ∧
  vm_queue (load_tx pl') v = vm_queue (load_tx pl) v ++ enqueues v ev pl.
Proof.
  intros Hq Hinv Hev Hne Hv E.
  assert (∀ pl0, plane_step ev pl = Ok pl0 → grows v (enqueues v ev pl) pl pl0 →
    tx_vms (pl_tx pl') !! v = tx_vms (pl_tx pl) !! v ∧ guest (pl_tx pl') !! v = guest (pl_tx pl) !! v ∧
    vm_queue (load_tx pl') v = vm_queue (load_tx pl) v ++ enqueues v ev pl) as Hgrow.
  { intros pl0 E0 [Htx ?]. assert (pl0 = pl') as -> by congruence. by rewrite Htx. }
  destruct ev as [core e vid|core e queue|e vid|core take queue].
  - destruct (plane_vhost_rx core e vid pl Hq Hinv Hev) as (pl0 & E0 & _ & Hg & _). eapply Hgrow; [exact E0|by apply Hg].
  - destruct (plane_eth_rx core e queue pl Hinv Hev) as (pl0 & E0 & _ & Hg & _). eapply Hgrow; [exact E0|by apply Hg].
  - destruct (decide (vid = v)) as [->|Hvid]; [by destruct (Hne e)|]. cbn [plane_step] in E. bind_step E as w' Ew. injection E as <-.
    destruct (plane_tx_wf pl (mk_eth_tx_stats 0 0 0 0 0) Hinv) as (Htx & _).
    destruct (vhost_tx_visit_other e vid v (load_tx pl) w' Hvid Ew) as (E1 & E2 & E3). cbn [pl_tx enqueues]. rewrite app_nil_r.
    split_and!; [exact E1|exact E2|]. unfold vm_queue. cbn [load_tx tx_vms vhost_tx_rings pl_tx pl_vm_rings]. by rewrite E1, E3.
  - destruct (plane_eth_tx core take queue pl Hinv Hev) as (pl0 & E0 & _ & Hg & _). eapply Hgrow; [exact E0|by apply Hg].
Qed.

(** What a guest got is a subsequence of what waited for it and what was switched to it. *)
Lemma delivers_sublist v wants pl pl' g :
  delivers v wants pl pl' → guest (pl_tx pl) !! v = Some g →
  ∃ sent, guest (pl_tx pl') !! v = Some (g ++ sent) ∧ sent `sublist_of` vm_queue (load_tx pl) v ++ wants.
Proof.
  intros (enq & gone & sent & He & Hq & Hs & Hg) Hg0. exists sent. rewrite Hg, Hg0. split; [done|].
  etransitivity; [exact Hs|]. transitivity (gone ++ vm_queue (load_tx pl') v); [by apply sublist_inserts_r|].
  rewrite <- Hq. by apply sublist_app.
Qed.

(** ** Property *)

(** The data plane end to end, under any interleaving of visits.  As long as DPDK keeps
    its promises, bursts arrive in free mbufs and messages suffice, no visit of any core
    faults and the invariants of all cores are kept; no packet ever waits in two
    places, and what waits is allocated.  Every VM receives, behind what it had received
    before, packets that were waiting for it or were switched to it by a receive loop,
    each at most once and in the order in which they were switched. *)
Theorem plane_delivers (evs : list plane_event) (pl : plane) :
  queues_ok config → plane_inv pl → run_ok evs pl →
  ∃ pl', plane_run evs pl = Ok pl' ∧ plane_inv pl' ∧
    ∀ v g, (v < MAX_VHOSTS)%nat → guest (pl_tx pl) !! v = Some g →
      delivers v (switched_to v evs) pl pl' ∧
      ∃ sent, guest (pl_tx pl') !! v = Some (g ++ sent) ∧
        sent `sublist_of` vm_queue (load_tx pl) v ++ switched_to v evs.
Proof.
  intros Hq Hinv Hok.
  assert (∃ pl', plane_run evs pl = Ok pl' ∧ plane_inv pl' ∧
    ∀ v, (v < MAX_VHOSTS)%nat → delivers v (switched_to v evs) pl pl') as (pl' & Hrun & Hinv' & Hdel).
  { revert pl Hinv Hok. induction evs as [|ev evs IH]; intros pl Hinv Hok.
    - exists pl. split_and!; try done. intros v _. apply delivers_refl.
    - destruct Hok as [Hev Hok]. destruct (plane_event_safe ev pl Hq Hinv Hev) as (pl1 & Hs & Hinv1 & Hd1 & _).
      destruct (IH pl1 Hinv1 (Hok _ Hs)) as (pl' & Hr & Hinv' & Hd). exists pl'. cbn [plane_run]. rewrite Hs.
      split_and!; try done. intros v Hv. unfold switched_to. cbn [fmap list_fmap concat].
      eapply delivers_trans; [by apply Hd1|by apply Hd]. }
  exists pl'. split; [done|]. split; [done|]. intros v g Hv Hg. split; [by apply Hdel|].
  eapply delivers_sublist; [by apply Hdel|done].
Qed.
End plane.

(** ** Witness *)

(** Nothing waits yet. *)
Definition demo_plane : plane :=
  mk_plane ∅ (replicate MAX_VHOSTS (127%nat, [])) (replicate 4 (127%nat, [])) (127%nat, []) (demo_msgs 2)
    [demo_vrx_world 2; demo_vrx_world 2] [demo_rx_world]
    (mk_tx_world (replicate MAX_VHOSTS demo_tx_vm) [] ∅ (replicate MAX_VHOSTS []))
    [] [mk_eth_tx_stats 0 0 0 0 0].

(** The second vhost_rx core receives VM 1's three packets; VM 2 is served, and the first queue of the NIC. *)
Definition demo_events : list plane_event :=
  [VhostRxVisit 1 (mk_vrx_env (demo_vrx_env 1) 5 5) 1; VhostTxVisit demo_tx_env 2; EthTxVisit 0 (λ n, Z.of_nat n) 0].

Lemma demo_plane_inv : plane_inv demo_config demo_plane.
Proof.
  unfold plane_inv. split_and!; try done.
  - split; [constructor; [exact (demo_vrx_wf 2)|constructor; [exact (demo_vrx_wf 2)|constructor]]|].
    constructor; [exact demo_rx_wf|constructor].
  - apply Forall_replicate. unfold tx_vm_wf, demo_tx_vm. cbn. split_and!; [done|lia|lia].
  - apply Forall_replicate. cbn. lia.
  - change (waiting demo_plane) with (@nil nat). constructor.
  - change (waiting demo_plane) with (@nil nat). by intros p ?%elem_of_nil.
Qed.

Definition sizes (r : res plane) : option (nat * nat) :=
  match r with Ok pl => Some (length (pl_eth pl), length (pl_eth_rings pl)) | Fault _ => None end.
Definition guest_of (v : nat) (r : res plane) : option (list nat) :=
  match r with Ok pl => guest (pl_tx pl) !! v | Fault _ => None end.

Lemma demo_run_ok : run_ok demo_config [2;0;0;0;0;9] demo_events demo_plane.
Proof.
  split; [split; [|split; [|split]]|].
  - cbn. lia.
  - split; [exact (demo_vrx_env_ok 1)|]. eexists. split; [reflexivity|]. split; [reflexivity|].
    intros ptr [= <-]. eexists. split; [reflexivity|]. vm_compute. lia.
  - intros p _. apply lookup_empty.
  - vm_compute. lia.
  - intros pl1 E1. split; [exact demo_tx_env_ok|]. intros pl2 E2. split; [|done].
    assert (sizes (Ok pl2) = Some (1, 4)%nat) as Hs.
    { rewrite <- E2. change (sizes (plane_step demo_config [2;0;0;0;0;9] (VhostTxVisit demo_tx_env 2) pl1))
        with (sizes (mbind (plane_step demo_config [2;0;0;0;0;9] (VhostTxVisit demo_tx_env 2)) (Ok pl1))).
      rewrite <- E1. vm_compute. reflexivity. }
    injection Hs as Hs1 Hs2. split; [|split; [intros n; lia|]].
    + apply Nat.lt_le_trans with 1%nat; [lia|by apply Nat.eq_le_incl].
    + apply Nat.lt_le_trans with 4%nat; [lia|by apply Nat.eq_le_incl].
Qed.

Lemma plane_delivers_witness :
  ∃ pl', plane_run demo_config [2;0;0;0;0;9] demo_events demo_plane = Ok pl' ∧
    guest (pl_tx pl') !! 2%nat = Some [10%nat] ∧ NoDup (waiting pl').
Proof.
  destruct (plane_delivers demo_config [2;0;0;0;0;9] demo_events demo_plane demo_queues_ok demo_plane_inv demo_run_ok)
    as (pl' & E & (_ & _ & _ & _ & Hnd & _) & Hdel).
  exists pl'. split; [exact E|]. split; [|exact Hnd].
  change (guest_of 2 (Ok pl') = Some [10%nat]). rewrite <- E. vm_compute. reflexivity.
Defined.
