(* ===== verification/RingSteps.v ===== *)
(** * The data plane between its ring accesses

    DataPlane.v takes a visit of a core for one step.  Here a visit is a sequence of steps
    with at most one access to a shared ring each, and the steps of all cores interleave:
    a receiving core polls and sorts a burst, and then serves one NIC queue or one
    destination VM per step; a sending core dequeues in one step and sends, with what it
    puts back, in the next.  Between two steps a core has packets in hand.  The fill level
    that ECN marking reads and the enqueue that follows are one step.

    The batches of a receiving core are its arrays [eth_pkts] and [vm_pkts] in
    [w_eth], [w_batch] and [rx_batch]; the packets that a sending core has dequeued are
    kept per VM and per NIC queue, as each is served by one core. *)

From S2P Require Import Prelude CInt Packet Dpdk Ecn Offload Config Poll Plan Route Device VhostTx EthTx Batch EthRx VhostRx DataPlane.
Local Open Scope Z_scope.

(** Where a receiving core is: before the next visit; at the loop over the NIC queues
    (vhost_rx only, with the VM whose statistics it counts in); at the loop over
    [dst_vids]; or about to enqueue its messages. *)
Inductive rx_pc :=
  | RxIdle
  | RxEth (vid : nat) (queues dsts : list nat) (slow : list slow_msg)
  | RxVm (dsts : list nat) (slow : list slow_msg)
  | RxSlow (slow : list slow_msg).

(** The messages in hand. *)
Definition pc_msgs (pc : rx_pc) : list slow_msg :=
  match pc with RxIdle => [] | RxEth _ _ _ slow | RxVm _ slow | RxSlow slow => slow end.

Section ring_steps.
Context `{RteRing} `{RteMempool slow_msg} `{RteFlags} `{RteCksum} `{RteThash} `{RteEther}.
Context (config : config_t) (eth_addr : list Z).

(** ** vhost_rx *)

(** [vhost_rx_burst] up to its flushes. *)
Definition vrx_sort (e : rx_env) (vid : nat) (d : vhost_dev) (st : vdev_rx_stats) (w : vrx_world) : res (vrx_world * rx_pc) :=
  let pkts := (env_burst e).*1 in
  let pool := list_to_map (env_burst e) ∪ w_pool w in
  '(slow, mp) ← learn_msg (ready d) vid pkts (w_msgs w);
  s ← foldM (vhost_rx_packet config e pool vid) pkts
        (mk_vrx_local (start_burst (w_batch w)) (w_eth w) slow mp st);
  Ok (mk_vrx_world pool (w_vm_rings w) (w_eth_rings w) (w_slow w) (v_msgs s) (<[vid := v_st s]> (w_stats w)) (w_ap w)
        (w_poll_states w) (w_iteration w) (w_rr_vm w) (w_rr_eth w) (vm_pkts (v_batch s)) (v_eth s),
      RxEth vid (seq 0 (Z.to_nat (eth_tx_queues config))) (dst_vids (v_batch s)) (v_slow s)).

(** [vhost_rx_visit] up to the flushes. *)
Definition vrx_begin (e : vrx_env) (vid : nat) (w : vrx_world) : res (vrx_world * rx_pc) :=
  vdevs ← match env_vdevs (vr_rx e) with Some l => Ok l | None => Fault NullDeref end;
  if decide (MAX_VHOSTS ≤ vid)%nat then Ok (w, RxIdle)
  else
    slot ← arr_get vdevs vid;
    match slot with
    | None => Ok (w, RxIdle)
    | Some ptr =>
        ap ← arr_get (w_ap w) vid;
        match poll_gate ap (w_iteration w) (vr_now e) with
        | None => Ok (w, RxIdle)
        | Some ap =>
            let num := length (env_burst (vr_rx e)) in
            st ← arr_get (w_stats w) vid;
            st ← vhost_poll num st;
            let w := polled vid st (update_rx_state ap (Z.of_nat num) (w_poll_states w) (vr_tsc e)) w in
            if decide (num = 0%nat) then Ok (w, RxIdle)
            else
              d ← heap_get (env_devs (vr_rx e)) ptr;
              vrx_sort (vr_rx e) vid d st w
        end
    end.

(** One iteration of the loop over the NIC queues. *)
Definition vrx_queue (vid q : nat) (w : vrx_world) : res vrx_world :=
  st ← arr_get (w_stats w) vid;
  eo ← eth_flush_queue q (mk_eth_out (w_eth w) (w_eth_rings w) (w_rr_eth w) (w_pool w) st);
  Ok (mk_vrx_world (eo_pool eo) (w_vm_rings w) (eo_rings eo) (w_slow w) (w_msgs w) (<[vid := eo_st eo]> (w_stats w)) (w_ap w)
        (w_poll_states w) (w_iteration w) (w_rr_vm w) (eo_rr eo) (w_batch w) (eo_pkts eo)).

(** One iteration of the loop over the destinations. *)
Definition vrx_vm (v : nat) (w : vrx_world) : res vrx_world :=
  '(batch, rings, vo) ← flush vm_flush_mark vm_flush_fail [v] (w_batch w) (w_vm_rings w)
    (mk_vm_out (w_rr_vm w) (w_pool w) (w_stats w));
  Ok (mk_vrx_world (vo_pool vo) rings (w_eth_rings w) (w_slow w) (w_msgs w) (vo_stats vo) (w_ap w) (w_poll_states w)
        (w_iteration w) (vo_rr vo) (w_rr_eth w) batch (w_eth w)).

Definition vrx_slow (slow : list slow_msg) (w : vrx_world) : vrx_world :=
  let '(_, r) := flush_slow slow (w_slow w) in
  mk_vrx_world (w_pool w) (w_vm_rings w) (w_eth_rings w) r (w_msgs w) (w_stats w) (w_ap w) (w_poll_states w)
    (w_iteration w) (w_rr_vm w) (w_rr_eth w) (w_batch w) (w_eth w).

(** The next step of a visit; the loop over the destinations stops at an empty batch. *)
Definition vrx_next (pc : rx_pc) (w : vrx_world) : res (vrx_world * rx_pc) :=
  match pc with
  | RxIdle => Ok (w, RxIdle)
  | RxEth vid [] dsts slow => Ok (w, RxVm dsts slow)
  | RxEth vid (q :: qs) dsts slow => w ← vrx_queue vid q w; Ok (w, RxEth vid qs dsts slow)
  | RxVm [] slow => Ok (w, RxSlow slow)
  | RxVm (v :: dsts) slow =>
      l ← arr_get (w_batch w) v;
      w ← vrx_vm v w;
      Ok (w, if decide (l = []) then RxSlow slow else RxVm dsts slow)
  | RxSlow slow => Ok (vrx_slow slow w, RxIdle)
  end.

(** ** eth_rx *)

(** [eth_rx_visit] up to the flushes. *)
Definition erx_begin (e : rx_env) (queue : nat) (w : rx_world) : res (rx_world * rx_pc) :=
  let pkts := (env_burst e).*1 in
  let st := network_poll (length pkts) (rx_stats w) in
  if decide (length pkts = 0%nat)
  then Ok (mk_rx_world (rx_pool w) (rx_rings w) (slowpath_ring w) (msg_pool w) st (rx_batch w), RxIdle)
  else
    let pool := list_to_map (env_burst e) ∪ rx_pool w in
    s ← foldM (eth_rx_packet config e queue) pkts (mk_rx_local pool (start_burst (rx_batch w)) [] (msg_pool w));
    Ok (mk_rx_world (l_pool s) (rx_rings w) (slowpath_ring w) (l_msgs s) st (vm_pkts (l_batch s)),
      RxVm (dst_vids (l_batch s)) (l_slow s)).

Definition erx_vm (v : nat) (w : rx_world) : res rx_world :=
  '(batch, rings, fails) ← flush (λ _ _ _ x, Ok x) (λ _ lost x, Ok (add_fail lost x)) [v] (rx_batch w) (rx_rings w)
    (ers_ring_enq_fail_count (rx_stats w));
  Ok (mk_rx_world (rx_pool w) rings (slowpath_ring w) (msg_pool w) (set_fails fails (rx_stats w)) batch).

Definition erx_slow (slow : list slow_msg) (w : rx_world) : rx_world :=
  let '(lost, r) := flush_slow slow (slowpath_ring w) in
  let fails := ers_ring_enq_fail_count (rx_stats w) in
  mk_rx_world (rx_pool w) (rx_rings w) r (msg_pool w)
    (set_fails (if decide (0 < lost)%nat then add_fail lost fails else fails) (rx_stats w)) (rx_batch w).

(** There is no loop over NIC queues here. *)
Definition erx_next (pc : rx_pc) (w : rx_world) : res (rx_world * rx_pc) :=
  match pc with
  | RxIdle | RxEth _ _ _ _ => Ok (w, pc)
  | RxVm [] slow => Ok (w, RxSlow slow)
  | RxVm (v :: dsts) slow =>
      l ← arr_get (rx_batch w) v;
      w ← erx_vm v w;
      Ok (w, if decide (l = []) then RxSlow slow else RxVm dsts slow)
  | RxSlow slow => Ok (erx_slow slow w, RxIdle)
  end.

(** ** vhost_tx *)

(** [vhost_tx_visit] up to [vhost_send]; a visit that sends kept packets again accesses
    no ring. *)
Definition tx_take (e : tx_env) (vid : nat) (w : tx_world) : res (tx_world * list nat) :=
  if decide (MAX_VHOSTS ≤ vid)%nat then Ok (w, [])
  else
    vm ← arr_get (tx_vms w) vid;
    if bool_decide (bp_state (tx_bp vm) = VM_BLOCKED_TX)
       && (env_now e <? bp_blocked_until_tsc (tx_bp vm)) then Ok (w, [])
    else if decide (0 < retry_cnt vm)%nat then w ← vhost_tx_visit e vid w; Ok (w, [])
    else
      r ← arr_get (vhost_tx_rings w) vid;
      let '(pkts, r) := rte_ring_dequeue_burst r MAX_PKT_BURST in
      let vm := if decide (length pkts = MAX_PKT_BURST)
                then mk_tx_vm (add_deq_max (tx_stats vm)) (retry_pkts vm) (retry_cnt vm) (tx_bp vm)
                else vm in
      Ok (mk_tx_world (<[vid:=vm]> (tx_vms w)) (<[vid:=r]> (vhost_tx_rings w)) (tx_pool w) (guest w), pkts).

Definition tx_give (e : tx_env) (vid : nat) (pkts : list nat) (w : tx_world) : res tx_world :=
  vm ← arr_get (tx_vms w) vid;
  g ← arr_get (guest w) vid;
  let num := length pkts in
  '(ret, vm, pool) ← vhost_send (env_ret e num) (env_tsc e) num pkts vm (tx_pool w);
  Ok (mk_tx_world (<[vid:=vm]> (tx_vms w)) (vhost_tx_rings w) pool (<[vid:=g ++ delivered ret pkts]> (guest w))).

(** ** eth_tx *)

Definition eth_take (q : nat) (w : eth_world) : res (eth_world * list nat) :=
  r ← arr_get (eth_tx_queue_rings w) q;
  let '(pkts, r) := rte_ring_dequeue_burst r MAX_PKT_BURST in
  let st := eth_stats w in
  let st := if decide (length pkts = MAX_PKT_BURST)
    then mk_eth_tx_stats (ets_call_count st) (ets_pkt_count st) (ets_requeue_pkt_count st)
           (ets_max_send_count st) (u32 (ets_ring_deq_max_count st + 1))
    else st in
  Ok (mk_eth_world (<[q:=r]> (eth_tx_queue_rings w)) (eth_pool w) (wire w) st, pkts).

Definition eth_give (ret : Z) (q : nat) (pkts : list nat) (w : eth_world) : res eth_world :=
  pool ← heap_update_all (λ m, set_buf (eth_rewrite config eth_addr (buf m)) m) pkts (eth_pool w);
  '(_, w) ← network_send ret q (length pkts) pkts (mk_eth_world (eth_tx_queue_rings w) pool (wire w) (eth_stats w));
  Ok w.

(** ** The machine *)

(** The shared state, where the receiving cores are, and what the sending cores have in
    hand, per VM and per NIC queue. *)
Record machine := mk_machine {
  m_plane : plane;
  m_vrx : list rx_pc;
  m_rx : list rx_pc;
  m_tx : list (list nat);
  m_eth : list (list nat);
}.

Inductive access_event :=
  | VhostRxBegin (core : nat) (e : vrx_env) (vid : nat)
  | VhostRxNext (core : nat)
  | EthRxBegin (core : nat) (e : rx_env) (queue : nat)
  | EthRxNext (core : nat)
  | VhostTxTake (e : tx_env) (vid : nat)
  | VhostTxGive (e : tx_env) (vid : nat)
  | EthTxTake (core queue : nat)
  | EthTxGive (core : nat) (take : nat → Z) (queue : nat).

Definition store_vrx (core : nat) (w : vrx_world) (pl : plane) : plane :=
  mk_plane (w_pool w) (w_vm_rings w) (w_eth_rings w) (w_slow w) (w_msgs w) (<[core := w]> (pl_vrx pl)) (pl_rx pl)
    (pl_tx pl) (pl_wire pl) (pl_eth pl).
Definition store_rx (core : nat) (w : rx_world) (pl : plane) : plane :=
  mk_plane (rx_pool w) (rx_rings w) (pl_eth_rings pl) (slowpath_ring w) (msg_pool w) (pl_vrx pl) (<[core := w]> (pl_rx pl))
    (pl_tx pl) (pl_wire pl) (pl_eth pl).
Definition store_tx (w : tx_world) (pl : plane) : plane :=
  mk_plane (tx_pool w) (vhost_tx_rings w) (pl_eth_rings pl) (pl_slow pl) (pl_msgs pl) (pl_vrx pl) (pl_rx pl) w
    (pl_wire pl) (pl_eth pl).
Definition store_eth (core : nat) (w : eth_world) (pl : plane) : plane :=
  mk_plane (eth_pool w) (pl_vm_rings pl) (eth_tx_queue_rings w) (pl_slow pl) (pl_msgs pl) (pl_vrx pl) (pl_rx pl) (pl_tx pl)
    (wire w) (<[core := eth_stats w]> (pl_eth pl)).

(** A step of vhost_rx core [core], of an eth_rx core. *)
Definition vrx_act (core : nat) (act : rx_pc → vrx_world → res (vrx_world * rx_pc)) (m : machine) : res machine :=
  let pl := m_plane m in
  w ← arr_get (pl_vrx pl) core;
  pc ← arr_get (m_vrx m) core;
  '(w, pc) ← act pc (load_vrx pl w);
  Ok (mk_machine (store_vrx core w pl) (<[core := pc]> (m_vrx m)) (m_rx m) (m_tx m) (m_eth m)).
Definition erx_act (core : nat) (act : rx_pc → rx_world → res (rx_world * rx_pc)) (m : machine) : res machine :=
  let pl := m_plane m in
  w ← arr_get (pl_rx pl) core;
  pc ← arr_get (m_rx m) core;
  '(w, pc) ← act pc (load_rx pl w);
  Ok (mk_machine (store_rx core w pl) (m_vrx m) (<[core := pc]> (m_rx m)) (m_tx m) (m_eth m)).

(** A core that is in the middle of a visit does not begin another one. *)
Definition machine_step (ev : access_event) (m : machine) : res machine :=
  let pl := m_plane m in
  match ev with
  | VhostRxBegin core e vid =>
      vrx_act core (λ pc w, match pc with RxIdle => vrx_begin e vid w | _ => Ok (w, pc) end) m
  | VhostRxNext core => vrx_act core vrx_next m
  | EthRxBegin core e queue =>
      erx_act core (λ pc w, match pc with RxIdle => erx_begin e queue w | _ => Ok (w, pc) end) m
  | EthRxNext core => erx_act core erx_next m
  | VhostTxTake e vid =>
      match m_tx m !! vid with
      | Some (_ :: _) => Ok m
      | _ =>
          '(w, pkts) ← tx_take e vid (load_tx pl);
          Ok (mk_machine (store_tx w pl) (m_vrx m) (m_rx m) (<[vid := pkts]> (m_tx m)) (m_eth m))
      end
  | VhostTxGive e vid =>
      match m_tx m !! vid with
      | Some (p :: pkts) =>
          w ← tx_give e vid (p :: pkts) (load_tx pl);
          Ok (mk_machine (store_tx w pl) (m_vrx m) (m_rx m) (<[vid := []]> (m_tx m)) (m_eth m))
      | _ => Ok m
      end
  | EthTxTake core queue =>
      match m_eth m !! queue with
      | Some (_ :: _) => Ok m
      | _ =>
          st ← arr_get (pl_eth pl) core;
          '(w, pkts) ← eth_take queue (load_eth pl st);
          Ok (mk_machine (store_eth core w pl) (m_vrx m) (m_rx m) (m_tx m) (<[queue := pkts]> (m_eth m)))
      end
  | EthTxGive core take queue =>
      match m_eth m !! queue with
      | Some (p :: pkts) =>
          st ← arr_get (pl_eth pl) core;
          w ← eth_give (take (length (p :: pkts))) queue (p :: pkts) (load_eth pl st);
          Ok (mk_machine (store_eth core w pl) (m_vrx m) (m_rx m) (m_tx m) (<[queue := []]> (m_eth m)))
      | _ => Ok m
      end
  end.

Fixpoint machine_run (evs : list access_event) (m : machine) : res machine :=
  match evs with
  | [] => Ok m
  | ev :: evs => m ← machine_step ev m; machine_run evs m
  end.

(** All cores between two visits. *)
Definition at_rest (pl : plane) : machine :=
  mk_machine pl ((λ _, RxIdle) <$> pl_vrx pl) ((λ _, RxIdle) <$> pl_rx pl) (replicate MAX_VHOSTS [])
    (replicate (length (pl_eth_rings pl)) []).

(** ** Specification *)

(** What waits for VM [v]: packets kept for a retry, those its core has dequeued, its ring. *)
Definition vm_line (m : machine) (v : nat) : list nat :=
  match tx_vms (pl_tx (m_plane m)) !! v, m_tx m !! v, pl_vm_rings (m_plane m) !! v with
  | Some vm, Some l, Some r => take (retry_cnt vm) (retry_pkts vm) ++ l ++ ring_items r
  | _, _, _ => []
  end.

(** The packets that the receiving cores have in hand, core by core. *)
Definition vrx_hand (w : vrx_world) : list nat := concat (w_eth w) ++ concat (w_batch w).
Definition erx_hand (w : rx_world) : list nat := concat (rx_batch w).
Definition hands (m : machine) : list (list nat) :=
  (vrx_hand <$> pl_vrx (m_plane m)) ++ (erx_hand <$> pl_rx (m_plane m)).

(** Every place that owns packets. *)
Definition owned (m : machine) : list nat :=
  concat (vm_line m <$> seq 0 MAX_VHOSTS) ++ concat (ring_items <$> pl_eth_rings (m_plane m)) ++
  concat (hands m) ++ concat (m_eth m).

(** The batches, while the destinations [dsts] or the queues [qs] are still to be served. *)
Definition batch_at (dsts : list nat) (pkts : list (list nat)) : Prop :=
  length pkts = MAX_VHOSTS ∧ NoDup dsts ∧ (∀ v, v ∈ dsts → v < MAX_VHOSTS)%nat ∧
  ∀ v l, pkts !! v = Some l → l ≠ [] ↔ v ∈ dsts.
Definition eth_at (qs : list nat) (pkts : list (list nat)) : Prop :=
  length pkts = MAX_ETH_TX_QUEUES ∧ NoDup qs ∧ (∀ q, q ∈ qs → q < Z.to_nat (eth_tx_queues config))%nat ∧
  ∀ q l, pkts !! q = Some l → l ≠ [] → q ∈ qs.

Definition vrx_at (pc : rx_pc) (w : vrx_world) : Prop :=
  match pc with
  | RxEth vid qs dsts _ => (vid < MAX_VHOSTS)%nat ∧ eth_at qs (w_eth w) ∧ batch_at dsts (w_batch w)
  | RxVm dsts _ => eth_at [] (w_eth w) ∧ batch_at dsts (w_batch w)
  | RxIdle | RxSlow _ => eth_at [] (w_eth w) ∧ batch_at [] (w_batch w)
  end.
Definition erx_at (pc : rx_pc) (w : rx_world) : Prop :=
  match pc with
  | RxEth _ _ _ _ => False
  | RxVm dsts _ => batch_at dsts (rx_batch w)
  | RxIdle | RxSlow _ => batch_at [] (rx_batch w)
  end.

(** The private state of a vhost_rx core. *)
Definition vrx_fits (w : vrx_world) : Prop :=
  (length (w_stats w) = MAX_VHOSTS ∧ Forall st_wf (w_stats w)) ∧ length (w_ap w) = MAX_VHOSTS ∧
  (length (w_rr_vm w) = MAX_VHOSTS ∧ Forall (in_u 32) (w_rr_vm w)) ∧
  (length (w_rr_eth w) = MAX_ETH_TX_QUEUES ∧ Forall (in_u 32) (w_rr_eth w)).

Definition vrx_cores_ok (m : machine) : Prop :=
  Forall2 (λ w pc, vrx_fits w ∧ vrx_at pc w) (pl_vrx (m_plane m)) (m_vrx m).
Definition erx_cores_ok (m : machine) : Prop :=
  Forall2 (λ w pc, in_u 32 (ers_ring_enq_fail_count (rx_stats w)) ∧ erx_at pc w) (pl_rx (m_plane m)) (m_rx m).

(** A VM whose core has dequeued packets keeps none for a retry. *)
Definition tx_ok (m : machine) : Prop :=
  length (tx_vms (pl_tx (m_plane m))) = MAX_VHOSTS ∧ length (guest (pl_tx (m_plane m))) = MAX_VHOSTS ∧
  Forall tx_vm_wf (tx_vms (pl_tx (m_plane m))) ∧ length (m_tx m) = MAX_VHOSTS ∧
  ∀ v vm l, tx_vms (pl_tx (m_plane m)) !! v = Some vm → m_tx m !! v = Some l →
    (length l ≤ MAX_PKT_BURST)%nat ∧ (l ≠ [] → retry_cnt vm = 0%nat).

Definition rings_ok (m : machine) : Prop :=
  length (pl_vm_rings (m_plane m)) = MAX_VHOSTS ∧
  (Z.to_nat (eth_tx_queues config) ≤ length (pl_eth_rings (m_plane m)))%nat ∧ length (m_eth m) = length (pl_eth_rings (m_plane m)).

(** No packet is in two places, and none is freed while a place owns it. *)
Definition owned_ok (m : machine) : Prop := NoDup (owned m) ∧ live (pl_pool (m_plane m)) (owned m).

Definition machine_inv (m : machine) : Prop :=
  vrx_cores_ok m ∧ erx_cores_ok m ∧ tx_ok m ∧ rings_ok m ∧ owned_ok m.

Definition access_ok (ev : access_event) (m : machine) : Prop :=
  let pl := m_plane m in
  match ev with
  | VhostRxBegin core e vid => m_vrx m !! core = Some RxIdle ∧ entry_ok config e vid ∧ fresh_burst (vr_rx e) pl ∧
      (slow_need config (vr_rx e) ≤ length (pool_objs (pl_msgs pl)))%nat
  | EthRxBegin core e _ => m_rx m !! core = Some RxIdle ∧ rx_env_ok e ∧ fresh_burst e pl ∧
      (length (with_verdict (rx_verdict config e) ToSlow (env_burst e).*1) ≤ length (pool_objs (pl_msgs pl)))%nat
  | VhostRxNext core => (core < length (pl_vrx pl))%nat
  | EthRxNext core => (core < length (pl_rx pl))%nat
  | VhostTxTake e _ | VhostTxGive e _ => env_ok e
  | EthTxTake core queue => (core < length (pl_eth pl))%nat ∧ (queue < length (pl_eth_rings pl))%nat
  | EthTxGive core take queue => (core < length (pl_eth pl))%nat ∧ (queue < length (pl_eth_rings pl))%nat ∧
      ∀ n, 0 ≤ take n ≤ Z.of_nat n
  end.

Fixpoint accesses_ok (evs : list access_event) (m : machine) : Prop :=
  match evs with
  | [] => True
  | ev :: evs => access_ok ev m ∧ ∀ m', machine_step ev m = Ok m' → accesses_ok evs m'
  end.

(** A receiving core: [inl] for vhost_rx, [inr] for eth_rx; its batch for VM [v], and what it
    switches to [v] in a step. *)
Definition batch_for (m : machine) (c : nat + nat) (v : nat) : list nat :=
  default [] (match c with
    | inl core => w ← pl_vrx (m_plane m) !! core; w_batch w !! v
    | inr core => w ← pl_rx (m_plane m) !! core; rx_batch w !! v
    end).
Definition switches (c : nat + nat) (v : nat) (ev : access_event) : list nat :=
  match c, ev with
  | inl core, VhostRxBegin core' e _ =>
      if decide (core = core') then with_verdict (vrx_verdict config (vr_rx e)) (ToVm v) (env_burst (vr_rx e)).*1 else []
  | inr core, EthRxBegin core' e _ =>
      if decide (core = core') then with_verdict (rx_verdict config e) (ToVm v) (env_burst e).*1 else []
  | _, _ => []
  end.

(** The packets that core [c] put, in a record of who put what. *)
Definition put_by (c : nat + nat) (log : list ((nat + nat) * nat)) : list nat := (filter (λ x, x.1 = c) log).*2.

(** From [m] to [m'] the line of VM [v] was extended by the packets of [log], and lost a
    prefix, of which the guest received a subsequence; and every core put in order what it
    had in hand or switched. *)
Definition serves (v : nat) (switched : nat + nat → list nat) (log : list ((nat + nat) * nat)) (m m' : machine) : Prop :=
  (∃ gone sent, vm_line m v ++ log.*2 = gone ++ vm_line m' v ∧ sent `sublist_of` gone ∧
     guest (pl_tx (m_plane m')) !! v = (λ g, g ++ sent) <$> guest (pl_tx (m_plane m)) !! v) ∧
  ∀ c, put_by c log ++ batch_for m' c v `sublist_of` batch_for m c v ++ switched c.

(** Packets [new] arrived and packets [let_go] are owned no longer; mbufs of others are left alone. *)
Definition moved (new let_go : list nat) (m m' : machine) : Prop :=
  (∀ p, p ∉ new → p ∉ owned m → pl_pool (m_plane m') !! p = pl_pool (m_plane m) !! p) ∧
  ∀ p, p ∈ owned m' → (p ∈ new ∨ p ∈ owned m) ∧ p ∉ let_go.

(** A step from [m] to [m'] that is all right, and one with outcome [r] that is. *)
Definition step_to (new let_go : list nat) (sw : nat + nat → nat → list nat) (m m' : machine) : Prop :=
  machine_inv m' ∧ moved new let_go m m' ∧ ∀ v, (v < MAX_VHOSTS)%nat → ∃ log, serves v (λ c, sw c v) log m m'.
Definition step_safe (new let_go : list nat) (sw : nat + nat → nat → list nat) (m : machine) (r : res machine) : Prop :=
  ∃ m', r = Ok m' ∧ step_to new let_go sw m m'.

(** What an access receives, and what of it goes to the slow path. *)
Definition arrives (ev : access_event) : list nat :=
  match ev with
  | VhostRxBegin _ e _ => (env_burst (vr_rx e)).*1
  | EthRxBegin _ e _ => (env_burst e).*1
  | _ => []
  end.
Definition to_slow (ev : access_event) : list nat :=
  match ev with
  | VhostRxBegin _ e _ => with_verdict (vrx_verdict config (vr_rx e)) ToSlow (env_burst (vr_rx e)).*1
  | EthRxBegin _ e _ => with_verdict (rx_verdict config e) ToSlow (env_burst e).*1
  | _ => []
  end.

(** ** Lemmas: ownership *)

Lemma concat_at {A} (ls : list (list A)) i x : ls !! i = Some x →
  ∃ R, concat ls ≡ₚ x ++ R ∧ ∀ y, concat (<[i := y]> ls) ≡ₚ y ++ R.
Proof.
  intros Hi. exists (concat (take i ls ++ drop (S i) ls)).
  assert (∀ y, concat (<[i := y]> ls) ≡ₚ y ++ concat (take i ls ++ drop (S i) ls)) as Hins.
  { intros y. rewrite insert_take_drop by (by eapply lookup_lt_Some). rewrite !concat_app. cbn [concat].
    by rewrite Permutation_app_swap_app. }
  split; [|exact Hins]. rewrite <- (Hins x). by rewrite list_insert_id.
Qed.

Lemma concat_fmap_at (f g : nat → list nat) (l : list nat) v :
  NoDup l → v ∈ l → (∀ u, u ≠ v → g u = f u) → ∃ R, concat (f <$> l) ≡ₚ f v ++ R ∧ concat (g <$> l) ≡ₚ g v ++ R.
Proof.
  intros Hnd [i Hi]%list_elem_of_lookup Hg.
  destruct (concat_at (f <$> l) i (f v)) as (R & HR & HR'); [by rewrite list_lookup_fmap, Hi|].
  exists R. split; [exact HR|]. assert (g <$> l = <[i := g v]> (f <$> l)) as ->; [|done]. apply list_eq. intros j.
  destruct (decide (i = j)) as [<-|Hne].
  - rewrite list_lookup_insert_eq by (rewrite length_fmap; by eapply lookup_lt_Some). by rewrite list_lookup_fmap, Hi.
  - rewrite list_lookup_insert_ne, !list_lookup_fmap by done. destruct (l !! j) as [u|] eqn:Hj; [|done]. cbn.
    f_equal. apply Hg. intros ->. apply Hne. by eapply NoDup_lookup.
Qed.

(** A step that moves packets between places and lets go of some. *)
Lemma owned_ok_step m m' gone :
  owned_ok m → owned m ≡ₚ owned m' ++ gone → (∀ p, p ∈ owned m' → is_Some (pl_pool (m_plane m) !! p) → is_Some (pl_pool (m_plane m') !! p)) →
  owned_ok m'.
Proof.
  intros [Hnd Hl] Hperm Hp. rewrite Hperm in Hnd. apply NoDup_app in Hnd as (Hnd & _). split; [done|].
  intros p Hin. apply Hp; [done|]. apply Hl. rewrite Hperm. apply elem_of_app. by left.
Qed.

Lemma perm_move (new h av ae h' gone A B R C : list nat) :
  new ++ h ≡ₚ av ++ ae ++ h' ++ gone →
  new ++ A ++ B ++ (h ++ R) ++ C ≡ₚ ((A ++ av) ++ (B ++ ae) ++ (h' ++ R) ++ C) ++ gone.
Proof.
  intros Hmv. transitivity ((new ++ h) ++ A ++ B ++ R ++ C).
  { rewrite <- !app_assoc. apply Permutation_app_head. rewrite (Permutation_app_swap_app B h), (Permutation_app_swap_app A h). done. }
  rewrite Hmv. clear Hmv. solve_Permutation.
Qed.

(** A step of a receiving core: with packets [new] and those in hand it fills rings, keeps
    some and lets go of others. *)
Record produces (m m' : machine) (i : nat) (h h' new gone : list nat) (addv adde : nat → list nat) : Prop := {
  pr_hand : hands m !! i = Some h;
  pr_hands : hands m' = <[i := h']> (hands m);
  pr_vm : rings_ext (pl_vm_rings (m_plane m)) (pl_vm_rings (m_plane m')) addv;
  pr_eth : rings_ext (pl_eth_rings (m_plane m)) (pl_eth_rings (m_plane m')) adde;
  pr_same : (pl_tx (m_plane m'), m_tx m', m_eth m') = (pl_tx (m_plane m), m_tx m, m_eth m);
  pr_moved : new ++ h ≡ₚ concat (addv <$> seq 0 MAX_VHOSTS) ++
    concat (adde <$> seq 0 (length (pl_eth_rings (m_plane m)))) ++ h' ++ gone;
  pr_new : NoDup new ∧ ∀ p, p ∈ new → pl_pool (m_plane m) !! p = None;
  pr_pool : ∀ p, p ∉ new → p ∉ h → pl_pool (m_plane m') !! p = pl_pool (m_plane m) !! p;
  pr_live : ∀ p, p ∈ new ++ h → p ∉ gone → is_Some (pl_pool (m_plane m') !! p);
}.

Lemma produces_line m m' i h h' new gone addv adde v :
  produces m m' i h h' new gone addv adde → tx_ok m → rings_ok m → (v < MAX_VHOSTS)%nat → vm_line m' v = vm_line m v ++ addv v.
Proof.
  intros Hpr (Hl1 & _ & _ & Hl2 & _) (Hl3 & _) Hv. pose proof (pr_same _ _ _ _ _ _ _ _ _ Hpr) as [= Htx Hmt _].
  destruct (pr_vm _ _ _ _ _ _ _ _ _ Hpr) as [_ He]. unfold vm_line. rewrite Htx, Hmt.
  destruct (lookup_lt_is_Some_2 (tx_vms (pl_tx (m_plane m))) v) as [vm ->]; [lia|].
  destruct (lookup_lt_is_Some_2 (m_tx m) v) as [l ->]; [lia|].
  destruct (lookup_lt_is_Some_2 (pl_vm_rings (m_plane m)) v) as [r Hr]; [lia|]. rewrite Hr.
  destruct (He v r Hr) as (r' & -> & _ & ->). by rewrite !app_assoc.
Qed.

Lemma produces_owned m m' i h h' new gone addv adde :
  produces m m' i h h' new gone addv adde → tx_ok m → rings_ok m → owned_ok m → owned_ok m' ∧ moved new gone m m'.
Proof.
  intros Hpr Htx Hr [Hnd Hl]. pose proof (pr_same _ _ _ _ _ _ _ _ _ Hpr) as [= _ _ Hme].
  destruct (concat_at _ _ _ (pr_hand _ _ _ _ _ _ _ _ _ Hpr)) as (R & HR & HR').
  assert (new ++ owned m ≡ₚ owned m' ++ gone) as Hperm.
  { unfold owned. rewrite Hme, (pr_hands _ _ _ _ _ _ _ _ _ Hpr), HR', HR.
    rewrite (eth_queued_ext _ _ _ (pr_eth _ _ _ _ _ _ _ _ _ Hpr)).
    rewrite (concat_grow (vm_line m) (vm_line m') addv) by (intros v Hv%elem_of_seq; eapply produces_line; (done || lia)).
    apply perm_move, (pr_moved _ _ _ _ _ _ _ _ _ Hpr). }
  destruct (pr_new _ _ _ _ _ _ _ _ _ Hpr) as [Hndn Hfresh].
  assert (NoDup (new ++ owned m)) as Hnd'.
  { apply NoDup_app. split_and!; [done| |done]. intros p Hp [x Hx]%Hl. by rewrite Hfresh in Hx. }
  assert (∀ p, p ∈ h → p ∈ owned m) as Hin.
  { intros p Hp. unfold owned. rewrite HR. rewrite !elem_of_app. tauto. }
  rewrite Hperm in Hnd'. apply NoDup_app in Hnd' as (Hnd' & Hdis & _). split; [split; [done|]|split].
  - intros p Hp. assert (p ∉ gone) as Hg by by apply Hdis.
    destruct (decide (p ∈ new ++ h)) as [Hnh|Hnh]; [by apply (pr_live _ _ _ _ _ _ _ _ _ Hpr)|].
    rewrite not_elem_of_app in Hnh. destruct Hnh as [Hpn Hph]. rewrite (pr_pool _ _ _ _ _ _ _ _ _ Hpr) by done. apply Hl.
    assert (p ∈ new ++ owned m) as [?|?]%elem_of_app by (rewrite Hperm; apply elem_of_app; by left); done.
  - intros p Hpn Hpo. apply (pr_pool _ _ _ _ _ _ _ _ _ Hpr); auto.
  - intros p Hp. split; [|by apply Hdis]. apply elem_of_app. rewrite Hperm. apply elem_of_app. by left.
Qed.

(** ** Lemmas: one iteration of the loops of the receiving cores *)

(** An array of rings where [l] was put on ring [q]. *)
Definition only (q : nat) (l : list nat) (u : nat) : list nat := if decide (u = q) then l else [].

Lemma only_self q l : only q l q = l.
Proof. unfold only. by rewrite decide_True. Qed.

Lemma concat_only q l us : NoDup us → q ∈ us → concat (only q l <$> us) ≡ₚ l.
Proof.
  intros Hnd Hq. destruct (concat_fmap_at (λ _, []) (only q l) us q Hnd Hq) as (R & HR1 & HR2).
  { intros u Hu. unfold only. by rewrite decide_False. }
  rewrite HR2, only_self. assert (concat ((λ _, @nil nat) <$> us) = []) as E by (clear; by induction us).
  rewrite E in HR1. cbn [app] in HR1. by rewrite <- HR1, app_nil_r.
Qed.

Lemma concat_none (us : list nat) : concat ((λ _, @nil nat) <$> us) = [].
Proof. by induction us. Qed.

Lemma rings_ext_only (rings : list (ring nat)) q r r' l :
  rings !! q = Some r → ring_capacity r' = ring_capacity r → ring_items r' = ring_items r ++ l →
  rings_ext rings (<[q := r']> rings) (only q l).
Proof.
  intros Hr Hc Hi. split; [by rewrite length_insert|]. intros u ru Hu. unfold only. destruct (decide (u = q)) as [->|Hne].
  - exists r'. rewrite list_lookup_insert_eq by (by eapply lookup_lt_Some). assert (ru = r) as -> by congruence. done.
  - exists ru. rewrite list_lookup_insert_ne by done. by rewrite app_nil_r.
Qed.

Lemma enqueue_eq (r : ring nat) l : ∃ r', rte_ring_enqueue_burst r l = ((length l `min` rte_ring_free_count r)%nat, r') ∧
  ring_items r' = ring_items r ++ take (rte_ring_free_count r) l ∧ ring_capacity r' = ring_capacity r ∧
  drop (length l `min` rte_ring_free_count r) l = drop (rte_ring_free_count r) l.
Proof.
  destruct (rte_ring_enqueue_burst r l) as [k r'] eqn:E. destruct (ring_enqueue_eq _ _ _ _ _ E) as (-> & Hi & Hc).
  exists r'. split; [done|]. rewrite Hi. destruct (decide (length l ≤ rte_ring_free_count r)%nat).
  - rewrite Nat.min_l, !take_ge, !drop_ge by lia. done.
  - by rewrite Nat.min_r by lia.
Qed.

Lemma marked_other c rr l (h h' : gmap nat mbuf) :
  (∀ p, h' !! p = (if ecn_marks c rr l p then λ m, set_buf (ecn_mark_packet (buf m)) m else id) <$> h !! p) →
  (∀ p, p ∉ l → h' !! p = h !! p) ∧ ∀ p, is_Some (h !! p) → is_Some (h' !! p).
Proof.
  intros Hh. split; intros p Hp; rewrite Hh; [|by apply fmap_is_Some]. by rewrite ecn_marks_out, option_fmap_id.
Qed.

(** Serving a NIC queue. *)
Lemma eth_flush_queue_ok q s l r rr :
  eo_pkts s !! q = Some l → eo_rings s !! q = Some r → eo_rr s !! q = Some rr → in_u 32 rr → NoDup l → live (eo_pool s) l →
  ∃ pool r' rr' st, eth_flush_queue q s =
      Ok (mk_eth_out (<[q := []]> (eo_pkts s)) (<[q := r']> (eo_rings s)) (<[q := rr']> (eo_rr s)) pool st) ∧
    ring_items r' = ring_items r ++ take (rte_ring_free_count r) l ∧ ring_capacity r' = ring_capacity r ∧ in_u 32 rr' ∧
    (st_wf (eo_st s) → st_wf st) ∧ (∀ p, p ∉ l → pool !! p = eo_pool s !! p) ∧
    ∀ p, p ∈ l → p ∉ drop (rte_ring_free_count r) l → is_Some (pool !! p).
Proof.
  intros Hl Hr Hrr Hrange Hnd Hlive. unfold eth_flush_queue. rewrite (arr_get_Some _ _ _ Hl). cbn [mbind res_bind].
  destruct (decide (l = [])) as [->|Hne].
  { exists (eo_pool s), r, rr, (eo_st s). destruct s as [pkts rings rrs pool st]. cbn in *. rewrite !list_insert_id by done.
    split; [done|]. rewrite take_nil, app_nil_r. split_and!; try done. by intros p ?%elem_of_nil. }
  rewrite (arr_get_Some _ _ _ Hr). cbn [mbind res_bind]. rewrite (arr_get_Some _ _ _ Hrr). cbn [mbind res_bind].
  destruct (ecn_mark_packets_all (ring_congestion r) rr l (eo_pool s) Hnd Hlive Hrange) as (h & -> & Hh). cbn [mbind res_bind].
  destruct (marked_other _ _ _ _ _ Hh) as [Hother Hsome]. destruct (enqueue_eq r l) as (r' & -> & Hi & Hc & Hdrop).
  destruct (heap_free_all_spec (drop (length l `min` rte_ring_free_count r) l) h) as (h' & -> & Hh').
  { rewrite <- (take_drop (length l `min` rte_ring_free_count r) l) in Hnd. by apply NoDup_app in Hnd as (_ & _ & ?). }
  { intros p Hp%elem_of_drop_of. by apply Hsome, Hlive. }
  cbn [mbind res_bind]. eexists h', r', _, _. split; [reflexivity|]. rewrite Hdrop in Hh'. split_and!; [done|done| | | |].
  - by apply ecn_rr_after_range.
  - by case_decide.
  - intros p Hp. rewrite Hh', decide_False by (by intros ?%elem_of_drop_of). by apply Hother.
  - intros p Hp Hpd. rewrite Hh', decide_False by done. by apply Hsome, Hlive.
Qed.

(** Serving a destination. *)
Lemma vm_flush_one v batch rings s l r rr :
  batch !! v = Some l → l ≠ [] → rings !! v = Some r → vo_rr s !! v = Some rr → in_u 32 rr → NoDup l → live (vo_pool s) l →
  (v < length (vo_stats s))%nat → Forall st_wf (vo_stats s) →
  ∃ pool r' rr' stats, flush vm_flush_mark vm_flush_fail [v] batch rings s =
      Ok (<[v := []]> batch, <[v := r']> rings, mk_vm_out (<[v := rr']> (vo_rr s)) pool stats) ∧
    ring_items r' = ring_items r ++ take (rte_ring_free_count r) l ∧ ring_capacity r' = ring_capacity r ∧ in_u 32 rr' ∧
    length stats = length (vo_stats s) ∧ Forall st_wf stats ∧
    (∀ p, p ∉ l → pool !! p = vo_pool s !! p) ∧ ∀ p, p ∈ l → is_Some (pool !! p).
Proof.
  intros Hl Hne Hr Hrr Hrange Hnd Hlive Hv Hst. cbn [flush]. rewrite (arr_get_Some _ _ _ Hl). cbn [mbind res_bind].
  rewrite decide_False by done. rewrite (arr_get_Some _ _ _ Hr). cbn [mbind res_bind].
  unfold vm_flush_mark at 1. rewrite (arr_get_Some _ _ _ Hrr). cbn [mbind res_bind]. fold (ring_congestion r).
  destruct (ecn_mark_packets_all (ring_congestion r) rr l (vo_pool s) Hnd Hlive Hrange) as (h & -> & Hh). cbn [mbind res_bind].
  destruct (marked_other _ _ _ _ _ Hh) as [Hother Hsome]. destruct (enqueue_eq r l) as (r' & -> & Hi & Hc & _).
  destruct (lookup_lt_is_Some_2 (vo_stats s) v Hv) as [st Hsv].
  exists h, r'. case_decide.
  - unfold vm_flush_fail. cbn [vo_stats vo_rr vo_pool]. rewrite (arr_get_Some _ _ _ Hsv). cbn [mbind res_bind].
    eexists _, _. split; [reflexivity|]. rewrite length_insert. split_and!; try done.
    + by apply ecn_rr_after_range.
    + apply Forall_insert; [done|]. pose proof (Forall_lookup_1 _ _ _ _ Hst Hsv) as Hwf. exact Hwf.
    + intros p Hp. by apply Hsome, Hlive.
  - eexists _, _. split; [reflexivity|]. split_and!; try done.
    + by apply ecn_rr_after_range.
    + intros p Hp. by apply Hsome, Hlive.
Qed.

Lemma erx_flush_one v batch (rings : list (ring nat)) x l r :
  batch !! v = Some l → l ≠ [] → rings !! v = Some r →
  ∃ r' x', flush (λ _ _ _ x, Ok x) (λ _ lost x, Ok (add_fail lost x)) [v] batch rings x =
      Ok (<[v := []]> batch, <[v := r']> rings, x') ∧
    ring_items r' = ring_items r ++ take (rte_ring_free_count r) l ∧ ring_capacity r' = ring_capacity r ∧
    (in_u 32 x → in_u 32 x').
Proof.
  intros Hl Hne Hr. cbn [flush]. rewrite (arr_get_Some _ _ _ Hl). cbn [mbind res_bind].
  rewrite decide_False by done. rewrite (arr_get_Some _ _ _ Hr). cbn [mbind res_bind].
  destruct (enqueue_eq r l) as (r' & -> & Hi & Hc & _). exists r'. case_decide; cbn [mbind res_bind].
  - eexists. split; [reflexivity|]. split_and!; try done. intros _. unfold add_fail, in_u, u32, wrap. by apply Z.mod_pos_bound.
  - by eexists.
Qed.

(** ** Lemmas: batches that are being served *)

Lemma batch_at_next v dsts pkts : batch_at (v :: dsts) pkts →
  ∃ l, pkts !! v = Some l ∧ l ≠ [] ∧ (v < MAX_VHOSTS)%nat ∧ batch_at dsts (<[v := []]> pkts).
Proof.
  intros (Hl & Hnd & Hlt & Hb). apply NoDup_cons in Hnd as [Hv Hnd]. pose proof (Hlt v ltac:(by left)) as Hvl.
  destruct (lookup_lt_is_Some_2 pkts v) as [l Hlv]; [lia|]. exists l.
  split; [done|]. split; [apply (Hb v l Hlv); by left|]. split; [done|]. split_and!.
  - by rewrite length_insert.
  - done.
  - intros u Hu. apply Hlt. by right.
  - intros u lu. destruct (decide (v = u)) as [<-|Hne].
    + rewrite list_lookup_insert_eq by lia. by intros [= <-].
    + rewrite list_lookup_insert_ne by done. intros Hu. rewrite (Hb u lu Hu), elem_of_cons. split; [by intros [->|]|by right].
Qed.

Lemma eth_at_next q qs pkts : queues_ok config → eth_at (q :: qs) pkts →
  ∃ l, pkts !! q = Some l ∧ (q < Z.to_nat (eth_tx_queues config))%nat ∧ eth_at qs (<[q := []]> pkts).
Proof.
  intros [Hq1 Hq2] (Hl & Hnd & Hlt & Hb). apply NoDup_cons in Hnd as [Hq Hnd]. pose proof (Hlt q ltac:(by left)) as Hql.
  destruct (lookup_lt_is_Some_2 pkts q) as [l Hlq]; [lia|]. exists l. split; [done|]. split; [done|]. split_and!.
  - by rewrite length_insert.
  - done.
  - intros u Hu. apply Hlt. by right.
  - intros u lu. destruct (decide (q = u)) as [<-|Hne].
    + rewrite list_lookup_insert_eq by lia. by intros [= <-].
    + rewrite list_lookup_insert_ne by done. intros Hu Hn. destruct (proj1 (elem_of_cons _ _ _) (Hb u lu Hu Hn)) as [->|]; done.
Qed.

Lemma batch_at_done pkts : batch_at [] pkts → batch_clean pkts.
Proof.
  intros (Hl & _ & _ & Hb). unfold batch_clean. apply list_eq. intros v. destruct (pkts !! v) as [l|] eqn:Hv.
  - pose proof (lookup_lt_Some _ _ _ Hv). rewrite lookup_replicate_2 by lia. f_equal.
    destruct l; [done|]. by destruct (proj1 (elem_of_nil _) (proj1 (Hb v _ Hv) ltac:(done))).
  - apply lookup_ge_None_1 in Hv. by rewrite lookup_ge_None_2 by (rewrite length_replicate; lia).
Qed.

Lemma eth_at_done pkts : eth_at [] pkts → pkts = replicate MAX_ETH_TX_QUEUES [].
Proof.
  intros (Hl & _ & _ & Hb). apply list_eq. intros v. destruct (pkts !! v) as [l|] eqn:Hv.
  - pose proof (lookup_lt_Some _ _ _ Hv). rewrite lookup_replicate_2 by lia. f_equal.
    destruct l; [done|]. by destruct (proj1 (elem_of_nil _) (Hb v _ Hv ltac:(done))).
  - apply lookup_ge_None_1 in Hv. by rewrite lookup_ge_None_2 by (rewrite length_replicate; lia).
Qed.

Lemma batch_at_clean pkts : batch_clean pkts → batch_at [] pkts.
Proof.
  intros ->. split_and!; [by rewrite length_replicate|constructor|by intros v ?%elem_of_nil|].
  intros v l [-> _]%lookup_replicate. split; [done|by intros ?%elem_of_nil].
Qed.

Lemma batch_at_ok V burst b : batch_ok V burst b → batch_at (dst_vids b) (vm_pkts b).
Proof.
  intros (Hl & Hp & Hnd & Hd & _). split_and!; [done|done|by intros v [? _]%Hd|]. intros v l Hv.
  pose proof (lookup_lt_Some _ _ _ Hv). rewrite Hd. rewrite Hp in Hv by lia. injection Hv as <-. split; [intros Hn; split; [lia|done]|by intros [_ ?]].
Qed.

(** A packet list inside what a core has in hand. *)
Lemma in_hand m i h : owned_ok m → hands m !! i = Some h → NoDup h ∧ live (pl_pool (m_plane m)) h.
Proof.
  intros [Hnd Hl] Hh. destruct (concat_at _ _ _ Hh) as (R & HR & _).
  assert (owned m ≡ₚ h ++ concat (vm_line m <$> seq 0 MAX_VHOSTS) ++ concat (ring_items <$> pl_eth_rings (m_plane m)) ++ R ++ concat (m_eth m)) as Hp.
  { unfold owned. rewrite HR, <- app_assoc. rewrite (Permutation_app_swap_app (concat (ring_items <$> _)) h). apply Permutation_app_swap_app. }
  rewrite Hp in Hnd, Hl. apply NoDup_app in Hnd as (Hnd & _). by apply live_app in Hl as [Hl _].
Qed.

(** *** What a step of a receiving core does for the VMs *)

Lemma put_by_self c l : put_by c (pair c <$> l) = l.
Proof.
  unfold put_by. induction l as [|p l IH]; [done|]. cbn [fmap list_fmap]. rewrite filter_cons, decide_True by done.
  cbn [fmap list_fmap snd]. by f_equal.
Qed.

Lemma put_by_other c c' l : c' ≠ c → put_by c' (pair c <$> l) = [].
Proof.
  intros Hne. unfold put_by. induction l as [|p l IH]; [done|]. cbn [fmap list_fmap]. by rewrite filter_cons, decide_False.
Qed.

Lemma put_by_app c l1 l2 : put_by c (l1 ++ l2) = put_by c l1 ++ put_by c l2.
Proof. unfold put_by. by rewrite filter_app, fmap_app. Qed.

Lemma produces_serves m m' i h h' new gone addv adde c v (sw : nat + nat → list nat) :
  produces m m' i h h' new gone addv adde → tx_ok m → rings_ok m → (v < MAX_VHOSTS)%nat →
  (∀ c', c' ≠ c → batch_for m' c' v = batch_for m c' v) →
  addv v ++ batch_for m' c v `sublist_of` batch_for m c v ++ sw c →
  ∃ log, serves v sw log m m'.
Proof.
  intros Hpr Htx Hr Hv Hother Hsub. pose proof (pr_same _ _ _ _ _ _ _ _ _ Hpr) as [= Hptx _ _].
  exists (pair c <$> addv v). split.
  - exists [], []. rewrite Hptx, (produces_line _ _ _ _ _ _ _ _ _ _ Hpr) by done. rewrite <- list_fmap_compose.
    assert (snd ∘ pair c <$> addv v = addv v) as -> by apply list_fmap_id. split_and!; try done.
    destruct (guest (pl_tx (m_plane m)) !! v); cbn; [by rewrite app_nil_r|done].
  - intros c'. destruct (decide (c' = c)) as [->|Hne]; [by rewrite put_by_self|].
    rewrite put_by_other, Hother by done. cbn [app]. apply sublist_inserts_r. done.
Qed.

Lemma step_safe_weaken new gone gone' sw m r : step_safe new gone sw m r → (∀ p, p ∈ gone' → p ∈ gone) → step_safe new gone' sw m r.
Proof.
  intros (m' & E & Hinv & [Hpool Ho] & Hs) Hsub. exists m'. split; [done|]. split; [done|]. split; [|done].
  split; [done|]. intros p Hp. destruct (Ho p Hp) as [? Hg]. split; [done|]. auto.
Qed.

Lemma step_safe_forget new gone sw m r : step_safe new gone sw m r → step_safe new [] sw m r.
Proof. intros Hs. apply (step_safe_weaken new gone); [done|]. by intros p ?%elem_of_nil. Qed.

(** A burst that nobody looked at. *)
Lemma step_safe_unseen burst gone sw m r : owned_ok m → (∀ p, p ∈ burst → pl_pool (m_plane m) !! p = None) →
  (∀ p, p ∈ gone → p ∈ burst) → step_safe [] [] sw m r → step_safe burst gone sw m r.
Proof.
  intros [_ Hl] Hfresh Hsub (m' & E & Hinv & [Hpool Ho] & Hs). exists m'. split; [done|]. split; [done|]. split; [|done]. split.
  - intros p _. apply Hpool. by intros ?%elem_of_nil.
  - intros p Hp. destruct (Ho p Hp) as [[?%elem_of_nil|Hin] _]; [done|]. split; [by right|]. intros Hg%Hsub%Hfresh.
    destruct (Hl p Hin) as [x Hx]. congruence.
Qed.

(** What a step of a receiving core has to show of its packets, its rings and the pool. *)
Definition core_moves (pl : plane) (h h' new gone : list nat) (addv adde : nat → list nat) (vm_rings eth_rings : list (ring nat))
    (pool : gmap nat mbuf) : Prop :=
  rings_ext (pl_vm_rings pl) vm_rings addv ∧ rings_ext (pl_eth_rings pl) eth_rings adde ∧
  new ++ h ≡ₚ concat (addv <$> seq 0 MAX_VHOSTS) ++ concat (adde <$> seq 0 (length (pl_eth_rings pl))) ++ h' ++ gone ∧
  (NoDup new ∧ ∀ p, p ∈ new → pl_pool pl !! p = None) ∧
  (∀ p, p ∉ new → p ∉ h → pool !! p = pl_pool pl !! p) ∧
  ∀ p, p ∈ new ++ h → p ∉ gone → is_Some (pool !! p).

Lemma vrx_act_ok core act m w0 pc w pc' new gone addv adde (sw : nat + nat → nat → list nat) :
  machine_inv m → pl_vrx (m_plane m) !! core = Some w0 → m_vrx m !! core = Some pc →
  act pc (load_vrx (m_plane m) w0) = Ok (w, pc') → vrx_fits w → vrx_at pc' w →
  core_moves (m_plane m) (vrx_hand w0) (vrx_hand w) new gone addv adde (w_vm_rings w) (w_eth_rings w) (w_pool w) →
  (∀ v, (v < MAX_VHOSTS)%nat → addv v ++ default [] (w_batch w !! v) `sublist_of` default [] (w_batch w0 !! v) ++ sw (inl core) v) →
  step_safe new gone sw m (vrx_act core act m).
Proof.
  intros (Hvc & Hec & Htx & Hr & Ho) Hw Hpc Hact Hfits Hat (Hext & Hexte & Hmv & Hnew & Hpool & Hlive) Hsub.
  unfold vrx_act. rewrite (arr_get_Some _ _ _ Hw). cbn [mbind res_bind]. rewrite (arr_get_Some _ _ _ Hpc). cbn [mbind res_bind].
  rewrite Hact. cbn [mbind res_bind]. eexists. split; [reflexivity|]. set (m' := mk_machine _ _ _ _ _).
  pose proof (lookup_lt_Some _ _ _ Hw) as Hlt.
  assert (produces m m' core (vrx_hand w0) (vrx_hand w) new gone addv adde) as Hpr.
  { split; try done.
    - unfold hands. rewrite lookup_app_l by (by rewrite length_fmap). by rewrite list_lookup_fmap, Hw.
    - unfold hands, m'. cbn [m_plane store_vrx pl_vrx pl_rx]. rewrite insert_app_l by (by rewrite length_fmap). by rewrite list_fmap_insert. }
  destruct (produces_owned _ _ _ _ _ _ _ _ _ Hpr Htx Hr Ho) as [Ho' Hmoved]. split; [|split; [done|]].
  - split_and!.
    + by apply Forall2_insert.
    + exact Hec.
    + exact Htx.
    + destruct Hr as (Hr1 & Hr2 & Hr3), Hext as [Hx _], Hexte as [Hxe _]. unfold rings_ok, m'. cbn. rewrite Hx, Hxe. by split_and!.
    + exact Ho'.
  - intros v Hv. apply (produces_serves m m' core (vrx_hand w0) (vrx_hand w) new gone addv adde (inl core)); try done.
    + intros [c|c] Hne; [|done]. unfold batch_for, m'. cbn [m_plane store_vrx pl_vrx]. rewrite list_lookup_insert_ne by congruence. done.
    + unfold batch_for, m'. cbn [m_plane store_vrx pl_vrx]. rewrite list_lookup_insert_eq, Hw by done. cbn. by apply Hsub.
Qed.

Lemma erx_act_ok core act m w0 pc w pc' new gone addv (sw : nat + nat → nat → list nat) :
  machine_inv m → pl_rx (m_plane m) !! core = Some w0 → m_rx m !! core = Some pc →
  act pc (load_rx (m_plane m) w0) = Ok (w, pc') → in_u 32 (ers_ring_enq_fail_count (rx_stats w)) → erx_at pc' w →
  core_moves (m_plane m) (erx_hand w0) (erx_hand w) new gone addv (λ _, []) (rx_rings w) (pl_eth_rings (m_plane m)) (rx_pool w) →
  (∀ v, (v < MAX_VHOSTS)%nat → addv v ++ default [] (rx_batch w !! v) `sublist_of` default [] (rx_batch w0 !! v) ++ sw (inr core) v) →
  step_safe new gone sw m (erx_act core act m).
Proof.
  intros (Hvc & Hec & Htx & Hr & Ho) Hw Hpc Hact Hfails Hat (Hext & Hexte & Hmv & Hnew & Hpool & Hlive) Hsub.
  unfold erx_act. rewrite (arr_get_Some _ _ _ Hw). cbn [mbind res_bind]. rewrite (arr_get_Some _ _ _ Hpc). cbn [mbind res_bind].
  rewrite Hact. cbn [mbind res_bind]. eexists. split; [reflexivity|]. set (m' := mk_machine _ _ _ _ _).
  pose proof (lookup_lt_Some _ _ _ Hw) as Hlt.
  assert (produces m m' (length (pl_vrx (m_plane m)) + core)%nat (erx_hand w0) (erx_hand w) new gone addv (λ _, [])) as Hpr.
  { split; try done.
    - unfold hands. rewrite <- (length_fmap vrx_hand), lookup_app_r, Nat.add_comm, Nat.add_sub by lia. by rewrite list_lookup_fmap, Hw.
    - unfold hands, m'. cbn [m_plane store_rx pl_vrx pl_rx]. rewrite <- (length_fmap vrx_hand).
      rewrite insert_app_r. by rewrite list_fmap_insert. }
  destruct (produces_owned _ _ _ _ _ _ _ _ _ Hpr Htx Hr Ho) as [Ho' Hmoved]. split; [|split; [done|]].
  - split_and!.
    + exact Hvc.
    + by apply Forall2_insert.
    + exact Htx.
    + destruct Hr as (Hr1 & Hr2 & Hr3), Hext as [Hx _]. unfold rings_ok, m'. cbn. rewrite Hx. by split_and!.
    + exact Ho'.
  - intros v Hv. apply (produces_serves m m' (length (pl_vrx (m_plane m)) + core)%nat (erx_hand w0) (erx_hand w) new gone addv (λ _, []) (inr core)); try done.
    + intros [c|c] Hne; [done|]. unfold batch_for, m'. cbn [m_plane store_rx pl_rx]. rewrite list_lookup_insert_ne by congruence. done.
    + unfold batch_for, m'. cbn [m_plane store_rx pl_rx]. rewrite list_lookup_insert_eq, Hw by done. cbn. by apply Hsub.
Qed.

(** A step without packets. *)
Lemma core_moves_none pl h : core_moves pl h h [] [] (λ _, []) (λ _, []) (pl_vm_rings pl) (pl_eth_rings pl) (pl_pool pl) ↔ live (pl_pool pl) h.
Proof.
  unfold core_moves. rewrite !concat_none. cbn [app]. rewrite app_nil_r. split.
  - intros (_ & _ & _ & _ & _ & Hl) p Hp. apply Hl; [done|]. by intros ?%elem_of_nil.
  - intros Hl. split_and!; try apply rings_ext_refl; try done; [constructor|by intros p ?%elem_of_nil|by intros p Hp _; apply Hl].
Qed.

(** Serving VM [v] or queue [q] with the packets [l] in hand, of which [lost] are let go. *)
Lemma core_moves_vm pl h h' l v r r' pool :
  pl_vm_rings pl !! v = Some r → ring_capacity r' = ring_capacity r → ring_items r' = ring_items r ++ take (rte_ring_free_count r) l →
  h ≡ₚ l ++ h' → (v < MAX_VHOSTS)%nat → live (pl_pool pl) h →
  (∀ p, p ∉ l → pool !! p = pl_pool pl !! p) → (∀ p, p ∈ l → is_Some (pool !! p)) →
  core_moves pl h h' [] (drop (rte_ring_free_count r) l) (only v (take (rte_ring_free_count r) l)) (λ _, [])
    (<[v := r']> (pl_vm_rings pl)) (pl_eth_rings pl) pool.
Proof.
  intros Hr Hc Hi Hh Hv Hl Hother Hsome. unfold core_moves. rewrite concat_none, concat_only by (apply NoDup_seq || (apply elem_of_seq; lia)).
  split_and!; [by eapply rings_ext_only|apply rings_ext_refl| |constructor|by intros p ?%elem_of_nil| |]; cbn [app].
  - rewrite Hh. rewrite <- (take_drop (rte_ring_free_count r) l) at 1. rewrite <- app_assoc. apply Permutation_app_head, Permutation_app_comm.
  - intros p _ Hp. apply Hother. intros Hpl. apply Hp. rewrite Hh. apply elem_of_app. by left.
  - intros p Hp _. destruct (decide (p ∈ l)); [by apply Hsome|]. rewrite Hother by done. by apply Hl.
Qed.

Lemma core_moves_eth pl h h' l q r r' pool :
  pl_eth_rings pl !! q = Some r → ring_capacity r' = ring_capacity r → ring_items r' = ring_items r ++ take (rte_ring_free_count r) l →
  h ≡ₚ l ++ h' → live (pl_pool pl) h →
  (∀ p, p ∉ l → pool !! p = pl_pool pl !! p) → (∀ p, p ∈ l → p ∉ drop (rte_ring_free_count r) l → is_Some (pool !! p)) →
  core_moves pl h h' [] (drop (rte_ring_free_count r) l) (λ _, []) (only q (take (rte_ring_free_count r) l))
    (pl_vm_rings pl) (<[q := r']> (pl_eth_rings pl)) pool.
Proof.
  intros Hr Hc Hi Hh Hl Hother Hsome. pose proof (lookup_lt_Some _ _ _ Hr) as Hlt. unfold core_moves.
  rewrite concat_none, concat_only by (apply NoDup_seq || (apply elem_of_seq; lia)).
  split_and!; [apply rings_ext_refl|by eapply rings_ext_only| |constructor|by intros p ?%elem_of_nil| |]; cbn [app].
  - rewrite Hh. rewrite <- (take_drop (rte_ring_free_count r) l) at 1. rewrite <- app_assoc. apply Permutation_app_head, Permutation_app_comm.
  - intros p _ Hp. apply Hother. intros Hpl. apply Hp. rewrite Hh. apply elem_of_app. by left.
  - intros p Hp Hg. destruct (decide (p ∈ l)); [by apply Hsome|]. rewrite Hother by done. by apply Hl.
Qed.

(** A burst that was sorted into what is in hand now; the rest is dropped or became messages. *)
Lemma core_moves_begin pl burst h' pool :
  NoDup burst → (∀ p, p ∈ burst → pl_pool pl !! p = None) → NoDup h' → (∀ p, p ∈ h' → p ∈ burst) →
  (∀ p, p ∉ burst → pool !! p = pl_pool pl !! p) → (∀ p, p ∈ burst → is_Some (pool !! p)) →
  core_moves pl [] h' burst (filter (λ p, p ∉ h') burst) (λ _, []) (λ _, []) (pl_vm_rings pl) (pl_eth_rings pl) pool.
Proof.
  intros Hnd Hfresh Hnd' Hin Hother Hsome. unfold core_moves. rewrite !concat_none, app_nil_r. cbn [app].
  split_and!; try apply rings_ext_refl; try done.
  - apply NoDup_Permutation; [done| |].
    + apply NoDup_app. split_and!; [done| |by apply NoDup_filter]. by intros p Hp [Hn _]%list_elem_of_filter.
    + intros p. rewrite elem_of_app, list_elem_of_filter. split; [|by intros [?%Hin|[_ ?]]].
      intros Hp. destruct (decide (p ∈ h')); [by left|by right].
  - intros p Hp _. by apply Hother.
  - intros p Hp _. by apply Hsome.
Qed.

(** Batches by verdict. *)
Lemma batches_eq (ls : list (list nat)) n (f : nat → list nat) :
  length ls = n → (∀ v, (v < n)%nat → ls !! v = Some (f v)) → ls = f <$> seq 0 n.
Proof.
  intros Hl Hf. apply list_eq. intros v. rewrite list_lookup_fmap. destruct (decide (v < n)%nat) as [Hv|Hv].
  - by rewrite Hf, lookup_seq_lt.
  - rewrite (lookup_ge_None_2 ls), (lookup_seq_ge 0) by lia. done.
Qed.

Lemma batches_NoDup V burst (tag : nat → verdict) n : Inj (=) (=) tag → NoDup burst →
  NoDup (concat ((λ v, with_verdict V (tag v) burst) <$> seq 0 n)).
Proof.
  intros Htag Hnd. apply (NoDup_keyed V tag); [done|apply NoDup_seq|intros v; by apply NoDup_filter|].
  by intros v p [? _]%with_verdict_mem.
Qed.

Lemma batches_mem V burst (tag : nat → verdict) n p :
  p ∈ concat ((λ v, with_verdict V (tag v) burst) <$> seq 0 n) → p ∈ burst ∧ ∃ v, V p = tag v.
Proof.
  intros (l & (v & -> & _)%list_elem_of_fmap & Hp)%elem_of_concat. apply with_verdict_mem in Hp as [? ?].
  split; [done|by exists v].
Qed.

(** What both loops have in hand after sorting a burst. *)
Lemma sorted_hand V burst (eths vms : list (list nat)) n k :
  NoDup burst → length vms = n → (∀ v, (v < n)%nat → vms !! v = Some (with_verdict V (ToVm v) burst)) →
  length eths = k → (∀ q, (q < k)%nat → eths !! q = Some (with_verdict V (ToEth q) burst)) →
  NoDup (concat eths ++ concat vms) ∧ ∀ p, p ∈ concat eths ++ concat vms → p ∈ burst ∧ V p ≠ ToSlow.
Proof.
  intros Hnd Hl Hv Hk Hq. rewrite (batches_eq vms n _ Hl Hv), (batches_eq eths k _ Hk Hq). split.
  - apply NoDup_app. split_and!; [apply batches_NoDup; [by intros ?? [=]|done]| |apply batches_NoDup; [by intros ?? [=]|done]].
    intros p [_ [q Eq]]%batches_mem [_ [v Ev]]%batches_mem. congruence.
  - intros p [[? [v E]]%batches_mem|[? [v E]]%batches_mem]%elem_of_app; by rewrite E.
Qed.

Lemma vrx_idle_hand w : eth_at [] (w_eth w) → batch_at [] (w_batch w) → vrx_hand w = [].
Proof.
  intros He Hb. unfold vrx_hand. rewrite (eth_at_done _ He), (batch_at_done _ Hb).
  assert (∀ n, concat (replicate n (@nil nat)) = []) as Hn by by induction n.
  by rewrite !Hn.
Qed.

(** *** vhost_rx *)

Lemma vrx_begin_idle w w' core m (sw : nat + nat → nat → list nat) act :
  machine_inv m → pl_vrx (m_plane m) !! core = Some w → m_vrx m !! core = Some RxIdle →
  act RxIdle (load_vrx (m_plane m) w) = Ok (w', RxIdle) → vrx_fits w' → (w_eth w', w_batch w') = (w_eth w, w_batch w) →
  (w_pool w', w_vm_rings w', w_eth_rings w') = (pl_pool (m_plane m), pl_vm_rings (m_plane m), pl_eth_rings (m_plane m)) →
  step_safe [] [] sw m (vrx_act core act m).
Proof.
  intros Hinv Hw Hpc Hact Hfits [= He Hb] [= Hp Hv Heth].
  pose proof (Forall2_lookup_lr _ _ _ _ _ _ (proj1 Hinv) Hw Hpc) as [_ [Hea Hba]].
  assert (vrx_hand w' = vrx_hand w) as Hh by (unfold vrx_hand; by rewrite He, Hb).
  eapply (vrx_act_ok core act m w RxIdle w' RxIdle [] []); try done.
  - split; [by rewrite He|by rewrite Hb].
  - rewrite Hp, Hv, Heth, Hh. apply core_moves_none. rewrite vrx_idle_hand by done. by intros p ?%elem_of_nil.
  - intros v _. rewrite Hb. cbn [app]. by apply sublist_inserts_r.
Qed.

(** What sorting a burst leaves. *)
Lemma vrx_sort_ok e vid d st w :
  queues_ok config → vrx_fits w → vrx_at RxIdle w → vrx_env_ok e → (vid < MAX_VHOSTS)%nat → st_wf st → (env_burst e).*1 ≠ [] →
  (length (slow_reqs config (learning d) e (env_burst e).*1) ≤ length (pool_objs (w_msgs w)))%nat →
  (length (slow_reqs config (learning d) e (env_burst e).*1) ≤ MAX_PKT_BURST)%nat →
  ∃ w' pc, vrx_sort e vid d st w = Ok (w', pc) ∧ vrx_fits w' ∧ vrx_at pc w' ∧
    (w_vm_rings w', w_eth_rings w', w_pool w', w_slow w') = (w_vm_rings w, w_eth_rings w, vrx_received e w, w_slow w) ∧
    slow_ok (req_msg vid) (slow_reqs config (learning d) e (env_burst e).*1) (pc_msgs pc) (w_msgs w) (w_msgs w') ∧
    (NoDup (vrx_hand w') ∧ ∀ p, p ∈ vrx_hand w' → p ∈ (env_burst e).*1 ∧ vrx_verdict config e p ≠ ToSlow) ∧
    ∀ v, (v < MAX_VHOSTS)%nat → w_batch w' !! v = Some (with_verdict (vrx_verdict config e) (ToVm v) (env_burst e).*1).
Proof.
  intros Hq ([Hls Hst0] & Hla & Hrv & Hre) [Hea Hba] He Hvid Hst Hne Hneed Hmax. pose proof He as (_ & Hnd & _).
  destruct (vrx_loop config e vid d st w He Hq (batch_at_done _ Hba) (eth_at_done _ Hea) Hst Hne Hneed Hmax)
    as (slow & mp & s & Hlearn & Hloop & Hb & _ & Hle & Heth & Hslow & Hst' & _).
  unfold vrx_sort. rewrite Hlearn. cbn [mbind res_bind]. fold (vrx_received e w). rewrite Hloop. cbn [mbind res_bind].
  eexists _, _. split; [reflexivity|]. split; [|split; [|split; [done|split; [exact Hslow|split; [|by apply Hb]]]]].
  - unfold vrx_fits. cbn. rewrite length_insert. split_and!; try done; try apply Hrv; try apply Hre. by apply Forall_insert.
  - cbn. split; [done|]. split; [|by eapply batch_at_ok]. split_and!; [done|apply NoDup_seq|intros q ?%elem_of_seq; lia|].
    intros q l Hql Hn. pose proof (lookup_lt_Some _ _ _ Hql) as Hlt. rewrite Hle in Hlt. rewrite Heth in Hql by done.
    injection Hql as <-. apply elem_of_seq. destruct (decide (q < Z.to_nat (eth_tx_queues config))%nat); [lia|].
    destruct Hn. by apply with_verdict_eth_nil; [|lia].
  - destruct Hb as (Hlb & Hvb & _). by eapply sorted_hand.
Qed.

(** The statistics and the adaptive state of the polled VM. *)
Lemma polled_fits vid n st a w :
  vrx_fits w → w_stats w !! vid = Some st → ∃ st', vhost_poll n st = Ok st' ∧ st_wf st' ∧ vrx_fits (polled vid st' a w).
Proof.
  intros ([Hls Hst] & Hla & Hrv & Hre) Hs. destruct (vhost_poll_ok n st) as (st' & Ep & Hst' & _); [by eapply Forall_lookup_1|].
  exists st'. split; [done|]. split; [done|]. unfold vrx_fits, polled. cbn. rewrite !length_insert.
  split_and!; try done; try apply Hrv; try apply Hre. by apply Forall_insert.
Qed.

Lemma vrx_begin_cases e vid w :
  queues_ok config → vrx_fits w → vrx_at RxIdle w → entry_ok config e vid →
  (slow_need config (vr_rx e) ≤ length (pool_objs (w_msgs w)))%nat →
  ∃ w' pc, vrx_begin e vid w = Ok (w', pc) ∧ vrx_fits w' ∧
    (w_vm_rings w', w_eth_rings w', w_slow w') = (w_vm_rings w, w_eth_rings w, w_slow w) ∧
    (pc = RxIdle ∧ (w_eth w', w_batch w', w_pool w', w_msgs w') = (w_eth w, w_batch w, w_pool w, w_msgs w) ∨
     vrx_at pc w' ∧ ((vid < MAX_VHOSTS)%nat ∧
       ∃ l, slow_ok (req_msg vid) (slow_reqs config l (vr_rx e) (env_burst (vr_rx e)).*1) (pc_msgs pc) (w_msgs w) (w_msgs w')) ∧
     w_pool w' = list_to_map (env_burst (vr_rx e)) ∪ w_pool w ∧
     (NoDup (vrx_hand w') ∧ ∀ p, p ∈ vrx_hand w' → p ∈ (env_burst (vr_rx e)).*1 ∧ vrx_verdict config (vr_rx e) p ≠ ToSlow) ∧
     ∀ v, (v < MAX_VHOSTS)%nat →
       w_batch w' !! v = Some (with_verdict (vrx_verdict config (vr_rx e)) (ToVm v) (env_burst (vr_rx e)).*1)).
Proof.
  intros Hq Hfits Hat (He & vdevs & Hvl & Hlen & Hdev) Hneed. unfold vrx_begin. rewrite Hvl. cbn [mbind res_bind].
  destruct (decide (MAX_VHOSTS ≤ vid)%nat) as [Hge|Hlt]; [exists w, RxIdle; split_and!; try done; by left|].
  destruct (lookup_lt_is_Some_2 vdevs vid) as [slot Hslot]; [lia|]. rewrite (arr_get_Some _ _ _ Hslot). cbn [mbind res_bind].
  destruct slot as [ptr|]; [|exists w, RxIdle; split_and!; try done; by left]. destruct (Hdev ptr Hslot) as (d & Hd & Hmax).
  pose proof Hfits as ([Hls Hst] & Hla & _).
  destruct (lookup_lt_is_Some_2 (w_ap w) vid) as [ap Hap]; [lia|]. rewrite (arr_get_Some _ _ _ Hap). cbn [mbind res_bind].
  destruct (poll_gate ap (w_iteration w) (vr_now e)) as [ap'|]; [|exists w, RxIdle; split_and!; try done; by left].
  destruct (lookup_lt_is_Some_2 (w_stats w) vid) as [st Hs]; [lia|]. rewrite (arr_get_Some _ _ _ Hs). cbn [mbind res_bind].
  destruct (polled_fits vid (length (env_burst (vr_rx e))) st
    (update_rx_state ap' (Z.of_nat (length (env_burst (vr_rx e)))) (w_poll_states w) (vr_tsc e)) w Hfits Hs) as (st' & -> & Hst' & Hfits').
  cbn [mbind res_bind]. set (w1 := polled vid st' _ w) in *. destruct (decide (length (env_burst (vr_rx e)) = 0%nat)) as [Hz|Hz].
  { exists w1, RxIdle. split; [done|]. split; [done|]. split; [done|]. by left. }
  rewrite (heap_get_Some _ _ _ Hd). cbn [mbind res_bind].
  pose proof (slow_reqs_need config (learning d) (vr_rx e)) as Hreq.
  destruct (vrx_sort_ok (vr_rx e) vid d st' w1) as (w' & pc & Hsort & Hf & Hpc & [= Hr1 Hr2 Hp Hsl] & Hmsgs & Hh & Hb); try done.
  - lia.
  - intros Hn. apply Hz. by rewrite <- (length_fmap fst), Hn.
  - cbn. lia.
  - exists w', pc. split; [done|]. split; [done|]. split; [by rewrite Hr1, Hr2, Hsl|]. right. split; [done|].
    split; [split; [lia|by exists (learning d)]|]. split; [by rewrite Hp|by split].
Qed.

Lemma vrx_begin_ok core e vid m (sw : nat + nat → nat → list nat) :
  queues_ok config → machine_inv m → access_ok (VhostRxBegin core e vid) m →
  (∀ v, sw (inl core) v = with_verdict (vrx_verdict config (vr_rx e)) (ToVm v) (env_burst (vr_rx e)).*1) →
  step_safe (arrives (VhostRxBegin core e vid)) (to_slow (VhostRxBegin core e vid)) sw m (machine_step (VhostRxBegin core e vid) m).
Proof.
  intros Hq Hinv (Hpc & He & Hfresh & Hneed) Hsw.
  destruct (Forall2_lookup_r _ _ _ _ _ (proj1 Hinv) Hpc) as (w & Hw & Hfits & Hat).
  destruct (vrx_begin_cases e vid (load_vrx (m_plane m) w) Hq Hfits Hat He Hneed)
    as (w' & pc & Hrun & Hfits' & [= Hr1 Hr2 _] & [(-> & [= H1' H2' H3' _])|(Hat' & _ & Hp & Hh & Hb)]).
  { apply step_safe_unseen; [apply Hinv|done|by intros p [_ ?]%with_verdict_mem|].
    apply (vrx_begin_idle w w'); try done; [by rewrite H1', H2'|by rewrite Hr1, Hr2, H3']. }
  set (burst := (env_burst (vr_rx e)).*1) in *. destruct He as ((_ & Hnd & _) & _).
  apply (step_safe_weaken burst (filter (λ p, p ∉ vrx_hand w') burst)).
  2:{ intros p [Hs Hpb]%with_verdict_mem. apply list_elem_of_filter. split; [|done]. intros [_ ?]%(proj2 Hh). done. }
  eapply (vrx_act_ok core _ m w RxIdle w' pc burst (filter (λ p, p ∉ vrx_hand w') burst) (λ _, []) (λ _, [])); try done.
  - rewrite Hr1, Hr2, vrx_idle_hand by apply Hat. apply core_moves_begin; try done; [apply Hh|by intros p [? _]%(proj2 Hh)| |].
    + intros p Hpb. rewrite Hp. rewrite lookup_union_r; [done|]. by apply not_elem_of_list_to_map_1.
    + intros p Hpb. rewrite Hp. by apply (vrx_received_live (vr_rx e) (load_vrx (m_plane m) w)).
  - intros v Hv. rewrite Hb, Hsw by done. cbn [app]. by apply sublist_inserts_l.
Qed.

(** A batch inside what is in hand. *)
Lemma hand_vm w v l : w_batch w !! v = Some l → vrx_hand w ≡ₚ l ++ concat (w_eth w) ++ concat (<[v := []]> (w_batch w)).
Proof.
  intros Hl. unfold vrx_hand. destruct (concat_at _ _ _ Hl) as (R & HR & HR'). rewrite (HR' []), HR. apply Permutation_app_swap_app.
Qed.

Lemma hand_eth w q l : w_eth w !! q = Some l → vrx_hand w ≡ₚ l ++ concat (<[q := []]> (w_eth w)) ++ concat (w_batch w).
Proof.
  intros Hl. unfold vrx_hand. destruct (concat_at _ _ _ Hl) as (R & HR & HR'). rewrite (HR' []), HR. by rewrite <- app_assoc.
Qed.

(** What a receiving core has in hand is allocated, and no packet is there twice. *)
Lemma vrx_in_hand core m w : owned_ok m → pl_vrx (m_plane m) !! core = Some w → NoDup (vrx_hand w) ∧ live (pl_pool (m_plane m)) (vrx_hand w).
Proof.
  intros Ho Hw. apply (in_hand m core); [done|]. unfold hands.
  rewrite lookup_app_l by (rewrite length_fmap; by eapply lookup_lt_Some). by rewrite list_lookup_fmap, Hw.
Qed.

Lemma erx_in_hand core m w : owned_ok m → pl_rx (m_plane m) !! core = Some w → NoDup (erx_hand w) ∧ live (pl_pool (m_plane m)) (erx_hand w).
Proof.
  intros Ho Hw. apply (in_hand m (length (pl_vrx (m_plane m)) + core)%nat); [done|]. unfold hands.
  rewrite <- (length_fmap vrx_hand), lookup_app_r, Nat.add_comm, Nat.add_sub by lia. by rewrite list_lookup_fmap, Hw.
Qed.

(** A step that only moves on: no packet, no ring. *)
Lemma vrx_pass core m w w' pc pc' (sw : nat + nat → nat → list nat) act :
  machine_inv m → pl_vrx (m_plane m) !! core = Some w → m_vrx m !! core = Some pc →
  act pc (load_vrx (m_plane m) w) = Ok (w', pc') → vrx_fits w' → vrx_at pc' w' →
  (w_eth w', w_batch w') = (w_eth w, w_batch w) →
  (w_pool w', w_vm_rings w', w_eth_rings w') = (pl_pool (m_plane m), pl_vm_rings (m_plane m), pl_eth_rings (m_plane m)) →
  step_safe [] [] sw m (vrx_act core act m).
Proof.
  intros Hinv Hw Hpc Hact Hfits Hat [= He Hb] [= Hp Hv Heth].
  assert (vrx_hand w' = vrx_hand w) as Hh by (unfold vrx_hand; by rewrite He, Hb).
  eapply (vrx_act_ok core act m w pc w' pc' [] []); try done.
  - rewrite Hp, Hv, Heth, Hh. apply core_moves_none. by eapply vrx_in_hand; [apply Hinv|].
  - intros v _. rewrite Hb. cbn [app]. by apply sublist_inserts_r.
Qed.

(** Serving one destination. *)
Lemma vrx_vm_ok core m w v dsts slow (sw : nat + nat → nat → list nat) act :
  machine_inv m → pl_vrx (m_plane m) !! core = Some w → m_vrx m !! core = Some (RxVm (v :: dsts) slow) →
  (∀ w, act (RxVm (v :: dsts) slow) w = vrx_next (RxVm (v :: dsts) slow) w) →
  step_safe [] [] sw m (vrx_act core act m).
Proof.
  intros Hinv Hw Hpc Hact. pose proof Hinv as (Hvc & _ & _ & (Hlr & _) & Ho).
  pose proof (Forall2_lookup_lr _ _ _ _ _ _ Hvc Hw Hpc) as [([Hls Hst] & Hla & [Hlrv Hrv] & Hre) [Hea Hba]].
  destruct (batch_at_next v dsts _ Hba) as (l & Hl & Hne & Hv & Hba').
  destruct (lookup_lt_is_Some_2 (pl_vm_rings (m_plane m)) v) as [r Hr]; [lia|].
  destruct (lookup_lt_is_Some_2 (w_rr_vm w) v) as [rr Hrr]; [lia|].
  destruct (vrx_in_hand core m w Ho Hw) as [Hnd Hlive]. pose proof (hand_vm w v l Hl) as Hh.
  assert (NoDup l ∧ live (pl_pool (m_plane m)) l) as [Hndl Hll].
  { rewrite Hh in Hnd. apply NoDup_app in Hnd as [? _]. split; [done|]. intros p Hp. apply Hlive. rewrite Hh. apply elem_of_app. by left. }
  destruct (vm_flush_one v (w_batch w) (pl_vm_rings (m_plane m)) (mk_vm_out (w_rr_vm w) (pl_pool (m_plane m)) (w_stats w)) l r rr)
    as (pool & r' & rr' & stats & Hrun & Hi & Hc & Hrr' & Hls' & Hst' & Hother & Hsome); try done; [by eapply (Forall_lookup_1 _ _ _ _ Hrv)|cbn; lia|].
  eapply step_safe_forget, (vrx_act_ok core act m w _ _ (RxVm dsts slow) [] (drop (rte_ring_free_count r) l) (only v (take (rte_ring_free_count r) l)) (λ _, []));
    [done|done|done| | | | |].
  - rewrite Hact. cbn [vrx_next]. change (w_batch (load_vrx (m_plane m) w)) with (w_batch w). rewrite (arr_get_Some _ _ _ Hl). cbn [mbind res_bind].
    unfold vrx_vm. change (flush _ _ _ _ _ _) with (flush vm_flush_mark vm_flush_fail [v] (w_batch w) (pl_vm_rings (m_plane m)) (mk_vm_out (w_rr_vm w) (pl_pool (m_plane m)) (w_stats w))).
    rewrite Hrun. cbn [mbind res_bind]. rewrite decide_False by done. reflexivity.
  - cbn in Hls'. unfold vrx_fits. cbn. rewrite length_insert. split_and!; try done; try apply Hre; by apply Forall_insert || lia.
  - by split.
  - by eapply (core_moves_vm _ _ _ l v r).
  - intros u Hu. cbn. unfold only. destruct (decide (u = v)) as [->|Hneq].
    + rewrite list_lookup_insert_eq, Hl by (destruct Hba; lia). cbn. rewrite app_nil_r. apply sublist_inserts_r, sublist_take.
    + rewrite list_lookup_insert_ne by done. cbn [app]. by apply sublist_inserts_r.
Qed.

(** Serving one NIC queue. *)
Lemma vrx_queue_ok core m w vid q qs dsts slow (sw : nat + nat → nat → list nat) act :
  queues_ok config → machine_inv m → pl_vrx (m_plane m) !! core = Some w → m_vrx m !! core = Some (RxEth vid (q :: qs) dsts slow) →
  (∀ w, act (RxEth vid (q :: qs) dsts slow) w = vrx_next (RxEth vid (q :: qs) dsts slow) w) →
  step_safe [] [] sw m (vrx_act core act m).
Proof.
  intros Hq Hinv Hw Hpc Hact. pose proof Hinv as (Hvc & _ & _ & (_ & Hle & _) & Ho).
  pose proof (Forall2_lookup_lr _ _ _ _ _ _ Hvc Hw Hpc) as [([Hls Hst] & Hla & Hrv & [Hlre Hre]) (Hvid & Hea & Hba)].
  destruct (eth_at_next q qs _ Hq Hea) as (l & Hl & Hlt & Hea'). pose proof Hq as [Hq1 Hq2].
  destruct (lookup_lt_is_Some_2 (pl_eth_rings (m_plane m)) q) as [r Hr]; [lia|].
  destruct (lookup_lt_is_Some_2 (w_rr_eth w) q) as [rr Hrr]; [lia|].
  destruct (lookup_lt_is_Some_2 (w_stats w) vid) as [st Hs]; [lia|].
  destruct (vrx_in_hand core m w Ho Hw) as [Hnd Hlive]. pose proof (hand_eth w q l Hl) as Hh.
  assert (NoDup l ∧ live (pl_pool (m_plane m)) l) as [Hndl Hll].
  { rewrite Hh in Hnd. apply NoDup_app in Hnd as [? _]. split; [done|]. intros p Hp. apply Hlive. rewrite Hh. apply elem_of_app. by left. }
  destruct (eth_flush_queue_ok q (mk_eth_out (w_eth w) (pl_eth_rings (m_plane m)) (w_rr_eth w) (pl_pool (m_plane m)) st) l r rr)
    as (pool & r' & rr' & st' & Hrun & Hi & Hc & Hrr' & Hst' & Hother & Hsome); try done; [by eapply (Forall_lookup_1 _ _ _ _ Hre)|].
  eapply step_safe_forget, (vrx_act_ok core act m w _ _ (RxEth vid qs dsts slow) [] (drop (rte_ring_free_count r) l) (λ _, []) (only q (take (rte_ring_free_count r) l)));
    [done|done|done| | | | |].
  - rewrite Hact. cbn [vrx_next]. unfold vrx_queue. change (w_stats (load_vrx (m_plane m) w)) with (w_stats w). rewrite (arr_get_Some _ _ _ Hs). cbn [mbind res_bind].
    change (eth_flush_queue _ _) with (eth_flush_queue q (mk_eth_out (w_eth w) (pl_eth_rings (m_plane m)) (w_rr_eth w) (pl_pool (m_plane m)) st)).
    rewrite Hrun. cbn [mbind res_bind]. reflexivity.
  - unfold vrx_fits. cbn. rewrite !length_insert. split_and!; try done; try apply Hrv; apply Forall_insert; try done. apply Hst'.
    by eapply (Forall_lookup_1 _ _ _ _ Hst).
  - by split.
  - by eapply (core_moves_eth _ _ _ l q r).
  - intros u Hu. cbn. by apply sublist_inserts_r.
Qed.

Lemma vrx_next_ok core m (sw : nat + nat → nat → list nat) :
  queues_ok config → machine_inv m → access_ok (VhostRxNext core) m →
  step_safe [] [] sw m (machine_step (VhostRxNext core) m).
Proof.
  intros Hq Hinv [w Hw]%lookup_lt_is_Some_2. cbn [machine_step].
  destruct (Forall2_lookup_l _ _ _ _ _ (proj1 Hinv) Hw) as (pc & Hpc & Hfits & Hat).
  destruct pc as [|vid [|q qs] dsts slow|[|v dsts] slow|slow].
  - by eapply (vrx_pass core m w (load_vrx (m_plane m) w) _ RxIdle).
  - by eapply (vrx_pass core m w (load_vrx (m_plane m) w) _ (RxVm dsts slow)); try done; apply Hat.
  - by apply (vrx_queue_ok core m w vid q qs dsts slow).
  - by eapply (vrx_pass core m w (load_vrx (m_plane m) w) _ (RxSlow slow)).
  - by apply (vrx_vm_ok core m w v dsts slow).
  - destruct (flush_slow_eq slow (pl_slow (m_plane m))) as (r & Hrun & _).
    eapply (vrx_pass core m w _ _ RxIdle); [done|done|done| | | | |].
    { cbn [vrx_next]. unfold vrx_slow. change (w_slow (load_vrx (m_plane m) w)) with (pl_slow (m_plane m)). rewrite Hrun. reflexivity. }
    all: done.
Qed.

(** *** eth_rx *)

Lemma erx_idle_hand w : batch_at [] (rx_batch w) → erx_hand w = [].
Proof.
  intros Hb. unfold erx_hand. rewrite (batch_at_done _ Hb).
  assert (∀ n, concat (replicate n (@nil nat)) = []) as Hn by by induction n. by rewrite Hn.
Qed.

Lemma erx_pass core m w w' pc pc' (sw : nat + nat → nat → list nat) act :
  machine_inv m → pl_rx (m_plane m) !! core = Some w → m_rx m !! core = Some pc →
  act pc (load_rx (m_plane m) w) = Ok (w', pc') → in_u 32 (ers_ring_enq_fail_count (rx_stats w')) → erx_at pc' w' →
  rx_batch w' = rx_batch w → (rx_pool w', rx_rings w') = (pl_pool (m_plane m), pl_vm_rings (m_plane m)) →
  step_safe [] [] sw m (erx_act core act m).
Proof.
  intros Hinv Hw Hpc Hact Hfits Hat Hb [= Hp Hv].
  assert (erx_hand w' = erx_hand w) as Hh by (unfold erx_hand; by rewrite Hb).
  eapply (erx_act_ok core act m w pc w' pc' [] []); try done.
  - rewrite Hp, Hv, Hh. apply core_moves_none. by eapply erx_in_hand; [apply Hinv|].
  - intros v _. rewrite Hb. cbn [app]. by apply sublist_inserts_r.
Qed.

(** What sorting a burst leaves. *)
Lemma erx_begin_cases e queue w :
  batch_at [] (rx_batch w) → in_u 32 (ers_ring_enq_fail_count (rx_stats w)) → rx_env_ok e →
  (length (with_verdict (rx_verdict config e) ToSlow (env_burst e).*1) ≤ length (pool_objs (msg_pool w)))%nat →
  ∃ w' pc, erx_begin e queue w = Ok (w', pc) ∧ in_u 32 (ers_ring_enq_fail_count (rx_stats w')) ∧
    (rx_rings w', slowpath_ring w') = (rx_rings w, slowpath_ring w) ∧
    (pc = RxIdle ∧ (rx_batch w', rx_pool w', msg_pool w') = (rx_batch w, rx_pool w, msg_pool w) ∨
     erx_at pc w' ∧
     slow_ok (eth_arp_msg queue) (with_verdict (rx_verdict config e) ToSlow (env_burst e).*1) (pc_msgs pc) (msg_pool w) (msg_pool w') ∧
     (∀ p, rx_pool w' !! p = (if decide (p ∈ (env_burst e).*1) then rx_rewrite config e p else id) <$> received e w !! p) ∧
     (NoDup (erx_hand w') ∧ ∀ p, p ∈ erx_hand w' → p ∈ (env_burst e).*1 ∧ rx_verdict config e p ≠ ToSlow) ∧
     ∀ v, (v < MAX_VHOSTS)%nat → rx_batch w' !! v = Some (with_verdict (rx_verdict config e) (ToVm v) (env_burst e).*1)).
Proof.
  intros Hat Hf He Hsup. unfold erx_begin. rewrite <- (network_poll_fails (length (env_burst e).*1)) in Hf.
  destruct (decide (length (env_burst e).*1 = 0%nat)) as [Hnil|Hne].
  { eexists _, RxIdle. split; [reflexivity|]. split_and!; try done. by left. }
  destruct (erx_loop config e queue w He (batch_at_done _ Hat) Hsup) as (s & Hs & Hpool & Hb & _ & Hslow).
  fold (received e w). rewrite Hs. cbn [mbind res_bind]. eexists _, _. split; [reflexivity|].
  split; [done|]. split; [done|]. right. destruct Hb as (Hlb & Hvb & Hndd & Hd & Hm).
  split; [by eapply batch_at_ok|]. split; [exact Hslow|]. split; [exact Hpool|]. split; [|exact Hvb].
  destruct He as (_ & Hnd & _). cbn [erx_hand rx_batch].
  apply (sorted_hand (rx_verdict config e) (env_burst e).*1 [] (vm_pkts (l_batch s)) MAX_VHOSTS 0); try done. lia.
Qed.

Lemma erx_begin_ok core e queue m (sw : nat + nat → nat → list nat) :
  machine_inv m → access_ok (EthRxBegin core e queue) m →
  (∀ v, sw (inr core) v = with_verdict (rx_verdict config e) (ToVm v) (env_burst e).*1) →
  step_safe (arrives (EthRxBegin core e queue)) (to_slow (EthRxBegin core e queue)) sw m (machine_step (EthRxBegin core e queue) m).
Proof.
  intros Hinv (Hpc & He & Hfresh & Hneed) Hsw.
  destruct (Forall2_lookup_r _ _ _ _ _ (proj1 (proj2 Hinv)) Hpc) as (w & Hw & Hfits & Hat).
  destruct (erx_begin_cases e queue (load_rx (m_plane m) w) Hat Hfits He Hneed)
    as (w' & pc & Hrun & Hfits' & [= Hr _] & [(-> & [= H1' H2' _])|(Hat' & _ & Hp & Hh & Hb)]).
  { apply step_safe_unseen; [apply Hinv|done|by intros p [_ ?]%with_verdict_mem|].
    apply (erx_pass core m w w' RxIdle RxIdle); try done; [cbn; by rewrite H1'|by rewrite Hr, H2']. }
  set (burst := (env_burst e).*1) in *. destruct He as (_ & Hnd & _).
  apply (step_safe_weaken burst (filter (λ p, p ∉ erx_hand w') burst)).
  2:{ intros p [Hs Hpb]%with_verdict_mem. apply list_elem_of_filter. split; [|done]. intros [_ ?]%(proj2 Hh). done. }
  eapply (erx_act_ok core _ m w RxIdle w' pc burst (filter (λ p, p ∉ erx_hand w') burst) (λ _, [])); try done.
  - rewrite Hr, erx_idle_hand by apply Hat. apply core_moves_begin; try done; [apply Hh|by intros p [? _]%(proj2 Hh)| |].
    + intros p Hpb. rewrite Hp, decide_False, option_fmap_id by done. unfold received. rewrite lookup_union_r; [done|]. by apply not_elem_of_list_to_map_1.
    + intros p Hpb. rewrite Hp. apply fmap_is_Some. by apply erx_received_live.
  - intros v Hv. rewrite Hb, Hsw by done. cbn [app]. by apply sublist_inserts_l.
Qed.

Lemma erx_vm_ok core m w v dsts slow (sw : nat + nat → nat → list nat) :
  machine_inv m → pl_rx (m_plane m) !! core = Some w → m_rx m !! core = Some (RxVm (v :: dsts) slow) →
  step_safe [] [] sw m (erx_act core erx_next m).
Proof.
  intros Hinv Hw Hpc. pose proof Hinv as (_ & Hec & _ & (Hlr & _) & Ho).
  pose proof (Forall2_lookup_lr _ _ _ _ _ _ Hec Hw Hpc) as [Hf Hba].
  destruct (batch_at_next v dsts _ Hba) as (l & Hl & Hne & Hv & Hba').
  destruct (lookup_lt_is_Some_2 (pl_vm_rings (m_plane m)) v) as [r Hr]; [lia|].
  destruct (erx_in_hand core m w Ho Hw) as [_ Hlive].
  assert (erx_hand w ≡ₚ l ++ concat (<[v := []]> (rx_batch w))) as Hh.
  { unfold erx_hand. destruct (concat_at _ _ _ Hl) as (R & HR & HR'). by rewrite (HR' []), HR. }
  destruct (erx_flush_one v (rx_batch w) (pl_vm_rings (m_plane m)) (ers_ring_enq_fail_count (rx_stats w)) l r)
    as (r' & x' & Hrun & Hi & Hc & Hx); try done.
  eapply step_safe_forget, (erx_act_ok core erx_next m w _ _ (RxVm dsts slow) [] (drop (rte_ring_free_count r) l) (only v (take (rte_ring_free_count r) l)));
    [done|done|done| | | | |].
  - cbn [erx_next]. change (rx_batch (load_rx (m_plane m) w)) with (rx_batch w). rewrite (arr_get_Some _ _ _ Hl). cbn [mbind res_bind].
    unfold erx_vm. change (flush _ _ _ _ _ _) with (flush (λ _ _ _ x, Ok x) (λ _ lost x, Ok (add_fail lost x)) [v] (rx_batch w) (pl_vm_rings (m_plane m)) (ers_ring_enq_fail_count (rx_stats w))).
    rewrite Hrun. cbn [mbind res_bind]. rewrite decide_False by done. reflexivity.
  - by apply Hx.
  - done.
  - eapply (core_moves_vm _ _ _ l v r); try done. intros p Hp. apply Hlive. rewrite Hh. apply elem_of_app. by left.
  - intros u Hu. cbn. unfold only. destruct (decide (u = v)) as [->|Hneq].
    + rewrite list_lookup_insert_eq, Hl by (destruct Hba; lia). cbn. rewrite app_nil_r. apply sublist_inserts_r, sublist_take.
    + rewrite list_lookup_insert_ne by done. cbn [app]. by apply sublist_inserts_r.
Qed.

Lemma erx_next_ok core m (sw : nat + nat → nat → list nat) :
  machine_inv m → access_ok (EthRxNext core) m →
  step_safe [] [] sw m (machine_step (EthRxNext core) m).
Proof.
  intros Hinv [w Hw]%lookup_lt_is_Some_2. cbn [machine_step].
  destruct (Forall2_lookup_l _ _ _ _ _ (proj1 (proj2 Hinv)) Hw) as (pc & Hpc & Hfits & Hat).
  destruct pc as [|vid qs dsts slow|[|v dsts] slow|slow].
  - by eapply (erx_pass core m w (load_rx (m_plane m) w) _ RxIdle).
  - destruct Hat.
  - by eapply (erx_pass core m w (load_rx (m_plane m) w) _ (RxSlow slow)).
  - by apply (erx_vm_ok core m w v dsts slow).
  - destruct (flush_slow_eq slow (pl_slow (m_plane m))) as (r & Hrun & _).
    eapply (erx_pass core m w _ _ RxIdle); [done|done|done| | | | |].
    { cbn [erx_next]. unfold erx_slow. change (slowpath_ring (load_rx (m_plane m) w)) with (pl_slow (m_plane m)). rewrite Hrun. reflexivity. }
    all: try done. cbn. case_decide; [|done]. unfold add_fail, in_u, u32, wrap. by apply Z.mod_pos_bound.
Qed.

(** *** The sending cores *)

(** Nothing but the sending side moves. *)
Definition receivers_same (m m' : machine) : Prop :=
  (pl_vrx (m_plane m'), pl_rx (m_plane m'), m_vrx m', m_rx m') = (pl_vrx (m_plane m), pl_rx (m_plane m), m_vrx m, m_rx m).

Lemma served_batches m m' c v : receivers_same m m' → batch_for m' c v = batch_for m c v.
Proof. intros [= Hv Hr _ _]. unfold batch_for. by rewrite Hv, Hr. Qed.

Lemma serves_still v m m' (sw : nat + nat → list nat) :
  (∀ c, batch_for m' c v = batch_for m c v) → vm_line m' v = vm_line m v →
  guest (pl_tx (m_plane m')) !! v = guest (pl_tx (m_plane m)) !! v → serves v sw [] m m'.
Proof.
  intros Hb Hl Hg. split.
  - exists [], []. rewrite Hl, Hg. cbn [fmap list_fmap app]. rewrite app_nil_r. split_and!; try done.
    destruct (guest (pl_tx (m_plane m)) !! v); cbn; [by rewrite app_nil_r|done].
  - intros c. rewrite Hb. cbn. by apply sublist_inserts_r.
Qed.

Lemma serves_none v m m' (sw : nat + nat → list nat) :
  receivers_same m m' → vm_line m' v = vm_line m v → guest (pl_tx (m_plane m')) !! v = guest (pl_tx (m_plane m)) !! v → serves v sw [] m m'.
Proof. intros Hs. apply serves_still. intros c. by apply served_batches. Qed.

Lemma owned_gone m m' gone : owned_ok m → owned m ≡ₚ owned m' ++ gone →
  (∀ p, p ∉ gone → is_Some (pl_pool (m_plane m) !! p) → is_Some (pl_pool (m_plane m') !! p)) →
  (∀ p, p ∉ owned m → pl_pool (m_plane m') !! p = pl_pool (m_plane m) !! p) → owned_ok m' ∧ moved [] [] m m'.
Proof.
  intros Ho Hperm Hp Hsame. split; [|split; [intros p _; apply Hsame|]].
  2:{ intros p Hp'. split; [|apply not_elem_of_nil]. right. rewrite Hperm. apply elem_of_app. by left. }
  eapply owned_ok_step; [exact Ho|exact Hperm|]. intros p Hin. apply Hp. intros Hg.
  destruct Ho as [Hnd _]. rewrite Hperm in Hnd. apply NoDup_app in Hnd as (_ & Hd & _). by apply (Hd p).
Qed.

(** A step of a vhost_tx core for VM [v]. *)
Lemma vm_act_ok m m' v gone sent (sw : nat + nat → nat → list nat) :
  machine_inv m → receivers_same m m' → (v < MAX_VHOSTS)%nat →
  (pl_eth_rings (m_plane m'), m_eth m', length (pl_vm_rings (m_plane m'))) =
    (pl_eth_rings (m_plane m), m_eth m, length (pl_vm_rings (m_plane m))) →
  vm_line m v = gone ++ vm_line m' v → (∀ u, u ≠ v → vm_line m' u = vm_line m u) →
  sent `sublist_of` gone → guest (pl_tx (m_plane m')) !! v = (λ g, g ++ sent) <$> guest (pl_tx (m_plane m)) !! v →
  (∀ u, u ≠ v → guest (pl_tx (m_plane m')) !! u = guest (pl_tx (m_plane m)) !! u) →
  (∀ p, p ∉ gone → pl_pool (m_plane m') !! p = pl_pool (m_plane m) !! p) → tx_ok m' →
  step_to [] [] sw m m'.
Proof.
  intros (Hvc & Hec & _ & (Hr1 & Hr2 & Hr3) & Ho) Hs Hv [= He Hme Hlr] Hline Hother Hsub Hg Hgo Hpool Htx.
  pose proof Hs as [= Hs1 Hs2 Hs3 Hs4].
  assert (owned m ≡ₚ owned m' ++ gone) as Hperm.
  { unfold owned, hands. rewrite He, Hme, Hs1, Hs2.
    rewrite (concat_split (vm_line m) (vm_line m') v gone) by done. rewrite <- (Permutation_app_comm gone). by rewrite <- !app_assoc. }
  destruct (owned_gone m m' gone Ho Hperm) as [Ho' Hmoved].
  { intros p Hp. by rewrite Hpool. }
  { intros p Hp. apply Hpool. intros Hpg. apply Hp. rewrite Hperm. apply elem_of_app. by right. }
  split; [|split; [done|]].
  - split_and!; [unfold vrx_cores_ok; by rewrite Hs1, Hs3|unfold erx_cores_ok; by rewrite Hs2, Hs4|done| |exact Ho'].
    unfold rings_ok. by rewrite He, Hme, Hlr.
  - intros u Hu. exists []. destruct (decide (u = v)) as [->|Hne]; [|apply serves_none; auto].
    split; [exists gone, sent; by rewrite Hline, app_nil_r|].
    intros c. rewrite (served_batches m m') by done. cbn. by apply sublist_inserts_r.
Qed.

(** A step of an eth_tx core for queue [q]. *)
Lemma eth_act_ok m m' q l l' r r' gone (sw : nat + nat → nat → list nat) :
  machine_inv m → receivers_same m m' → (pl_tx (m_plane m'), m_tx m', pl_vm_rings (m_plane m')) = (pl_tx (m_plane m), m_tx m, pl_vm_rings (m_plane m)) →
  m_eth m !! q = Some l → pl_eth_rings (m_plane m) !! q = Some r →
  m_eth m' = <[q := l']> (m_eth m) → pl_eth_rings (m_plane m') = <[q := r']> (pl_eth_rings (m_plane m)) →
  ring_items r ++ l ≡ₚ gone ++ ring_items r' ++ l' →
  (∀ p, p ∉ gone → is_Some (pl_pool (m_plane m) !! p) → is_Some (pl_pool (m_plane m') !! p)) →
  (∀ p, p ∉ l → pl_pool (m_plane m') !! p = pl_pool (m_plane m) !! p) →
  step_to [] [] sw m m'.
Proof.
  intros (Hvc & Hec & Htx & (Hr1 & Hr2 & Hr3) & Ho) Hs [= Ht Hmt Hvr] Hl Hr Hl' Hr' Hperm Hpool Hsame.
  pose proof Hs as [= Hs1 Hs2 Hs3 Hs4].
  assert (∀ u, vm_line m' u = vm_line m u) as Hline by (intros u; unfold vm_line; by rewrite Ht, Hmt, Hvr).
  destruct (concat_at _ _ _ Hl) as (R & HR & HR').
  assert (owned m ≡ₚ owned m' ++ gone) as Hall.
  { unfold owned, hands. rewrite Hs1, Hs2, Hl', Hr'. destruct (concat_insert_items _ _ _ Hr) as (L & HL & HL').
    rewrite HL, (HL' r'), HR, (HR' l'). rewrite (list_fmap_ext (vm_line m') (vm_line m)) by (intros; apply Hline).
    generalize (concat (vm_line m <$> seq 0 MAX_VHOSTS)) (concat ((vrx_hand <$> pl_vrx (m_plane m)) ++ (erx_hand <$> pl_rx (m_plane m)))).
    intros A B. transitivity ((ring_items r ++ l) ++ A ++ L ++ B ++ R); [solve_Permutation|]. rewrite Hperm. solve_Permutation. }
  destruct (owned_gone m m' gone Ho Hall Hpool) as [Ho' Hmoved].
  { intros p Hp. apply Hsame. intros Hpl. apply Hp. unfold owned. rewrite HR, !elem_of_app. tauto. }
  split; [|split; [done|]].
  - split_and!; [unfold vrx_cores_ok; by rewrite Hs1, Hs3|unfold erx_cores_ok; by rewrite Hs2, Hs4|unfold tx_ok; by rewrite Ht, Hmt| |exact Ho'].
    unfold rings_ok. rewrite Hvr, Hr', Hl', !length_insert. by split_and!.
  - intros u _. exists []. apply serves_none; [done|apply Hline|by rewrite Ht].
Qed.

(** The same, for an update of one element of every array. *)
Definition vm_updated (m : machine) (v : nat) (vm : vhost_tx_vm) (l : list nat) (r : ring nat) (g : list nat) (pool : gmap nat mbuf) : machine :=
  mk_machine (store_tx (mk_tx_world (<[v := vm]> (tx_vms (pl_tx (m_plane m)))) (<[v := r]> (pl_vm_rings (m_plane m))) pool
      (<[v := g]> (guest (pl_tx (m_plane m))))) (m_plane m)) (m_vrx m) (m_rx m) (<[v := l]> (m_tx m)) (m_eth m).

Lemma vm_updated_ok m v vm vm' l l' r r' g gone sent pool (sw : nat + nat → nat → list nat) :
  machine_inv m → tx_vms (pl_tx (m_plane m)) !! v = Some vm → m_tx m !! v = Some l → pl_vm_rings (m_plane m) !! v = Some r →
  guest (pl_tx (m_plane m)) !! v = Some g →
  take (retry_cnt vm) (retry_pkts vm) ++ l ++ ring_items r = gone ++ take (retry_cnt vm') (retry_pkts vm') ++ l' ++ ring_items r' →
  sent `sublist_of` gone → tx_vm_wf vm' → (length l' ≤ MAX_PKT_BURST)%nat → (l' ≠ [] → retry_cnt vm' = 0%nat) →
  (∀ p, pool !! p = if decide (p ∈ gone) then None else pl_pool (m_plane m) !! p) →
  step_to [] [] sw m (vm_updated m v vm' l' r' (g ++ sent) pool).
Proof.
  intros Hinv Hvm Hl Hr Hg Hq Hsub Hwf Hlen Hz Hpool. pose proof Hinv as (_ & _ & (Ht1 & Ht2 & Ht3 & Ht4 & Ht5) & _).
  assert (v < MAX_VHOSTS)%nat as Hv by (rewrite <- Ht1; by eapply lookup_lt_Some).
  apply (vm_act_ok m _ v gone sent); try done.
  - cbn. by rewrite length_insert.
  - unfold vm_line. rewrite Hvm, Hl, Hr, Hq. cbn. by rewrite !list_lookup_insert_eq by (by eapply lookup_lt_Some).
  - intros u Hu. unfold vm_line. cbn. by rewrite !list_lookup_insert_ne by done.
  - cbn. rewrite Hg. by rewrite list_lookup_insert_eq by (by eapply lookup_lt_Some).
  - intros u Hu. cbn. by rewrite list_lookup_insert_ne by done.
  - intros p Hp. cbn. by rewrite Hpool, decide_False.
  - unfold tx_ok. cbn. rewrite !length_insert. split_and!; try done; [by apply Forall_insert|].
    intros u vmu lu. destruct (decide (u = v)) as [->|Hne]; [|rewrite !list_lookup_insert_ne by done; apply Ht5].
    rewrite !list_lookup_insert_eq by lia. by intros [= <-] [= <-].
Qed.

(** The elements for VM [v], and what they own. *)
Lemma vm_at m v : machine_inv m → (v < MAX_VHOSTS)%nat → ∃ vm l r g,
  tx_vms (pl_tx (m_plane m)) !! v = Some vm ∧ m_tx m !! v = Some l ∧ pl_vm_rings (m_plane m) !! v = Some r ∧
  guest (pl_tx (m_plane m)) !! v = Some g ∧ tx_vm_wf vm ∧ (length l ≤ MAX_PKT_BURST)%nat ∧ (l ≠ [] → retry_cnt vm = 0%nat) ∧
  NoDup (take (retry_cnt vm) (retry_pkts vm) ++ l ++ ring_items r) ∧
  live (pl_pool (m_plane m)) (take (retry_cnt vm) (retry_pkts vm) ++ l ++ ring_items r).
Proof.
  intros (_ & _ & (Ht1 & Ht2 & Ht3 & Ht4 & Ht5) & (Hr1 & _) & [Hnd Hlive]) Hv.
  destruct (lookup_lt_is_Some_2 (tx_vms (pl_tx (m_plane m))) v) as [vm Hvm]; [lia|].
  destruct (lookup_lt_is_Some_2 (m_tx m) v) as [l Hl]; [lia|].
  destruct (lookup_lt_is_Some_2 (pl_vm_rings (m_plane m)) v) as [r Hr]; [lia|].
  destruct (lookup_lt_is_Some_2 (guest (pl_tx (m_plane m))) v) as [g Hg]; [lia|].
  destruct (concat_fmap_at (vm_line m) (vm_line m) (seq 0 MAX_VHOSTS) v) as (R & HR & _); [apply NoDup_seq|apply elem_of_seq; lia|done|].
  assert (vm_line m v = take (retry_cnt vm) (retry_pkts vm) ++ l ++ ring_items r) as Hline by (unfold vm_line; by rewrite Hvm, Hl, Hr).
  unfold owned in Hnd, Hlive. rewrite HR, <- app_assoc, Hline in Hnd, Hlive.
  exists vm, l, r, g. apply NoDup_app in Hnd as [Hnd _]. apply live_app in Hlive as [Hlive _].
  destruct (Ht5 v vm l Hvm Hl) as [Hlen Hz]. split_and!; try done. by eapply (Forall_lookup_1 _ _ _ _ Ht3).
Qed.

(** A step that has no effect. *)
Lemma machine_stays m (sw : nat + nat → nat → list nat) : machine_inv m →
  step_safe [] [] sw m (Ok m).
Proof.
  intros Hinv. exists m. split; [done|]. split; [done|]. split; [|intros v _; exists []; by apply serves_none].
  split; [done|]. intros p Hp. split; [by right|apply not_elem_of_nil].
Qed.

Lemma tx_give_ok e vid m (sw : nat + nat → nat → list nat) :
  machine_inv m → access_ok (VhostTxGive e vid) m →
  step_safe [] [] sw m (machine_step (VhostTxGive e vid) m).
Proof.
  intros Hinv He. cbn [machine_step]. destruct (m_tx m !! vid) as [[|p0 pkts0]|] eqn:Hm; [by apply machine_stays| |by apply machine_stays].
  set (pkts := p0 :: pkts0) in *. pose proof Hinv as (_ & _ & (_ & _ & _ & Hlm & _) & _).
  assert (vid < MAX_VHOSTS)%nat as Hv by (rewrite <- Hlm; by eapply lookup_lt_Some).
  destruct (vm_at m vid Hinv Hv) as (vm & l & r & g & Hvm & Hl & Hr & Hg & Hwf & Hlen & Hz & Hnd & Hlive).
  assert (l = pkts) as -> by congruence. specialize (Hz ltac:(done)). rewrite Hz, take_0, app_nil_l in Hnd, Hlive.
  apply NoDup_app in Hnd as [Hnd _]. apply live_app in Hlive as [Hlive _].
  destruct (vhost_send_spec (env_ret e (length pkts)) (env_tsc e) pkts vm (pl_pool (m_plane m)))
    as (k & vm' & pool' & Hrun & _ & Hwf' & _ & Hretry & Hpool); [apply He|done|done|done|done|done|].
  unfold tx_give. cbn [tx_vms guest tx_pool load_tx]. rewrite (arr_get_Some _ _ _ Hvm). cbn [mbind res_bind].
  rewrite (arr_get_Some _ _ _ Hg). cbn [mbind res_bind]. rewrite Hrun. cbn [mbind res_bind]. unfold delivered.
  destruct (vm_updated_ok m vid vm vm' pkts [] r r g (take k pkts) (take k pkts) pool' sw) as [Hi Hs]; try done.
  - rewrite Hz, Hretry, take_0, !app_nil_l. by rewrite (app_assoc (take k pkts)), take_drop.
  - cbn. lia.
  - unfold vm_updated in Hi, Hs. rewrite (list_insert_id _ _ _ Hr) in Hi, Hs. eexists. split; [reflexivity|]. by split.
Qed.

(** A visit that does nothing for its VM. *)
Lemma tx_nothing m (sw : nat + nat → nat → list nat) : machine_inv m →
  let m' := mk_machine (store_tx (load_tx (m_plane m)) (m_plane m)) (m_vrx m) (m_rx m) (m_tx m) (m_eth m) in
  step_to [] [] sw m m'.
Proof.
  intros Hinv m'. apply (vm_act_ok m m' 0 [] []); try done; [unfold MAX_VHOSTS; lia| |apply Hinv].
  cbn. destruct (guest (pl_tx (m_plane m)) !! 0%nat); cbn; [by rewrite app_nil_r|done].
Qed.

(** The dequeue of a burst. *)
Lemma tx_dequeue_ok m vid vm r g (sw : nat + nat → nat → list nat) vm' :
  machine_inv m → tx_vms (pl_tx (m_plane m)) !! vid = Some vm → m_tx m !! vid = Some [] → pl_vm_rings (m_plane m) !! vid = Some r →
  guest (pl_tx (m_plane m)) !! vid = Some g → retry_cnt vm = 0%nat → retry_cnt vm' = 0%nat → tx_vm_wf vm' →
  ∃ m', (let '(pkts, r) := rte_ring_dequeue_burst r MAX_PKT_BURST in
    Ok (mk_machine (store_tx (mk_tx_world (<[vid:=vm']> (tx_vms (pl_tx (m_plane m)))) (<[vid:=r]> (pl_vm_rings (m_plane m)))
      (pl_pool (m_plane m)) (guest (pl_tx (m_plane m)))) (m_plane m)) (m_vrx m) (m_rx m) (<[vid := pkts]> (m_tx m)) (m_eth m))) = Ok m' ∧
    step_to [] [] sw m m'.
Proof.
  intros Hinv Hvm Hl Hr Hg Hz Hz' Hwf'. destruct (rte_ring_dequeue_burst r MAX_PKT_BURST) as [pkts r'] eqn:Ed.
  destruct (ring_dequeue_eq _ _ _ _ _ Ed) as (Hpk & Hi & _).
  destruct (vm_updated_ok m vid vm vm' [] pkts r r' g [] [] (pl_pool (m_plane m)) sw) as [Hok Hs]; try done.
  - rewrite Hz, Hz', !take_0, !app_nil_l. by rewrite Hpk, Hi, take_drop.
  - rewrite Hpk, length_take. lia.
  - unfold vm_updated in Hok, Hs. rewrite app_nil_r, (list_insert_id _ _ _ Hg) in Hok, Hs. eexists. split; [reflexivity|]. by split.
Qed.

(** Sending the kept packets again. *)
Lemma tx_resend_ok e m vid vm r g (sw : nat + nat → nat → list nat) :
  machine_inv m → env_ok e → tx_vms (pl_tx (m_plane m)) !! vid = Some vm → m_tx m !! vid = Some [] → pl_vm_rings (m_plane m) !! vid = Some r →
  guest (pl_tx (m_plane m)) !! vid = Some g → (vid < MAX_VHOSTS)%nat → backed_off e vm = false → (0 < retry_cnt vm)%nat →
  ∃ w, vhost_tx_visit e vid (load_tx (m_plane m)) = Ok w ∧
    let m' := mk_machine (store_tx w (m_plane m)) (m_vrx m) (m_rx m) (<[vid := []]> (m_tx m)) (m_eth m) in
    step_to [] [] sw m m'.
Proof.
  intros Hinv He Hvm Hl Hr Hg Hv Hback Hret. destruct (vm_at m vid Hinv Hv) as (vm0 & l0 & r0 & g0 & Hvm0 & Hl0 & Hr0 & _ & Hwf & _ & _ & Hnd & Hlive).
  assert (vm0 = vm) as -> by congruence. assert (r0 = r) as -> by congruence. assert (l0 = []) as -> by congruence.
  apply NoDup_app in Hnd as [Hnd _]. apply live_app in Hlive as [Hlive _].
  destruct (vhost_resend_spec (env_ret e (retry_cnt vm)) (env_tsc e) vm (pl_pool (m_plane m)))
    as (k & vm' & pool' & Hrun & _ & Hk & Hwf' & Hz' & _ & Hpool); [apply He|done|done|done|].
  unfold vhost_tx_visit. rewrite decide_False by lia. cbn [tx_vms guest tx_pool load_tx]. rewrite (arr_get_Some _ _ _ Hvm). cbn [mbind res_bind].
  fold (backed_off e vm). rewrite Hback, (arr_get_Some _ _ _ Hg). cbn [mbind res_bind]. rewrite decide_True by done.
  rewrite Hrun. cbn [mbind res_bind]. unfold delivered. eexists. split; [reflexivity|].
  destruct (vm_updated_ok m vid vm vm' [] [] r r g (take (retry_cnt vm) (retry_pkts vm)) (take k (take (retry_cnt vm) (retry_pkts vm))) pool' sw)
    as [Hok Hs]; try done.
  - by rewrite Hz'.
  - apply sublist_take.
  - cbn. lia.
  - unfold vm_updated in Hok, Hs. rewrite (list_insert_id _ _ _ Hr) in Hok, Hs. by split.
Qed.

Lemma tx_take_ok e vid m (sw : nat + nat → nat → list nat) :
  machine_inv m → access_ok (VhostTxTake e vid) m →
  step_safe [] [] sw m (machine_step (VhostTxTake e vid) m).
Proof.
  intros Hinv He. cbn [machine_step]. pose proof Hinv as (_ & _ & (_ & _ & _ & Hlm & _) & _). unfold tx_take.
  destruct (decide (MAX_VHOSTS ≤ vid)%nat) as [Hge|Hlt].
  { rewrite lookup_ge_None_2 by lia. cbn [mbind res_bind]. rewrite list_insert_ge by lia. eexists. split; [reflexivity|]. by apply tx_nothing. }
  destruct (vm_at m vid Hinv) as (vm & l & r & g & Hvm & Hl & Hr & Hg & Hwf & _); [lia|].
  rewrite Hl. destruct l as [|p l]; [|by apply machine_stays].
  change (tx_vms (load_tx (m_plane m))) with (tx_vms (pl_tx (m_plane m))). rewrite (arr_get_Some _ _ _ Hvm). cbn [mbind res_bind].
  fold (backed_off e vm). destruct (backed_off e vm) eqn:Hback.
  { cbn [mbind res_bind]. rewrite (list_insert_id _ _ _ Hl). eexists. split; [reflexivity|]. by apply tx_nothing. }
  destruct (decide (0 < retry_cnt vm)%nat) as [Hret|Hret].
  { destruct (tx_resend_ok e m vid vm r g sw) as (w & Hrun & Hok); try done; [lia|]. rewrite Hrun. cbn [mbind res_bind]. by eexists. }
  change (vhost_tx_rings (load_tx (m_plane m))) with (pl_vm_rings (m_plane m)). rewrite (arr_get_Some _ _ _ Hr). cbn [mbind res_bind].
  assert (retry_cnt vm = 0%nat) as Hz by lia. destruct (rte_ring_dequeue_burst r MAX_PKT_BURST) as [pkts r'] eqn:Ed.
  set (vm' := if decide (length pkts = MAX_PKT_BURST) then _ else vm).
  assert (retry_cnt vm' = 0%nat ∧ tx_vm_wf vm') as [Hz' Hwf'].
  { destruct Hwf as (Hw1 & Hw2 & Hw3). unfold vm', tx_vm_wf. case_decide; cbn; split_and!; done || lia. }
  destruct (tx_dequeue_ok m vid vm r g sw vm') as (m' & Hrun & Hok); try done. rewrite Ed in Hrun. by exists m'.
Qed.

(** A queue of the NIC, its ring and what was dequeued from it. *)
Lemma eth_at_queue m q : machine_inv m → (q < length (pl_eth_rings (m_plane m)))%nat → ∃ r l,
  pl_eth_rings (m_plane m) !! q = Some r ∧ m_eth m !! q = Some l ∧ NoDup l ∧ live (pl_pool (m_plane m)) l.
Proof.
  intros (_ & _ & _ & (_ & _ & Hr3) & [Hnd Hlive]) Hq.
  destruct (lookup_lt_is_Some_2 (pl_eth_rings (m_plane m)) q Hq) as [r Hr].
  destruct (lookup_lt_is_Some_2 (m_eth m) q) as [l Hl]; [lia|]. exists r, l. split; [done|]. split; [done|].
  destruct (concat_at _ _ _ Hl) as (R & HR & _). unfold owned in Hnd, Hlive. rewrite !app_assoc in Hnd, Hlive.
  apply NoDup_app in Hnd as (_ & _ & Hnd). apply live_app in Hlive as [_ Hlive]. rewrite HR in Hnd, Hlive.
  apply NoDup_app in Hnd as [? _]. by apply live_app in Hlive as [? _].
Qed.

Lemma eth_take_ok core queue m (sw : nat + nat → nat → list nat) :
  machine_inv m → access_ok (EthTxTake core queue) m →
  step_safe [] [] sw m (machine_step (EthTxTake core queue) m).
Proof.
  intros Hinv [Hcore Hq]. cbn [machine_step]. destruct (eth_at_queue m queue Hinv Hq) as (r & l & Hr & Hl & _).
  destruct (lookup_lt_is_Some_2 (pl_eth (m_plane m)) core Hcore) as [st Hst]. rewrite Hl.
  destruct l as [|p l]; [|by apply machine_stays]. rewrite (arr_get_Some _ _ _ Hst). cbn [mbind res_bind].
  unfold eth_take. change (eth_tx_queue_rings (load_eth (m_plane m) st)) with (pl_eth_rings (m_plane m)).
  rewrite (arr_get_Some _ _ _ Hr). cbn [mbind res_bind]. destruct (rte_ring_dequeue_burst r MAX_PKT_BURST) as [pkts r'] eqn:Ed.
  destruct (ring_dequeue_eq _ _ _ _ _ Ed) as (Hpk & Hi & _). eexists. split; [reflexivity|].
  apply (eth_act_ok m _ queue [] pkts r r' []); try done.
  rewrite Hi, Hpk, app_nil_r. cbn [app]. rewrite <- (take_drop MAX_PKT_BURST (ring_items r)) at 1. apply Permutation_app_comm.
Qed.

Lemma eth_give_ok core take queue m (sw : nat + nat → nat → list nat) :
  machine_inv m → access_ok (EthTxGive core take queue) m →
  step_safe [] [] sw m (machine_step (EthTxGive core take queue) m).
Proof.
  intros Hinv (Hcore & Hq & Htake). cbn [machine_step]. destruct (eth_at_queue m queue Hinv Hq) as (r & l & Hr & Hl & Hnd & Hlive).
  destruct (lookup_lt_is_Some_2 (pl_eth (m_plane m)) core Hcore) as [st Hst]. rewrite Hl.
  destruct l as [|p0 l0]; [by apply machine_stays|]. set (pkts := p0 :: l0) in *. rewrite (arr_get_Some _ _ _ Hst). cbn [mbind res_bind].
  destruct (heap_update_all_spec (λ mb, set_buf (eth_rewrite config eth_addr (buf mb)) mb) pkts (pl_pool (m_plane m)) Hnd Hlive)
    as (pool & Hup & Hd & Hp1).
  unfold eth_give. change (eth_pool (load_eth (m_plane m) st)) with (pl_pool (m_plane m)). rewrite Hup. cbn [mbind res_bind].
  set (w := mk_eth_world _ pool _ _). assert (live (eth_pool w) pkts) as Hl1 by by eapply live_dom.
  destruct (network_send_spec (take (length pkts)) queue pkts w r (Htake _) Hnd Hl1 Hr)
    as (k & b & w' & r' & ms & Hsend & _ & _ & Hrings & Hi & _ & _ & _ & Hfate).
  rewrite Hsend. cbn [mbind res_bind]. eexists. split; [reflexivity|].
  apply (eth_act_ok m _ queue pkts [] r r' (firstn k pkts ++ drop (k + b) pkts)); try done.
  - rewrite Hi, app_nil_r. fold (requeued pkts k b). rewrite (burst_perm pkts k b) at 1.
    generalize (firstn k pkts ++ drop (k + b) pkts), (requeued pkts k b), (ring_items r). clear. intros A B C. solve_Permutation.
  - intros p Hp [mb Hmb]. cbn. rewrite Hfate, decide_False by done. apply fmap_is_Some. cbn [eth_pool w]. rewrite Hp1, Hmb. by eexists.
  - intros p Hp. cbn. rewrite Hfate. rewrite !decide_False; [|done|].
    + rewrite option_fmap_id. cbn [eth_pool w]. by rewrite Hp1, decide_False, option_fmap_id.
    + intros [?%elem_of_take_of|?%elem_of_drop_of]%elem_of_app; done.
Qed.

(** ** Lemmas: runs *)

Lemma machine_event_safe ev m :
  queues_ok config → machine_inv m → access_ok ev m →
  step_safe (arrives ev) (to_slow ev) (λ c v, switches c v ev) m (machine_step ev m).
Proof.
  intros Hq Hinv Hok. destruct ev as [core e vid|core|core e queue|core|e vid|e vid|core queue|core take queue].
  - apply vrx_begin_ok; try done. intros v. cbn. by rewrite decide_True.
  - by apply vrx_next_ok.
  - apply erx_begin_ok; try done. intros v. cbn. by rewrite decide_True.
  - by apply erx_next_ok.
  - by apply tx_take_ok.
  - by apply tx_give_ok.
  - by apply eth_take_ok.
  - by apply eth_give_ok.
Qed.

Lemma serves_trans v sw1 sw2 log1 log2 m1 m2 m3 :
  serves v sw1 log1 m1 m2 → serves v sw2 log2 m2 m3 → serves v (λ c, sw1 c ++ sw2 c) (log1 ++ log2) m1 m3.
Proof.
  intros [(g1 & s1 & Hl1 & Hs1 & Hg1) Hc1] [(g2 & s2 & Hl2 & Hs2 & Hg2) Hc2]. split.
  - exists (g1 ++ g2), (s1 ++ s2). rewrite fmap_app, app_assoc, Hl1, <- !app_assoc, Hl2. split_and!; [done|by apply sublist_app|].
    rewrite Hg2, Hg1. destruct (guest (pl_tx (m_plane m1)) !! v); cbn; [by rewrite app_assoc|done].
  - intros c. rewrite put_by_app, <- app_assoc. transitivity (put_by c log1 ++ batch_for m2 c v ++ sw2 c).
    + by apply sublist_app.
    + rewrite !app_assoc. by apply sublist_app.
Qed.

(** What the guest got, from what waited and what was put. *)
Lemma serves_guest v sw log m m' g : serves v sw log m m' → guest (pl_tx (m_plane m)) !! v = Some g →
  ∃ sent, guest (pl_tx (m_plane m')) !! v = Some (g ++ sent) ∧ sent `sublist_of` vm_line m v ++ log.*2.
Proof.
  intros [(gone & sent & Hl & Hs & Hg) _] Hg0. exists sent. rewrite Hg, Hg0. split; [done|].
  rewrite Hl. by apply sublist_inserts_r.
Qed.

(** Steps keep the cores and the queues. *)
Lemma machine_step_shape ev m m' : machine_step ev m = Ok m' →
  length (m_vrx m') = length (m_vrx m) ∧ length (m_rx m') = length (m_rx m) ∧ length (m_eth m') = length (m_eth m) ∧
  length (pl_eth (m_plane m')) = length (pl_eth (m_plane m)).
Proof.
  assert (∀ core act, vrx_act core act m = Ok m' → length (m_vrx m') = length (m_vrx m) ∧ length (m_rx m') = length (m_rx m) ∧
    length (m_eth m') = length (m_eth m) ∧ length (pl_eth (m_plane m')) = length (pl_eth (m_plane m))) as Hv.
  { intros core act E. unfold vrx_act in E. res_inv. case_match. res_inv. cbn. by rewrite length_insert. }
  assert (∀ core act, erx_act core act m = Ok m' → length (m_vrx m') = length (m_vrx m) ∧ length (m_rx m') = length (m_rx m) ∧
    length (m_eth m') = length (m_eth m) ∧ length (pl_eth (m_plane m')) = length (pl_eth (m_plane m))) as He.
  { intros core act E. unfold erx_act in E. res_inv. case_match. res_inv. cbn. by rewrite length_insert. }
  destruct ev; cbn [machine_step]; intros E; [by eapply Hv|by eapply Hv|by eapply He|by eapply He| | | |];
    clear Hv He; repeat case_match; res_inv; repeat case_match; res_inv; cbn; by rewrite ?length_insert.
Qed.

(** Steps that do not begin a visit only need their core and their queue. *)
Definition continues (n k j q : nat) (ev : access_event) : Prop :=
  match ev with
  | VhostRxBegin _ _ _ | EthRxBegin _ _ _ => False
  | VhostRxNext core => (core < n)%nat
  | EthRxNext core => (core < k)%nat
  | VhostTxTake e _ | VhostTxGive e _ => env_ok e
  | EthTxTake core queue => (core < j)%nat ∧ (queue < q)%nat
  | EthTxGive core take queue => (core < j)%nat ∧ (queue < q)%nat ∧ ∀ n, 0 ≤ take n ≤ Z.of_nat n
  end.

Lemma continues_ok evs m : queues_ok config → machine_inv m →
  Forall (continues (length (m_vrx m)) (length (m_rx m)) (length (pl_eth (m_plane m))) (length (m_eth m))) evs → accesses_ok evs m.
Proof.
  intros Hq. revert m. induction evs as [|ev evs IH]; intros m Hinv Hall; [done|]. apply Forall_cons in Hall as [Hev Hall].
  assert (access_ok ev m) as Hok.
  { destruct Hinv as (Hvc & Hec & _ & (_ & _ & Hr) & _). apply Forall2_length in Hvc, Hec.
    destruct ev; cbn in *; try done; rewrite ?Hvc, ?Hec, <- ?Hr; done. }
  split; [exact Hok|]. intros m' E. destruct (machine_event_safe ev m Hq Hinv Hok) as (m1 & E1 & Hinv1 & _).
  assert (m1 = m') as -> by congruence. destruct (machine_step_shape _ _ _ E) as (L1 & L2 & L3 & L4).
  apply IH; [done|]. by rewrite L1, L2, L3, L4.
Qed.

Lemma at_rest_line pl v : (v < MAX_VHOSTS)%nat → vm_line (at_rest pl) v = vm_queue (load_tx pl) v.
Proof. intros Hv. unfold vm_line, vm_queue. cbn [m_plane m_tx at_rest load_tx tx_vms vhost_tx_rings]. by rewrite lookup_replicate_2. Qed.

(** The invariant of DataPlane.v is that of this machine at rest. *)
Lemma at_rest_inv pl : plane_inv config pl → (Z.to_nat (eth_tx_queues config) ≤ length (pl_eth_rings pl))%nat → machine_inv (at_rest pl).
Proof.
  intros ((Hv & He) & Hlr & (Ht1 & Ht2 & Ht3) & _ & Hnd & Hlive) Hq.
  assert (∀ {A} n (l : list A), concat ((λ _, @nil nat) <$> l) = [] ∧ concat (replicate n (@nil nat)) = []) as Hnil
    by (intros A n l; split; [by induction l|by induction n]).
  assert (∀ w, w ∈ pl_vrx pl → vrx_fits w ∧ eth_at [] (w_eth w) ∧ batch_at [] (w_batch w)) as Hvrx.
  { intros w (i & Hi)%list_elem_of_lookup. destruct (Forall_lookup_1 _ _ _ _ Hv Hi) as (_ & _ & Hs & Ha & Hrv & Hre & Hb & Hw).
    split; [done|]. split; [|by apply batch_at_clean]. rewrite (Hw : w_eth w = replicate MAX_ETH_TX_QUEUES []).
    split_and!; [by rewrite length_replicate|constructor|by intros q ?%elem_of_nil|by intros q l [-> _]%lookup_replicate]. }
  assert (∀ w, w ∈ pl_rx pl → in_u 32 (ers_ring_enq_fail_count (rx_stats w)) ∧ batch_at [] (rx_batch w)) as Hrx.
  { intros w (i & Hi)%list_elem_of_lookup. destruct (Forall_lookup_1 _ _ _ _ He Hi) as (_ & Hb & Hf). split; [done|by apply batch_at_clean]. }
  assert (owned (at_rest pl) = waiting pl) as Howned.
  { unfold owned, waiting, hands, at_rest. cbn [m_plane m_eth]. rewrite (proj2 (Hnil nat _ [])), app_nil_r, concat_app.
    rewrite (list_fmap_ext vrx_hand (λ _, []) (pl_vrx pl)) by (intros i w Hi; apply vrx_idle_hand; apply Hvrx; by eapply list_elem_of_lookup_2).
    rewrite (list_fmap_ext erx_hand (λ _, []) (pl_rx pl)) by (intros i w Hi; apply erx_idle_hand, Hrx; by eapply list_elem_of_lookup_2).
    rewrite (proj1 (Hnil _ 0%nat _)), (proj1 (Hnil _ 0%nat _)), !app_nil_r. apply (f_equal2 app); [|done]. apply (f_equal (@concat nat)).
    apply list_fmap_ext. intros i v [-> Hi]%lookup_seq. by apply at_rest_line. }
  split_and!.
  - apply Forall2_fmap_r, Forall_Forall2_diag, Forall_forall. intros w Hw. by apply Hvrx.
  - apply Forall2_fmap_r, Forall_Forall2_diag, Forall_forall. intros w Hw. by apply Hrx.
  - unfold tx_ok. cbn [at_rest m_plane m_tx]. rewrite length_replicate. split_and!; try done. intros v vm l _ [-> _]%lookup_replicate. cbn. split; [lia|done].
  - unfold rings_ok. cbn. by rewrite length_replicate.
  - unfold owned_ok. rewrite Howned. by split.
Qed.

(** ** Property *)

(** The data plane at the granularity of its ring accesses, in any interleaving of the steps of all
    cores.  As long as DPDK keeps its promises, bursts arrive in free mbufs and messages
    suffice, no step faults; and no packet is ever in two places, be it a ring, the batch a receiving core is
    still serving or the burst a sending core has dequeued, nor freed while it is in one.
    Every VM receives, behind what it had, a subsequence of what waited for it and of what
    the cores put on its ring, each core's packets in the order in which it switched them. *)
Theorem machine_delivers (evs : list access_event) (m : machine) :
  queues_ok config → machine_inv m → accesses_ok evs m →
  ∃ m', machine_run evs m = Ok m' ∧ machine_inv m' ∧
    ∀ v g, (v < MAX_VHOSTS)%nat → guest (pl_tx (m_plane m)) !! v = Some g → ∃ log sent,
      guest (pl_tx (m_plane m')) !! v = Some (g ++ sent) ∧ sent `sublist_of` vm_line m v ++ log.*2 ∧
      ∀ c, put_by c log ++ batch_for m' c v `sublist_of` batch_for m c v ++ concat (switches c v <$> evs).
Proof.
  intros Hq Hinv Hok.
  assert (∃ m', machine_run evs m = Ok m' ∧ machine_inv m' ∧
    ∀ v, (v < MAX_VHOSTS)%nat → ∃ log, serves v (λ c, concat (switches c v <$> evs)) log m m') as (m' & Hrun & Hinv' & Hs).
  { revert m Hinv Hok. induction evs as [|ev evs IH]; intros m Hinv Hok.
    - exists m. split_and!; try done. intros v _. exists []. by apply serves_none.
    - destruct Hok as [Hev Hok]. destruct (machine_event_safe ev m Hq Hinv Hev) as (m1 & Hstep & Hinv1 & _ & Hs1).
      destruct (IH m1 Hinv1 (Hok _ Hstep)) as (m' & Hrun & Hinv' & Hs). exists m'. cbn [machine_run]. rewrite Hstep.
      split_and!; try done. intros v Hv. destruct (Hs1 v Hv) as [log1 Hl1], (Hs v Hv) as [log2 Hl2].
      exists (log1 ++ log2). cbn [fmap list_fmap concat]. by eapply serves_trans. }
  exists m'. split; [done|]. split; [done|]. intros v g Hv Hg. destruct (Hs v Hv) as [log Hl]. exists log.
  destruct (serves_guest _ _ _ _ _ _ Hl Hg) as (sent & Hsent & Hsub). exists sent. split; [done|]. split; [done|apply Hl].
Qed.

End ring_steps.

(** ** Witness *)

(** VM 1's three packets are sorted and put on the rings one destination at a time, while the core of VM 2 looks at its
    ring before and after; then VM 2 and the first queue of the NIC are served. *)
Definition demo_accesses : list access_event :=
  VhostRxBegin 1 (mk_vrx_env (demo_vrx_env 1) 5 5) 1 :: VhostTxTake demo_tx_env 2 :: replicate 12 (VhostRxNext 1) ++
  [VhostTxTake demo_tx_env 2; EthTxTake 0 0; VhostTxGive demo_tx_env 2; EthTxGive 0 (λ n, Z.of_nat n) 0].

Definition machine_guest (v : nat) (r : res machine) : option (list nat) :=
  match r with Ok m => guest (pl_tx (m_plane m)) !! v | Fault _ => None end.

Lemma demo_at_rest_inv : machine_inv demo_config (at_rest demo_plane).
Proof. apply at_rest_inv; [exact demo_plane_inv|]. vm_compute. lia. Qed.

Lemma demo_accesses_ok : accesses_ok demo_config [2;0;0;0;0;9] demo_accesses (at_rest demo_plane).
Proof.
  assert (access_ok demo_config (VhostRxBegin 1 (mk_vrx_env (demo_vrx_env 1) 5 5) 1) (at_rest demo_plane)) as Hbegin.
  { split; [done|]. pose proof demo_run_ok as [[_ Hok] _]. exact Hok. }
  split; [exact Hbegin|]. intros m E.
  destruct (machine_event_safe demo_config [2;0;0;0;0;9] _ _ demo_queues_ok demo_at_rest_inv Hbegin) as (m1 & E1 & Hinv & _).
  assert (m1 = m) as -> by congruence. apply continues_ok; [exact demo_queues_ok|exact Hinv|].
  destruct (machine_step_shape _ _ _ _ _ E) as (-> & -> & -> & ->).
  apply Forall_cons. split; [exact demo_tx_env_ok|]. apply Forall_app. split.
  - apply Forall_replicate. cbn. lia.
  - repeat (apply Forall_cons; split); try exact demo_tx_env_ok; cbn; [split; lia|split_and!; [lia|lia|intros; lia]|constructor].
Qed.

Lemma machine_delivers_witness :
  ∃ m', machine_run demo_config [2;0;0;0;0;9] demo_accesses (at_rest demo_plane) = Ok m' ∧
    guest (pl_tx (m_plane m')) !! 2%nat = Some [10%nat] ∧ NoDup (owned m').
Proof.
  destruct (machine_delivers demo_config [2;0;0;0;0;9] demo_accesses (at_rest demo_plane) demo_queues_ok demo_at_rest_inv demo_accesses_ok)
    as (m' & E & (_ & _ & _ & _ & Hnd & _) & _).
  exists m'. split; [exact E|]. split; [|exact Hnd].
  change (machine_guest 2 (Ok m') = Some [10%nat]). rewrite <- E. vm_compute. reflexivity.
Defined.
