(* ===== verification/RingRefine.v ===== *)
(** * Visits as runs of accesses

    DataPlane.v takes a visit as one step, RingSteps.v one access to a ring.  Here: a visit of
    DataPlane.v is a run of the machine of RingSteps.v in which no other core moves, from
    rest to rest.  So the steps of RingSteps.v are the visit functions of the components, cut up. *)

From S2P Require Import Prelude CInt Packet Dpdk Ecn Offload Config Poll Plan Route Device VhostTx EthTx Batch EthRx VhostRx DataPlane RingSteps.
Local Open Scope Z_scope.

(** ** Steps of one core *)

(** [n] steps of a receiving core. *)
Fixpoint nexts {W} (next : rx_pc → W → res (W * rx_pc)) (n : nat) (pc : rx_pc) (w : W) : res (W * rx_pc) :=
  match n with
  | O => Ok (w, pc)
  | S n => '(w, pc) ← next pc w; nexts next n pc w
  end.

Lemma nexts_add {W} (next : rx_pc → W → res (W * rx_pc)) n k pc w pc1 w1 :
  nexts next n pc w = Ok (w1, pc1) → nexts next (n + k) pc w = nexts next k pc1 w1.
Proof.
  revert pc w. induction n as [|n IH]; intros pc w E; [by injection E as -> ->|]. cbn [nexts Nat.add] in *.
  destruct (next pc w) as [[w' pc']|]; [|discriminate E]. cbn [mbind res_bind] in *. by apply IH.
Qed.

(** The accesses of a visit: [n] steps after a burst is sorted. *)
Inductive cut `{RteRing} : plane_event → list access_event → Prop :=
  | cut_vhost_rx core e vid n : cut (VhostRxVisit core e vid) (VhostRxBegin core e vid :: replicate n (VhostRxNext core))
  | cut_eth_rx core e queue n : cut (EthRxVisit core e queue) (EthRxBegin core e queue :: replicate n (EthRxNext core))
  | cut_vhost_tx e vid : cut (VhostTxVisit e vid) [VhostTxTake e vid; VhostTxGive e vid]
  | cut_eth_tx core take q : cut (EthTxVisit core take q) [EthTxTake core q; EthTxGive core take q].

Section refine.
Context `{RteRing} `{RteMempool slow_msg} `{RteFlags} `{RteCksum} `{RteThash} `{RteEther}.
Context (config : config_t) (eth_addr : list Z).

(** The loop over the destinations, one iteration at a time. *)
Lemma flush_cons {X} (pre : nat → nat → list nat → X → res X) (fail : nat → nat → X → res X) v dsts pkts rings x :
  flush pre fail (v :: dsts) pkts rings x =
    l ← arr_get pkts v; '(pkts, rings, x) ← flush pre fail [v] pkts rings x;
    if decide (l = []) then Ok (pkts, rings, x) else flush pre fail dsts pkts rings x.
Proof.
  cbn [flush]. destruct (arr_get pkts v) as [l|]; [|done]. cbn [mbind res_bind]. destruct (decide (l = [])) as [Hl|Hl]; [done|].
  destruct (arr_get rings v) as [r|]; [|done]. cbn [mbind res_bind]. destruct (pre v _ l x) as [x1|]; [|done]. cbn [mbind res_bind].
  destruct (rte_ring_enqueue_burst r l) as [k r']. by destruct (if decide (k < length l)%nat then _ else _).
Qed.

(** *** vhost_rx *)

Definition put_eth (vid : nat) (eo : eth_out_state) (w : vrx_world) : vrx_world :=
  mk_vrx_world (eo_pool eo) (w_vm_rings w) (eo_rings eo) (w_slow w) (w_msgs w) (<[vid := eo_st eo]> (w_stats w)) (w_ap w)
    (w_poll_states w) (w_iteration w) (w_rr_vm w) (eo_rr eo) (w_batch w) (eo_pkts eo).
Definition put_vm (batch : list (list nat)) (rings : list (ring nat)) (vo : vm_out_state) (w : vrx_world) : vrx_world :=
  mk_vrx_world (vo_pool vo) rings (w_eth_rings w) (w_slow w) (w_msgs w) (vo_stats vo) (w_ap w) (w_poll_states w)
    (w_iteration w) (vo_rr vo) (w_rr_eth w) batch (w_eth w).

Lemma queue_steps qs vid dsts slow st w eo :
  w_stats w !! vid = Some st →
  foldM eth_flush_queue qs (mk_eth_out (w_eth w) (w_eth_rings w) (w_rr_eth w) (w_pool w) st) = Ok eo →
  nexts vrx_next (length qs) (RxEth vid qs dsts slow) w = Ok (put_eth vid eo w, RxEth vid [] dsts slow).
Proof.
  revert st w. induction qs as [|q qs IH]; intros st w Hst E.
  - injection E as <-. unfold put_eth. cbn. rewrite list_insert_id by done. by destruct w.
  - cbn [foldM] in E. bind_step E as s1 E1. cbn [nexts length vrx_next]. unfold vrx_queue at 1.
    rewrite (arr_get_Some _ _ _ Hst). cbn [mbind res_bind]. rewrite E1. cbn [mbind res_bind]. fold (put_eth vid s1 w).
    rewrite (IH (eo_st s1) (put_eth vid s1 w)).
    + unfold put_eth. cbn. by rewrite list_insert_insert_eq.
    + cbn. apply list_lookup_insert_eq. by eapply lookup_lt_Some.
    + cbn. by destruct s1.
Qed.

Lemma dst_steps dsts slow w batch rings vo :
  flush vm_flush_mark vm_flush_fail dsts (w_batch w) (w_vm_rings w) (mk_vm_out (w_rr_vm w) (w_pool w) (w_stats w)) = Ok (batch, rings, vo) →
  ∃ n, nexts vrx_next n (RxVm dsts slow) w = Ok (put_vm batch rings vo w, RxSlow slow).
Proof.
  revert w. induction dsts as [|v dsts IH]; intros w E.
  - injection E as <- <- <-. exists 1%nat. cbn. unfold put_vm. by destruct w.
  - rewrite flush_cons in E. bind_step E as l El. bind_step E as [[b1 r1] vo1] E1.
    assert (vrx_vm v w = Ok (put_vm b1 r1 vo1 w)) as Hv by (unfold vrx_vm; by rewrite E1).
    destruct (decide (l = [])) as [Hl|Hl].
    + injection E as <- <- <-. exists 1%nat. cbn [nexts vrx_next]. rewrite El. cbn [mbind res_bind]. rewrite Hv. cbn [mbind res_bind].
      by rewrite decide_True.
    + destruct (IH (put_vm b1 r1 vo1 w)) as [n Hn]; [cbn; by destruct vo1|]. exists (S n).
      cbn [nexts vrx_next]. rewrite El. cbn [mbind res_bind]. rewrite Hv. cbn [mbind res_bind]. rewrite decide_False by done. exact Hn.
Qed.

Lemma burst_steps e vid d st w w' :
  vhost_rx_burst config e vid d st w = Ok w' → (vid < length (w_stats w))%nat →
  ∃ w1 pc n, vrx_sort config e vid d st w = Ok (w1, pc) ∧ nexts vrx_next n pc w1 = Ok (w', RxIdle).
Proof.
  intros E Hv. unfold vhost_rx_burst in E. unfold vrx_sort. bind_step E as [slow mp] E1. bind_step E as s E2.
  bind_step E as eo E3. bind_step E as [[batch rings] vo] E4. destruct (flush_slow (v_slow s) (w_slow w)) as [lost sr] eqn:Es.
  injection E as <-. cbn [mbind res_bind]. rewrite E2. cbn [mbind res_bind]. eexists _, _.
  set (w1 := mk_vrx_world _ _ _ _ _ _ _ _ _ _ _ _ _).
  set (qs := seq 0 (Z.to_nat (eth_tx_queues config))) in *. unfold eth_flush in E3.
  assert (w_stats w1 !! vid = Some (v_st s)) as Hst by by apply list_lookup_insert_eq.
  pose proof (queue_steps qs vid (dst_vids (v_batch s)) (v_slow s) (v_st s) w1 eo Hst E3) as Hn1.
  destruct (dst_steps (dst_vids (v_batch s)) (v_slow s) (put_eth vid eo w1) batch rings vo) as [n2 Hn2].
  { cbn. by rewrite list_insert_insert_eq. }
  exists (length qs + (1 + (n2 + 1)))%nat. split; [reflexivity|].
  rewrite (nexts_add _ _ _ _ _ _ _ Hn1). cbn [nexts Nat.add vrx_next mbind res_bind].
  rewrite (nexts_add _ _ _ _ _ _ _ Hn2). cbn [nexts vrx_next mbind res_bind]. unfold vrx_slow.
  change (w_slow (put_vm batch rings vo (put_eth vid eo w1))) with (w_slow w). by rewrite Es.
Qed.

Lemma vrx_steps e vid w w' : vhost_rx_visit config e vid w = Ok w' →
  ∃ w1 pc n, vrx_begin config e vid w = Ok (w1, pc) ∧ nexts vrx_next n pc w1 = Ok (w', RxIdle).
Proof.
  unfold vhost_rx_visit, vrx_begin. destruct (match env_vdevs (vr_rx e) with Some _ => _ | None => _ end) as [vdevs|]; [|done].
  cbn [mbind res_bind]. assert (∃ w1 pc n, Ok (w, RxIdle) = Ok (w1, pc) ∧ nexts vrx_next n pc w1 = Ok (w, RxIdle)) as Hidle by by exists w, RxIdle, 0%nat.
  destruct (decide _) as [Hge|Hlt]; [by intros [= <-]|]. destruct (arr_get vdevs vid) as [[ptr|]|]; [|by intros [= <-]|done].
  cbn [mbind res_bind]. destruct (arr_get (w_ap w) vid) as [ap|]; [|done]. cbn [mbind res_bind].
  destruct (poll_gate ap _ _) as [ap'|]; [|by intros [= <-]]. destruct (arr_get (w_stats w) vid) as [st|] eqn:Est; [|done].
  cbn [mbind res_bind]. destruct (vhost_poll _ st) as [st'|]; [|done]. cbn [mbind res_bind]. set (w0 := polled vid st' _ w).
  destruct (decide _) as [Hz|Hz]; [intros [= <-]; by exists w0, RxIdle, 0%nat|].
  destruct (heap_get _ ptr) as [d|]; [|done]. cbn [mbind res_bind]. intros E. apply burst_steps; [exact E|].
  unfold w0, polled. cbn. rewrite length_insert. apply arr_get_Ok in Est. by eapply lookup_lt_Some.
Qed.

(** *** eth_rx *)

Definition put_rx (batch : list (list nat)) (rings : list (ring nat)) (fails : Z) (w : rx_world) : rx_world :=
  mk_rx_world (rx_pool w) rings (slowpath_ring w) (msg_pool w) (set_fails fails (rx_stats w)) batch.

Lemma erx_dst_steps dsts slow w batch rings fails :
  flush (λ _ _ _ x, Ok x) (λ _ lost x, Ok (add_fail lost x)) dsts (rx_batch w) (rx_rings w) (ers_ring_enq_fail_count (rx_stats w)) =
    Ok (batch, rings, fails) →
  ∃ n, nexts erx_next n (RxVm dsts slow) w = Ok (put_rx batch rings fails w, RxSlow slow).
Proof.
  revert w. induction dsts as [|v dsts IH]; intros w E.
  - injection E as <- <- <-. exists 1%nat. cbn. unfold put_rx, set_fails. destruct w as [? ? ? ? [] ?]. done.
  - rewrite flush_cons in E. bind_step E as l El. bind_step E as [[b1 r1] f1] E1.
    assert (erx_vm v w = Ok (put_rx b1 r1 f1 w)) as Hv by (unfold erx_vm; by rewrite E1).
    destruct (decide (l = [])) as [Hl|Hl].
    + injection E as <- <- <-. exists 1%nat. cbn [nexts erx_next]. rewrite El. cbn [mbind res_bind]. rewrite Hv. cbn [mbind res_bind].
      by rewrite decide_True.
    + destruct (IH (put_rx b1 r1 f1 w)) as [n Hn]; [exact E|]. exists (S n).
      cbn [nexts erx_next]. rewrite El. cbn [mbind res_bind]. rewrite Hv. cbn [mbind res_bind]. rewrite decide_False by done. exact Hn.
Qed.

Lemma erx_steps e queue w w' : eth_rx_visit config e queue w = Ok w' →
  ∃ w1 pc n, erx_begin config e queue w = Ok (w1, pc) ∧ nexts erx_next n pc w1 = Ok (w', RxIdle).
Proof.
  unfold eth_rx_visit, erx_begin. destruct (decide (length (env_burst e).*1 = 0%nat)) as [Hz|Hz]; [intros [= <-]; by eexists _, RxIdle, 0%nat|]. intros E.
  bind_step E as s E1. bind_step E as [[batch rings] fails] E2.
  destruct (flush_slow (l_slow s) (slowpath_ring w)) as [lost sr] eqn:Es. injection E as <-.
  cbn [mbind res_bind]. eexists _, _. set (w1 := mk_rx_world _ _ _ _ _ _).
  destruct (erx_dst_steps (dst_vids (l_batch s)) (l_slow s) w1 batch rings fails E2) as [n Hn].
  exists (n + 1)%nat. split; [reflexivity|]. rewrite (nexts_add _ _ _ _ _ _ _ Hn). cbn [nexts erx_next mbind res_bind].
  unfold erx_slow. change (slowpath_ring (put_rx batch rings fails w1)) with (slowpath_ring w). by rewrite Es.
Qed.

(** ** Lemmas: the machine while one core moves *)

Lemma vrx_act_again core act pl w pc vs rs ts es : (core < length (pl_vrx pl))%nat → (core < length vs)%nat →
  vrx_act core act (mk_machine (store_vrx core w pl) (<[core := pc]> vs) rs ts es) =
    '(w, pc) ← act pc w; Ok (mk_machine (store_vrx core w pl) (<[core := pc]> vs) rs ts es).
Proof.
  intros Hp Hv. unfold vrx_act. cbn [m_plane m_vrx store_vrx pl_vrx].
  rewrite (arr_get_Some (<[core := w]> (pl_vrx pl)) core w) by by apply list_lookup_insert_eq. cbn [mbind res_bind].
  rewrite (arr_get_Some (<[core := pc]> vs) core pc) by by apply list_lookup_insert_eq. cbn [mbind res_bind].
  assert (load_vrx (store_vrx core w pl) w = w) as -> by by destruct w.
  destruct (act pc w) as [[w' pc']|]; [|done]. cbn [mbind res_bind]. do 2 f_equal; [|by rewrite list_insert_insert_eq].
  unfold store_vrx. cbn. by rewrite list_insert_insert_eq.
Qed.

Lemma vrx_run core pl vs rs ts es n pc w w' pc' : (core < length (pl_vrx pl))%nat → (core < length vs)%nat →
  nexts vrx_next n pc w = Ok (w', pc') →
  machine_run config eth_addr (replicate n (VhostRxNext core)) (mk_machine (store_vrx core w pl) (<[core := pc]> vs) rs ts es) =
    Ok (mk_machine (store_vrx core w' pl) (<[core := pc']> vs) rs ts es).
Proof.
  intros Hp Hv. revert pc w. induction n as [|n IH]; intros pc w E; [by injection E as -> ->|].
  cbn [nexts] in E. bind_step E as [w1 pc1] E1. cbn [replicate machine_run machine_step]. rewrite vrx_act_again by done.
  rewrite E1. cbn [mbind res_bind]. by apply IH.
Qed.

Lemma erx_act_again core act pl w pc vs rs ts es : (core < length (pl_rx pl))%nat → (core < length rs)%nat →
  erx_act core act (mk_machine (store_rx core w pl) vs (<[core := pc]> rs) ts es) =
    '(w, pc) ← act pc w; Ok (mk_machine (store_rx core w pl) vs (<[core := pc]> rs) ts es).
Proof.
  intros Hp Hv. unfold erx_act. cbn [m_plane m_rx store_rx pl_rx].
  rewrite (arr_get_Some (<[core := w]> (pl_rx pl)) core w) by by apply list_lookup_insert_eq. cbn [mbind res_bind].
  rewrite (arr_get_Some (<[core := pc]> rs) core pc) by by apply list_lookup_insert_eq. cbn [mbind res_bind].
  assert (load_rx (store_rx core w pl) w = w) as -> by by destruct w.
  destruct (act pc w) as [[w' pc']|]; [|done]. cbn [mbind res_bind]. do 2 f_equal; [|by rewrite list_insert_insert_eq].
  unfold store_rx. cbn. by rewrite list_insert_insert_eq.
Qed.

Lemma erx_run core pl vs rs ts es n pc w w' pc' : (core < length (pl_rx pl))%nat → (core < length rs)%nat →
  nexts erx_next n pc w = Ok (w', pc') →
  machine_run config eth_addr (replicate n (EthRxNext core)) (mk_machine (store_rx core w pl) vs (<[core := pc]> rs) ts es) =
    Ok (mk_machine (store_rx core w' pl) vs (<[core := pc']> rs) ts es).
Proof.
  intros Hp Hv. revert pc w. induction n as [|n IH]; intros pc w E; [by injection E as -> ->|].
  cbn [nexts] in E. bind_step E as [w1 pc1] E1. cbn [replicate machine_run machine_step]. rewrite erx_act_again by done.
  rewrite E1. cbn [mbind res_bind]. by apply IH.
Qed.

(** The visits keep the number of NIC queues. *)
Lemma eth_flush_length qs s s' : foldM eth_flush_queue qs s = Ok s' → length (eo_rings s') = length (eo_rings s).
Proof.
  revert s. induction qs as [|q qs IH]; intros s E; [by injection E as ->|]. cbn [foldM] in E. bind_step E as s1 E1.
  rewrite (IH s1 E). clear IH E. unfold eth_flush_queue in E1. bind_step E1 as l El. destruct (decide (l = [])); [by injection E1 as ->|].
  bind_step E1 as r Er. bind_step E1 as rr Err. bind_step E1 as [pool rr'] Em. destruct (rte_ring_enqueue_burst r l) as [k r'].
  bind_step E1 as pool' Ef. injection E1 as <-. cbn. apply length_insert.
Qed.

Lemma vrx_visit_queues e vid w w' : vhost_rx_visit config e vid w = Ok w' → length (w_eth_rings w') = length (w_eth_rings w).
Proof.
  unfold vhost_rx_visit. destruct (match env_vdevs (vr_rx e) with Some _ => _ | None => _ end) as [vdevs|]; [|done].
  cbn [mbind res_bind]. destruct (decide _) as [Hge|Hlt]; [by intros [= <-]|]. destruct (arr_get vdevs vid) as [[ptr|]|]; [|by intros [= <-]|done].
  cbn [mbind res_bind]. destruct (arr_get (w_ap w) vid) as [ap|]; [|done]. cbn [mbind res_bind].
  destruct (poll_gate ap _ _) as [ap'|]; [|by intros [= <-]]. intros E. bind_step E as st Est. bind_step E as st' Est'.
  destruct (decide _) as [Hz|Hz]; [by injection E as <-|]. bind_step E as d Ed. unfold vhost_rx_burst in E. bind_step E as [slow mp] E1.
  bind_step E as s E2. bind_step E as eo E3. bind_step E as [[batch rings] vo] E4. destruct (flush_slow _ _) as [lost sr].
  injection E as <-. cbn. unfold eth_flush in E3. by rewrite (eth_flush_length _ _ _ E3).
Qed.

Lemma at_rest_vrx core w pl : length (w_eth_rings w) = length (pl_eth_rings pl) →
  at_rest (store_vrx core w pl) =
    mk_machine (store_vrx core w pl) (<[core := RxIdle]> (m_vrx (at_rest pl))) (m_rx (at_rest pl)) (m_tx (at_rest pl)) (m_eth (at_rest pl)).
Proof. intros Hl. unfold at_rest. cbn. by rewrite list_fmap_insert, Hl. Qed.

Lemma vrx_visit_run core e vid pl pl' : plane_step config eth_addr (VhostRxVisit core e vid) pl = Ok pl' →
  ∃ accs, cut (VhostRxVisit core e vid) accs ∧ machine_run config eth_addr accs (at_rest pl) = Ok (at_rest pl').
Proof.
  cbn [plane_step]. intros E. bind_step E as w0 E0. bind_step E as w' E1. injection E as <-. fold (store_vrx core w' pl).
  apply arr_get_Ok in E0. pose proof (lookup_lt_Some _ _ _ E0) as Hlt. pose proof (vrx_visit_queues _ _ _ _ E1) as Hq.
  destruct (vrx_steps _ _ _ _ E1) as (w1 & pc & n & Hb & Hn). exists (VhostRxBegin core e vid :: replicate n (VhostRxNext core)). split; [constructor|].
  cbn [machine_run machine_step]. unfold vrx_act at 1. cbn [at_rest m_plane m_vrx m_rx m_tx m_eth]. rewrite (arr_get_Some _ _ _ E0). cbn [mbind res_bind].
  rewrite (arr_get_Some _ core RxIdle) by by rewrite list_lookup_fmap, E0. cbn [mbind res_bind]. rewrite Hb. cbn [mbind res_bind].
  rewrite (vrx_run core pl _ _ _ _ n pc w1 w' RxIdle) by (rewrite ?length_fmap; done). by rewrite at_rest_vrx.
Qed.

Lemma erx_visit_run core e queue pl pl' : plane_step config eth_addr (EthRxVisit core e queue) pl = Ok pl' →
  ∃ accs, cut (EthRxVisit core e queue) accs ∧ machine_run config eth_addr accs (at_rest pl) = Ok (at_rest pl').
Proof.
  cbn [plane_step]. intros E. bind_step E as w0 E0. bind_step E as w' E1. injection E as <-. fold (store_rx core w' pl).
  apply arr_get_Ok in E0. pose proof (lookup_lt_Some _ _ _ E0) as Hlt.
  destruct (erx_steps _ _ _ _ E1) as (w1 & pc & n & Hb & Hn). exists (EthRxBegin core e queue :: replicate n (EthRxNext core)). split; [constructor|].
  cbn [machine_run machine_step]. unfold erx_act at 1. cbn [at_rest m_plane m_vrx m_rx m_tx m_eth]. rewrite (arr_get_Some _ _ _ E0). cbn [mbind res_bind].
  rewrite (arr_get_Some _ core RxIdle) by by rewrite list_lookup_fmap, E0. cbn [mbind res_bind]. rewrite Hb. cbn [mbind res_bind].
  rewrite (erx_run core pl _ _ _ _ n pc w1 w' RxIdle) by (rewrite ?length_fmap; done).
  unfold at_rest. cbn. by rewrite list_fmap_insert.
Qed.

(** *** The sending cores *)

Lemma insert_rest v n : <[v := []]> (replicate n (@nil nat)) = replicate n [].
Proof.
  destruct (decide (v < n)%nat); [apply list_insert_id; by apply lookup_replicate_2|].
  apply list_insert_ge. rewrite length_replicate. lia.
Qed.

Lemma at_rest_take e vid pl w pkts : tx_take e vid (load_tx pl) = Ok (w, pkts) →
  machine_step config eth_addr (VhostTxTake e vid) (at_rest pl) =
    Ok (mk_machine (store_tx w pl) (m_vrx (at_rest pl)) (m_rx (at_rest pl)) (<[vid := pkts]> (replicate MAX_VHOSTS [])) (m_eth (at_rest pl))).
Proof.
  intros E. cbn [machine_step]. change (m_tx (at_rest pl)) with (replicate MAX_VHOSTS (@nil nat)).
  destruct (replicate MAX_VHOSTS [] !! vid) as [l|] eqn:El; [apply lookup_replicate in El as [-> _]|];
    change (m_plane (at_rest pl)) with pl; by rewrite E.
Qed.

(** Nothing to give. *)
Lemma at_rest_give e vid pl : machine_step config eth_addr (VhostTxGive e vid) (at_rest pl) = Ok (at_rest pl).
Proof.
  cbn [machine_step]. change (m_tx (at_rest pl)) with (replicate MAX_VHOSTS (@nil nat)).
  by destruct (replicate MAX_VHOSTS [] !! vid) as [l|] eqn:El; [apply lookup_replicate in El as [-> _]|].
Qed.

Lemma tx_visit_cut e vid w w' : vhost_tx_visit e vid w = Ok w' →
  (tx_take e vid w = Ok (w', [])) ∨
  ∃ w1 p pkts, (vid < MAX_VHOSTS)%nat ∧ tx_take e vid w = Ok (w1, p :: pkts) ∧ tx_give e vid (p :: pkts) w1 = Ok w'.
Proof.
  intros E. unfold tx_take. destruct (decide (MAX_VHOSTS ≤ vid)%nat) as [Hge|Hlt].
  { unfold vhost_tx_visit in E. rewrite decide_True in E by done. injection E as <-. by left. }
  pose proof E as Hvisit. unfold vhost_tx_visit in E. rewrite decide_False in E by done. bind_step E as vm Evm. cbn [mbind res_bind].
  destruct (bool_decide _ && _) eqn:Eb; [injection E as <-; by left|].
  bind_step E as g Eg. destruct (decide (0 < retry_cnt vm)%nat) as [Hr|Hr]; [left; by rewrite Hvisit|].
  bind_step E as r Er. cbn [mbind res_bind]. destruct (rte_ring_dequeue_burst r MAX_PKT_BURST) as [pkts r'].
  set (vm1 := if decide (length pkts = MAX_PKT_BURST) then _ else vm) in *.
  destruct pkts as [|p pkts]; cbn [length] in E; [rewrite decide_False in E by lia; injection E as <-; by left|right].
  rewrite decide_True in E by lia. eexists _, p, pkts. split; [lia|]. split; [reflexivity|].
  apply arr_get_Ok in Evm. unfold tx_give. cbn [tx_vms guest tx_pool vhost_tx_rings].
  rewrite (arr_get_Some _ vid vm1) by (apply list_lookup_insert_eq; by eapply lookup_lt_Some). cbn [mbind res_bind]. rewrite Eg. cbn [mbind res_bind length].
  destruct (vhost_send _ _ _ _ vm1 _) as [[[ret vm2] pool]|]; [|discriminate E]. cbn [mbind res_bind] in *.
  by rewrite list_insert_insert_eq.
Qed.

Lemma tx_visit_run e vid pl pl' : plane_step config eth_addr (VhostTxVisit e vid) pl = Ok pl' →
  machine_run config eth_addr [VhostTxTake e vid; VhostTxGive e vid] (at_rest pl) = Ok (at_rest pl').
Proof.
  cbn [plane_step]. intros E. bind_step E as w' E1. injection E as <-. fold (store_tx w' pl). cbn [machine_run].
  destruct (tx_visit_cut _ _ _ _ E1) as [Et|(w1 & p & pkts & Hv & Et & Eg)]; rewrite (at_rest_take _ _ _ _ _ Et); cbn [mbind res_bind].
  { rewrite insert_rest. change (mk_machine _ _ _ _ _) with (at_rest (store_tx w' pl)). by rewrite at_rest_give. }
  cbn [machine_step m_tx]. rewrite list_lookup_insert_eq by by rewrite length_replicate. cbn [m_plane].
  assert (load_tx (store_tx w1 pl) = w1) as -> by by destruct w1. rewrite Eg. cbn [mbind res_bind].
  by rewrite list_insert_insert_eq, insert_rest.
Qed.

Lemma network_send_length ret q num pkts w k w' : network_send ret q num pkts w = Ok (k, w') →
  length (eth_tx_queue_rings w') = length (eth_tx_queue_rings w).
Proof.
  unfold network_send. intros E. bind_step E as pool E1. bind_step E as out E2. bind_step E as pool2 E3. bind_step E as [[rings pool3] rq] E4.
  injection E as _ <-. cbn. destruct (decide _); [|by injection E4 as <- _ _]. bind_step E4 as r Er.
  destruct (rte_ring_enqueue_burst r _) as [n r']. bind_step E4 as pool4 E5. injection E4 as <- _ _. apply length_insert.
Qed.

(** DPDK: to enqueue no packet leaves a ring alone. *)
Definition enqueue_none : Prop := ∀ r : ring nat, (rte_ring_enqueue_burst r []).2 = r.

Lemma eth_visit_cut take q w w' : enqueue_none → eth_tx_visit config eth_addr (mk_eth_env take []) q w = Ok w' →
  ∃ w1 pkts, eth_take q w = Ok (w1, pkts) ∧
    (if decide (pkts = []) then w' = w1 else eth_give config eth_addr (take (length pkts)) q pkts w1 = Ok w') ∧
    length (eth_tx_queue_rings w1) = length (eth_tx_queue_rings w) ∧ length (eth_tx_queue_rings w') = length (eth_tx_queue_rings w).
Proof.
  intros Hnone E. unfold eth_tx_visit in E. unfold eth_take. bind_step E as r Er. cbn [mbind res_bind].
  destruct (rte_ring_dequeue_burst r MAX_PKT_BURST) as [pkts r1]. cbn [env_arrive env_take] in E. pose proof (Hnone r1) as Hr.
  destruct (rte_ring_enqueue_burst r1 []) as [a r2]. cbn in Hr. subst r2. bind_step E as pool Ep.
  eexists _, pkts. split; [reflexivity|]. cbn [eth_tx_queue_rings]. rewrite length_insert.
  destruct pkts as [|p pkts]; cbn [length] in E.
  - rewrite decide_False in E by lia. cbn in Ep. injection Ep as <-. injection E as <-. cbn [eth_tx_queue_rings]. by rewrite decide_True, length_insert.
  - rewrite decide_True in E by lia. rewrite decide_False by done. bind_step E as [k w2] Es. injection E as <-.
    split; [|split; [done|]].
    + unfold eth_give. cbn [eth_pool eth_tx_queue_rings wire eth_stats]. rewrite Ep. cbn [mbind res_bind length]. by rewrite Es.
    + rewrite (network_send_length _ _ _ _ _ _ _ Es). cbn. apply length_insert.
Qed.

Lemma eth_visit_run core take q pl pl' : enqueue_none → (q < length (pl_eth_rings pl))%nat →
  plane_step config eth_addr (EthTxVisit core take q) pl = Ok pl' →
  machine_run config eth_addr [EthTxTake core q; EthTxGive core take q] (at_rest pl) = Ok (at_rest pl').
Proof.
  intros Hnone Hq. cbn [plane_step]. intros E. bind_step E as st Est. bind_step E as w' E1. injection E as <-. fold (store_eth core w' pl).
  destruct (eth_visit_cut _ _ _ _ Hnone E1) as (w1 & pkts & Et & Hgive & Hl1 & Hl2). change (length _) with (length (pl_eth_rings pl)) in Hl1 at 2, Hl2 at 2.
  assert (machine_step config eth_addr (EthTxTake core q) (at_rest pl) = Ok (mk_machine (store_eth core w1 pl) (m_vrx (at_rest pl))
    (m_rx (at_rest pl)) (m_tx (at_rest pl)) (<[q := pkts]> (m_eth (at_rest pl))))) as Htake.
  { cbn [machine_step at_rest m_eth m_plane]. rewrite lookup_replicate_2 by done. rewrite Est. cbn [mbind res_bind]. by rewrite Et. }
  cbn [machine_run]. rewrite Htake. cbn [mbind res_bind machine_step m_eth at_rest]. destruct pkts as [|p pkts].
  - rewrite decide_True in Hgive by done. subst w'. rewrite insert_rest, lookup_replicate_2 by done.
    unfold at_rest. cbn. by rewrite Hl1.
  - rewrite decide_False in Hgive by done. rewrite list_lookup_insert_eq by by rewrite length_replicate.
    cbn [m_plane store_eth pl_eth]. apply arr_get_Ok in Est. pose proof (lookup_lt_Some _ _ _ Est) as Hlt.
    rewrite (arr_get_Some _ core (eth_stats w1)) by by apply list_lookup_insert_eq. cbn [mbind res_bind].
    assert (load_eth (store_eth core w1 pl) (eth_stats w1) = w1) as Hload by by destruct w1.
    rewrite Hload, Hgive. cbn [mbind res_bind]. unfold at_rest, store_eth. cbn.
    by rewrite !list_insert_insert_eq, insert_rest, Hl2.
Qed.

(** ** Lemmas: runs *)

Lemma machine_run_app l1 l2 m : machine_run config eth_addr (l1 ++ l2) m = m ← machine_run config eth_addr l1 m; machine_run config eth_addr l2 m.
Proof.
  revert m. induction l1 as [|ev l1 IH]; intros m; [done|]. cbn [app machine_run].
  destruct (machine_step config eth_addr ev m); [apply IH|done].
Qed.

Lemma machine_run_queues evs m m' : machine_run config eth_addr evs m = Ok m' → length (m_eth m') = length (m_eth m).
Proof.
  revert m. induction evs as [|ev evs IH]; intros m E; [by injection E as ->|]. cbn [machine_run] in E. bind_step E as m1 E1.
  rewrite (IH m1 E). by apply (machine_step_shape config eth_addr ev).
Qed.

Lemma visit_run ev pl pl' : enqueue_none → (∀ core take q, ev = EthTxVisit core take q → (q < length (pl_eth_rings pl))%nat) →
  plane_step config eth_addr ev pl = Ok pl' →
  (∃ accs, cut ev accs ∧ machine_run config eth_addr accs (at_rest pl) = Ok (at_rest pl')) ∧
  length (pl_eth_rings pl') = length (pl_eth_rings pl).
Proof.
  intros Hnone Hq E. assert (∃ accs, cut ev accs ∧ machine_run config eth_addr accs (at_rest pl) = Ok (at_rest pl')) as (accs & Hcut & Hrun).
  { destruct ev as [core e vid|core e queue|e vid|core take q].
    - by apply vrx_visit_run.
    - by apply erx_visit_run.
    - eexists. split; [constructor|by apply tx_visit_run].
    - eexists. split; [constructor|]. apply eth_visit_run; [done|by eapply Hq|done]. }
  split; [by exists accs|]. apply machine_run_queues in Hrun. cbn in Hrun. by rewrite !length_replicate in Hrun.
Qed.

(** ** Property *)

(** The two models of the data plane agree.  Every sequence of whole visits, which DataPlane.v takes
    as one step each, is a run of the machine from all cores at rest to all cores at
    rest: the accesses of the first visit, then those of the second, and so on, with the same
    answers of the environment.  It ends with the same rings, packets, counters and memory, so whole
    visits are one of the interleavings that the machine has. *)
Theorem visits_are_runs (evs : list plane_event) (pl pl' : plane) :
  enqueue_none → (∀ core take q, EthTxVisit core take q ∈ evs → (q < length (pl_eth_rings pl))%nat) →
  plane_run config eth_addr evs pl = Ok pl' →
  ∃ accs, Forall2 cut evs accs ∧ machine_run config eth_addr (concat accs) (at_rest pl) = Ok (at_rest pl').
Proof.
  intros Hnone. revert pl. induction evs as [|ev evs IH]; intros pl Hq E.
  - injection E as <-. by exists [].
  - cbn [plane_run] in E. bind_step E as pl1 E1.
    destruct (visit_run ev pl pl1 Hnone) as [(accs1 & Hcut1 & Hrun1) Hl]; [intros core take q ->; by apply (Hq core take); left|done|].
    destruct (IH pl1) as (accs2 & Hcut2 & Hrun2); [|done|].
    + intros core take q Hin. rewrite Hl. apply (Hq core take). by right.
    + exists (accs1 :: accs2). split; [by constructor|]. cbn [concat]. rewrite machine_run_app, Hrun1. exact Hrun2.
Qed.

End refine.

(** ** Witness *)

Lemma demo_enqueue_none : enqueue_none.
Proof. intros [cap items]. cbn. by rewrite app_nil_r. Qed.

Lemma visits_are_runs_witness :
  ∃ pl' accs, plane_run demo_config [2;0;0;0;0;9] demo_events demo_plane = Ok pl' ∧
    Forall2 cut demo_events accs ∧ machine_run demo_config [2;0;0;0;0;9] (concat accs) (at_rest demo_plane) = Ok (at_rest pl').
Proof.
  destruct (plane_run demo_config [2;0;0;0;0;9] demo_events demo_plane) as [pl'|] eqn:E.
  2:{ exfalso. assert (guest_of 2 (plane_run demo_config [2;0;0;0;0;9] demo_events demo_plane) = Some [10%nat]) as Hg by (vm_compute; reflexivity).
      by rewrite E in Hg. }
  assert (Forall (λ ev, match ev with EthTxVisit _ _ q => (q < 4)%nat | _ => True end) demo_events) as Hall.
  { apply Forall_cons. split; [done|]. apply Forall_cons. split; [done|]. apply Forall_cons. split; [lia|constructor]. }
  destruct (visits_are_runs demo_config [2;0;0;0;0;9] demo_events demo_plane pl' demo_enqueue_none) as (accs & Hcut & Hrun).
  - intros core take q Hin. apply (proj1 (Forall_forall _ _) Hall _ Hin).
  - exact E.
  - exists pl', accs. split; [reflexivity|]. split; [exact Hcut|exact Hrun].
Defined.
