(* ===== verification/System.v ===== *)
(** * The switch as a whole: data plane, slow path and devices on one state

    The cores of DataPlane.v, the control loop of SlowPath.v and the callbacks of
    Device.v work on the same rings, pools, devices and statistics: a visit of a
    receiving core looks up the routes and devices of that moment and posts messages to
    the slow ring; an iteration of the control loop takes them, links devices, frees
    ARP requests and recomputes the plans from the statistics of the vhost_rx cores;
    DPDK's thread creates and destroys devices.  A step is one visit, one iteration or
    one callback; steps interleave in any order.  The plan entry that a visit serves may
    be any vid, as plans may be stale; the [vdev_list] is that of the moment.  The
    allocations of the callbacks succeed (their failures are in Device.v). *)

From S2P Require Import Prelude CInt Packet Dpdk Ecn Offload Config Poll Plan Route Device VhostTx EthTx Batch EthRx VhostRx SlowPath Startup Contexts DataPlane.
Local Open Scope Z_scope.

Section system.
Context `{RteRing} `{RteMempool slow_msg} `{RteFlags} `{RteCksum} `{RteThash} `{RteEther}.
Context (config : config_t) (eth_addr : list Z).

Record switch := mk_switch {
  sw_plane : plane;
  sw_dev : dstate;
  sw_last : Z;        (* last_vhost_plan_update of the control loop *)
}.

Inductive sw_event :=
  | VhostRxEvent (core : nat) (burst : list (nat * mbuf)) (now tsc : Z) (vid : nat)
  | EthRxEvent (core : nat) (burst : list (nat * mbuf)) (queue : nat)
  | VhostTxEvent (e : tx_env) (vid : nat)
  | EthTxEvent (core : nat) (take : nat → Z) (queue : nat)
  | SlowPathEvent (e : slow_env)
  | NewDeviceEvent (vid p : nat)
  | DestroyDeviceEvent (vid : nat) (ok : bool).

(** The devices and routes that a receiving core sees. *)
Definition dev_env (s : switch) (burst : list (nat * mbuf)) : rx_env :=
  mk_rx_env burst (Some (vdevs (vlist (sw_dev s)))) (devs (sw_dev s)) (routing (sw_dev s)).

(** The visit that an event of a core is. *)
Definition visit_of (ev : sw_event) (s : switch) : option plane_event :=
  match ev with
  | VhostRxEvent core burst now tsc vid => Some (VhostRxVisit core (mk_vrx_env (dev_env s burst) now tsc) vid)
  | EthRxEvent core burst queue => Some (EthRxVisit core (dev_env s burst) queue)
  | VhostTxEvent e vid => Some (VhostTxVisit e vid)
  | EthTxEvent core take queue => Some (EthTxVisit core take queue)
  | SlowPathEvent _ | NewDeviceEvent _ _ | DestroyDeviceEvent _ _ => None
  end.

(** The control loop works on the shared state and on the statistics of the vhost_rx cores. *)
Definition load_slow (s : switch) : slow_world :=
  mk_slow_world (sw_dev s) (pl_pool (sw_plane s)) (pl_vm_rings (sw_plane s)) (pl_slow (sw_plane s)) (pl_msgs (sw_plane s))
    (w_stats <$> pl_vrx (sw_plane s)) (sw_last s).
Definition set_stats (w : vrx_world) (st : list vdev_rx_stats) : vrx_world :=
  mk_vrx_world (w_pool w) (w_vm_rings w) (w_eth_rings w) (w_slow w) (w_msgs w) st (w_ap w) (w_poll_states w)
    (w_iteration w) (w_rr_vm w) (w_rr_eth w) (w_batch w) (w_eth w).
Definition store_slow (w : slow_world) (s : switch) : switch :=
  let pl := sw_plane s in
  mk_switch (mk_plane (sl_pool w) (sl_rings w) (pl_eth_rings pl) (sl_ring w) (sl_msgs w)
      (zip_with set_stats (pl_vrx pl) (sl_stats w)) (pl_rx pl) (pl_tx pl) (pl_wire pl) (pl_eth pl))
    (sl_dev w) (last_vhost_plan_update w).

Definition sw_step (ev : sw_event) (s : switch) : res switch :=
  match visit_of ev s with
  | Some visit =>
      pl ← plane_step config eth_addr visit (sw_plane s);
      Ok (mk_switch pl (sw_dev s) (sw_last s))
  | None =>
      match ev with
      | SlowPathEvent e => w ← slowpath_iter config e (load_slow s); Ok (store_slow w s)
      | NewDeviceEvent vid p =>
          '(_, d) ← new_device vid (Some p) true true true (sw_dev s);
          Ok (mk_switch (sw_plane s) d (sw_last s))
      | DestroyDeviceEvent vid ok =>
          d ← destroy_device (eth_rx_queues config) vid true true true ok (sw_dev s);
          Ok (mk_switch (sw_plane s) d (sw_last s))
      | _ => Ok s
      end
  end.

Fixpoint sw_run (evs : list sw_event) (s : switch) : res switch :=
  match evs with
  | [] => Ok s
  | ev :: evs => s ← sw_step ev s; sw_run evs s
  end.

(** The state that [init_rings] and [init_dataplane_ctxs] leave, before the first VM. The
    elements of the retry arrays are equal on all vhost_tx cores. *)
Definition start_switch (x : dataplane_ctxs) (sh : shared) (now : Z) : switch :=
  mk_switch (mk_plane ∅ (sh_vm_rings sh) (sh_eth_rings sh) (sh_slow sh) (sh_msgs sh)
      ((λ ctx, start_vhost_rx ctx sh) <$> vhost_rx_ctxs x) ((λ ctx, start_eth_rx ctx sh) <$> eth_rx_ctxs x)
      (mk_tx_world (default [] (vtc_vms <$> head (vhost_tx_ctxs x))) (sh_vm_rings sh) ∅ (replicate MAX_VHOSTS []))
      [] (etc_stats <$> eth_tx_ctxs x))
    (init_dstate (length (vhost_rx_ctxs x)) (length (vhost_tx_ctxs x))) now.

(** ** Specification *)

(** [addr v] is the last octet of the address of the VM of socket [v]. *)
Context (addr : nat → nat).

(** A frame for VM [v]: to its address in the subnet of the data plane; a frame that is
    neither IPv4 nor ARP counts as sent to 0.0.0.0. *)
Definition addressed_to (v : nat) (b : list Z) : bool :=
  let dst := default 0 (frame_dst b) in
  (dst / 256 =? cfg_ip config / 256) && bool_decide (last_octet dst = addr v).

(** The packets for VM [v] among those received. *)
Definition addressed (v : nat) (ev : sw_event) : list nat :=
  match ev with
  | VhostRxEvent _ burst _ _ _ | EthRxEvent _ burst _ => (filter (λ pm, addressed_to v (buf pm.2)) burst).*1
  | _ => []
  end.

Definition queued (pl : plane) : list slow_msg := ring_items (pl_slow pl).

(** The messages on the slow ring: their vids are in range, ARP requests come from the
    wire, and each of these owns its mbuf. *)
Definition msgs_inv (pl : plane) : Prop :=
  (Forall (λ msg, msg_vid msg < MAX_VHOSTS)%nat (queued pl) ∧ Forall (λ msg, msg_vid msg < MAX_VHOSTS)%nat (pool_objs (pl_msgs pl))) ∧
  Forall (λ msg, reason msg ≠ SLOW_ETH_TX_FLOW) (queued pl) ∧ from_wire (queued pl) ∧ arp_exclusive (queued pl) ∧
  ∀ p, p ∈ arp_mbufs (queued pl) → is_Some (pl_pool pl !! p) ∧ p ∉ waiting pl.

Definition sw_inv (s : switch) : Prop :=
  plane_inv config (sw_plane s) ∧ dstate_wf (sw_dev s) ∧ addr_ok addr (sw_dev s) ∧
  length (pl_vrx (sw_plane s)) = length (rx_plans (sw_dev s)) ∧ msgs_inv (sw_plane s).

(** A burst as DPDK delivers it. *)
Definition burst_ok (burst : list (nat * mbuf)) (s : switch) : Prop :=
  NoDup burst.*1 ∧ (length burst ≤ MAX_PKT_BURST)%nat ∧ ∀ p, p ∈ burst.*1 → pl_pool (sw_plane s) !! p = None.

(** What a step relies on.  Besides the promises of DPDK and enough messages: VMs do not
    ask for the address of the data plane by ARP; a learning message is handled before its
    packet is freed and teaches the address of its VM; and a VM sent a packet before it goes. *)
Definition sw_event_ok (ev : sw_event) (s : switch) : Prop :=
  match ev with
  | VhostRxEvent core burst _ _ _ => (core < length (pl_vrx (sw_plane s)))%nat ∧ burst_ok burst s ∧
      Forall (λ pm, arp_req_for_us config (buf pm.2) = false) burst ∧
      (0 < length (pool_objs (pl_msgs (sw_plane s))))%nat
  | EthRxEvent core burst _ => (core < length (pl_rx (sw_plane s)))%nat ∧ burst_ok burst s ∧
      (length (filter (λ pm, arp_req_for_us config (buf pm.2)) burst) ≤ length (pool_objs (pl_msgs (sw_plane s))))%nat
  | VhostTxEvent e _ => env_ok e
  | EthTxEvent core take queue => (core < length (pl_eth (sw_plane s)))%nat ∧ (∀ n, 0 ≤ take n ≤ Z.of_nat n) ∧
      (queue < length (pl_eth_rings (sw_plane s)))%nat
  | SlowPathEvent _ => ∀ msg, msg ∈ take MAX_PKT_BURST (queued (sw_plane s)) → reason msg = SLOW_MAC_LEARNING →
      ∃ m, pl_pool (sw_plane s) !! msg_mbuf msg = Some m ∧ teaches addr (msg_vid msg) (buf m)
  | NewDeviceEvent vid p => vdevs (vlist (sw_dev s)) !! vid = Some None ∧ devs (sw_dev s) !! p = None
  | DestroyDeviceEvent vid _ => ∃ p d, slot_is (sw_dev s) vid p ∧ devs (sw_dev s) !! p = Some d ∧ ready d = DEVICE_RX
  end.

Fixpoint sw_run_ok (evs : list sw_event) (s : switch) : Prop :=
  match evs with
  | [] => True
  | ev :: evs => sw_event_ok ev s ∧ ∀ s', sw_step ev s = Ok s' → sw_run_ok evs s'
  end.

(** ** Lemmas: who is addressed *)

Lemma pool_verdict_in classify (burst : list (nat * mbuf)) p m :
  NoDup burst.*1 → (p, m) ∈ burst → pool_verdict classify (list_to_map burst) p = classify (buf m).
Proof. intros Hnd Hin. unfold pool_verdict. by rewrite (elem_of_list_to_map_1 _ _ m). Qed.

Lemma with_verdict_sublist (V : nat → verdict) o (good : mbuf → bool) (burst : list (nat * mbuf)) :
  (∀ p m, (p, m) ∈ burst → V p = o → good m = true) →
  with_verdict V o burst.*1 `sublist_of` (filter (λ pm, good pm.2) burst).*1.
Proof.
  unfold with_verdict. induction burst as [|[p m] burst IH]; intros Hg; [constructor|].
  cbn [fmap list_fmap fst]. rewrite !filter_cons. specialize (IH (λ p m Hin, Hg p m (proj2 (elem_of_cons _ _ _) (or_intror Hin)))).
  cbn [snd]. destruct (decide (V p = o)) as [E|_].
  - rewrite decide_True; [by constructor|]. rewrite (Hg p m) by (by left || done). done.
  - destruct (decide _); [by constructor|done].
Qed.

(** No frame of the burst goes to the slow path. *)
Lemma with_verdict_none (V : nat → verdict) o (burst : list (nat * mbuf)) :
  (∀ p m, (p, m) ∈ burst → V p ≠ o) → with_verdict V o burst.*1 = [].
Proof.
  intros Hg. apply sublist_nil_r. etransitivity; [apply (with_verdict_sublist _ _ (λ _, false))|].
  - intros p m Hin E. by destruct (Hg p m Hin).
  - induction burst as [|pm burst IH]; [constructor|]. rewrite filter_cons. cbn [Is_true]. rewrite decide_False by (by intros []).
    apply IH. intros p m Hin. apply (Hg p m). by right.
Qed.

Lemma routed s dst z :
  dstate_wf s → addr_ok addr s → routing s !! last_octet dst = Some z → (0 <=? z) && (z <? Z.of_nat MAX_VHOSTS) = true →
  last_octet dst = addr (Z.to_nat z).
Proof.
  intros (_ & (_ & Hr) & _) Ha Hz Hb. apply andb_true_iff in Hb as [?%Z.leb_le _].
  destruct (Hr _ _ Hz) as [->|(vid & p & d & -> & Hs & Hd & Hrx & Ho)]; [lia|]. rewrite Nat2Z.id, <- Ho. by eapply Ha.
Qed.

Lemma dst_ip_eq b : f_dst_ip (dst_is_local_subnet config b).2 = default 0 (frame_dst b).
Proof.
  unfold dst_is_local_subnet, frame_dst. cbn [snd].
  destruct (is_ipv4 b); [by destruct ((_ =? _) || _)|]. by destruct (is_arp b).
Qed.

Lemma dst_range b : 0 ≤ default 0 (frame_dst b) < 2 ^ 32.
Proof. destruct (frame_dst b) eqn:E; [by eapply frame_dst_range|]. cbn. lia. Qed.

Lemma vhost_addressed s b v :
  in_u 32 (cfg_ip config) → dstate_wf s → addr_ok addr s →
  vhost_verdict config (routing s) b = ToVm v → addressed_to v b = true.
Proof.
  intros Hc Hwf Ha. unfold vhost_verdict, addressed_to. destruct (arp_req_for_us config b); [done|].
  pose proof (dst_ip_eq b) as Hd. assert ((dst_is_local_subnet config b).1 =
    (Z.land (f_dst_ip (dst_is_local_subnet config b).2) 0xFFFFFF00 =? Z.land (cfg_ip config) 0xFFFFFF00)) as Hloc by done.
  destruct (dst_is_local_subnet config b) as [local f]. cbn [fst snd] in *.
  rewrite Hd, subnet_eq in Hloc by (done || apply dst_range). subst local. destruct (_ =? _); [|done].
  rewrite Hd. destruct (routing s !! _) as [z|] eqn:Hz; [|done]. destruct ((0 <=? z) && _) eqn:Hb; [|done].
  intros [= <-]. cbn [andb]. apply bool_decide_eq_true. by eapply routed.
Qed.

Lemma eth_addressed s b v :
  in_u 32 (cfg_ip config) → dstate_wf s → addr_ok addr s →
  eth_verdict config (routing s) b = ToVm v → addressed_to v b = true.
Proof.
  intros Hc Hwf Ha. unfold eth_verdict, addressed_to. destruct (arp_req_for_us config b); [done|].
  rewrite eth_local_eq by done. destruct (frame_dst b) as [dst|] eqn:Ed; [|done]. cbn [default from_option].
  apply frame_dst_range in Ed. unfold id. destruct (dst / 256 =? cfg_ip config / 256); [|done].
  rewrite i32_zero by done. destruct (dst =? 0); [done|]. rewrite u32_i32. unfold u32, wrap. rewrite (Z.mod_small dst) by done.
  destruct (routing s !! _) as [z|] eqn:Hz; [|done]. destruct ((0 <=? z) && _) eqn:Hb; [|done].
  intros [= <-]. cbn [andb]. apply bool_decide_eq_true. by eapply routed.
Qed.

(** ** Lemmas: messages *)

Lemma arp_mbufs_app l1 l2 : arp_mbufs (l1 ++ l2) = arp_mbufs l1 ++ arp_mbufs l2.
Proof. unfold arp_mbufs. by rewrite filter_app, fmap_app. Qed.

Lemma arp_mbufs_in p l : p ∈ arp_mbufs l ↔ ∃ msg, p = msg_mbuf msg ∧ reason msg = SLOW_ARP_REQ ∧ msg ∈ l.
Proof. unfold arp_mbufs. rewrite list_elem_of_fmap. by setoid_rewrite list_elem_of_filter. Qed.

Lemma arp_mbufs_mbufs p l : p ∈ arp_mbufs l → p ∈ msg_mbuf <$> l.
Proof. intros (msg & -> & _ & Hin)%arp_mbufs_in. apply list_elem_of_fmap. by exists msg. Qed.

Lemma from_wire_app l1 l2 : from_wire (l1 ++ l2) ↔ from_wire l1 ∧ from_wire l2.
Proof. unfold from_wire. setoid_rewrite elem_of_app. split; [intros Hl; split; auto|intros [? ?] msg []; auto]. Qed.

Lemma arp_exclusive_app l1 l2 :
  arp_exclusive (l1 ++ l2) ↔ arp_exclusive l1 ∧ arp_exclusive l2 ∧ ∀ p, p ∈ arp_mbufs l1 → p ∉ msg_mbuf <$> l2.
Proof.
  induction l1 as [|msg l1 IH]; cbn [app arp_exclusive].
  { split; [|by intros (_ & ? & _)]. intros ?. split_and!; [done|done|]. by intros p ?%elem_of_nil. }
  rewrite IH, fmap_app, not_elem_of_app. unfold arp_mbufs. rewrite filter_cons. split.
  - intros (Hm & Hl1 & Hl2 & Hd). split_and!; [intros Hr; by apply Hm|done|done|].
    case_decide; [|done]. intros p [->|Hp]%elem_of_cons; [by apply Hm|by apply Hd].
  - intros ((Hm & Hl1) & Hl2 & Hd). split_and!; [intros Hr; split; [by apply Hm|]|done|done|].
    + apply Hd. rewrite decide_True by done. by left.
    + intros p Hp. apply Hd. case_decide; [by right|done].
Qed.

Lemma arp_exclusive_NoDup l : NoDup (msg_mbuf <$> l) → arp_exclusive l.
Proof. induction l as [|msg l IH]; cbn; [done|]. intros [Hn Hl]%NoDup_cons. split; auto. Qed.

(** A visit that posts the messages [new]. *)
Lemma msgs_inv_post visit pl pl' new :
  msgs_inv pl → live (pl_pool pl) (waiting pl) → plane_frame config visit pl pl' →
  (∀ p, p ∈ event_burst visit → pl_pool pl !! p = None) →
  queued pl' = queued pl ++ new → (∀ msg, msg ∈ pool_objs (pl_msgs pl') → msg ∈ pool_objs (pl_msgs pl)) →
  Forall (λ msg, (msg_vid msg < MAX_VHOSTS)%nat ∧ reason msg ≠ SLOW_ETH_TX_FLOW ∧ msg_mbuf msg ∈ event_burst visit) new →
  from_wire new → arp_exclusive new →
  (∀ p, p ∈ arp_mbufs new → is_Some (pl_pool pl' !! p) ∧ event_verdict config visit p = ToSlow) →
  msgs_inv pl'.
Proof.
  intros ((Hv & Hpv) & Hre & Hfw & Hex & Hown) Hlive (Hsame & Hwait & _) Hfresh Hq Hobjs Hnew Hfwn Hexn Hownn.
  unfold msgs_inv. rewrite Hq. rewrite !Forall_app, from_wire_app, arp_exclusive_app, arp_mbufs_app.
  assert (∀ p, p ∈ arp_mbufs (queued pl) → p ∉ event_burst visit) as Hold.
  { intros p Hp Hb. destruct (Hown p Hp) as [[m Hm] _]. by rewrite Hfresh in Hm. }
  rewrite !Forall_forall in *. split_and!; try done.
  - intros msg Hin. by apply Hnew.
  - intros msg Hin. by apply Hpv, Hobjs.
  - intros msg Hin. by apply Hnew.
  - intros p Hp (msg & -> & Hin)%list_elem_of_fmap. apply (Hold _ Hp). by apply Hnew.
  - intros p [Hp|Hp]%elem_of_app.
    + destruct (Hown p Hp) as [Hl Hw]. split; [by rewrite Hsame by auto|].
      intros [?|[? _]]%Hwait; [done|]. by apply (Hold p).
    + destruct (Hownn p Hp) as [Hl Ht]. split; [done|]. intros [Hw|[_ ?]]%Hwait; [|done].
      destruct (Hlive p Hw) as [m Hm]. rewrite Hfresh in Hm; [done|].
      apply arp_mbufs_mbufs, list_elem_of_fmap in Hp as (msg & -> & Hin). by apply Hnew.
Qed.

Lemma slow_ok_in {A} (f : A → slow_msg → slow_msg) reqs slow mp mp' n msg :
  slow_ok f reqs slow mp mp' → msg ∈ take n slow → ∃ a old, a ∈ reqs ∧ old ∈ pool_objs mp ∧ msg = f a old.
Proof.
  intros (stale & _ & -> & Hp) Hin%elem_of_take_of. apply elem_of_lookup_zip_with_1 in Hin as (i & a & old & -> & Ha & Ho).
  exists a, old. split; [by eapply list_elem_of_lookup_2|]. split; [|done]. rewrite Hp. apply elem_of_app. left.
  by eapply list_elem_of_lookup_2.
Qed.

Lemma slow_ok_objs {A} (f : A → slow_msg → slow_msg) reqs slow mp mp' msg :
  slow_ok f reqs slow mp mp' → msg ∈ pool_objs mp' → msg ∈ pool_objs mp.
Proof. intros (stale & _ & _ & Hp) Hin. rewrite Hp. apply elem_of_app. by right. Qed.

Lemma eth_msgs_mbufs queue reqs stale : length stale = length reqs → msg_mbuf <$> zip_with (eth_arp_msg queue) reqs stale = reqs.
Proof.
  revert stale. induction reqs as [|p reqs IH]; intros [|old stale] Hl; try done. cbn. f_equal. apply IH. by injection Hl.
Qed.

(** The messages of a vhost_rx visit in whose burst nothing goes to the slow path, and those of
    an eth_rx visit. *)
Lemma vhost_posted e l vid slow mp mp' msg :
  with_verdict (vrx_verdict config e) ToSlow (env_burst e).*1 = [] →
  slow_ok (req_msg vid) (slow_reqs config l e (env_burst e).*1) slow mp mp' → msg ∈ slow →
  msg_vid msg = vid ∧ reason msg = SLOW_MAC_LEARNING ∧ msg_mbuf msg ∈ (env_burst e).*1.
Proof.
  intros Hnone Hok Hin. unfold slow_reqs in Hok. rewrite Hnone in Hok. cbn [fmap list_fmap] in Hok. rewrite app_nil_r in Hok.
  rewrite <- (firstn_all slow) in Hin.
  destruct (slow_ok_in _ _ _ _ _ _ _ Hok Hin) as ([why p] & old & Ha & _ & ->). destruct l; [|by apply elem_of_nil in Ha].
  apply list_elem_of_fmap in Ha as (q & [= -> ->] & Hq). split_and!; [done|done|]. by eapply elem_of_take_of.
Qed.

Lemma eth_posted queue reqs slow mp mp' :
  Forall (λ msg, msg_vid msg < MAX_VHOSTS)%nat (pool_objs mp) → slow_ok (eth_arp_msg queue) reqs slow mp mp' →
  msg_mbuf <$> slow = reqs ∧
  ∀ msg, msg ∈ slow → (msg_vid msg < MAX_VHOSTS)%nat ∧ reason msg = SLOW_ARP_REQ ∧ src msg = SLOW_SRC_ETH ∧ msg_mbuf msg ∈ reqs.
Proof.
  intros Hpv Hok. split; [destruct Hok as (stale & Hls & -> & _); by apply eth_msgs_mbufs|]. intros msg Hin.
  rewrite <- (firstn_all slow) in Hin. destruct (slow_ok_in _ _ _ _ _ _ _ Hok Hin) as (p & old & Ha & Ho & ->).
  rewrite Forall_forall in Hpv. split_and!; [exact (Hpv old Ho)|done|done|done].
Qed.

Lemma learn_msgs l : (∀ msg, msg ∈ l → reason msg = SLOW_MAC_LEARNING) → from_wire l ∧ arp_exclusive l ∧ arp_mbufs l = [].
Proof.
  intros Hl. split; [intros msg Hin Hr; by rewrite (Hl msg Hin) in Hr|].
  assert (arp_mbufs l = []) as Hn.
  { unfold arp_mbufs. induction l as [|msg l IH]; [done|]. rewrite filter_cons, decide_False.
    - apply IH. intros msg' Hin. apply Hl. by right.
    - intros Hr. rewrite (Hl msg) in Hr by by left. done. }
  split; [|done]. clear Hn. induction l as [|msg l IH]; cbn; [done|]. split.
  - intros Hr. rewrite (Hl msg) in Hr by by left. done.
  - apply IH. intros msg' Hin. apply Hl. by right.
Qed.

(** Visits that post nothing, a vhost_rx visit and an eth_rx visit. *)
Lemma msgs_inv_same visit pl pl' :
  msgs_inv pl → live (pl_pool pl) (waiting pl) → plane_frame config visit pl pl' →
  (∀ p, p ∈ event_burst visit → pl_pool pl !! p = None) → slow_same pl pl' → msgs_inv pl'.
Proof.
  intros Hm Hl Hf Hfresh [= Hs Hp]. apply (msgs_inv_post visit pl pl' []); try done.
  - unfold queued. by rewrite Hs, app_nil_r.
  - by rewrite Hp.
  - by intros msg ?%elem_of_nil.
  - by intros p ?%elem_of_nil.
Qed.

Lemma msgs_inv_vhost_rx core e vid pl pl' :
  let visit := VhostRxVisit core e vid in
  msgs_inv pl → live (pl_pool pl) (waiting pl) → plane_frame config visit pl pl' →
  (∀ p, p ∈ event_burst visit → pl_pool pl !! p = None) →
  with_verdict (vrx_verdict config (vr_rx e)) ToSlow (event_burst visit) = [] → msgs_inv pl'.
Proof.
  intros visit Hm Hl Hf Hfresh Hnone. pose proof Hf as (_ & _ & _ & [Hsame|(Hvid & l & slow & Hok & Hi)]); [by eapply msgs_inv_same|].
  set (new := take (rte_ring_free_count (pl_slow pl)) slow) in *.
  assert (∀ msg, msg ∈ new → msg_vid msg = vid ∧ reason msg = SLOW_MAC_LEARNING ∧ msg_mbuf msg ∈ event_burst visit) as Hnew.
  { intros msg Hin%elem_of_take_of. by eapply (vhost_posted (vr_rx e)). }
  destruct (learn_msgs new) as (Hfw & Hex & Harp); [intros msg Hin; by apply Hnew|].
  apply (msgs_inv_post visit pl pl' new); try done.
  - intros msg. by eapply slow_ok_objs.
  - apply Forall_forall. intros msg Hin. destruct (Hnew msg Hin) as (-> & -> & ?). done.
  - rewrite Harp. by intros p ?%elem_of_nil.
Qed.

Lemma msgs_inv_eth_rx core e queue pl pl' :
  let visit := EthRxVisit core e queue in
  msgs_inv pl → live (pl_pool pl) (waiting pl) → plane_frame config visit pl pl' → NoDup (event_burst visit) →
  (∀ p, p ∈ event_burst visit → pl_pool pl !! p = None) → msgs_inv pl'.
Proof.
  intros visit Hm Hl Hf Hnd Hfresh. pose proof Hf as (_ & _ & _ & ((slow & Hok & Hi) & Hlive)).
  set (new := take (rte_ring_free_count (pl_slow pl)) slow) in *.
  set (reqs := with_verdict (event_verdict config visit) ToSlow (event_burst visit)) in *.
  pose proof Hm as ((_ & Hpv) & _). destruct (eth_posted queue reqs slow _ _ Hpv Hok) as [Hmb Hall].
  assert (∀ msg, msg ∈ new → (msg_vid msg < MAX_VHOSTS)%nat ∧ reason msg = SLOW_ARP_REQ ∧ src msg = SLOW_SRC_ETH ∧ msg_mbuf msg ∈ reqs) as Hnew.
  { intros msg Hin%elem_of_take_of. by apply Hall. }
  apply (msgs_inv_post visit pl pl' new); try done.
  - intros msg. by eapply slow_ok_objs.
  - apply Forall_forall. intros msg Hin. destruct (Hnew msg Hin) as (? & -> & _ & Hp). split_and!; [done|done|].
    by apply with_verdict_mem in Hp as [_ ?].
  - intros msg Hin _. by apply Hnew.
  - apply arp_exclusive_NoDup. unfold new. rewrite fmap_take, Hmb.
    eapply sublist_NoDup; [|apply sublist_take]. by apply NoDup_filter.
  - intros p (msg & -> & _ & Hin)%arp_mbufs_in. destruct (Hnew msg Hin) as (_ & _ & _ & Hp).
    split; [by apply Hlive|]. by apply with_verdict_mem in Hp as [? _].
Qed.

(** ** Lemmas: a visit of a core *)

Lemma delivers_weaken v w1 w2 pl pl' : delivers v w1 pl pl' → w1 `sublist_of` w2 → delivers v w2 pl pl'.
Proof. intros (enq & gone & sent & He & Hrest) Hw. exists enq, gone, sent. split; [by transitivity w1|done]. Qed.

Lemma vhost_to_slow routing b : vhost_verdict config routing b = ToSlow → arp_req_for_us config b = true.
Proof.
  unfold vhost_verdict. destruct (arp_req_for_us config b); [done|].
  destruct (dst_is_local_subnet config b) as [[] f]; [|done]. by repeat case_match.
Qed.

Lemma eth_to_slow routing b : eth_verdict config routing b = ToSlow → arp_req_for_us config b = true.
Proof. unfold eth_verdict. destruct (arp_req_for_us config b); [done|]. by repeat case_match. Qed.

Lemma vhost_none_slow s burst now tsc :
  NoDup burst.*1 → Forall (λ pm, arp_req_for_us config (buf pm.2) = false) burst →
  with_verdict (vrx_verdict config (vr_rx (mk_vrx_env (dev_env s burst) now tsc))) ToSlow burst.*1 = [].
Proof.
  intros Hnd Harp. apply with_verdict_none. intros p m Hin. unfold vrx_verdict. cbn [vr_rx dev_env env_burst env_routing].
  rewrite (pool_verdict_in _ _ _ _ Hnd Hin). intros Hs%vhost_to_slow.
  rewrite Forall_forall in Harp. specialize (Harp _ Hin). cbn in Harp. congruence.
Qed.

Lemma visit_ok ev s visit :
  dstate_wf (sw_dev s) → visit_of ev s = Some visit → sw_event_ok ev s → event_ok config visit (sw_plane s).
Proof.
  intros Hdev Hv Hok. destruct Hdev as ((Hlv & _ & Hslots & _) & (Hlr & Hroutes) & _).
  destruct ev as [core burst now tsc vid|core burst queue|e vid|core tk queue|e|vid p|vid ok]; cbn in Hv; try done;
    injection Hv as <-; cbn [event_ok].
  - destruct Hok as (Hcore & (Hnd & Hlen & Hfresh) & Harp & Hpool).
    pose proof (vhost_none_slow s burst now tsc Hnd Harp) as Hnone. split_and!; try done.
    + split; [by split_and!|]. exists (vdevs (vlist (sw_dev s))). split_and!; [done|done|]. intros ptr Hptr.
      destruct (Hslots vid ptr Hptr) as (d & Hd & _). exists d. split; [done|].
      unfold slow_reqs. change (env_burst (vr_rx _)) with burst. rewrite Hnone, app_nil_r.
      destruct (learning d); [|cbn; lia]. rewrite length_fmap, length_take. unfold MAX_PKT_BURST. lia.
    + unfold slow_need. change (env_burst (vr_rx _)) with burst. rewrite Hnone. cbn [length]. lia.
  - destruct Hok as (Hcore & (Hnd & Hlen & Hfresh) & Hpool). split_and!; try done.
    + split; [split; [done|]|by split]. intros o v Ho Hb. destruct (Hroutes o v Ho) as [->|(vid & p & d & -> & Hs & Hd & _)]; [lia|].
      exists (vdevs (vlist (sw_dev s))), p, d. by rewrite Nat2Z.id.
    + etransitivity; [|exact Hpool]. rewrite <- (length_fmap fst). apply sublist_length.
      apply (with_verdict_sublist _ _ (λ m, arp_req_for_us config (buf m))). intros p m Hin. unfold rx_verdict. cbn [dev_env env_burst env_routing].
      rewrite (pool_verdict_in _ _ _ _ Hnd Hin). apply eth_to_slow.
  - exact Hok.
  - exact Hok.
Qed.

(** What is switched to a VM is addressed to it. *)
Lemma switched_addressed ev s visit v :
  in_u 32 (cfg_ip config) → dstate_wf (sw_dev s) → addr_ok addr (sw_dev s) → visit_of ev s = Some visit → sw_event_ok ev s →
  switched config v visit `sublist_of` addressed v ev.
Proof.
  intros Hc Hdev Haddr Hv Hok.
  destruct ev as [core burst now tsc vid|core burst queue|e vid|core tk queue|e|vid p|vid ok]; cbn in Hv; try done;
    injection Hv as <-; cbn [switched addressed]; try done.
  - destruct Hok as (_ & (Hnd & _) & _). apply (with_verdict_sublist _ _ (λ m, addressed_to v (buf m))).
    intros p m Hin. unfold vrx_verdict. cbn [vr_rx dev_env env_burst env_routing]. rewrite (pool_verdict_in _ _ _ _ Hnd Hin).
    by apply vhost_addressed.
  - destruct Hok as (_ & (Hnd & _) & _). apply (with_verdict_sublist _ _ (λ m, addressed_to v (buf m))).
    intros p m Hin. unfold rx_verdict. cbn [dev_env env_burst env_routing]. rewrite (pool_verdict_in _ _ _ _ Hnd Hin).
    by apply eth_addressed.
Qed.

Lemma msgs_inv_visit ev s visit pl' :
  sw_inv s → visit_of ev s = Some visit → sw_event_ok ev s → plane_frame config visit (sw_plane s) pl' → msgs_inv pl'.
Proof.
  intros ((_ & _ & _ & _ & _ & Hlive) & _ & _ & _ & Hm) Hv Hok Hf.
  destruct ev as [core burst now tsc vid|core burst queue|e vid|core tk queue|e|vid p|vid ok]; cbn in Hv; try done;
    injection Hv as <-.
  - destruct Hok as (_ & (Hnd & _ & Hfresh) & Harp & _). eapply msgs_inv_vhost_rx; try done. by apply vhost_none_slow.
  - destruct Hok as (_ & (Hnd & _ & Hfresh) & _). by eapply msgs_inv_eth_rx.
  - eapply msgs_inv_same; try done; [by intros p ?%elem_of_nil|apply Hf].
  - eapply msgs_inv_same; try done; [by intros p ?%elem_of_nil|apply Hf].
Qed.

Lemma sw_visit ev s visit :
  queues_ok config → in_u 32 (cfg_ip config) → sw_inv s → visit_of ev s = Some visit → sw_event_ok ev s →
  ∃ s', sw_step ev s = Ok s' ∧ sw_inv s' ∧
    ∀ v, (v < MAX_VHOSTS)%nat → delivers v (addressed v ev) (sw_plane s) (sw_plane s').
Proof.
  intros Hq Hc Hinv Hv Hok. pose proof Hinv as (Hpl & Hdev & Haddr & Hlen & _).
  destruct (plane_event_safe config eth_addr visit (sw_plane s) Hq Hpl (visit_ok ev s visit Hdev Hv Hok))
    as (pl' & Hstep & Hpl' & Hdel & Hf).
  exists (mk_switch pl' (sw_dev s) (sw_last s)). split; [unfold sw_step; by rewrite Hv, Hstep|]. split.
  - split_and!; try done; [|by eapply msgs_inv_visit]. cbn [sw_plane sw_dev]. destruct Hf as (_ & _ & -> & _). done.
  - intros v Hlt. eapply delivers_weaken; [by apply Hdel|by apply switched_addressed with s].
Qed.

(** ** Lemmas: an iteration of the control loop *)

Lemma st_wf_advance st : st_wf st → st_wf (advance_wnd st).
Proof.
  intros (Hi & H1' & H2' & H3'). unfold st_wf, advance_wnd. cbn [wnd_idx byte_wnd pkt_wnd empty_wnd].
  rewrite !length_insert. split_and!; try done. apply Nat.mod_upper_bound. unfold WINDOW_SIZE. lia.
Qed.

Lemma stats_moved_wf st st' :
  Forall2 (λ st st', st' = st ∨ st' = advance_wnd st) st st' → Forall st_wf st → length st' = length st ∧ Forall st_wf st'.
Proof.
  induction 1 as [|x x' l l' Hx _ IH]; [done|]. intros [Hw Hl]%Forall_cons. destruct (IH Hl) as [E Hl'].
  split; [cbn; congruence|]. constructor; [|done]. destruct Hx as [->| ->]; [done|by apply st_wf_advance].
Qed.

Lemma vrx_wf_stats pl pl' w st' :
  pl_vm_rings pl' = pl_vm_rings pl → pl_eth_rings pl' = pl_eth_rings pl →
  vrx_wf config (load_vrx pl w) → Forall2 (λ st st', st' = st ∨ st' = advance_wnd st) (w_stats w) st' →
  vrx_wf config (load_vrx pl' (set_stats w st')).
Proof.
  unfold vrx_wf, load_vrx, set_stats. cbn [w_vm_rings w_eth_rings w_stats w_ap w_rr_vm w_rr_eth w_batch w_eth].
  intros -> -> (Hw1 & Hw2 & (Hl & Hst) & Hrest) Hm. destruct (stats_moved_wf _ _ Hm Hst) as [E Hst'].
  split; [done|]. split; [done|]. split; [|done]. split; [congruence|done].
Qed.

(** Queues, rings and waiting packets stay as they are. *)
Definition untouched (pl pl' : plane) : Prop :=
  (∀ v, grows v [] pl pl') ∧ (pl_eth_rings pl', pl_wire pl') = (pl_eth_rings pl, pl_wire pl) ∧
  ∀ p, p ∈ waiting pl → pl_pool pl' !! p = pl_pool pl !! p.

(** The packets that wait are left alone, the statistics move on. *)
Lemma plane_slow pl pl' stats' :
  plane_inv config pl → stats_moved (w_stats <$> pl_vrx pl) stats' →
  (pl_vm_rings pl', pl_eth_rings pl', pl_rx pl', pl_tx pl') = (pl_vm_rings pl, pl_eth_rings pl, pl_rx pl, pl_tx pl) →
  pl_vrx pl' = zip_with set_stats (pl_vrx pl) stats' →
  (∀ p, p ∈ waiting pl → pl_pool pl' !! p = pl_pool pl !! p) →
  plane_inv config pl' ∧ waiting pl' = waiting pl ∧ ∀ v, grows v [] pl pl'.
Proof.
  intros ((Hv & Hr) & Hl & (Hvms & Hg & Htxf) & Hcap & Hnd & Hlive) Hm [= Hvm Heth Hrx Htx] Hvrx Hpool.
  destruct (waiting_same pl pl' Hvm Heth) as [Hw Hq]; [by rewrite Htx|].
  split; [|split; [done|]].
  - unfold plane_inv. rewrite Hw, Hvm, Heth, Htx. split; [split|split_and!; try done].
    + rewrite Hvrx. apply Forall_lookup_2. intros i w Hi. apply lookup_zip_with_Some in Hi as (w0 & st' & -> & Hw0 & Hst').
      pose proof (Forall_lookup_1 _ _ _ _ Hv Hw0) as Hwf. cbn in Hwf. apply (vrx_wf_stats pl); try done.
      eapply Forall2_lookup_lr; [exact Hm| |exact Hst']. by rewrite list_lookup_fmap, Hw0.
    + rewrite Hrx. eapply Forall_impl; [exact Hr|]. cbn. intros w. unfold rx_wf, load_rx. cbn [rx_rings rx_batch rx_stats]. by rewrite Hvm.
    + intros p Hp. rewrite Hpool by done. by apply Hlive.
  - intros v. split; [done|]. by rewrite app_nil_r, Hq.
Qed.

(** The control loop's part of the state is as SlowPath.v wants it. *)
Lemma load_slow_wf s :
  Forall (λ w, length (w_stats w) = MAX_VHOSTS) (pl_vrx (sw_plane s)) → length (pl_vm_rings (sw_plane s)) = MAX_VHOSTS →
  dstate_wf (sw_dev s) → addr_ok addr (sw_dev s) → length (pl_vrx (sw_plane s)) = length (rx_plans (sw_dev s)) →
  slow_wf addr (load_slow s).
Proof.
  intros Hv Hl Hdev Haddr Hlen. unfold slow_wf, load_slow. cbn [sl_dev sl_rings sl_stats].
  split_and!; try done; [by apply Forall_fmap|by rewrite length_fmap].
Qed.

Lemma load_slow_msgs e s :
  let q := queued (sw_plane s) in
  Forall (λ msg, msg_vid msg < MAX_VHOSTS)%nat q → Forall (λ msg, reason msg ≠ SLOW_ETH_TX_FLOW) q → arp_exclusive q →
  live (pl_pool (sw_plane s)) (arp_mbufs q) → sw_event_ok (SlowPathEvent e) s →
  msgs_ok addr (take MAX_PKT_BURST q) (load_slow s).
Proof.
  intros q Hv Hre Hex Hown Hok. unfold msgs_ok. cbn [load_slow sl_pool].
  rewrite <- (take_drop MAX_PKT_BURST q) in Hv, Hre, Hex, Hown.
  apply Forall_app in Hv as [Hv _]. apply Forall_app in Hre as [Hre _]. apply arp_exclusive_app in Hex as (Hex & _).
  split_and!; try done.
  - intros p (msg & -> & Hin)%list_elem_of_fmap. destruct (reason msg) eqn:Er.
    + apply Hown. rewrite arp_mbufs_app. apply elem_of_app. left. apply arp_mbufs_in. by exists msg.
    + destruct (Hok msg Hin Er) as (m & Hm & _). by exists m.
    + rewrite Forall_forall in Hre. by destruct (Hre msg Hin).
  - intros msg m Hin Hr Hm. destruct (Hok msg Hin Hr) as (m' & Hm' & Ht). congruence.
Qed.

Lemma sw_slow e s :
  0 < eth_rx_queues config → sw_inv s → sw_event_ok (SlowPathEvent e) s →
  ∃ s', sw_step (SlowPathEvent e) s = Ok s' ∧ sw_inv s' ∧ untouched (sw_plane s) (sw_plane s').
Proof.
  intros Hq Hinv Hok. pose proof Hinv as (((Hvw & _) & Hlr & _) & Hdev & Haddr & Hlen & (Hmv & _) & Hmr & _ & Hmx & Hmo).
  pose proof (load_slow_msgs e s Hmv Hmr Hmx (λ p Hp, proj1 (Hmo p Hp)) Hok) as Hmsgs.
  destruct (slowpath_iter_spec config addr e (load_slow s) Hq)
    as (w' & Hrun & (Hdev' & Haddr' & _ & _ & Hlen') & Hring & Hobjs & _ & _ & _ & _ & Hkept & Hmoved); [|exact Hmsgs|].
  { apply load_slow_wf; try done. eapply Forall_impl; [exact Hvw|]. by intros w (_ & _ & (Hst & _) & _). }
  cbn [load_slow sl_ring sl_msgs sl_stats] in Hring, Hobjs, Hmoved. change (ring_items _) with (queued (sw_plane s)) in Hobjs, Hkept.
  pose proof Hinv as (Hpl & _ & _ & _ & ((Hv & Hpv) & Hre & Hfw & Hex & Hown)).
  set (pre := take MAX_PKT_BURST (queued (sw_plane s))) in *. set (post := drop MAX_PKT_BURST (queued (sw_plane s))).
  assert (queued (sw_plane s) = pre ++ post) as Hpp by (symmetry; apply take_drop).
  rewrite Hpp in Hv, Hre, Hfw, Hex, Hown. apply Forall_app in Hv as [Hv1 Hv2]. apply Forall_app in Hre as [_ Hre].
  apply from_wire_app in Hfw as [Hfw1 Hfw2]. apply arp_exclusive_app in Hex as (_ & Hex & Hdisj).
  destruct (Hkept Hfw1) as [Hrings Hpool]. cbn [load_slow sl_rings sl_pool] in Hrings, Hpool.
  destruct (plane_slow (sw_plane s) (sw_plane (store_slow w' s)) (sl_stats w') Hpl Hmoved) as (Hpl' & Hw & Hdel).
  { cbn. by rewrite Hrings. }
  { done. }
  { intros p Hp. apply Hpool. intros Ha. by apply (Hown p); [rewrite arp_mbufs_app; apply elem_of_app; left|]. }
  exists (store_slow w' s). split; [unfold sw_step; cbn [visit_of]; by rewrite Hrun|]. split.
  2:{ split_and!; [exact Hdel|done|]. intros p Hp. apply Hpool. intros Ha.
      by apply (Hown p); [rewrite arp_mbufs_app; apply elem_of_app; left|]. }
  split_and!; [exact Hpl'|exact Hdev'|exact Haddr'| |].
  - cbn [store_slow sw_plane sw_dev pl_vrx]. rewrite length_zip_with, Hlen'.
    apply Forall2_length in Hmoved. rewrite length_fmap in Hmoved. rewrite <- Hlen', Hmoved. lia.
  - unfold msgs_inv. rewrite Hw. unfold queued. cbn [store_slow sw_plane pl_slow pl_msgs pl_pool]. rewrite Hring. fold post.
    split_and!; try done.
    + rewrite Hobjs. apply Forall_app. split; [|done]. apply Forall_forall. intros msg [_ Hin]%list_elem_of_filter.
      rewrite Forall_forall in Hv1. by apply Hv1.
    + intros p Hp. destruct (Hown p) as [Hl Hnw]; [rewrite arp_mbufs_app; apply elem_of_app; by right|]. split; [|done].
      rewrite Hpool; [done|]. intros Ha. apply (Hdisj p Ha). by apply arp_mbufs_mbufs.
Qed.

(** ** Lemmas: devices *)

(** A change of the devices that keeps their invariants. *)
Lemma sw_device s d :
  sw_inv s → dstate_wf d → addr_ok addr d → length (rx_plans d) = length (rx_plans (sw_dev s)) →
  let s' := mk_switch (sw_plane s) d (sw_last s) in sw_inv s' ∧ untouched (sw_plane s) (sw_plane s').
Proof.
  intros (Hpl & _ & _ & Hlen & Hm) Hd Ha Hl. split; [|split; [intros v; split; [done|by rewrite app_nil_r]|done]].
  split_and!; try done. cbn [sw_dev sw_plane]. congruence.
Qed.

(** The callbacks, on the devices. *)
Lemma device_new vid p d :
  dstate_wf d → addr_ok addr d → vdevs (vlist d) !! vid = Some None → devs d !! p = None →
  ∃ rc d', new_device vid (Some p) true true true d = Ok (rc, d') ∧ dstate_wf d' ∧ addr_ok addr d' ∧
    length (rx_plans d') = length (rx_plans d).
Proof.
  intros Hdev Haddr Hv Hp. destruct (new_device_eq d vid p Hdev Hv Hp) as (rps & rc & tps & tc & E & _).
  eexists _, _. split; [exact E|]. split; [by eapply dstate_wf_new|]. split; [|by eapply new_device_plans].
  unfold addr_ok, slot_is. cbn [vlist vdevs devs]. intros i q x Hs Hd Hr. destruct (decide (q = p)) as [->|Hne].
  { rewrite lookup_insert_eq in Hd. injection Hd as <-. discriminate Hr. }
  rewrite lookup_insert_ne in Hd by done. destruct (decide (i = vid)) as [->|Hi].
  - rewrite list_lookup_insert_eq in Hs by (by eapply lookup_lt_Some). congruence.
  - rewrite list_lookup_insert_ne in Hs by done. by eapply Haddr.
Qed.

Lemma device_gone vid ok d :
  0 < eth_rx_queues config → dstate_wf d → addr_ok addr d →
  (∃ p x, slot_is d vid p ∧ devs d !! p = Some x ∧ ready x = DEVICE_RX) →
  ∃ d', destroy_device (eth_rx_queues config) vid true true true ok d = Ok d' ∧ dstate_wf d' ∧ addr_ok addr d' ∧
    length (rx_plans d') = length (rx_plans d).
Proof.
  intros Hq Hdev Haddr (p & x & Hs & Hd & Hr).
  destruct (destroy_device_eq (eth_rx_queues config) vid p x ok d Hdev Hs Hd Hq Hr) as (rps & rc & tps & tc & ns & E & _).
  eexists. split; [exact E|]. split; [by eapply dstate_wf_destroy|]. split; [|by eapply destroy_device_plans].
  destruct Hdev as ((_ & _ & _ & Hinj) & _). unfold addr_ok, slot_is. cbn [vlist vdevs devs]. intros i q d' Hs' Hd' Hr'.
  destruct (decide (i = vid)) as [->|Hi].
  { rewrite list_lookup_insert_eq in Hs' by (by eapply lookup_lt_Some). done. }
  rewrite list_lookup_insert_ne in Hs' by done. destruct (decide (q = p)) as [->|Hne].
  - by destruct Hi; eapply Hinj.
  - rewrite lookup_insert_ne in Hd' by done. by eapply Haddr.
Qed.

Lemma sw_new vid p s :
  sw_inv s → sw_event_ok (NewDeviceEvent vid p) s →
  ∃ s', sw_step (NewDeviceEvent vid p) s = Ok s' ∧ sw_inv s' ∧ untouched (sw_plane s) (sw_plane s').
Proof.
  intros Hinv [Hv Hp]. pose proof Hinv as (_ & Hdev & Haddr & _).
  destruct (device_new vid p (sw_dev s) Hdev Haddr Hv Hp) as (rc & d' & E & Hd & Ha & Hl).
  eexists. split; [unfold sw_step; cbn [visit_of]; rewrite E; reflexivity|]. by apply sw_device.
Qed.

Lemma sw_destroy vid ok s :
  0 < eth_rx_queues config → sw_inv s → sw_event_ok (DestroyDeviceEvent vid ok) s →
  ∃ s', sw_step (DestroyDeviceEvent vid ok) s = Ok s' ∧ sw_inv s' ∧ untouched (sw_plane s) (sw_plane s').
Proof.
  intros Hq Hinv Hok. pose proof Hinv as (_ & Hdev & Haddr & _).
  destruct (device_gone vid ok (sw_dev s) Hq Hdev Haddr Hok) as (d' & E & Hd & Ha & Hl).
  eexists. split; [unfold sw_step; cbn [visit_of]; rewrite E; reflexivity|]. by apply sw_device.
Qed.

(** ** Lemmas: steps and runs *)

(** The control loop and the callbacks leave the queues alone. *)
Lemma sw_control ev s :
  0 < eth_rx_queues config → sw_inv s → visit_of ev s = None → sw_event_ok ev s →
  ∃ s', sw_step ev s = Ok s' ∧ sw_inv s' ∧ untouched (sw_plane s) (sw_plane s').
Proof.
  intros Hr Hinv Hv Hok. destruct ev as [| | | |e|vid p|vid ok]; try done; [by apply sw_slow|by apply sw_new|by apply sw_destroy].
Qed.

Lemma sw_event_safe ev s :
  queues_ok config → in_u 32 (cfg_ip config) → 0 < eth_rx_queues config → sw_inv s → sw_event_ok ev s →
  ∃ s', sw_step ev s = Ok s' ∧ sw_inv s' ∧
    ∀ v, (v < MAX_VHOSTS)%nat → delivers v (addressed v ev) (sw_plane s) (sw_plane s').
Proof.
  intros Hq Hc Hr Hinv Hok. destruct (visit_of ev s) as [visit|] eqn:Hv; [by apply (sw_visit ev s visit)|].
  destruct (sw_control ev s Hr Hinv Hv Hok) as (s' & Hs & Hinv' & Hg & _). exists s'. split_and!; try done.
  intros v _. eapply grows_delivers; [apply Hg|apply sublist_nil_l].
Qed.

Lemma sw_run_safe evs s :
  queues_ok config → in_u 32 (cfg_ip config) → 0 < eth_rx_queues config → sw_inv s → sw_run_ok evs s →
  ∃ s', sw_run evs s = Ok s' ∧ sw_inv s' ∧
    ∀ v, (v < MAX_VHOSTS)%nat → delivers v (concat (addressed v <$> evs)) (sw_plane s) (sw_plane s').
Proof.
  intros Hq Hc Hr. revert s. induction evs as [|ev evs IH]; intros s Hinv Hok.
  - exists s. split_and!; try done. intros v _. apply delivers_refl.
  - destruct Hok as [Hev Hok]. destruct (sw_event_safe ev s Hq Hc Hr Hinv Hev) as (s1 & Hs & Hinv1 & Hd1).
    destruct (IH s1 Hinv1 (Hok _ Hs)) as (s' & Hrun & Hinv' & Hd). exists s'. cbn [sw_run]. rewrite Hs.
    split_and!; try done. intros v Hv. cbn [fmap list_fmap concat]. eapply delivers_trans; [by apply Hd1|by apply Hd].
Qed.

(** ** Lemmas: the start *)

Lemma start_switch_inv c0 r rs msgs now :
  ring_items r = [] → ring_items rs = [] → Forall (λ msg, msg_vid msg < MAX_VHOSTS)%nat (pool_objs msgs) →
  cores_present config → counts_ok config → c0 = config →
  let s := start_switch (ctxs_at c0 0) (fresh_shared c0 r rs msgs) now in
  sw_inv s ∧ ∀ v, (v < MAX_VHOSTS)%nat → vm_queue (load_tx (sw_plane s)) v = [] ∧ guest (pl_tx (sw_plane s)) !! v = Some [].
Proof.
  intros Hr Hrs Hmsgs Hp Hcounts ->. cbv zeta. set (s := start_switch _ _ _).
  apply counts_ok_range in Hcounts as (_ & _ & Hvr & Hvt). destruct Hp as (_ & _ & Hp1 & Hp2).
  assert (load_tx (sw_plane s) = start_vhost_tx (vhost_tx_ctx_at 0) (fresh_shared config r rs msgs)) as Htx.
  { unfold s, start_switch, ctxs_at, load_tx, start_vhost_tx. cbn [sw_plane pl_tx pl_vm_rings pl_pool tx_vms guest vhost_tx_ctxs].
    destruct (Z.to_nat (vhost_tx_cores config)) as [|n] eqn:E; [lia|]. done. }
  pose proof (start_vhost_tx_wf config 0 r rs msgs Hr) as (Hl1 & Hl2 & Hl3 & Htxf & _).
  pose proof (start_queues config 0 r rs msgs Hr) as Hq0.
  rewrite <- Htx in Hl1, Hl2, Hl3, Htxf, Hq0.
  assert (waiting (sw_plane s) = []) as Hw.
  { unfold waiting. rewrite Hq0. apply concat_nil. intros q [-> _]%elem_of_replicate. exact Hr. }
  destruct (loops_wf_fresh config config r rs msgs Hr) as (Hv & Hx & _).
  split; [|split].
  - split_and!.
    + unfold plane_inv. rewrite Hw. split_and!; try done.
      * split; [refine (proj2 (Forall_fmap _ (λ w, vrx_wf config (load_vrx (sw_plane s) w)) _) Hv)|].
        refine (proj2 (Forall_fmap _ (λ w, rx_wf (load_rx (sw_plane s) w)) _) Hx).
      * apply Forall_replicate. rewrite Hr. cbn. lia.
      * constructor.
      * by intros p ?%elem_of_nil.
    + unfold s, start_switch, ctxs_at. cbn [sw_dev vhost_rx_ctxs vhost_tx_ctxs]. rewrite !length_fmap, !length_seq.
      apply dstate_wf_init; lia.
    + intros vid p d Hs. unfold slot_is, s, start_switch, init_dstate in Hs. cbn [sw_dev vlist vdevs] in Hs.
      by apply lookup_replicate in Hs as [? _].
    + unfold s, start_switch, ctxs_at, init_dstate. cbn [sw_plane sw_dev pl_vrx rx_plans vhost_rx_ctxs].
      by rewrite !length_fmap, length_replicate.
    + assert (queued (sw_plane s) = []) as Hqd by exact Hrs. unfold msgs_inv. rewrite Hqd. split_and!; try done.
      * intros msg Hin. by apply elem_of_nil in Hin.
      * by intros p ?%elem_of_nil.
  - apply elem_of_nil_inv. intros p Hp. assert (p ∈ all_queues (load_tx (sw_plane s))) as Hin; [|rewrite Hq0 in Hin; by apply elem_of_nil in Hin].
    apply elem_of_concat. exists (vm_queue (load_tx (sw_plane s)) v). split; [|done]. apply list_elem_of_fmap. exists v.
    split; [done|]. apply elem_of_seq. lia.
  - change (guest (load_tx (sw_plane s)) !! v = Some []). rewrite Htx. unfold start_vhost_tx. cbn [guest]. by apply lookup_replicate_2.
Qed.

(** ** Property *)

End system.

(** ** Witness and hazards: concrete runs *)

(** A check of [sw_event_ok] that can be run, for events whose environment keeps its promises. *)
Section checker.
Context `{RteRing} `{RteMempool slow_msg} `{RteFlags} `{RteCksum} `{RteThash} `{RteEther}.
Context (config : config_t) (eth_addr : list Z) (addr : nat → nat).

Definition env_promises (ev : sw_event) : Prop :=
  match ev with
  | VhostTxEvent e _ => env_ok e
  | EthTxEvent _ take _ => ∀ n, 0 ≤ take n ≤ Z.of_nat n
  | _ => True
  end.

Definition burst_okb (burst : list (nat * mbuf)) (s : switch) : bool :=
  bool_decide (NoDup burst.*1) && bool_decide (length burst ≤ MAX_PKT_BURST)%nat &&
  bool_decide (Forall (λ p, pl_pool (sw_plane s) !! p = None) burst.*1).

Definition teachesb (vid : nat) (b : list Z) : bool :=
  match learned_ip b with
  | Some ip => (2 <=? ip mod 256) && (ip mod 256 <? 2 + Z.of_nat MAX_VHOSTS) && Nat.eqb (last_octet ip) (addr vid)
  | None => false
  end.

Definition sw_event_okb (ev : sw_event) (s : switch) : bool :=
  match ev with
  | VhostRxEvent core burst _ _ _ => Nat.ltb core (length (pl_vrx (sw_plane s))) && burst_okb burst s &&
      forallb (λ pm, negb (arp_req_for_us config (buf pm.2))) burst && Nat.ltb 0 (length (pool_objs (pl_msgs (sw_plane s))))
  | EthRxEvent core burst _ => Nat.ltb core (length (pl_rx (sw_plane s))) && burst_okb burst s &&
      Nat.leb (length (filter (λ pm, arp_req_for_us config (buf pm.2)) burst)) (length (pool_objs (pl_msgs (sw_plane s))))
  | VhostTxEvent _ _ => true
  | EthTxEvent core _ queue => Nat.ltb core (length (pl_eth (sw_plane s))) && Nat.ltb queue (length (pl_eth_rings (sw_plane s)))
  | SlowPathEvent _ => forallb (λ msg,
      match reason msg, pl_pool (sw_plane s) !! msg_mbuf msg with
      | SLOW_MAC_LEARNING, Some m => teachesb (msg_vid msg) (buf m)
      | SLOW_MAC_LEARNING, None => false
      | _, _ => true
      end) (take MAX_PKT_BURST (queued (sw_plane s)))
  | NewDeviceEvent vid p => match vdevs (vlist (sw_dev s)) !! vid, devs (sw_dev s) !! p with Some None, None => true | _, _ => false end
  | DestroyDeviceEvent vid _ =>
      match vdevs (vlist (sw_dev s)) !! vid with
      | Some (Some p) => match devs (sw_dev s) !! p with Some d => ready d =? DEVICE_RX | None => false end
      | _ => false
      end
  end.

Fixpoint sw_run_okb (evs : list sw_event) (s : switch) : bool :=
  match evs with
  | [] => true
  | ev :: evs => sw_event_okb ev s && match sw_step config eth_addr ev s with Ok s' => sw_run_okb evs s' | Fault _ => true end
  end.

Lemma burst_okb_sound burst s : burst_okb burst s = true → burst_ok burst s.
Proof.
  unfold burst_okb. rewrite !andb_true_iff, !bool_decide_eq_true. intros [[Hn Hl] Hf]. split_and!; [done|done|].
  by rewrite Forall_forall in Hf.
Qed.

Lemma sw_event_okb_sound ev s : env_promises ev → sw_event_okb ev s = true → sw_event_ok config addr ev s.
Proof.
  intros He. destruct ev as [core burst now tsc vid|core burst queue|e vid|core tk queue|e|vid p|vid ok]; cbn [sw_event_okb sw_event_ok].
  - rewrite !andb_true_iff, !Nat.ltb_lt, forallb_forall. intros [[[Hc Hb] Ha] Hp]. split_and!; [done|by apply burst_okb_sound| |done].
    apply Forall_forall. intros pm Hin. apply negb_true_iff, Ha. by apply list_elem_of_In.
  - rewrite !andb_true_iff, Nat.ltb_lt, Nat.leb_le. intros [[Hc Hb] Hp]. split_and!; [done|by apply burst_okb_sound|done].
  - done.
  - rewrite andb_true_iff, !Nat.ltb_lt. intros [Hc Hq]. by split_and!.
  - rewrite forallb_forall. intros Hf msg Hin Hr. specialize (Hf msg (proj1 (list_elem_of_In _ _) Hin)). rewrite Hr in Hf.
    destruct (pl_pool (sw_plane s) !! msg_mbuf msg) as [m|]; [|done]. exists m. split; [done|].
    unfold teachesb in Hf. unfold teaches, usable_ip. destruct (learned_ip (buf m)) as [ip|]; [|done]. exists ip.
    rewrite !andb_true_iff in Hf. destruct Hf as [[?%Z.leb_le ?%Z.ltb_lt] ?%Nat.eqb_eq]. done.
  - destruct (vdevs (vlist (sw_dev s)) !! vid) as [[]|]; [done| |done]. by destruct (devs (sw_dev s) !! p).
  - unfold slot_is. destruct (vdevs (vlist (sw_dev s)) !! vid) as [[p|]|]; [|done|done].
    destruct (devs (sw_dev s) !! p) as [d|] eqn:E; [|done]. intros ?%Z.eqb_eq. by exists p, d.
Qed.

Lemma sw_run_okb_sound evs s : Forall env_promises evs → sw_run_okb evs s = true → sw_run_ok config eth_addr addr evs s.
Proof.
  intros Hp. revert s. induction Hp as [|ev evs He _ IH]; intros s; cbn [sw_run_okb sw_run_ok]; [done|].
  rewrite andb_true_iff. intros [Hev Hrest]. split; [by apply sw_event_okb_sound|]. intros s' E. rewrite E in Hrest. by apply IH.
Qed.
End checker.

(** The sockets 0, 1, ... belong to 192.168.100.5, 192.168.100.6, ... *)
Definition demo_addr (v : nat) : nat := (5 + v)%nat.
Definition demo_mac : list Z := [2;0;0;0;0;9].
Definition demo_frame (v : nat) (dst : list Z) : mbuf := demo_mbuf (demo_ip_buf 0 17 [192;168;100;Z.of_nat (demo_addr v)] dst).
Definition demo_ring {A} : @ring list_ring A := ((Z.to_nat RING_SIZE - 1)%nat, []).
Definition demo_pool : @mempool slow_msg (list_mempool slow_msg) := demo_msgs 4.
Definition demo_start : switch := start_switch (ctxs_at boot_config 0) (fresh_shared boot_config demo_ring demo_ring demo_pool) 0.

Definition demo_slow : slow_env := mk_slow_env 5 10 (λ _, Some 1%nat) (λ _, true) (λ _, true).
Definition demo_rx (core p v : nat) (dst : list Z) : sw_event := VhostRxEvent core [(p, demo_frame v dst)] 0 0 v.

(** VM 0 sends a frame to the outside and is learned; VM 1 comes and sends to VM 0. *)
Definition demo_learned : list sw_event := [NewDeviceEvent 0 100; demo_rx 0 1 0 [8;8;8;8]; SlowPathEvent demo_slow].
Definition demo_sent : list sw_event := demo_learned ++ [NewDeviceEvent 1 101; demo_rx 1 2 1 [192;168;100;5]; VhostTxEvent demo_tx_env 0].

Definition guest_at (v : nat) (r : res switch) : option (list nat) :=
  match r with Ok s => guest (pl_tx (sw_plane s)) !! v | Fault _ => None end.
Definition fault_of (r : res switch) : option fault := match r with Ok _ => None | Fault f => Some f end.
Definition run_demo (evs : list sw_event) : res switch := sw_run boot_config demo_mac evs demo_start.

(** VM 0 asks for the address of the data plane. *)
Definition demo_arp : list sw_event :=
  demo_learned ++ [VhostRxEvent 0 [(3%nat, demo_mbuf (demo_arp_buf 1 5 1))] 0 0 0; SlowPathEvent demo_slow; VhostTxEvent demo_tx_env 0].

(** The conditions of [sw_event_ok] are needed: three runs from the start in which all steps
    but one meet them, and the switch faults.  A VM that asks for the MAC address of the
    data plane gets the answer in a freed mbuf, and its core frees it again.  The first
    frame of a VM that goes to another VM may be delivered and freed before the slow path
    learns from it.  And a VM that leaves without having sent a packet makes the removal
    read before the flow table. *)
Theorem conditions_needed :
  (fault_of (run_demo demo_arp) = Some DoubleFree ∧
   sw_run_okb boot_config demo_mac demo_addr demo_learned demo_start = true) ∧
  (fault_of (run_demo (demo_sent ++ [SlowPathEvent demo_slow])) = Some UseAfterFree ∧
   sw_run_okb boot_config demo_mac demo_addr demo_sent demo_start = true) ∧
  (fault_of (run_demo [NewDeviceEvent 0 100; DestroyDeviceEvent 0 true]) = Some OutOfBounds ∧
   sw_run_okb boot_config demo_mac demo_addr [NewDeviceEvent 0 100] demo_start = true).
Proof. split_and!; vm_compute; reflexivity. Qed.

(** VM 1 sends to VM 0, which goes before its core serves it; another VM connects to its
    socket. *)
Definition demo_reused : list sw_event :=
  demo_learned ++ [NewDeviceEvent 1 101; demo_rx 1 2 1 [192;168;100;5]; DestroyDeviceEvent 0 true; NewDeviceEvent 0 102].

Definition device_at (v : nat) (r : res switch) : option nat :=
  match r with Ok s => vdevs (vlist (sw_dev s)) !! v ≫= id | Fault _ => None end.

(** Nothing empties the ring of a VM that goes, nor what is kept for a retry: every step
    meets its conditions, and the next VM on the socket, of which not even the address is
    known yet, receives the packet meant for its predecessor. *)
Theorem next_vm_gets_old_packets :
  sw_run_okb boot_config demo_mac demo_addr (demo_reused ++ [VhostTxEvent demo_tx_env 0]) demo_start = true ∧
  device_at 0 (run_demo demo_learned) = Some 100%nat ∧ device_at 0 (run_demo demo_reused) = Some 102%nat ∧
  guest_at 0 (run_demo demo_reused) = Some [] ∧
  guest_at 0 (run_demo (demo_reused ++ [VhostTxEvent demo_tx_env 0])) = Some [2%nat].
Proof. split_and!; vm_compute; reflexivity. Qed.

Lemma boot_cores_present : cores_present boot_config.
Proof. refine (bool_decide_unpack _ _). vm_compute. exact I. Qed.

Lemma demo_sent_promises : Forall env_promises demo_sent.
Proof. repeat (constructor; [try exact I; exact demo_tx_env_ok|]). constructor. Qed.

Lemma demo_sent_ok : sw_run_okb boot_config demo_mac demo_addr demo_sent demo_start = true.
Proof. vm_compute. reflexivity. Qed.

