(* ===== verification/Delivery.v ===== *)
(** * Delivery: what is addressed to a VM reaches it

    System.v bounds what a guest receives from above; a switch that drops everything
    would satisfy that.  Here is the other half: a frame that a receive loop takes for a
    VM whose ring has room is in the queue of that VM afterwards, nothing but visits of its
    own vhost_tx core takes it from there, whatever the other cores, the control loop
    and the callbacks do in between, and as many visits as its place in the queue
    demands bring it to the guest, if the guest takes what it is offered. *)

From S2P Require Import Prelude CInt Packet Dpdk Ecn Offload Config Poll Plan Route Device VhostTx EthTx Batch EthRx VhostRx SlowPath Startup Contexts DataPlane System.
Local Open Scope Z_scope.

(** ** The queue of a VM *)

Section queue.
Context `{RteRing}.

(** At most [n] visits before packet [p] is with the guest of [v]: one for kept packets,
    and one for each burst. *)
Definition within (n v p : nat) (w : tx_world) : Prop :=
  ∃ pre post vm, tx_vms w !! v = Some vm ∧ vm_queue w v = pre ++ p :: post ∧
    ((if decide (retry_cnt vm = 0) then 0 else 1) + length pre / MAX_PKT_BURST < n)%nat.

(** No back-off lasts beyond [tsc]. *)
Definition free_by (tsc : Z) (v : nat) (w : tx_world) : Prop :=
  ∀ vm, tx_vms w !! v = Some vm → bp_state (tx_bp vm) = VM_ACTIVE ∨ bp_blocked_until_tsc (tx_bp vm) ≤ tsc.

Definition has (v p : nat) (w : tx_world) : Prop := ∃ g, guest w !! v = Some g ∧ p ∈ g.

Lemma free_not_backed_off tsc v w e vm : free_by tsc v w → tsc ≤ env_now e → tx_vms w !! v = Some vm → backed_off e vm = false.
Proof.
  intros Hf He Hvm. unfold backed_off. apply andb_false_iff. destruct (Hf vm Hvm) as [->|Hle]; [by left|right]. apply Z.ltb_ge. lia.
Qed.

Lemma app_place (pre post gone rest : list nat) p :
  pre ++ p :: post = gone ++ rest → p ∉ gone → ∃ pre', pre = gone ++ pre' ∧ rest = pre' ++ p :: post.
Proof.
  revert pre. induction gone as [|x gone IH]; intros pre E Hp; [by exists pre|].
  apply not_elem_of_cons in Hp as [Hne Hp]. destruct pre as [|y pre]; cbn in E; injection E as -> E; [done|].
  destruct (IH pre E Hp) as (pre' & -> & ->). by exists pre'.
Qed.

(** A visit of [v] delivers the packet or brings it closer. *)
Lemma visit_brings tsc e n v p w :
  tx_wf w → (v < MAX_VHOSTS)%nat → accepts e → tsc ≤ env_now e → free_by tsc v w → within (S n) v p w →
  ∃ w', vhost_tx_visit e v w = Ok w' ∧ free_by tsc v w' ∧ (has v p w' ∨ within n v p w').
Proof.
  intros Hwf Hv He Hnow Hfree (pre & post & vm & Hvm & Hq & Hn). pose proof Hwf as (_ & Hl2 & Hl3 & Hf & _).
  destruct (lookup_lt_is_Some_2 (vhost_tx_rings w) v) as [r Hr]; [lia|]. destruct (lookup_lt_is_Some_2 (guest w) v) as [g Hg]; [lia|].
  destruct (accepting_visit e v w vm r Hwf He Hvm Hr) as (w' & vm' & Hrun & Hq' & Hg' & Hvm' & Hc' & Hst);
    [by eapply free_not_backed_off|by rewrite Hq; destruct pre|].
  exists w'. split; [exact Hrun|]. split; [intros vm0 Hvm0; rewrite Hvm' in Hvm0; injection Hvm0 as <-; by left|].
  set (gone := if decide _ then take MAX_PKT_BURST (ring_items r) else _) in *. destruct (decide (p ∈ gone)) as [Hp|Hp].
  { left. exists (g ++ gone). rewrite Hg', Hg. split; [done|]. apply elem_of_app. by right. }
  right. rewrite Hq in Hq'. destruct (app_place _ _ _ _ _ Hq' Hp) as (pre' & -> & Hq2). exists pre', post, vm'.
  split; [done|]. split; [done|]. rewrite Hc', decide_True by done. rewrite length_app in Hn. unfold gone in Hn, Hp, Hq'.
  destruct (decide (retry_cnt vm = 0)%nat) as [Hz|Hz].
  - assert (length (take MAX_PKT_BURST (ring_items r)) = MAX_PKT_BURST) as Hlen.
    { rewrite length_take. apply Nat.min_l. destruct (Nat.le_gt_cases MAX_PKT_BURST (length (ring_items r))) as [|Hlt]; [done|]. destruct Hp.
      unfold vm_queue in Hq. rewrite Hvm, Hr, Hz, take_0 in Hq. cbn [app] in Hq. rewrite take_ge by lia.
      rewrite Hq. rewrite elem_of_app. right. by left. }
    rewrite Hlen in Hn. replace (MAX_PKT_BURST + length pre')%nat with (length pre' + 1 * MAX_PKT_BURST)%nat in Hn by lia.
    rewrite Nat.div_add in Hn by (unfold MAX_PKT_BURST; lia). lia.
  - pose proof (Nat.Div0.div_le_mono (length pre') (length (take (retry_cnt vm) (retry_pkts vm)) + length pre') MAX_PKT_BURST). lia.
Qed.
End queue.

(** ** The switch *)

Section delivery.
Context `{RteRing} `{RteMempool slow_msg} `{RteFlags} `{RteCksum} `{RteThash} `{RteEther}.
Context (config : config_t) (eth_addr : list Z) (addr : nat → nat).

(** What a step puts on the ring of VM [v]. *)
Definition sw_enqueues (v : nat) (ev : sw_event) (s : switch) : list nat :=
  match visit_of ev s with Some visit => enqueues config v visit (sw_plane s) | None => [] end.

Definition visits (v : nat) (ev : sw_event) : bool := match ev with VhostTxEvent _ u => bool_decide (u = v) | _ => false end.
Definition count_visits (v : nat) (evs : list sw_event) : nat := length (filter (λ ev, visits v ev = true) evs).

(** The guest of [v] takes what it is offered, from time [tsc] on. *)
Definition willing (tsc : Z) (v : nat) (evs : list sw_event) : Prop :=
  ∀ e, VhostTxEvent e v ∈ evs → accepts e ∧ tsc ≤ env_now e.

(** A frame for VM [v]: of the subnet, with an octet that is routed to [v]. *)
Definition routed_to (v : nat) (m : mbuf) (s : switch) : Prop :=
  arp_req_for_us config (buf m) = false ∧ ∃ dst, frame_dst (buf m) = Some dst ∧ dst ≠ 0 ∧ dst / 256 = cfg_ip config / 256 ∧
    routing (sw_dev s) !! last_octet dst = Some (Z.of_nat v).

(** A receive loop takes the packet: from the wire, or from a VM that has a device and whose
    gate is open. *)
Definition receives (p : nat) (m : mbuf) (ev : sw_event) (s : switch) : Prop :=
  match ev with
  | VhostRxEvent core burst now tsc vid => (p, m) ∈ burst ∧
      ∃ w, pl_vrx (sw_plane s) !! core = Some w ∧ vrx_open (mk_vrx_env (dev_env s burst) now tsc) vid w = true
  | EthRxEvent _ burst _ => (p, m) ∈ burst
  | _ => False
  end.

(** ** Lemmas *)

Lemma vhost_routed v m s :
  in_u 32 (cfg_ip config) → routed_to v m s → (v < MAX_VHOSTS)%nat → vhost_verdict config (routing (sw_dev s)) (buf m) = ToVm v.
Proof.
  intros Hc (Harp & dst & Hd & _ & Hs & Hr) Hv. unfold vhost_verdict. rewrite Harp.
  pose proof (dst_ip_eq config (buf m)) as Hip. assert ((dst_is_local_subnet config (buf m)).1 =
    (Z.land (f_dst_ip (dst_is_local_subnet config (buf m)).2) 0xFFFFFF00 =? Z.land (cfg_ip config) 0xFFFFFF00)) as Hloc by done.
  destruct (dst_is_local_subnet config (buf m)) as [local f]. cbn [fst snd] in *. rewrite Hip, Hd in Hloc. cbn [default from_option] in Hloc.
  rewrite subnet_eq in Hloc by (done || by eapply frame_dst_range). unfold id in Hloc. rewrite Hs, Z.eqb_refl in Hloc. subst local.
  rewrite Hip, Hd. cbn [default from_option]. unfold id. rewrite Hr. rewrite Nat2Z.id. replace (_ && _) with true; [done|]. symmetry. lia.
Qed.

Lemma eth_routed v m s :
  in_u 32 (cfg_ip config) → routed_to v m s → (v < MAX_VHOSTS)%nat → eth_verdict config (routing (sw_dev s)) (buf m) = ToVm v.
Proof.
  intros Hc (Harp & dst & Hd & Hz & Hs & Hr) Hv. unfold eth_verdict. rewrite Harp, eth_local_eq by done. rewrite Hd.
  pose proof (frame_dst_range _ _ Hd) as Hrange. rewrite Hs, Z.eqb_refl. rewrite i32_zero by done.
  destruct (Z.eqb_spec dst 0) as [|_]; [done|]. rewrite u32_i32. unfold u32, wrap. rewrite (Z.mod_small dst) by done.
  rewrite Hr, Nat2Z.id. replace (_ && _) with true; [done|]. symmetry. lia.
Qed.

(** A ring with room takes what is switched to it. *)
Lemma accepted_all V burst v p (rings : list (ring nat)) r :
  rings !! v = Some r → (length burst ≤ rte_ring_free_count r)%nat → p ∈ burst → V p = ToVm v → p ∈ accepted rings V burst ToVm v.
Proof.
  intros Hr Hroom Hp HV. unfold accepted. rewrite Hr, take_ge; [by apply with_verdict_mem|].
  etransitivity; [|exact Hroom]. apply sublist_length, sublist_filter.
Qed.

Lemma received_enqueued p m ev s v r :
  in_u 32 (cfg_ip config) → sw_event_ok config addr ev s → (v < MAX_VHOSTS)%nat → receives p m ev s → routed_to v m s →
  pl_vm_rings (sw_plane s) !! v = Some r → (MAX_PKT_BURST ≤ rte_ring_free_count r)%nat →
  p ∈ sw_enqueues v ev s ∧ (length (sw_enqueues v ev s) ≤ MAX_PKT_BURST)%nat.
Proof.
  intros Hc Hok Hv Hrec Hto Hr Hroom.
  assert (∀ burst V, (length burst ≤ MAX_PKT_BURST)%nat → (length (accepted (pl_vm_rings (sw_plane s)) V burst ToVm v) ≤ MAX_PKT_BURST)%nat) as Hlen.
  { intros burst V Hb. etransitivity; [|exact Hb]. etransitivity; [apply sublist_length, accepted_sublist|]. apply sublist_length, sublist_filter. }
  assert (∀ burst : list (nat * mbuf), (p, m) ∈ burst → p ∈ burst.*1) as Hin by (intros burst Hb; by apply (list_elem_of_fmap_2 fst) in Hb).
  destruct ev as [core burst now tsc vid|core burst queue|e u|core tk queue|e|vid q|vid ok]; try done; unfold sw_enqueues; cbn [visit_of enqueues].
  - destruct Hrec as (Hb & w & Hw & Hopen), Hok as (_ & (Hnd & Hl & _) & _). rewrite Hw, Hopen. rewrite <- (length_fmap fst) in Hl.
    split; [|by apply Hlen]. eapply accepted_all; [exact Hr|by etransitivity|by apply Hin|].
    unfold vrx_verdict. cbn [vr_rx dev_env env_burst env_routing]. rewrite (pool_verdict_in _ _ _ _ Hnd Hb). by apply vhost_routed.
  - destruct Hok as (_ & (Hnd & Hl & _) & _). rewrite <- (length_fmap fst) in Hl.
    split; [|by apply Hlen]. eapply accepted_all; [exact Hr|by etransitivity|by apply Hin|].
    unfold rx_verdict. cbn [dev_env env_burst env_routing]. rewrite (pool_verdict_in _ _ _ _ Hnd Hrec). by apply eth_routed.
Qed.

(** Steps that are no visit of [v] only add to its queue. *)
Lemma sw_grows ev s s' v :
  queues_ok config → in_u 32 (cfg_ip config) → 0 < eth_rx_queues config → sw_inv config addr s → sw_event_ok config addr ev s →
  visits v ev = false → (v < MAX_VHOSTS)%nat → sw_step config eth_addr ev s = Ok s' →
  tx_vms (pl_tx (sw_plane s')) !! v = tx_vms (pl_tx (sw_plane s)) !! v ∧
  guest (pl_tx (sw_plane s')) !! v = guest (pl_tx (sw_plane s)) !! v ∧
  vm_queue (load_tx (sw_plane s')) v = vm_queue (load_tx (sw_plane s)) v ++ sw_enqueues v ev s.
Proof.
  intros Hq Hc Hr Hinv Hok Hno Hv E. unfold sw_enqueues. destruct (visit_of ev s) as [visit|] eqn:Hvis.
  - unfold sw_step in E. rewrite Hvis in E. bind_step E as pl' Epl. injection E as <-. cbn [sw_plane].
    apply (plane_event_grows config eth_addr visit); try done; [apply Hinv|by eapply visit_ok; [apply Hinv|..]|].
    intros e ->. destruct ev; cbn in Hvis; try done. injection Hvis as _ ->. cbn in Hno. by apply bool_decide_eq_false in Hno.
  - destruct (sw_control config eth_addr addr ev s Hr Hinv Hvis Hok) as (s1 & E1 & _ & Hg & _). assert (s1 = s') as -> by congruence.
    destruct (Hg v) as [-> ->]. done.
Qed.

(** A step, while the packet is on its way. *)
Lemma step_brings tsc ev s s' v p n :
  queues_ok config → in_u 32 (cfg_ip config) → 0 < eth_rx_queues config → sw_inv config addr s → sw_event_ok config addr ev s →
  (v < MAX_VHOSTS)%nat → (∀ e, ev = VhostTxEvent e v → accepts e ∧ tsc ≤ env_now e) → sw_step config eth_addr ev s = Ok s' →
  free_by tsc v (load_tx (sw_plane s)) → within (if visits v ev then S n else n) v p (load_tx (sw_plane s)) →
  free_by tsc v (load_tx (sw_plane s')) ∧ (has v p (load_tx (sw_plane s')) ∨ within n v p (load_tx (sw_plane s'))).
Proof.
  intros Hq Hc Hr Hinv Hok Hv Hwill E Hfree Hin. destruct (visits v ev) eqn:Hvis.
  - destruct ev as [| |e u| | | |]; try done. cbn in Hvis. apply bool_decide_eq_true in Hvis as ->. destruct (Hwill e eq_refl) as [He Hnow].
    unfold sw_step in E. cbn [visit_of plane_step] in E. bind_step E as pl' Epl. injection E as <-. bind_step Epl as w' Ew. injection Epl as <-.
    destruct (plane_tx_wf config (sw_plane s) (mk_eth_tx_stats 0 0 0 0 0) (proj1 Hinv)) as (Hwf & _).
    destruct (visit_brings tsc e n v p _ Hwf Hv He Hnow Hfree Hin) as (w1 & Ew1 & Hres). assert (w1 = w') as -> by congruence.
    cbn [sw_plane load_tx pl_tx pl_vm_rings pl_pool]. by destruct w'.
  - destruct (sw_grows ev s s' v Hq Hc Hr Hinv Hok Hvis Hv E) as (Hvm & _ & Hqueue). split.
    + intros vm. cbn [load_tx tx_vms]. rewrite Hvm. apply Hfree.
    + right. destruct Hin as (pre & post & vm & Hvm0 & Hpq & Hn). exists pre, (post ++ sw_enqueues v ev s), vm.
      split; [cbn [load_tx tx_vms]; by rewrite Hvm|]. split; [|done]. by rewrite Hqueue, Hpq, <- app_assoc.
Qed.

(** Once with the guest, always with the guest. *)
Lemma has_kept evs s v p :
  queues_ok config → in_u 32 (cfg_ip config) → 0 < eth_rx_queues config → sw_inv config addr s → sw_run_ok config eth_addr addr evs s →
  (v < MAX_VHOSTS)%nat → has v p (load_tx (sw_plane s)) → ∃ s', sw_run config eth_addr evs s = Ok s' ∧ has v p (load_tx (sw_plane s')).
Proof.
  intros Hq Hc Hr Hinv Hok Hv (g & Hg & Hp). destruct (sw_run_safe config eth_addr addr evs s Hq Hc Hr Hinv Hok) as (s' & Hrun & _ & Hd).
  exists s'. split; [exact Hrun|]. destruct (delivers_sublist _ _ _ _ _ (Hd v Hv) Hg) as (sent & Hs & _).
  exists (g ++ sent). split; [exact Hs|]. apply elem_of_app. by left.
Qed.

Lemma willing_cons tsc v ev evs : willing tsc v (ev :: evs) → (∀ e, ev = VhostTxEvent e v → accepts e ∧ tsc ≤ env_now e) ∧ willing tsc v evs.
Proof. intros Hw. split; [intros e ->; apply Hw; by left|intros e He; apply Hw; by right]. Qed.

Lemma count_visits_cons v ev evs : count_visits v (ev :: evs) = ((if visits v ev then 1 else 0) + count_visits v evs)%nat.
Proof. unfold count_visits. rewrite filter_cons. by destruct (visits v ev). Qed.

Lemma run_brings tsc evs s v p n :
  queues_ok config → in_u 32 (cfg_ip config) → 0 < eth_rx_queues config → sw_inv config addr s → sw_run_ok config eth_addr addr evs s →
  (v < MAX_VHOSTS)%nat → willing tsc v evs → (n ≤ count_visits v evs)%nat →
  free_by tsc v (load_tx (sw_plane s)) → within n v p (load_tx (sw_plane s)) →
  ∃ s', sw_run config eth_addr evs s = Ok s' ∧ has v p (load_tx (sw_plane s')).
Proof.
  intros Hq Hc Hr. revert s n. induction evs as [|ev evs IH]; intros s n Hinv Hok Hv Hwill Hn Hfree Hin.
  { destruct Hin as (pre & post & vm & _ & _ & Hlt). unfold count_visits in Hn. cbn in Hn. lia. }
  apply willing_cons in Hwill as [Hev Hwill]. pose proof Hok as [Hok1 Hok2]. rewrite count_visits_cons in Hn.
  destruct (sw_event_safe config eth_addr addr ev s Hq Hc Hr Hinv Hok1) as (s1 & E & Hinv1 & _). specialize (Hok2 _ E).
  set (n' := if visits v ev then (n - 1)%nat else n).
  destruct (step_brings tsc ev s s1 v p n' Hq Hc Hr Hinv Hok1 Hv Hev E Hfree) as (Hfree1 & [Hhas|Hin1]).
  - unfold n'. destruct (visits v ev); [|done]. destruct Hin as (pre & post & vm & ? & ? & Hlt). exists pre, post, vm. split_and!; [done|done|lia].
  - destruct (has_kept evs s1 v p Hq Hc Hr Hinv1 Hok2 Hv Hhas) as (s' & Hrun & ?). exists s'. cbn [sw_run]. by rewrite E.
  - destruct (IH s1 n' Hinv1 Hok2 Hv Hwill) as (s' & Hrun & ?); try done; [unfold n'; destruct (visits v ev); lia|].
    exists s'. cbn [sw_run]. by rewrite E.
Qed.

(** ** Property *)

End delivery.

(** ** Witness *)

Definition demo_willing : tx_env := mk_tx_env 0 (λ n, Z.of_nat n) 5.

(** VM 0 is learned and VM 1 there; VM 1 sends to VM 0, is learned, and VM 0 is served. *)
Definition demo_before : list sw_event := demo_learned ++ [NewDeviceEvent 1 101].
Definition demo_mid : switch := match run_demo demo_before with Ok s => s | Fault _ => demo_start end.
Definition demo_after : list sw_event :=
  [SlowPathEvent demo_slow; VhostTxEvent demo_willing 0; EthTxEvent 0 (λ n, Z.of_nat n) 0; VhostTxEvent demo_willing 0; VhostTxEvent demo_willing 0].

Lemma demo_before_promises : Forall env_promises demo_before.
Proof. repeat (constructor; [exact I|]). constructor. Qed.

Lemma demo_start_inv : sw_inv boot_config demo_addr demo_start.
Proof.
  refine (proj1 (start_switch_inv boot_config demo_addr boot_config demo_ring demo_ring demo_pool 0 eq_refl eq_refl _ boot_cores_present boot_counts_ok eq_refl)).
  refine (bool_decide_unpack _ _). vm_compute. exact I.
Qed.

Lemma demo_queues : queues_ok boot_config.
Proof. split; [reflexivity|discriminate]. Qed.

Lemma demo_ip : in_u 32 (cfg_ip boot_config).
Proof. split; [discriminate|reflexivity]. Qed.

Lemma demo_mid_inv : sw_inv boot_config demo_addr demo_mid.
Proof.
  destruct (sw_run_safe boot_config demo_mac demo_addr demo_before demo_start demo_queues demo_ip eq_refl demo_start_inv) as (s' & E & Hinv & _).
  - apply sw_run_okb_sound; [exact demo_before_promises|]. vm_compute. reflexivity.
  - unfold demo_mid, run_demo. rewrite E. exact Hinv.
Qed.

Lemma demo_willing_accepts : accepts demo_willing.
Proof. intros n. reflexivity. Qed.

Lemma demo_after_promises ev : env_promises ev → Forall env_promises (ev :: demo_after).
Proof.
  intros Hev. constructor; [exact Hev|]. pose proof (accepts_ok _ demo_willing_accepts) as Hok.
  repeat (constructor; [try exact I; try exact Hok; intros n; cbn; lia|]). constructor.
Qed.

