(* ===== verification/Outbound.v ===== *)
(** * Outbound: what is addressed to the outside reaches the wire

    The counterpart of Delivery.v for the rings towards the NIC: a frame of a VM for
    another network that finds room on the ring of its queue stays there, unchanged by
    whatever the other cores, the control loop and the callbacks do, until the visits of
    the eth_tx core of that queue hand it to the NIC, if the NIC takes what it is offered. *)

From S2P Require Import Prelude CInt Packet Dpdk Ecn Offload Config Poll Plan Route Device VhostTx EthTx Batch EthRx VhostRx SlowPath Startup Contexts DataPlane System Delivery.
Local Open Scope Z_scope.

Lemma NoDup_concat_apart {A} (ls : list (list A)) i j l1 l2 p :
  NoDup (concat ls) → i ≠ j → ls !! i = Some l1 → ls !! j = Some l2 → p ∈ l1 → p ∉ l2.
Proof.
  assert (∀ (ls : list (list A)) i l, ls !! i = Some l → ∀ q, q ∈ l → q ∈ concat ls) as Hin.
  { intros ls' k l Hl q Hq. apply elem_of_concat. exists l. split; [by eapply list_elem_of_lookup_2|done]. }
  revert i j. induction ls as [|l ls IH]; intros i j Hnd Hne Hi Hj Hp Hq; [done|].
  cbn [concat] in Hnd. apply NoDup_app in Hnd as (_ & Hd & Hnd).
  destruct i as [|i], j as [|j]; cbn in Hi, Hj; simplify_eq.
  - by apply (Hd p Hp), (Hin ls j l2).
  - by apply (Hd p Hq), (Hin ls i l1).
  - apply (IH i j); try done. congruence.
Qed.

Section outbound.
Context `{RteRing} `{RteMempool slow_msg} `{RteFlags} `{RteCksum} `{RteThash} `{RteEther}.
Context (config : config_t) (eth_addr : list Z) (addr : nat → nat).

(** ** Specification *)

(** What waits for queue [q] of the NIC. *)
Definition eth_items (q : nat) (pl : plane) : list nat :=
  match pl_eth_rings pl !! q with Some r => ring_items r | None => [] end.

(** What a visit puts on the ring of queue [q]. *)
Definition eth_enqueues (q : nat) (ev : plane_event) (pl : plane) : list nat :=
  match ev with
  | VhostRxVisit core e vid =>
      match pl_vrx pl !! core with
      | Some w => if vrx_open e vid w then accepted (pl_eth_rings pl) (vrx_verdict config (vr_rx e)) (env_burst (vr_rx e)).*1 ToEth q else []
      | None => []
      end
  | EthRxVisit _ _ _ | VhostTxVisit _ _ | EthTxVisit _ _ _ => []
  end.

(** [enq] comes to queue [q], nothing leaves it, what waits there is not changed, and what
    was sent was sent. *)
Definition keeps (q : nat) (enq : list nat) (pl pl' : plane) : Prop :=
  (∃ sent, pl_wire pl' = pl_wire pl ++ sent) ∧ eth_items q pl' = eth_items q pl ++ enq ∧
  ∀ p, p ∈ eth_items q pl → pl_pool pl' !! p = pl_pool pl !! p.

(** A packet as it is on its way: with or without a congestion mark. *)
Definition passed (m m' : mbuf) : Prop := m' = m ∨ m' = set_buf (ecn_mark_packet (buf m)) m.

(** ** Lemmas: a visit *)

Lemma items_waiting q pl p : p ∈ eth_items q pl → p ∈ waiting pl.
Proof.
  unfold eth_items. destruct (pl_eth_rings pl !! q) as [r|] eqn:E; [|by intros ?%elem_of_nil]. intros Hp.
  apply elem_of_app. right. apply elem_of_concat. exists (ring_items r). split; [|done].
  apply list_elem_of_fmap. exists r. split; [done|]. by eapply list_elem_of_lookup_2.
Qed.

Lemma items_not_fresh q pl p e : plane_inv config pl → fresh_burst e pl → p ∈ eth_items q pl → p ∉ (env_burst e).*1.
Proof.
  intros (_ & _ & _ & _ & _ & Hl) Hf Hp Hb. destruct (Hl p (items_waiting q pl p Hp)) as [m Hm]. by rewrite (Hf p Hb) in Hm.
Qed.

Lemma keeps_same q pl pl' :
  (pl_eth_rings pl', pl_wire pl') = (pl_eth_rings pl, pl_wire pl) → (∀ p, p ∈ eth_items q pl → pl_pool pl' !! p = pl_pool pl !! p) →
  keeps q [] pl pl'.
Proof.
  intros [= Hr Hw] Hp. split; [exists []; by rewrite app_nil_r|]. split; [|done]. unfold eth_items. by rewrite Hr, app_nil_r.
Qed.

Lemma keeps_vhost_rx core e vid q pl pl' :
  queues_ok config → plane_inv config pl → event_ok config (VhostRxVisit core e vid) pl →
  plane_step config eth_addr (VhostRxVisit core e vid) pl = Ok pl' →
  keeps q (eth_enqueues q (VhostRxVisit core e vid) pl) pl pl' ∧
  ∀ p m, (p, m) ∈ env_burst (vr_rx e) → p ∈ eth_enqueues q (VhostRxVisit core e vid) pl →
    ∃ m', pl_pool pl' !! p = Some m' ∧ passed m m'.
Proof.
  intros Hq Hinv (Hcore & He & Hfresh & Hsup) Hstep. pose proof Hinv as (Hco & _).
  destruct (lookup_lt_is_Some_2 (pl_vrx pl) core Hcore) as [w0 Hw0].
  assert (vrx_wf config (load_vrx pl w0)) as Hvrx by (destruct Hco as [Hv _]; by eapply (Forall_lookup_1 _ _ _ _ Hv)).
  destruct (vrx_outcome config e vid (load_vrx pl w0) Hq Hvrx He Hsup) as (w' & w1 & Hrun & _ & [= Hp1 _ He1 _ _] & Hout).
  cbn [plane_step] in Hstep. rewrite (arr_get_Some _ _ _ Hw0) in Hstep. cbn [mbind res_bind] in Hstep. rewrite Hrun in Hstep.
  injection Hstep as <-. cbn [eth_enqueues]. rewrite Hw0. change (vrx_open e vid (load_vrx pl w0)) with (vrx_open e vid w0) in Hout.
  destruct Hout as [(-> & Hidle)|(_ & -> & learning & st & _ & (Hle & Heeth) & Hpool & _)].
  { assert ((if vrx_open e vid w0 then accepted (pl_eth_rings pl) (vrx_verdict config (vr_rx e)) (env_burst (vr_rx e)).*1 ToEth q else []) = []) as ->.
    { destruct Hidle as [->| ->]; [done|]. rewrite accepted_nil. by destruct (vrx_open e vid w0). }
    split; [apply keeps_same; [by cbn; rewrite He1|by cbn; rewrite Hp1]|]. by intros p m _ ?%elem_of_nil. }
  rewrite He1 in Heeth, Hle. cbn [load_vrx w_eth_rings] in Heeth, Hle. split; [split; [exists []; by rewrite app_nil_r|split]|].
  - unfold eth_items, accepted. cbn [pl_eth_rings]. destruct (pl_eth_rings pl !! q) as [r|] eqn:Er.
    + destruct (Heeth q r Er) as (r' & -> & _ & ->). done.
    + rewrite (lookup_ge_None_2 (w_eth_rings w')); [done|]. rewrite Hle. by apply lookup_ge_None in Er.
  - intros p Hp. cbn [pl_pool]. pose proof (items_not_fresh q pl p _ Hinv Hfresh Hp) as Hb.
    rewrite Hpool, vrx_fate_other by done. unfold vrx_received. rewrite lookup_union_r, Hp1; [done|]. by apply not_elem_of_list_to_map_1.
  - intros p m Hin Hp. destruct He as ((_ & Hnd & _) & _).
    destruct (accepted_from_burst (pl_eth_rings pl) (vrx_verdict config (vr_rx e)) (env_burst (vr_rx e)).*1 ToEth Hnd q) as [_ Hacc].
    destruct (Hacc p Hp) as [HV _]. cbn [pl_pool]. rewrite Hpool. unfold vrx_fate. rewrite HV.
    assert (vrx_received (vr_rx e) w1 !! p = Some m) as ->.
    { unfold vrx_received. rewrite lookup_union, (elem_of_list_to_map_1 _ _ m) by done. by rewrite union_Some_l. }
    unfold accepted in Hp. rewrite He1. cbn [load_vrx w_eth_rings]. destruct (pl_eth_rings pl !! q) as [r|]; [|by apply elem_of_nil in Hp].
    destruct (w_rr_eth w1 !! q) as [rr|]; [|exists m; split; [done|by left]]. rewrite decide_False.
    + eexists. split; [done|]. unfold marked. destruct (ecn_marks _ _ _ _); [by right|by left].
    + assert (NoDup (with_verdict (vrx_verdict config (vr_rx e)) (ToEth q) (env_burst (vr_rx e)).*1)) as Hndv by by apply NoDup_filter.
      rewrite <- (take_drop (rte_ring_free_count r) (with_verdict _ (ToEth q) _)) in Hndv.
      apply NoDup_app in Hndv as (_ & Hd & _). by apply Hd.
Qed.

Lemma keeps_eth_rx core e queue q pl pl' :
  plane_inv config pl → event_ok config (EthRxVisit core e queue) pl →
  plane_step config eth_addr (EthRxVisit core e queue) pl = Ok pl' → keeps q [] pl pl'.
Proof.
  intros Hinv (Hcore & He & Hfresh & Hsup) Hstep. pose proof Hinv as (Hco & _).
  destruct (lookup_lt_is_Some_2 (pl_rx pl) core Hcore) as [w0 Hw0].
  assert (rx_wf (load_rx pl w0)) as Hrx by (destruct Hco as [_ Hr]; by eapply (Forall_lookup_1 _ _ _ _ Hr)).
  destruct (eth_rx_visit_spec config e queue (load_rx pl w0) He Hrx Hsup) as (w' & Hrun & _ & _ & Hpool & _).
  cbn [plane_step] in Hstep. rewrite (arr_get_Some _ _ _ Hw0) in Hstep. cbn [mbind res_bind] in Hstep. rewrite Hrun in Hstep.
  injection Hstep as <-. apply keeps_same; [done|]. intros p Hp. cbn [pl_pool].
  pose proof (items_not_fresh q pl p _ Hinv Hfresh Hp) as Hb. rewrite Hpool, decide_False, option_fmap_id by done.
  unfold received. rewrite lookup_union_r; [done|]. by apply not_elem_of_list_to_map_1.
Qed.

Lemma keeps_vhost_tx e vid q pl pl' :
  plane_inv config pl → env_ok e → plane_step config eth_addr (VhostTxVisit e vid) pl = Ok pl' → keeps q [] pl pl'.
Proof.
  intros Hinv He Hstep. destruct (plane_tx_wf config pl (mk_eth_tx_stats 0 0 0 0 0) Hinv) as (Htx & _ & Hdisj).
  destruct (visit_progress e vid (load_tx pl) Htx He) as (w' & Hrun & _ & _ & _ & Hpool).
  cbn [plane_step] in Hstep. rewrite Hrun in Hstep. injection Hstep as <-. apply keeps_same; [done|]. intros p Hp. cbn [pl_pool].
  rewrite Hpool, decide_False; [done|]. intros [Hin _]. apply (Hdisj p Hin). unfold eth_items in Hp.
  destruct (pl_eth_rings pl !! q) as [r|] eqn:E; [|by apply elem_of_nil in Hp].
  apply elem_of_concat. exists (ring_items r). split; [|done]. apply list_elem_of_fmap. exists r. split; [done|]. by eapply list_elem_of_lookup_2.
Qed.

(** A visit of the eth_tx core: of its queue the NIC takes a burst. *)
Lemma eth_tx_effect core take queue pl pl' :
  plane_inv config pl → event_ok config (EthTxVisit core take queue) pl →
  plane_step config eth_addr (EthTxVisit core take queue) pl = Ok pl' →
  ∃ r r' w' k b ms, pl_eth_rings pl !! queue = Some r ∧ pl_eth_rings pl' = <[queue := r']> (pl_eth_rings pl) ∧ pl_pool pl' = eth_pool w' ∧
    pl_wire pl' = pl_wire pl ++ ((λ m, (queue, eth_out config eth_addr m)) <$> ms) ∧
    k = Z.to_nat (take (length (take_burst r))) ∧ (b ≤ length (take_burst r) - k)%nat ∧
    ring_items r' = drop MAX_PKT_BURST (ring_items r) ++ requeued (take_burst r) k b ∧
    Forall2 (λ p m, pl_pool pl !! p = Some m) (firstn k (take_burst r)) ms ∧
    ∀ p, p ∉ take_burst r → eth_pool w' !! p = pl_pool pl !! p.
Proof.
  intros Hinv (Hcore & Htake & Hlt) Hstep. destruct (lookup_lt_is_Some_2 (pl_eth pl) core Hcore) as [st0 Hst0].
  destruct (plane_tx_wf config pl st0 Hinv) as (_ & Hewf & _). destruct (lookup_lt_is_Some_2 (pl_eth_rings pl) queue Hlt) as [r Hr].
  assert (eth_env_ok (mk_eth_env take []) (load_eth pl st0)) as Henv.
  { split; [done|]. split; [apply Hewf|]. by intros p ?%elem_of_nil. }
  destruct (eth_tx_visit_spec config eth_addr (mk_eth_env take []) queue (load_eth pl st0) r Hewf Henv Hr)
    as (k & a & b & w' & r' & ms & Hrun & Hk & Ha & Hb & Hrings & Hi & Hc & Hms & Hwire & Hpool).
  cbn [plane_step] in Hstep. rewrite (arr_get_Some _ _ _ Hst0) in Hstep. cbn [mbind res_bind] in Hstep. rewrite Hrun in Hstep.
  injection Hstep as <-. exists r, r', w', k, b, ms. cbn [env_arrive] in Hi. rewrite take_nil in Hi. cbn [app] in Hi.
  fold (take_burst r) in Hi, Hms, Hpool, Hk, Hb.
  split_and!; try done; [lia|]. intros p Hn. rewrite Hpool, !decide_False; [by rewrite option_fmap_id|done|].
  intros [Hg|Hg]%elem_of_app; apply Hn; [by eapply elem_of_take_of|by eapply elem_of_drop_of].
Qed.

Lemma keeps_eth_tx core take queue q pl pl' :
  plane_inv config pl → event_ok config (EthTxVisit core take queue) pl → queue ≠ q →
  plane_step config eth_addr (EthTxVisit core take queue) pl = Ok pl' → keeps q [] pl pl'.
Proof.
  intros Hinv Hok Hne Hstep. destruct (eth_tx_effect core take queue pl pl' Hinv Hok Hstep)
    as (r & r' & w' & k & b & ms & Hr & Hrings & Hp' & Hwire & _ & _ & _ & _ & Hpool).
  split; [by eexists|]. unfold eth_items. rewrite Hrings, list_lookup_insert_ne, app_nil_r by done. split; [done|].
  intros p Hp. rewrite Hp'. apply Hpool. intros Hb. destruct (pl_eth_rings pl !! q) as [rq|] eqn:Eq; [|by apply elem_of_nil in Hp].
  apply elem_of_take_of in Hb. destruct Hinv as (_ & _ & _ & _ & Hnd & _). apply NoDup_app in Hnd as (_ & _ & Hnd).
  apply (NoDup_concat_apart (ring_items <$> pl_eth_rings pl) queue q (ring_items r) (ring_items rq) p); try done; by rewrite list_lookup_fmap, ?Hr, ?Eq.
Qed.

(** ** The switch *)

(** The visits of queue [q] by its eth_tx core. *)
Definition sends (q : nat) (ev : sw_event) : bool := match ev with EthTxEvent _ _ u => bool_decide (u = q) | _ => false end.
Definition count_sends (q : nat) (evs : list sw_event) : nat := length (filter (λ ev, sends q ev = true) evs).

(** The NIC takes what it is offered for queue [q]. *)
Definition nic_willing (q : nat) (evs : list sw_event) : Prop :=
  ∀ core take, EthTxEvent core take q ∈ evs → ∀ n, take n = Z.of_nat n.

(** At most [n] visits before packet [p], with contents [m], is with the NIC. *)
Definition ahead (n q p : nat) (m : mbuf) (s : switch) : Prop :=
  ∃ pre post, eth_items q (sw_plane s) = pre ++ p :: post ∧ (length pre / MAX_PKT_BURST < n)%nat ∧
    pl_pool (sw_plane s) !! p = Some m.

Definition on_wire (q : nat) (m : mbuf) (s : switch) : Prop := (q, eth_out config eth_addr m) ∈ pl_wire (sw_plane s).

(** ** Lemmas: the switch *)

Definition sw_eth_enqueues (q : nat) (ev : sw_event) (s : switch) : list nat :=
  match visit_of ev s with Some visit => eth_enqueues q visit (sw_plane s) | None => [] end.

Lemma plane_keeps visit q pl pl' :
  queues_ok config → plane_inv config pl → event_ok config visit pl → (∀ core take, visit ≠ EthTxVisit core take q) →
  plane_step config eth_addr visit pl = Ok pl' → keeps q (eth_enqueues q visit pl) pl pl'.
Proof.
  intros Hq Hinv Hok Hne Hstep. destruct visit as [core e vid|core e queue|e vid|core take queue].
  - by apply keeps_vhost_rx.
  - by eapply keeps_eth_rx.
  - by eapply keeps_vhost_tx.
  - eapply keeps_eth_tx; [done|done| |done]. intros ->. by apply (Hne core take).
Qed.

(** Steps that are no visit of [q]. *)
Lemma sw_keeps ev s s' q :
  queues_ok config → 0 < eth_rx_queues config → sw_inv config addr s → sw_event_ok config addr ev s →
  sends q ev = false → sw_step config eth_addr ev s = Ok s' → keeps q (sw_eth_enqueues q ev s) (sw_plane s) (sw_plane s').
Proof.
  intros Hq Hr Hinv Hok Hno E. unfold sw_eth_enqueues. destruct (visit_of ev s) as [visit|] eqn:Hvis.
  - unfold sw_step in E. rewrite Hvis in E. bind_step E as pl' Epl. injection E as <-. cbn [sw_plane].
    apply plane_keeps; try done; [apply Hinv|by eapply visit_ok; [apply Hinv|..]|].
    intros core take ->. destruct ev; cbn in Hvis; try done. injection Hvis as _ _ ->. cbn in Hno. by apply bool_decide_eq_false in Hno.
  - destruct (sw_control config eth_addr addr ev s Hr Hinv Hvis Hok) as (s1 & E1 & _ & _ & Hrest & Hp). assert (s1 = s') as -> by congruence.
    apply keeps_same; [done|]. intros p Hin. by eapply Hp, items_waiting.
Qed.

(** A visit of [q] by its core. *)
Lemma send_step core take q s s' :
  sw_inv config addr s → sw_event_ok config addr (EthTxEvent core take q) s →
  sw_step config eth_addr (EthTxEvent core take q) s = Ok s' →
  ∃ r r' w' k b ms, pl_eth_rings (sw_plane s) !! q = Some r ∧ pl_eth_rings (sw_plane s') = <[q := r']> (pl_eth_rings (sw_plane s)) ∧
    pl_pool (sw_plane s') = eth_pool w' ∧ pl_wire (sw_plane s') = pl_wire (sw_plane s) ++ ((λ m, (q, eth_out config eth_addr m)) <$> ms) ∧
    k = Z.to_nat (take (length (take_burst r))) ∧ (b ≤ length (take_burst r) - k)%nat ∧
    ring_items r' = drop MAX_PKT_BURST (ring_items r) ++ requeued (take_burst r) k b ∧
    Forall2 (λ p m, pl_pool (sw_plane s) !! p = Some m) (firstn k (take_burst r)) ms ∧
    ∀ p, p ∉ take_burst r → eth_pool w' !! p = pl_pool (sw_plane s) !! p.
Proof.
  intros Hinv Hok E. unfold sw_step in E. cbn [visit_of] in E. bind_step E as pl' Epl. injection E as <-.
  apply (eth_tx_effect core take q (sw_plane s) pl'); [apply Hinv|exact Hok|exact Epl].
Qed.

(** What was sent was sent. *)
Lemma wire_grows ev s s' :
  queues_ok config → 0 < eth_rx_queues config → sw_inv config addr s → sw_event_ok config addr ev s →
  sw_step config eth_addr ev s = Ok s' → ∃ sent, pl_wire (sw_plane s') = pl_wire (sw_plane s) ++ sent.
Proof.
  intros Hq Hr Hinv Hok E. assert (∃ q, sends q ev = false ∨ ∃ core take, ev = EthTxEvent core take q) as (q & [Hno|(core & take & ->)]).
  { destruct ev as [| | |core take q| | |]; try by exists 0%nat; left. exists q. right. by exists core, take. }
  - by destruct (sw_keeps ev s s' q Hq Hr Hinv Hok Hno E) as (? & _).
  - destruct (send_step core take q s s' Hinv Hok E) as (r & r' & w' & k & b & ms & _ & _ & _ & Hw & _). by eexists.
Qed.

(** A step, while the packet is on its way. *)
Lemma step_sends ev s s' q p m n :
  queues_ok config → 0 < eth_rx_queues config → sw_inv config addr s → sw_event_ok config addr ev s →
  (∀ core take, ev = EthTxEvent core take q → ∀ n, take n = Z.of_nat n) → sw_step config eth_addr ev s = Ok s' →
  ahead (if sends q ev then S n else n) q p m s → on_wire q m s' ∨ ahead n q p m s'.
Proof.
  intros Hq Hr Hinv Hok Hwill E (pre & post & Hitems & Hn & Hm). destruct (sends q ev) eqn:Hs.
  - destruct ev as [| | |core take u| | |]; try done. cbn in Hs. apply bool_decide_eq_true in Hs as ->.
    destruct (send_step core take q s s' Hinv Hok E) as (r & r' & w' & k & b & ms & Hr0 & Hrings & Hp' & Hwire & Hk & Hb & Hi & Hms & Hpool).
    rewrite (Hwill core take eq_refl), Nat2Z.id in Hk. rewrite Hk, firstn_all in Hms.
    unfold eth_items in Hitems. rewrite Hr0 in Hitems. destruct (decide (p ∈ take_burst r)) as [Hin|Hin].
    { left. unfold on_wire. rewrite Hwire. apply elem_of_app. right. apply list_elem_of_fmap. exists m. split; [done|].
      apply list_elem_of_lookup in Hin as [i Hi']. destruct (Forall2_lookup_l _ _ _ _ _ Hms Hi') as (m' & Hm' & Hpm).
      assert (m' = m) as -> by congruence. by eapply list_elem_of_lookup_2. }
    right. rewrite <- (take_drop MAX_PKT_BURST (ring_items r)) in Hitems. symmetry in Hitems.
    destruct (app_place _ _ _ _ _ Hitems Hin) as (pre' & -> & Hrest). exists pre', (post ++ requeued (take_burst r) k b).
    split; [|split].
    + unfold eth_items. rewrite Hrings, list_lookup_insert_eq by (by eapply lookup_lt_Some). by rewrite Hi, Hrest, <- app_assoc.
    + assert (length (take_burst r) = MAX_PKT_BURST) as Hlen.
      { unfold take_burst. rewrite length_take. apply Nat.min_l. destruct (Nat.le_gt_cases MAX_PKT_BURST (length (ring_items r))) as [|Hlt]; [done|].
        rewrite drop_ge in Hrest by lia. by destruct pre'. }
      unfold take_burst in Hlen. rewrite length_app, Hlen in Hn.
      replace (MAX_PKT_BURST + length pre')%nat with (length pre' + 1 * MAX_PKT_BURST)%nat in Hn by lia.
      rewrite Nat.div_add in Hn by (unfold MAX_PKT_BURST; lia). lia.
    + rewrite Hp'. by rewrite Hpool.
  - right. destruct (sw_keeps ev s s' q Hq Hr Hinv Hok Hs E) as (_ & Hi & Hp). exists pre, (post ++ sw_eth_enqueues q ev s).
    split; [by rewrite Hi, Hitems, <- app_assoc|]. split; [done|]. rewrite Hp; [done|]. rewrite Hitems. apply elem_of_app. right. by left.
Qed.

(** ** Lemmas: runs *)

Lemma on_wire_run evs q m s :
  queues_ok config → in_u 32 (cfg_ip config) → 0 < eth_rx_queues config → sw_inv config addr s → sw_run_ok config eth_addr addr evs s →
  on_wire q m s → ∃ s', sw_run config eth_addr evs s = Ok s' ∧ on_wire q m s'.
Proof.
  intros Hq Hc Hr. revert s. induction evs as [|ev evs IH]; intros s Hinv Hok Hw; [by exists s|]. destruct Hok as [Hev Hok].
  destruct (sw_event_safe config eth_addr addr ev s Hq Hc Hr Hinv Hev) as (s1 & E & Hinv1 & _).
  destruct (wire_grows ev s s1 Hq Hr Hinv Hev E) as [sent Hsent]. cbn [sw_run]. rewrite E. apply IH; [done|by apply Hok|].
  unfold on_wire. rewrite Hsent. apply elem_of_app. by left.
Qed.

Lemma count_sends_cons q ev evs : count_sends q (ev :: evs) = ((if sends q ev then 1 else 0) + count_sends q evs)%nat.
Proof. unfold count_sends. rewrite filter_cons. by destruct (sends q ev). Qed.

Lemma nic_willing_cons q ev evs :
  nic_willing q (ev :: evs) → (∀ core take, ev = EthTxEvent core take q → ∀ n, take n = Z.of_nat n) ∧ nic_willing q evs.
Proof. intros Hw. split; [intros core tk ->; apply (Hw core); by left|intros core tk Hin; apply (Hw core); by right]. Qed.

Lemma run_sends evs s q p m n :
  queues_ok config → in_u 32 (cfg_ip config) → 0 < eth_rx_queues config → sw_inv config addr s → sw_run_ok config eth_addr addr evs s →
  nic_willing q evs → (n ≤ count_sends q evs)%nat → ahead n q p m s →
  ∃ s', sw_run config eth_addr evs s = Ok s' ∧ on_wire q m s'.
Proof.
  intros Hq Hc Hr. revert s n. induction evs as [|ev evs IH]; intros s n Hinv Hok Hwill Hn Hin.
  { destruct Hin as (pre & post & _ & Hlt & _). unfold count_sends in Hn. cbn in Hn. lia. }
  apply nic_willing_cons in Hwill as [Hev Hwill]. destruct Hok as [Hok1 Hok2]. rewrite count_sends_cons in Hn.
  destruct (sw_event_safe config eth_addr addr ev s Hq Hc Hr Hinv Hok1) as (s1 & E & Hinv1 & _). specialize (Hok2 _ E).
  set (n' := if sends q ev then (n - 1)%nat else n). cbn [sw_run]. rewrite E.
  destruct (step_sends ev s s1 q p m n' Hq Hr Hinv Hok1 Hev E) as [Hw|Hin1].
  - unfold n'. destruct (sends q ev); [|done]. destruct Hin as (pre & post & ? & ? & ?). exists pre, post. split_and!; [done|lia|done].
  - by apply on_wire_run.
  - apply (IH s1 n'); try done. unfold n'. destruct (sends q ev); lia.
Qed.

(** ** Property *)

(** The queue that a frame to another network takes. *)
Definition queue_for (b : list Z) : nat := flow_queue config (dst_is_local_subnet config b).2.

Lemma leaving_verdict routing b dst :
  in_u 32 (cfg_ip config) → arp_req_for_us config b = false → frame_dst b = Some dst → dst / 256 ≠ cfg_ip config / 256 →
  vhost_verdict config routing b = ToEth (queue_for b).
Proof.
  intros Hc Harp Hd Hs. unfold vhost_verdict, queue_for. rewrite Harp.
  pose proof (dst_ip_eq config b) as Hip. assert ((dst_is_local_subnet config b).1 =
    (Z.land (f_dst_ip (dst_is_local_subnet config b).2) 0xFFFFFF00 =? Z.land (cfg_ip config) 0xFFFFFF00)) as Hloc by done.
  destruct (dst_is_local_subnet config b) as [local f]. cbn [fst snd] in *. rewrite Hip, Hd in Hloc. cbn [default from_option] in Hloc.
  rewrite subnet_eq in Hloc by (done || by eapply frame_dst_range). unfold id in Hloc. subst local. by rewrite (proj2 (Z.eqb_neq _ _) Hs).
Qed.

End outbound.

(** ** Witness *)

(** VM 1 sends its first frame to the outside, is learned, and queue 3 is visited twice. *)
Definition demo_leaves : mbuf := demo_frame 1 [8;8;8;8].
Definition demo_out : list sw_event :=
  [SlowPathEvent demo_slow; VhostTxEvent demo_willing 0; EthTxEvent 0 (λ n, Z.of_nat n) 3; EthTxEvent 0 (λ n, Z.of_nat n) 3].

Lemma demo_queue : queue_for boot_config (buf demo_leaves) = 3%nat.
Proof. vm_compute. reflexivity. Qed.

Lemma demo_out_promises : Forall env_promises (demo_rx 1 2 1 [8;8;8;8] :: demo_out).
Proof.
  pose proof (accepts_ok _ demo_willing_accepts) as Hok.
  repeat (constructor; [try exact I; try exact Hok; intros n; cbn; lia|]). constructor.
Qed.

