(* ===== verification/TxCores.v ===== *)
(** * The vhost_tx cores and their arrays

    [struct vhost_tx_ctx] has arrays over all vids: statistics, kept packets, back-off.
    Each core has its own, and DataPlane.v keeps one array for all of them, the elements
    of which are those of the core that serves the VM.  Here every core has its arrays, as
    in the code, and the two agree as long as no VM is served by two cores; the plans see
    to that while a VM is there ([fleet_correct]).  The last theorem shows what becomes of
    kept packets when a socket is used again and the new VM gets another core. *)

From S2P Require Import Prelude CInt Packet Dpdk Ecn Offload Config Poll Plan Route Device VhostTx EthTx Batch EthRx VhostRx SlowPath Startup Contexts DataPlane System Delivery.
Local Open Scope Z_scope.

(** ** The arrays of a core in the state of the switch *)

Section arrays.
Context `{RteRing} `{RteMempool slow_msg}.

Definition set_vms (vms : list vhost_tx_vm) (w : tx_world) : tx_world := mk_tx_world vms (vhost_tx_rings w) (tx_pool w) (guest w).
Definition with_vms (vms : list vhost_tx_vm) (s : switch) : switch :=
  let pl := sw_plane s in
  mk_switch (mk_plane (pl_pool pl) (pl_vm_rings pl) (pl_eth_rings pl) (pl_slow pl) (pl_msgs pl) (pl_vrx pl) (pl_rx pl)
    (set_vms vms (pl_tx pl)) (pl_wire pl) (pl_eth pl)) (sw_dev s) (sw_last s).
Definition vms_of (s : switch) : list vhost_tx_vm := tx_vms (pl_tx (sw_plane s)).

(** The elements of the cores that serve the VMs. *)
Definition start_vm : vhost_tx_vm := init_vhost_tx_vm zero_vdev_tx_stats.
Definition element (cores : list (list vhost_tx_vm)) (c v : nat) : vhost_tx_vm :=
  match cores !! c with Some vms => default start_vm (vms !! v) | None => start_vm end.
Definition merged (h : nat → nat) (cores : list (list vhost_tx_vm)) : list vhost_tx_vm :=
  (λ v, element cores (h v) v) <$> seq 0 MAX_VHOSTS.

Definition arrays_ok (h : nat → nat) (cores : list (list vhost_tx_vm)) : Prop :=
  Forall (λ vms, length vms = MAX_VHOSTS) cores ∧ ∀ v, (v < MAX_VHOSTS)%nat → (h v < length cores)%nat.

Lemma merged_lookup h cores v vms vm :
  (v < MAX_VHOSTS)%nat → cores !! h v = Some vms → vms !! v = Some vm → merged h cores !! v = Some vm.
Proof. intros Hv Hc Hm. unfold merged. rewrite list_lookup_fmap, lookup_seq_lt by done. cbn. unfold element. by rewrite Hc, Hm. Qed.

Lemma length_merged h cores : length (merged h cores) = MAX_VHOSTS.
Proof. unfold merged. by rewrite length_fmap, length_seq. Qed.

(** The core of VM [v] changes the element of [v]. *)
Lemma merged_insert h cores v vms vm :
  arrays_ok h cores → (v < MAX_VHOSTS)%nat → cores !! h v = Some vms →
  merged h (<[h v := <[v := vm]> vms]> cores) = <[v := vm]> (merged h cores).
Proof.
  intros [Hl Hh] Hv Hc. apply list_eq. intros u. unfold merged.
  destruct (decide (u < MAX_VHOSTS)%nat) as [Hu|Hu].
  2:{ rewrite !lookup_ge_None_2; [done| |]; rewrite ?length_insert, length_fmap, length_seq; lia. }
  pose proof (Forall_lookup_1 _ _ _ _ Hl Hc) as Hlv. cbn in Hlv. pose proof (lookup_lt_Some _ _ _ Hc) as Hlc.
  rewrite list_lookup_fmap, lookup_seq_lt by done. cbn [fmap option_fmap option_map Nat.add]. unfold element at 1.
  destruct (decide (u = v)) as [->|Hne].
  - by rewrite !list_lookup_insert_eq by (rewrite ?length_fmap, ?length_seq; lia).
  - rewrite (list_lookup_insert_ne (_ <$> _)), list_lookup_fmap, lookup_seq_lt by done. cbn [fmap option_fmap option_map Nat.add].
    destruct (decide (h u = h v)) as [->|Hneh].
    + rewrite list_lookup_insert_eq by done. unfold element. by rewrite Hc, list_lookup_insert_ne.
    + by rewrite list_lookup_insert_ne.
Qed.

(** A visit of [vid] reads and writes the element of [vid]. *)
Lemma visit_local e vid w vms :
  vms !! vid = tx_vms w !! vid →
  vhost_tx_visit e vid (set_vms vms w) =
    (λ w', set_vms (match tx_vms w' !! vid with Some vm => <[vid := vm]> vms | None => vms end) w') <$> vhost_tx_visit e vid w.
Proof.
  intros Hvm. assert (match tx_vms w !! vid with Some vm => <[vid := vm]> vms | None => vms end = vms) as Hsame.
  { rewrite <- Hvm. destruct (vms !! vid) as [vm|] eqn:E; [by apply list_insert_id|done]. }
  unfold vhost_tx_visit. case_decide; [cbn; by rewrite Hsame|]. cbn [set_vms tx_vms].
  assert (arr_get vms vid = arr_get (tx_vms w) vid) as -> by (unfold arr_get; by rewrite Hvm).
  destruct (arr_get (tx_vms w) vid) as [vm|] eqn:E; cbn [mbind res_bind]; [|done].
  apply arr_get_Ok in E. destruct (_ && _); [cbn; by rewrite Hsame|]. cbn [set_vms guest vhost_tx_rings tx_pool].
  destruct (arr_get (guest w) vid) as [g|]; cbn [mbind res_bind]; [|done].
  assert (∀ vm', (<[vid := vm']> (tx_vms w) : list vhost_tx_vm) !! vid = Some vm') as Hat.
  { intros vm'. apply list_lookup_insert_eq. by eapply lookup_lt_Some. }
  case_decide.
  - destruct (vhost_resend _ _ _ _ _) as [[[ret vm'] pool]|]; cbn [mbind res_bind fmap res_fmap tx_vms]; [|done]. by rewrite Hat.
  - destruct (arr_get (vhost_tx_rings w) vid) as [r|]; cbn [mbind res_bind]; [|done].
    destruct (rte_ring_dequeue_burst r MAX_PKT_BURST) as [pkts r'].
    set (vm1 := if decide (length pkts = MAX_PKT_BURST) then _ else vm). case_decide; [|cbn [fmap res_fmap tx_vms]; by rewrite Hat].
    destruct (vhost_send _ _ _ _ _ _) as [[[ret vm'] pool]|]; cbn [mbind res_bind fmap res_fmap tx_vms]; [|done]. by rewrite Hat.
Qed.

Lemma visit_element e vid w w' :
  vhost_tx_visit e vid w = Ok w' →
  match tx_vms w' !! vid with Some vm => <[vid := vm]> (tx_vms w) | None => tx_vms w end = tx_vms w'.
Proof.
  intros Hw. pose proof (visit_local e vid w (tx_vms w) eq_refl) as Hl.
  replace (set_vms (tx_vms w) w) with w in Hl by by destruct w. rewrite Hw in Hl. cbn in Hl. injection Hl as Hl.
  apply (f_equal tx_vms) in Hl. by symmetry.
Qed.
End arrays.

(** ** A switch whose vhost_tx cores have their own arrays *)

Section fleet.
Context `{RteRing} `{RteMempool slow_msg} `{RteFlags} `{RteCksum} `{RteThash} `{RteEther}.
Context (config : config_t) (eth_addr : list Z).

(** [fl_switch] is all the rest; its own array of the vhost_tx cores is not used. *)
Record fleet := mk_fleet { fl_switch : switch; fl_vms : list (list vhost_tx_vm) }.

Inductive fleet_event :=
  | ServeOn (core : nat) (e : tx_env) (vid : nat)   (* a visit of a vhost_tx core *)
  | Elsewhere (ev : sw_event).                      (* any other event *)

Definition fleet_step (ev : fleet_event) (f : fleet) : res fleet :=
  match ev with
  | ServeOn core e vid =>
      vms ← arr_get (fl_vms f) core;
      s ← sw_step config eth_addr (VhostTxEvent e vid) (with_vms vms (fl_switch f));
      Ok (mk_fleet s (<[core := vms_of s]> (fl_vms f)))
  | Elsewhere ev =>
      s ← sw_step config eth_addr ev (fl_switch f);
      Ok (mk_fleet s (fl_vms f))
  end.

Fixpoint fleet_run (evs : list fleet_event) (f : fleet) : res fleet :=
  match evs with
  | [] => Ok f
  | ev :: evs => f ← fleet_step ev f; fleet_run evs f
  end.

(** ** Specification *)

(** The event of the switch with one array. *)
Definition erase (ev : fleet_event) : sw_event :=
  match ev with ServeOn _ e vid => VhostTxEvent e vid | Elsewhere ev => ev end.

(** The switch of which the fleet is an implementation when VM [v] is served by core [h v]. *)
Definition view (h : nat → nat) (f : fleet) : switch := with_vms (merged h (fl_vms f)) (fl_switch f).

(** VM [v] is served by core [h v] and no other. *)
Definition home_ok (h : nat → nat) (ev : fleet_event) : Prop :=
  match ev with
  | ServeOn core _ vid => (vid < MAX_VHOSTS)%nat ∧ core = h vid
  | Elsewhere ev => match ev with VhostTxEvent _ _ => False | _ => True end
  end.

(** ** Lemmas *)

Lemma with_vms_twice vms vms' s : with_vms vms (with_vms vms' s) = with_vms vms s.
Proof. done. Qed.

(** The other events do not look at the arrays. *)
Lemma step_elsewhere ev vms s :
  home_ok (λ _, 0%nat) (Elsewhere ev) →
  sw_step config eth_addr ev (with_vms vms s) = with_vms vms <$> sw_step config eth_addr ev s.
Proof.
  destruct ev as [core burst now tsc vid|core burst queue|e vid|core tk queue|e|vid p|vid ok]; intros Hev;
    [| |by destruct Hev| | | |]; unfold sw_step; cbn [visit_of plane_step].
  - change (pl_vrx (sw_plane (with_vms vms s))) with (pl_vrx (sw_plane s)).
    destruct (arr_get (pl_vrx (sw_plane s)) core) as [w|]; cbn [mbind res_bind]; [|done].
    change (load_vrx (sw_plane (with_vms vms s)) w) with (load_vrx (sw_plane s) w).
    change (dev_env (with_vms vms s) burst) with (dev_env s burst).
    by destruct (vhost_rx_visit _ _ _ _).
  - change (pl_rx (sw_plane (with_vms vms s))) with (pl_rx (sw_plane s)).
    destruct (arr_get (pl_rx (sw_plane s)) core) as [w|]; cbn [mbind res_bind]; [|done].
    change (load_rx (sw_plane (with_vms vms s)) w) with (load_rx (sw_plane s) w).
    change (dev_env (with_vms vms s) burst) with (dev_env s burst).
    by destruct (eth_rx_visit _ _ _ _).
  - change (pl_eth (sw_plane (with_vms vms s))) with (pl_eth (sw_plane s)).
    destruct (arr_get (pl_eth (sw_plane s)) core) as [st|]; cbn [mbind res_bind]; [|done].
    change (load_eth (sw_plane (with_vms vms s)) st) with (load_eth (sw_plane s) st).
    by destruct (eth_tx_visit _ _ _ _ _).
  - change (load_slow (with_vms vms s)) with (load_slow s). by destruct (slowpath_iter _ _ _).
  - change (sw_dev (with_vms vms s)) with (sw_dev s). by destruct (new_device _ _ _ _ _ _) as [[]|].
  - change (sw_dev (with_vms vms s)) with (sw_dev s). by destruct (destroy_device _ _ _ _ _ _ _).
Qed.

(** A visit of a vhost_tx core with its array, and with the array of all. *)
Lemma step_serve h core e vid f :
  arrays_ok h (fl_vms f) → home_ok h (ServeOn core e vid) →
  view h <$> fleet_step (ServeOn core e vid) f = sw_step config eth_addr (VhostTxEvent e vid) (view h f) ∧
  ∀ f', fleet_step (ServeOn core e vid) f = Ok f' → arrays_ok h (fl_vms f').
Proof.
  intros [Hl Hh] [Hvid ->]. destruct (lookup_lt_is_Some_2 (fl_vms f) (h vid)) as [vms Hvms]; [by apply Hh|].
  pose proof (Forall_lookup_1 _ _ _ _ Hl Hvms) as Hlv. cbn in Hlv.
  destruct (lookup_lt_is_Some_2 vms vid) as [vm Hvm]; [lia|].
  unfold fleet_step. rewrite (arr_get_Some _ _ _ Hvms). unfold sw_step. cbn [mbind res_bind visit_of plane_step].
  change (load_tx (sw_plane (view h f))) with (set_vms (merged h (fl_vms f)) (load_tx (sw_plane (with_vms vms (fl_switch f))))).
  rewrite visit_local by (rewrite (merged_lookup _ _ _ _ _ Hvid Hvms Hvm); done).
  destruct (vhost_tx_visit _ _ _) as [w|] eqn:Hw; cbn [fmap res_fmap mbind res_bind]; [|done].
  pose proof (visit_element _ _ _ _ Hw) as Hel.
  assert (length (tx_vms w) = MAX_VHOSTS) as Hlw by (rewrite <- Hel; case_match; rewrite ?length_insert; done).
  destruct (lookup_lt_is_Some_2 (tx_vms w) vid) as [vm' Hvm']; [lia|]. rewrite Hvm' in Hel |- *.
  change (tx_vms (load_tx (sw_plane (with_vms vms (fl_switch f))))) with vms in Hel. split.
  - f_equal. rewrite <- merged_insert with (vms := vms) by done. by rewrite Hel.
  - intros f' [= <-]. split; cbn [fl_vms]; [|by intros v; rewrite length_insert; apply Hh]. by apply Forall_insert.
Qed.

Lemma fleet_step_view h ev f :
  arrays_ok h (fl_vms f) → home_ok h ev →
  view h <$> fleet_step ev f = sw_step config eth_addr (erase ev) (view h f) ∧
  ∀ f', fleet_step ev f = Ok f' → arrays_ok h (fl_vms f').
Proof.
  intros Hok Hev. destruct ev as [core e vid|ev]; [by apply step_serve|]. cbn [fleet_step erase]. unfold view.
  rewrite step_elsewhere by done. destruct (sw_step config eth_addr ev (fl_switch f)) as [s|]; [|done].
  cbn. split; [done|]. by intros f' [= <-].
Qed.

(** ** The array of all VMs *)

(** As long as every VM has one core, the cores with their arrays do what the switch of
    System.v does with one array, whose elements are those of the cores of the VMs, event by
    event: the same deliveries, losses, statistics and faults. *)
Theorem tx_cores_refine h evs f :
  arrays_ok h (fl_vms f) → Forall (home_ok h) evs →
  view h <$> fleet_run evs f = sw_run config eth_addr (erase <$> evs) (view h f).
Proof.
  revert f. induction evs as [|ev evs IH]; intros f Hok; [done|]. intros [Hev Hevs]%Forall_cons.
  destruct (fleet_step_view h ev f Hok Hev) as [Hs Hok']. cbn [fleet_run sw_run fmap list_fmap].
  rewrite <- Hs. destruct (fleet_step ev f) as [f'|]; cbn [fmap res_fmap mbind res_bind]; [|done].
  by apply IH; [apply Hok'|].
Qed.
End fleet.

(** ** Lemmas: who changes the cores of the VMs *)

(** From [d] to [d'] the VMs but those that satisfy [P] keep their slots and cores. *)
Definition homes_kept (P : nat → Prop) (d d' : dstate) : Prop :=
  length (tx_plans d') = length (tx_plans d) ∧
  ∀ u, ¬ P u → vhost_tx_core d' !! u = vhost_tx_core d !! u ∧ vdevs (vlist d') !! u = vdevs (vlist d) !! u.

Lemma homes_kept_same P d d' :
  (tx_plans d', vhost_tx_core d', vlist d') = (tx_plans d, vhost_tx_core d, vlist d) → homes_kept P d d'.
Proof. intros [= E1 E2 E3]. split; [by rewrite E1|]. intros u _. by rewrite E2, E3. Qed.

Lemma homes_kept_trans P d1 d2 d3 : homes_kept P d1 d2 → homes_kept P d2 d3 → homes_kept P d1 d3.
Proof.
  intros [Hl1 H1'] [Hl2 H2']. split; [congruence|]. intros u Hu. destruct (H1' u Hu), (H2' u Hu). split; congruence.
Qed.

Lemma arr_set_other {A} (l l' : list A) i x u : arr_set l i x = Ok l' → u ≠ i → l' !! u = l !! u.
Proof. unfold arr_set. case_decide; [|done]. intros [= <-] Hne. by rewrite list_lookup_insert_ne. Qed.

Lemma plan_add_other vid alloc plans core r plans' core' u :
  plan_add vid alloc plans core = Ok (r, plans', core') → u ≠ vid → core' !! u = core !! u.
Proof.
  unfold plan_add. intros Heq Hu. destruct (select_core plans) as [i|]; [|by injection Heq as _ _ <-].
  bind_step Heq as o E. destruct o; [|by injection Heq as _ _ <-]. bind_step Heq as c Ec. injection Heq as _ _ <-.
  by eapply arr_set_other.
Qed.

Lemma plan_remove_other vid alloc plans core r plans' core' u :
  plan_remove vid alloc plans core = Ok (r, plans', core') → u ≠ vid → core' !! u = core !! u.
Proof.
  unfold plan_remove. intros Heq Hu. bind_step Heq as oi Ei. destruct oi as [i|]; [|by injection Heq as _ _ <-].
  bind_step Heq as o E. destruct o; [|by injection Heq as _ _ <-]. bind_step Heq as c Ec. injection Heq as _ _ <-.
  by eapply arr_set_other.
Qed.

Lemma new_device_homes vid p s r s' :
  new_device vid (Some p) true true true s = Ok (r, s') → homes_kept (eq vid) s s'.
Proof.
  unfold new_device, vhost_rx_plan_add, vhost_tx_plan_add, add_to_vdev_list. cbn [negb]. intros Heq.
  destruct (_ <=? _)%Z; [bind_step Heq as h Eh; injection Heq as _ <-; by apply homes_kept_same|].
  bind_step Heq as l El. bind_step El as slots Esl. injection El as <-. bind_step Heq as [[r1 ps] c] E1.
  assert (∀ u, u ≠ vid → slots !! u = vdevs (vlist s) !! u) as Hsl by (intros u; by eapply arr_set_other).
  destruct (negb _).
  { bind_step Heq as h Eh. injection Heq as _ <-. split; [done|]. intros u Hu. split; [done|]. by apply Hsl. }
  bind_step Heq as [[r2 ps2] c2] E2. pose proof (plan_add_length _ _ _ _ _ _ _ E2) as Hl.
  assert (∀ u, u ≠ vid → c2 !! u = vhost_tx_core s !! u) as Hc by (intros u; by apply (plan_add_other _ _ _ _ _ _ _ _ E2)).
  destruct (negb _); [bind_step Heq as h Eh|]; injection Heq as _ <-; (split; [done|]); intros u Hu; (split; [by apply Hc|by apply Hsl]).
Qed.

Lemma unlink_vmdq_homes P p s s' : unlink_vmdq p s = Ok s' → homes_kept P s s'.
Proof.
  unfold unlink_vmdq. intros Heq. bind_step Heq as d Ed. bind_step Heq as [d1 s1] E1. bind_step Heq as h Eh.
  injection Heq as <-. apply homes_kept_same. destruct (ready d =? DEVICE_RX)%Z; [|by injection E1 as _ <-].
  bind_step E1 as [x t] Et. by injection E1 as _ <-.
Qed.

Lemma uninstall_homes P queues ok p s r s' : uninstall_eth_rx_flow queues ok p s = Ok (r, s') → homes_kept P s s'.
Proof.
  unfold uninstall_eth_rx_flow. intros Heq. bind_step Heq as d Ed. bind_step Heq as f Ef. apply homes_kept_same.
  destruct f; [|by injection Heq as _ <-]. bind_step Heq as q Eq. by destruct ok; injection Heq as _ <-.
Qed.

Lemma destroy_device_homes queues vid ok s s' :
  destroy_device queues vid true true true ok s = Ok s' → homes_kept (eq vid) s s'.
Proof.
  unfold destroy_device, vhost_rx_plan_remove, vhost_tx_plan_remove, remove_from_vdev_list. cbn [negb]. intros Heq.
  bind_step Heq as slot Es. destruct slot as [p|]; [|injection Heq as <-; by apply homes_kept_same].
  bind_step Heq as s1 E1. apply (homes_kept_trans _ s s1); [by eapply unlink_vmdq_homes|].
  bind_step Heq as o Eo. destruct o as [l|]; [|injection Heq as <-; by apply homes_kept_same].
  assert (∀ u, u ≠ vid → vdevs l !! u = vdevs (vlist s1) !! u) as Hsl.
  { bind_step Eo as slot Esl. destruct slot as [q|]; [|discriminate Eo]. bind_step Eo as d Ed.
    destruct (negb _); [discriminate Eo|]. bind_step Eo as slots E2. injection Eo as <-. intros u. by eapply arr_set_other. }
  bind_step Heq as [[r ps] c] E2. destruct (negb _).
  { injection Heq as <-. split; [done|]. intros u Hu. split; [done|]. by apply Hsl. }
  bind_step Heq as [[r2 ps2] c2] E3.
  assert (homes_kept (eq vid) s1 (set_tx ps2 c2 (set_rx ps c (set_vlist l s1)))) as Hk.
  { split; [by apply plan_remove_length in E3|]. intros u Hu. split; [|by apply Hsl]. by apply (plan_remove_other _ _ _ _ _ _ _ _ E3). }
  destruct (negb _); [by injection Heq as <-|]. bind_step Heq as [x s2] E4. injection Heq as <-.
  eapply homes_kept_trans; [exact Hk|]. by eapply uninstall_homes.
Qed.

Lemma link_vmdq_homes P p b s s' : link_vmdq p b s = Ok s' → homes_kept P s s'.
Proof.
  unfold link_vmdq. intros Heq. bind_step Heq as d Ed. bind_step Heq as [x t] Et. bind_step Heq as h Eh.
  injection Heq as <-. by apply homes_kept_same.
Qed.

Lemma install_homes P queues flow p s r s' : install_eth_rx_flow queues flow p s = Ok (r, s') → homes_kept P s s'.
Proof.
  unfold install_eth_rx_flow. intros Heq. bind_step Heq as d Ed. bind_step Heq as f Ef. apply homes_kept_same.
  destruct f; [by injection Heq as _ <-|]. bind_step Heq as q Eq. destruct flow; [|by injection Heq as _ <-].
  bind_step Heq as fs Efs. by injection Heq as _ <-.
Qed.

Lemma learn_device_homes P queues flow vid b s s' : learn_device queues flow vid b s = Ok s' → homes_kept P s s'.
Proof.
  unfold learn_device. intros Heq. bind_step Heq as slot Es. destruct slot as [p|]; [|injection Heq as <-; by apply homes_kept_same].
  bind_step Heq as s1 E1. bind_step Heq as [x s2] E2. injection Heq as <-.
  eapply homes_kept_trans; [by eapply link_vmdq_homes|by eapply install_homes].
Qed.

Lemma calculate_tx_length i alloc vdevs core plans plans' :
  calculate_tx_from i alloc vdevs core plans = Ok plans' → length plans' = length plans.
Proof.
  revert i plans'. induction plans as [|p plans IH]; intros i plans' Heq; cbn [calculate_tx_from] in Heq; [by injection Heq as <-|].
  bind_step Heq as o Eo. destruct o as [p'|]; [|by injection Heq as <-]. bind_step Heq as ps Eps. injection Heq as <-.
  cbn. f_equal. by eapply IH.
Qed.

Section slow.
Context `{RteRing} `{RteMempool slow_msg}.
Context (config : config_t).

Lemma process_msg_homes P flow msg w w' : process_msg config flow msg w = Ok w' → homes_kept P (sl_dev w) (sl_dev w').
Proof.
  unfold process_msg. intros Heq. destruct (reason msg); [| |injection Heq as <-; by apply homes_kept_same].
  - bind_step Heq as slot E. destruct slot; [|injection Heq as <-; by apply homes_kept_same].
    bind_step Heq as [[x rings] pool] E0. injection Heq as <-. by apply homes_kept_same.
  - bind_step Heq as slot E. destruct slot; [|injection Heq as <-; by apply homes_kept_same].
    bind_step Heq as m Em. bind_step Heq as s' Es. injection Heq as <-. by eapply learn_device_homes.
Qed.

Lemma process_msgs_homes P (flows : nat → option nat) l w w' :
  foldM (λ '(i, msg) w, process_msg config (flows i) msg w) l w = Ok w' → homes_kept P (sl_dev w) (sl_dev w').
Proof.
  revert w. induction l as [|[i msg] l IH]; intros w Heq; [injection Heq as <-; by apply homes_kept_same|].
  cbn [foldM] in Heq. bind_step Heq as w1 E. eapply homes_kept_trans; [by eapply process_msg_homes|by apply IH].
Qed.

Lemma replan_homes P alloc_rx alloc_tx cur hz w w' :
  replan alloc_rx alloc_tx cur hz w = Ok w' → homes_kept P (sl_dev w) (sl_dev w').
Proof.
  unfold replan. intros Heq. destruct (_ <? _); [|injection Heq as <-; by apply homes_kept_same].
  bind_step Heq as [plans stats] E1. bind_step Heq as plans2 E2. injection Heq as <-.
  apply calculate_tx_length in E2. by split.
Qed.

Lemma slowpath_iter_homes P e w w' : slowpath_iter config e w = Ok w' → homes_kept P (sl_dev w) (sl_dev w').
Proof.
  unfold slowpath_iter. intros Heq. destruct (rte_ring_dequeue_burst _ _) as [msgs r]. bind_step Heq as w1 E.
  apply process_msgs_homes with (P := P) in E. eapply homes_kept_trans; [exact E|by eapply replan_homes].
Qed.
End slow.

(** ** Lemmas: the runs of the fleet *)

Section homes.
Context `{RteRing} `{RteMempool slow_msg} `{RteFlags} `{RteCksum} `{RteThash} `{RteEther}.
Context (config : config_t) (eth_addr : list Z) (addr : nat → nat).

(** The VM that an event brings or takes away. *)
Definition touches (ev : sw_event) (u : nat) : Prop :=
  match ev with NewDeviceEvent vid _ | DestroyDeviceEvent vid _ => vid = u | _ => False end.

Lemma step_homes ev s s' :
  sw_step config eth_addr ev s = Ok s' → homes_kept (touches ev) (sw_dev s) (sw_dev s').
Proof.
  unfold sw_step. intros Heq. destruct (visit_of ev s) as [visit|] eqn:Hv.
  { bind_step Heq as pl E. injection Heq as <-. by apply homes_kept_same. }
  destruct ev as [| | | |e|vid p|vid ok]; try discriminate Hv.
  - bind_step Heq as w E. injection Heq as <-. by apply slowpath_iter_homes with (P := touches (SlowPathEvent e)) in E.
  - bind_step Heq as [r d] E. injection Heq as <-. by eapply new_device_homes.
  - bind_step Heq as d E. injection Heq as <-. by eapply destroy_device_homes.
Qed.

(** *** Plans *)

(** The plan that core [c] has now lists [v]. *)
Definition listed (d : dstate) (c v : nat) : Prop := ∃ plan, tx_plans d !! c = Some plan ∧ v ∈ plan_list plan.

(** The cores read a plan once per iteration, so a visit follows a plan that was
    published before; [past c v]: some plan of core [c] has listed [v] so far. *)
Definition fleet_event_ok (past : nat → nat → Prop) (ev : fleet_event) (f : fleet) : Prop :=
  match ev with
  | ServeOn core e vid => env_ok e ∧ past core vid
  | Elsewhere ev => sw_event_ok config addr ev (fl_switch f) ∧
      match ev with
      | VhostTxEvent _ _ => False
      | NewDeviceEvent vid _ => ∀ c, ¬ past c vid
      | _ => True
      end
  end.

Fixpoint fleet_run_ok (past : nat → nat → Prop) (evs : list fleet_event) (f : fleet) : Prop :=
  match evs with
  | [] => True
  | ev :: evs => fleet_event_ok past ev f ∧
      ∀ f', fleet_step config eth_addr ev f = Ok f' →
        fleet_run_ok (λ c v, past c v ∨ listed (sw_dev (fl_switch f')) c v) evs f'
  end.

(** Every VM that was ever listed has a core, which is the recorded one while the VM is there;
    the cores have not yet told apart the VMs that were never listed. *)
Definition fleet_inv (past : nat → nat → Prop) (h : nat → nat) (f : fleet) : Prop :=
  let d := sw_dev (fl_switch f) in
  sw_inv config addr (view h f) ∧ arrays_ok h (fl_vms f) ∧ length (fl_vms f) = length (tx_plans d) ∧
  (∀ c v, past c v → (v < MAX_VHOSTS)%nat ∧ c = h v) ∧
  (∀ v, vm_live (vdevs (vlist d)) v → vhost_tx_core d !! v = Some (h v)) ∧
  (∀ v, (∀ c, ¬ past c v) → ∀ c, (c < length (fl_vms f))%nat → element (fl_vms f) c v = element (fl_vms f) (h v) v).

Lemma listed_home h d c v :
  dstate_wf d → (∀ v, vm_live (vdevs (vlist d)) v → vhost_tx_core d !! v = Some (h v)) → listed d c v →
  (v < MAX_VHOSTS)%nat ∧ c = h v.
Proof.
  intros ((Hlv & _) & _ & (_ & _ & (_ & _ & _ & Hpart & _) & _) & _) Hlive (plan & Hp & Hin).
  cbn [sys_vdevs sys_plans sys_core] in Hpart. apply (Hpart c plan v Hp) in Hin as [Hl Hc]. split.
  - destruct Hl as [x Hx]. rewrite <- Hlv. by eapply lookup_lt_Some.
  - rewrite (Hlive v Hl) in Hc. by injection Hc.
Qed.

(** An iteration over the plan of its core visits a VM once: the visits that
    [Delivery.frame_reaches_guest] counts are iterations. *)
Lemma one_visit_per_iteration d c plan v :
  dstate_wf d → tx_plans d !! c = Some plan → vm_live (vdevs (vlist d)) v → vhost_tx_core d !! v = Some c →
  ∀ envs : nat → tx_env, count_visits v (imap (λ i u, VhostTxEvent (envs i) u) (plan_list plan)) = 1%nat.
Proof.
  intros (_ & _ & (_ & _ & (_ & _ & Hwf & Hpart & _) & _) & _) Hp Hl Hc envs. cbn [sys_vdevs sys_plans sys_core] in *.
  assert (v ∈ plan_list plan) as Hin by by apply (Hpart c plan v Hp).
  destruct (Forall_lookup_1 _ _ _ _ Hwf Hp) as (_ & _ & Hnd & _). clear - Hin Hnd.
  assert (∀ l (envs : nat → tx_env), v ∉ l → count_visits v (imap (λ i u, VhostTxEvent (envs i) u) l) = 0%nat) as Hnone.
  { induction l as [|u l IH]; intros envs' Hv; [done|]. apply not_elem_of_cons in Hv as [Hu Hv]. rewrite imap_cons, count_visits_cons.
    cbn [visits]. rewrite bool_decide_eq_false_2 by congruence. by apply (IH (envs' ∘ S)). }
  revert envs Hin. induction Hnd as [|u l Hu _ IH]; intros envs Hin; [by apply elem_of_nil in Hin|].
  rewrite imap_cons, count_visits_cons. cbn [visits]. apply elem_of_cons in Hin as [<-|Hin].
  - rewrite bool_decide_eq_true_2 by done. exact (f_equal S (Hnone l (envs ∘ S) Hu)).
  - rewrite bool_decide_eq_false_2 by congruence. by apply (IH (envs ∘ S)).
Qed.

Lemma merged_ext h h' cores :
  (∀ v, (v < MAX_VHOSTS)%nat → element cores (h' v) v = element cores (h v) v) → merged h' cores = merged h cores.
Proof. intros He. unfold merged. apply list_fmap_ext. intros i v Hv. apply He. apply lookup_seq in Hv as [-> ?]. lia. Qed.

(** The cores of the VMs after an event that served none: a new VM gets its core. *)
Definition rehomed (d : dstate) (h : nat → nat) (v : nat) : nat :=
  if decide (vm_live (vdevs (vlist d)) v) then default (h v) (vhost_tx_core d !! v) else h v.

Lemma rehome past h f s P :
  fleet_inv past h f → homes_kept P (sw_dev (fl_switch f)) (sw_dev s) → dstate_wf (sw_dev s) →
  (∀ v, P v → vm_live (vdevs (vlist (sw_dev s))) v → ∀ c, ¬ past c v) →
  let h' := rehomed (sw_dev s) h in let f' := mk_fleet s (fl_vms f) in
  view h' f' = view h f' ∧ (sw_inv config addr (view h f') →
    fleet_inv (λ c v, past c v ∨ listed (sw_dev s) c v) h' f').
Proof.
  intros (_ & [Hlen Hh] & Hlp & Hpast & Hlive & Heq) [Hpl Hkept] Hdev HP h' f'.
  assert (∀ v, vm_live (vdevs (vlist (sw_dev s))) v → vhost_tx_core (sw_dev s) !! v = Some (h' v) ∧ (h' v < length (fl_vms f))%nat) as Hlive'.
  { intros v Hv. destruct Hdev as (_ & _ & (_ & _ & (_ & _ & _ & _ & Hhome) & _) & _). cbn [sys_vdevs sys_plans sys_core] in Hhome.
    destruct (Hhome v Hv) as (i & Hi & Hlt). unfold h', rehomed. rewrite decide_True, Hi by done. cbn. split; [done|lia]. }
  assert (∀ c v, past c v → h' v = h v) as Hsame.
  { intros c v Hc. unfold h', rehomed. case_decide as Hv; [|done].
    destruct (Hkept v) as [Ec Es]; [intros Hp; by apply (HP v Hp Hv c)|]. rewrite Ec, Hlive; [done|].
    destruct Hv as [x Hx]. exists x. by rewrite <- Es. }
  assert (∀ v, (v < MAX_VHOSTS)%nat → (h' v < length (fl_vms f))%nat) as Hh'.
  { intros v Hv. destruct (decide (vm_live (vdevs (vlist (sw_dev s))) v)) as [Hl|Hl]; [by apply Hlive'|].
    unfold h', rehomed. rewrite decide_False by done. by apply Hh. }
  assert (∀ v, (v < MAX_VHOSTS)%nat → element (fl_vms f) (h' v) v = element (fl_vms f) (h v) v) as Hel.
  { intros v Hv. destruct (decide (h' v = h v)) as [->|Hne]; [done|]. apply Heq; [|by apply Hh']. intros c Hc.
    by destruct Hne; apply (Hsame c). }
  assert (view h' f' = view h f') as Hview by (unfold view; f_equal; by apply merged_ext).
  split; [exact Hview|]. intros Hinv. split_and!.
  - by rewrite Hview.
  - done.
  - by cbn; rewrite Hpl.
  - intros c v [Hc|Hc]; [rewrite (Hsame c v Hc); by apply Hpast|]. eapply listed_home; [exact Hdev| |exact Hc]. intros u Hu. by apply Hlive'.
  - intros v Hv. by apply Hlive'.
  - cbn [fl_vms f']. intros v Hno c Hc.
    assert (∀ c, ¬ past c v) as Hno' by (intros c' Hc'; apply (Hno c'); by left). rewrite Heq by done. symmetry.
    unfold h', rehomed. case_decide as Hl; [|done]. destruct (Hlive' v Hl) as [Hc1 Hc2]. rewrite Hc1. cbn. by apply Heq.
Qed.

Lemma serve_elements core e vid f f' :
  fleet_step config eth_addr (ServeOn core e vid) f = Ok f' →
  length (fl_vms f') = length (fl_vms f) ∧ ∀ c v, v ≠ vid → element (fl_vms f') c v = element (fl_vms f) c v.
Proof.
  unfold fleet_step. intros Hf. bind_step Hf as vms Hvms. apply arr_get_Ok in Hvms. bind_step Hf as s Hs. injection Hf as <-.
  unfold sw_step in Hs. cbn [visit_of plane_step] in Hs. bind_step Hs as pl Hpl. injection Hs as <-.
  bind_step Hpl as w Hw. injection Hpl as <-. apply visit_element in Hw.
  cbn [fl_vms]. split; [apply length_insert|]. intros c v Hne. unfold element. change (vms_of _) with (tx_vms w).
  destruct (decide (c = core)) as [->|Hc]; [|by rewrite list_lookup_insert_ne].
  rewrite list_lookup_insert_eq by (by eapply lookup_lt_Some). rewrite Hvms, <- Hw.
  case_match; [|done]. by rewrite list_lookup_insert_ne.
Qed.

Lemma view_event_ok past h ev f : fleet_event_ok past ev f → sw_event_ok config addr (erase ev) (view h f).
Proof. destruct ev as [core e vid|ev]; intros [Hok _]; [done|]. cbn [erase]. by destruct ev. Qed.

Lemma past_home past h ev f : fleet_inv past h f → fleet_event_ok past ev f → home_ok h ev.
Proof.
  intros (_ & _ & _ & Hpast & _) Hok. destruct ev as [core e vid|ev]; [by apply Hpast, Hok|]. by destruct ev, Hok.
Qed.

Lemma destroyed vid ok d d' :
  0 < eth_rx_queues config → dstate_wf d → (∃ p x, slot_is d vid p ∧ devs d !! p = Some x ∧ ready x = DEVICE_RX) →
  destroy_device (eth_rx_queues config) vid true true true ok d = Ok d' → ¬ vm_live (vdevs (vlist d')) vid.
Proof.
  intros Hq Hwf (p & x & Hs & Hd & Hr) Heq.
  destruct (destroy_device_eq _ vid p x ok d Hwf Hs Hd Hq Hr) as (rps & rc & tps & tc & ns & E & _).
  rewrite E in Heq. injection Heq as <-. cbn. intros [y Hy].
  rewrite list_lookup_insert_eq in Hy by (by eapply lookup_lt_Some). done.
Qed.

(** A VM that an event brings or takes away is new, or gone. *)
Lemma touched past ev f s :
  0 < eth_rx_queues config → dstate_wf (sw_dev (fl_switch f)) → fleet_event_ok past (Elsewhere ev) f →
  sw_step config eth_addr ev (fl_switch f) = Ok s →
  ∀ v, touches ev v → vm_live (vdevs (vlist (sw_dev s))) v → ∀ c, ¬ past c v.
Proof.
  intros Hq Hwf [Hok Hnew] Hs v Ht Hl. destruct ev as [| | | | |vid p|vid ok]; try done; cbn in Ht; subst v; [exact Hnew|].
  unfold sw_step in Hs. cbn [visit_of] in Hs. bind_step Hs as d E. injection Hs as <-.
  by destruct (destroyed vid ok _ _ Hq Hwf Hok E).
Qed.

(** Every event of the fleet is one of the switch with one array. *)
Lemma fleet_inv_step past h ev f :
  queues_ok config → in_u 32 (cfg_ip config) → 0 < eth_rx_queues config →
  fleet_inv past h f → fleet_event_ok past ev f →
  ∃ f' h', fleet_step config eth_addr ev f = Ok f' ∧ sw_step config eth_addr (erase ev) (view h f) = Ok (view h' f') ∧
    fleet_inv (λ c v, past c v ∨ listed (sw_dev (fl_switch f')) c v) h' f'.
Proof.
  intros Hq Hc Hr Hinv Hok. pose proof Hinv as (Hsw & Harr & Hlp & Hpast & Hlive & Heq).
  pose proof (past_home _ _ _ _ Hinv Hok) as Hhome. pose proof (view_event_ok past h ev f Hok) as Hev.
  destruct (sw_event_safe config eth_addr addr (erase ev) (view h f) Hq Hc Hr Hsw Hev) as (s' & Hs & Hsw' & _).
  destruct (fleet_step_view config eth_addr h ev f Harr Hhome) as [Hv Harr']. rewrite Hs in Hv.
  destruct (fleet_step config eth_addr ev f) as [f'|] eqn:Hf; [|discriminate Hv]. cbn in Hv. injection Hv as <-.
  exists f'. destruct ev as [core e vid|ev].
  - exists h. split_and!; [done|exact Hs|]. destruct (serve_elements _ _ _ _ _ Hf) as [Hl Hel].
    apply step_homes in Hs as [Htp Hk]. change (sw_dev (view h f)) with (sw_dev (fl_switch f)) in *.
    change (sw_dev (view h f')) with (sw_dev (fl_switch f')) in *.
    assert (∀ v, vm_live (vdevs (vlist (sw_dev (fl_switch f')))) v → vhost_tx_core (sw_dev (fl_switch f')) !! v = Some (h v)) as Hlive'.
    { intros v [x Hx]. destruct (Hk v) as [-> Ev]; [by intros []|]. apply Hlive. exists x. by rewrite <- Ev. }
    split; [exact Hsw'|]. split; [by apply Harr'|]. split; [congruence|]. split; [|split; [exact Hlive'|]].
    + intros c v [Hp|Hp]; [by apply Hpast|]. eapply listed_home; [|exact Hlive'|exact Hp]. apply Hsw'.
    + intros v Hno c Hlt. destruct Hok as [_ Hp]. assert (v ≠ vid) as Hne by (intros ->; by apply (Hno core); left).
      rewrite !Hel by done. apply Heq; [|lia]. intros c' Hc'. by apply (Hno c'); left.
  - exists (rehomed (sw_dev (fl_switch f')) h). unfold fleet_step in Hf. bind_step Hf as s E. injection Hf as <-.
    destruct (rehome past h f s (touches ev) Hinv) as [Hview Hinv'].
    + by eapply step_homes.
    + apply Hsw'.
    + eapply touched; [exact Hr|apply Hsw|exact Hok|exact E].
    + cbn [fl_switch] in *. split_and!; [done|by rewrite Hview|by apply Hinv'].
Qed.

Lemma fleet_inv_run past h evs f :
  queues_ok config → in_u 32 (cfg_ip config) → 0 < eth_rx_queues config →
  fleet_inv past h f → fleet_run_ok past evs f →
  ∃ f' h' past', fleet_run config eth_addr evs f = Ok f' ∧ sw_run config eth_addr (erase <$> evs) (view h f) = Ok (view h' f') ∧
    sw_run_ok config eth_addr addr (erase <$> evs) (view h f) ∧ fleet_inv past' h' f'.
Proof.
  intros Hq Hc Hr. revert past h f. induction evs as [|ev evs IH]; intros past h f Hinv Hok.
  { by exists f, h, past. }
  destruct Hok as [Hev Hok]. destruct (fleet_inv_step past h ev f Hq Hc Hr Hinv Hev) as (f1 & h1 & Hf & Hs & Hinv1).
  destruct (IH _ _ _ Hinv1 (Hok _ Hf)) as (f' & h' & past' & Hrun & Hsw & Hrok & Hinv').
  exists f', h', past'. cbn [fleet_run sw_run fmap list_fmap]. rewrite Hf, Hs. split_and!; try done.
  split; [by eapply view_event_ok|]. intros s' Hs'. rewrite Hs in Hs'. by injection Hs' as <-.
Qed.

(** *** The start *)

(** The contexts of the vhost_tx cores, as [init_dataplane_ctxs] leaves them. *)
Definition start_fleet (x : dataplane_ctxs) (sh : shared) (now : Z) : fleet :=
  mk_fleet (start_switch x sh now) (vtc_vms <$> vhost_tx_ctxs x).

Lemma start_element c0 c v :
  (c < Z.to_nat (vhost_tx_cores c0))%nat → element (vtc_vms <$> vhost_tx_ctxs (ctxs_at c0 0)) c v = start_vm.
Proof.
  intros Hc. unfold element, ctxs_at. cbn [vhost_tx_ctxs]. rewrite !list_lookup_fmap, lookup_seq_lt by done.
  cbn [fmap option_fmap option_map vhost_tx_ctx_at vtc_vms]. destruct (replicate _ _ !! v) as [x|] eqn:E; [|done].
  by apply lookup_replicate in E as [-> _].
Qed.

Lemma start_view c0 sh now :
  0 < vhost_tx_cores c0 → view (λ _, 0%nat) (start_fleet (ctxs_at c0 0) sh now) = start_switch (ctxs_at c0 0) sh now.
Proof.
  intros Hc. unfold view, with_vms, start_fleet. cbn [fl_vms fl_switch].
  assert (merged (λ _, 0%nat) (vtc_vms <$> vhost_tx_ctxs (ctxs_at c0 0)) = default [] (vtc_vms <$> head (vhost_tx_ctxs (ctxs_at c0 0)))) as Hm.
  { apply list_eq. intros v. unfold merged. rewrite list_lookup_fmap.
    replace (default [] _) with (replicate MAX_VHOSTS start_vm).
    2:{ unfold ctxs_at. cbn [vhost_tx_ctxs]. by destruct (Z.to_nat (vhost_tx_cores c0)) as [|n] eqn:E; [lia|]. }
    destruct (decide (v < MAX_VHOSTS)%nat) as [Hv|Hv].
    - rewrite lookup_seq_lt, lookup_replicate_2 by done. cbn [fmap option_fmap option_map Nat.add]. by rewrite start_element by lia.
    - by rewrite !lookup_ge_None_2 by (rewrite ?length_seq, ?length_replicate; lia). }
  rewrite Hm. done.
Qed.

Lemma start_fleet_inv r rs msgs now :
  ring_items r = [] → ring_items rs = [] → Forall (λ msg, msg_vid msg < MAX_VHOSTS)%nat (pool_objs msgs) →
  cores_present config → counts_ok config →
  fleet_inv (λ _ _, False) (λ _, 0%nat) (start_fleet (ctxs_at config 0) (fresh_shared config r rs msgs) now).
Proof.
  intros Hr Hrs Hmsgs Hp Hc. pose proof (start_switch_inv config addr config r rs msgs now Hr Hrs Hmsgs Hp Hc eq_refl) as [Hinv _].
  pose proof Hc as (_ & _ & _ & Hn)%counts_ok_range. destruct Hp as (_ & _ & _ & Hp).
  assert (length (fl_vms (start_fleet (ctxs_at config 0) (fresh_shared config r rs msgs) now)) = Z.to_nat (vhost_tx_cores config)) as Hl.
  { unfold start_fleet, ctxs_at. cbn [fl_vms vhost_tx_ctxs]. by rewrite !length_fmap, length_seq. }
  split; [rewrite start_view by lia; exact Hinv|]. split; [split|split; [|split; [done|split]]].
  - apply Forall_fmap, Forall_fmap, Forall_forall. by intros i _.
  - intros v _. rewrite Hl. lia.
  - rewrite Hl. unfold start_fleet, start_switch, init_dstate, ctxs_at. cbn [fl_switch sw_dev tx_plans vhost_tx_ctxs].
    by rewrite length_replicate, length_fmap, length_seq.
  - intros v [x Hx]. unfold start_fleet, start_switch, init_dstate in Hx. cbn [fl_switch sw_dev vlist vdevs] in Hx.
    by apply lookup_replicate in Hx as [? _].
  - intros v _ c Hlt. rewrite Hl in Hlt. cbn [start_fleet fl_vms]. by rewrite !start_element by lia.
Qed.

(** ** Property *)

(** [C3] Every vhost_tx core with its own arrays, from the start with exactly 64 sockets.  Let
    the cores visit only VMs that a plan of theirs has listed so far, stale plans included,
    let every socket be used once, and let all other events meet the conditions of
    [sw_event_ok], as in System.v: no VM asks for the data plane's address, a learning
    message is handled while its packet is live, only learned devices are destroyed,
    messages suffice.  Then the run is one of the switch of System.v, event by event:
    no step faults, the state reached is that with one array, whose elements are those of
    the cores of the VMs, the core of a VM is the one recorded while the VM is there, and
    every guest receives only frames addressed to it, each at most once and in the order of
    reception. *)
Theorem fleet_correct (r : ring nat) (rs : ring slow_msg) (msgs : mempool) (now : Z) (evs : list fleet_event) :
  counts_ok config → cores_present config → nb_sockets config = Z.of_nat MAX_VHOSTS → queues_ok config →
  in_u 32 (cfg_ip config) → 0 < eth_rx_queues config →
  rte_ring_create nat (Z.to_nat RING_SIZE) = Some r → rte_ring_create slow_msg (Z.to_nat RING_SIZE) = Some rs →
  Forall (λ msg, msg_vid msg < MAX_VHOSTS)%nat (pool_objs msgs) →
  ∃ g x t sh, init_rings true config [] = Ok (0, g) ∧ init_dataplane_ctxs (λ _, true) config (0%nat, 0%nat) = Some (x, t) ∧
    shared_of g msgs = Some sh ∧
    (fleet_run_ok (λ _ _, False) evs (start_fleet x sh now) →
     ∃ f' h, fleet_run config eth_addr evs (start_fleet x sh now) = Ok f' ∧
       sw_run config eth_addr (erase <$> evs) (start_switch x sh now) = Ok (view h f') ∧ sw_inv config addr (view h f') ∧
       (∀ v, vm_live (vdevs (vlist (sw_dev (fl_switch f')))) v → vhost_tx_core (sw_dev (fl_switch f')) !! v = Some (h v)) ∧
       ∀ v, (v < MAX_VHOSTS)%nat → ∃ sent, guest (pl_tx (sw_plane (fl_switch f'))) !! v = Some sent ∧
         sent `sublist_of` concat (addressed config addr v <$> (erase <$> evs))).
Proof.
  intros Hc Hp Hnb Hq Hip Hrq Hr Hrs Hmsgs. destruct (startup_eq config r rs msgs Hc Hp Hnb Hr Hrs) as (g & t & Hg & Hx & Hsh).
  apply ring_create_ok in Hr as [Hr _]. apply ring_create_ok in Hrs as [Hrs _].
  exists g, (ctxs_at config 0), t, (fresh_shared config r rs msgs). split_and!; try done. intros Hok.
  pose proof (start_fleet_inv r rs msgs now Hr Hrs Hmsgs Hp Hc) as Hinv.
  destruct (fleet_inv_run _ _ evs _ Hq Hip Hrq Hinv Hok) as (f' & h & past & Hrun & Hsw & Hrok & (Hsw' & _ & _ & _ & Hlive & _)).
  destruct (start_switch_inv config addr config r rs msgs now Hr Hrs Hmsgs Hp Hc eq_refl) as [Hs Hempty].
  destruct Hp as (_ & _ & _ & Hp). pose proof Hc as (_ & _ & _ & Hn)%counts_ok_range.
  rewrite start_view in Hsw, Hrok by lia. exists f', h. split_and!; try done. intros v Hv.
  destruct (sw_run_safe config eth_addr addr _ _ Hq Hip Hrq Hs Hrok) as (s' & Hrun' & _ & Hdel).
  rewrite Hsw in Hrun'. injection Hrun' as <-. destruct (Hempty v Hv) as [Hqe Hge].
  destruct (delivers_sublist _ _ _ _ _ (Hdel v Hv) Hge) as (sent & Hsent & Hsub). exists sent. by rewrite Hqe in Hsub.
Qed.
End homes.

(** ** Witness and hazard: concrete runs *)

(** A check of [fleet_run_ok] that can be run: [past] is the list of the entries so far.
    Without [once], sockets may be used again. *)
Section checker.
Context `{RteRing} `{RteMempool slow_msg} `{RteFlags} `{RteCksum} `{RteThash} `{RteEther}.
Context (config : config_t) (eth_addr : list Z) (addr : nat → nat) (once : bool).

Definition listing (d : dstate) : list (nat * nat) := concat (imap (λ c plan, pair c <$> plan_list plan) (tx_plans d)).

Definition fleet_event_okb (past : list (nat * nat)) (ev : fleet_event) (f : fleet) : bool :=
  match ev with
  | ServeOn core e vid => bool_decide ((core, vid) ∈ past)
  | Elsewhere ev => sw_event_okb config addr ev (fl_switch f) &&
      match ev with
      | VhostTxEvent _ _ => false
      | NewDeviceEvent vid _ => negb once || bool_decide (vid ∉ past.*2)
      | _ => true
      end
  end.

Fixpoint fleet_run_okb (past : list (nat * nat)) (evs : list fleet_event) (f : fleet) : bool :=
  match evs with
  | [] => true
  | ev :: evs => fleet_event_okb past ev f &&
      match fleet_step config eth_addr ev f with
      | Ok f' => fleet_run_okb (past ++ listing (sw_dev (fl_switch f'))) evs f'
      | Fault _ => true
      end
  end.

Lemma listing_listed d c v : (c, v) ∈ listing d ↔ listed d c v.
Proof.
  unfold listing, listed. rewrite elem_of_concat. split.
  - intros (l & (i & plan & -> & Hp)%elem_of_lookup_imap & Hin). apply list_elem_of_fmap in Hin as (u & [= -> ->] & Hu).
    by exists plan.
  - intros (plan & Hp & Hin). exists (pair c <$> plan_list plan). split; [|by apply list_elem_of_fmap_2].
    apply elem_of_lookup_imap. by exists c, plan.
Qed.

Lemma fleet_event_okb_sound past P ev f :
  once = true → env_promises (erase ev) → (∀ c v, (c, v) ∈ past ↔ P c v) →
  fleet_event_okb past ev f = true → fleet_event_ok config addr P ev f.
Proof.
  intros Honce He HP. destruct ev as [core e vid|ev]; cbn [fleet_event_okb fleet_event_ok].
  - rewrite bool_decide_eq_true. intros Hin. split; [exact He|by apply HP].
  - rewrite andb_true_iff, Honce. intros [Hok Hnew]. split; [by apply sw_event_okb_sound|].
    destruct ev as [| | | | |vid p|]; try done. apply bool_decide_eq_true in Hnew. intros c Hc. apply Hnew.
    apply list_elem_of_fmap. exists (c, vid). split; [done|by apply HP].
Qed.

Lemma fleet_run_okb_sound past P evs f :
  once = true → Forall (λ ev, env_promises (erase ev)) evs → (∀ c v, (c, v) ∈ past ↔ P c v) →
  fleet_run_okb past evs f = true → fleet_run_ok config eth_addr addr P evs f.
Proof.
  intros Honce He. revert past P f. induction He as [|ev evs Hev _ IH]; intros past P f HP; cbn [fleet_run_okb fleet_run_ok]; [done|].
  rewrite andb_true_iff. intros [Hok Hrest]. split; [by eapply fleet_event_okb_sound|]. intros f' E. rewrite E in Hrest.
  eapply IH; [|exact Hrest]. intros c v. by rewrite elem_of_app, HP, listing_listed.
Qed.
End checker.

(** Two vhost_tx cores. *)
Definition fleet_config : config_t :=
  mk_config 0 0 0 1 0 0 15 4 None None 64 0xC0A86401 24 [2;0;0;0;0;254] [2;0;0;0;1;254] 2 1 4 4 2 2 0.

Definition fleet_ctxs : dataplane_ctxs := ctxs_at fleet_config 0.
Definition fleet_shared : shared := fresh_shared fleet_config demo_ring demo_ring demo_pool.
Definition demo_fleet : fleet := start_fleet fleet_ctxs fleet_shared 0.
Definition run_fleet (evs : list fleet_event) : res fleet := fleet_run fleet_config demo_mac evs demo_fleet.
Definition fleet_guest (v : nat) (r : res fleet) : option (list nat) :=
  match r with Ok f => guest (pl_tx (sw_plane (fl_switch f))) !! v | Fault _ => None end.
Definition fleet_core (v : nat) (r : res fleet) : option nat :=
  match r with Ok f => vhost_tx_core (sw_dev (fl_switch f)) !! v | Fault _ => None end.

(** A guest with a full ring, and one that takes all once the back-off is over. *)
Definition demo_full : tx_env := mk_tx_env 0 (λ _, 0) 5.
Definition demo_takes : tx_env := mk_tx_env 200000 (λ n, Z.of_nat n) 200000.

(** A VM comes to socket [v] and sends its first frame to the outside; a frame of the VM of
    socket 1 for socket 0. *)
Definition demo_comes (v ptr p : nat) : list fleet_event :=
  Elsewhere <$> [NewDeviceEvent v ptr; demo_rx 0 p v [8;8;8;8]; SlowPathEvent demo_slow].
Definition demo_sends (p : nat) : fleet_event := Elsewhere (demo_rx 1 p 1 [192;168;100;5]).
Definition demo_new (v ptr : nat) : fleet_event := Elsewhere (NewDeviceEvent v ptr).
Definition demo_goes (v : nat) : fleet_event := Elsewhere (DestroyDeviceEvent v true).

(** Packet 3 is kept for a retry on core 0, which serves socket 0; the VM goes.  Core 1
    serves the next VM of the socket, which receives packet 5 and goes.  Core 0 serves the
    third. *)
Definition demo_moves : list fleet_event :=
  demo_comes 0 100 1 ++ demo_comes 1 101 2 ++ [demo_sends 3; ServeOn 0 demo_full 0; demo_goes 0; demo_new 2 102; demo_new 3 103] ++
  demo_comes 0 104 4 ++ [demo_sends 5; ServeOn 1 demo_takes 0; demo_goes 0; demo_new 4 105] ++
  demo_comes 0 106 6 ++ [ServeOn 0 demo_takes 0].

(** The condition that sockets are used once is needed: in this run all else holds, and the
    guest of socket 0 receives the packets addressed to it in the wrong order, as packet 3
    waits in the array of the old core through the whole life of the second VM.  With one
    array the order is right. *)
Theorem kept_packets_stay_behind :
  fleet_run_okb fleet_config demo_mac demo_addr false [] demo_moves demo_fleet = true ∧
  concat (addressed fleet_config demo_addr 0 <$> (erase <$> demo_moves)) = [3%nat; 5%nat] ∧
  fleet_guest 0 (run_fleet demo_moves) = Some [5%nat; 3%nat] ∧
  guest_at 0 (sw_run fleet_config demo_mac (erase <$> demo_moves) (start_switch fleet_ctxs fleet_shared 0)) = Some [3%nat; 5%nat].
Proof. split_and!; vm_compute; reflexivity. Qed.

(** Two VMs on two cores; the first takes its packet after a retry. *)
Definition demo_serves : list fleet_event :=
  demo_comes 0 100 1 ++ demo_comes 1 101 2 ++
  [demo_sends 3; ServeOn 0 demo_full 0; ServeOn 1 demo_takes 1; ServeOn 0 demo_takes 0].

Lemma demo_serves_promises : Forall (λ ev, env_promises (erase ev)) demo_serves.
Proof.
  assert (env_ok demo_full) as Hf by (intros n; cbn; lia). assert (env_ok demo_takes) as Ht by (intros n; cbn; lia).
  repeat (constructor; [first [exact I|exact Hf|exact Ht]|]). constructor.
Qed.

Lemma demo_serves_ok : fleet_run_okb fleet_config demo_mac demo_addr true [] demo_serves demo_fleet = true.
Proof. vm_compute. reflexivity. Qed.

Lemma fleet_counts_ok : counts_ok fleet_config.
Proof. refine (bool_decide_unpack _ _). vm_compute. exact I. Qed.

Lemma fleet_cores_present : cores_present fleet_config.
Proof. refine (bool_decide_unpack _ _). vm_compute. exact I. Qed.

Lemma fleet_correct_witness :
  ∃ f', run_fleet demo_serves = Ok f' ∧ guest (pl_tx (sw_plane (fl_switch f'))) !! 0%nat = Some [3%nat] ∧
    vhost_tx_core (sw_dev (fl_switch f')) !! 1%nat = Some 1%nat.
Proof.
  destruct (fleet_correct fleet_config demo_mac demo_addr demo_ring demo_ring demo_pool 0 demo_serves)
    as (g & x & t & sh & Hg & Hx & Hsh & Hrun); try reflexivity.
  - exact fleet_counts_ok.
  - exact fleet_cores_present.
  - split; [reflexivity|discriminate].
  - split; [discriminate|reflexivity].
  - refine (bool_decide_unpack _ _). vm_compute. exact I.
  - assert (start_fleet x sh 0 = demo_fleet) as E.
    { destruct (startup_eq fleet_config demo_ring demo_ring demo_pool fleet_counts_ok fleet_cores_present eq_refl eq_refl eq_refl)
        as (g' & t' & Hg' & Hx' & Hsh'). rewrite Hg in Hg'. injection Hg' as <-. rewrite Hx in Hx'. injection Hx' as -> _.
      rewrite Hsh in Hsh'. by injection Hsh' as ->. }
    rewrite E in Hrun. destruct Hrun as (f' & h & Hf & _).
    { refine (fleet_run_okb_sound fleet_config demo_mac demo_addr true [] (λ _ _, False) demo_serves demo_fleet
        eq_refl demo_serves_promises _ demo_serves_ok). intros c v. split; [by intros ?%elem_of_nil|intros []]. }
    exists f'. split; [exact Hf|]. split.
    + change (fleet_guest 0 (Ok f') = Some [3%nat]). rewrite <- Hf. vm_compute. reflexivity.
    + change (fleet_core 1 (Ok f') = Some 1%nat). rewrite <- Hf. vm_compute. reflexivity.
Defined.
