(* ===== verification/SystemSteps.v ===== *)
(** * The switch between its ring accesses

    System.v takes a visit of a core for one step.  Here the cores interleave at their
    ring accesses, as in RingSteps.v, with iterations of the control loop and the
    callbacks in between: while a receiving core still has packets and messages in hand,
    the slow path may link a device, free ARP requests or move the statistics to the next
    window, and devices come and go.  A receiving core looks up devices and routes when
    it sorts its burst; what it has sorted it puts where they said then. *)

From S2P Require Import Prelude CInt Packet Dpdk Ecn Offload Config Poll Plan Route Device VhostTx EthTx Batch EthRx VhostRx SlowPath Startup Contexts DataPlane RingSteps System.
Local Open Scope Z_scope.

Section system_steps.
Context `{RteRing} `{RteMempool slow_msg} `{RteFlags} `{RteCksum} `{RteThash} `{RteEther}.
Context (config : config_t) (eth_addr : list Z).

(** The cores with what they have in hand, the devices, and the clock of the control loop. *)
Record fine := mk_fine {
  fi_machine : machine;
  fi_dev : dstate;
  fi_last : Z;
}.

Definition fi_switch (f : fine) : switch := mk_switch (m_plane (fi_machine f)) (fi_dev f) (fi_last f).

(** A receiving core polls and sorts a burst; a core makes its next access; the control loop
    iterates, or DPDK calls back. *)
Inductive fine_event :=
  | Begin (ev : sw_event)
  | Proceed (acc : access_event)
  | Control (ev : sw_event).

Definition begin_of (ev : sw_event) (s : switch) : option access_event :=
  match ev with
  | VhostRxEvent core burst now tsc vid => Some (VhostRxBegin core (mk_vrx_env (dev_env s burst) now tsc) vid)
  | EthRxEvent core burst queue => Some (EthRxBegin core (dev_env s burst) queue)
  | _ => None
  end.

Definition access_step (acc : access_event) (f : fine) : res fine :=
  m ← machine_step config eth_addr acc (fi_machine f);
  Ok (mk_fine m (fi_dev f) (fi_last f)).

(** The control loop and the callbacks see the rings, pools and statistics, and no core's hands. *)
Definition with_switch (s : switch) (f : fine) : fine :=
  let m := fi_machine f in
  mk_fine (mk_machine (sw_plane s) (m_vrx m) (m_rx m) (m_tx m) (m_eth m)) (sw_dev s) (sw_last s).
Definition control_step (ev : sw_event) (f : fine) : res fine :=
  s ← sw_step config eth_addr ev (fi_switch f);
  Ok (with_switch s f).

Definition fine_step (ev : fine_event) (f : fine) : res fine :=
  match ev with
  | Begin ev => match begin_of ev (fi_switch f) with Some acc => access_step acc f | None => Ok f end
  | Proceed acc => access_step acc f
  | Control ev => control_step ev f
  end.

Fixpoint fine_run (evs : list fine_event) (f : fine) : res fine :=
  match evs with
  | [] => Ok f
  | ev :: evs => f ← fine_step ev f; fine_run evs f
  end.

(** The start of System.v, all cores before their first visit. *)
Definition start_fine (x : dataplane_ctxs) (sh : shared) (now : Z) : fine :=
  let s := start_switch x sh now in mk_fine (at_rest (sw_plane s)) (sw_dev s) (sw_last s).

(** ** Specification *)

Context (addr : nat → nat).

(** The messages that receiving cores have in hand, and all that wait. *)
Definition pending (m : machine) : list slow_msg := concat (pc_msgs <$> m_vrx m) ++ concat (pc_msgs <$> m_rx m).
Definition all_msgs (m : machine) : list slow_msg := queued (m_plane m) ++ pending m.

(** Messages as the control loop expects them, in any order: an ARP message owns its mbuf. *)
Definition good_msgs (l : list slow_msg) : Prop :=
  (∀ msg, msg ∈ l → (msg_vid msg < MAX_VHOSTS)%nat ∧ reason msg ≠ SLOW_ETH_TX_FLOW) ∧ from_wire l ∧
  NoDup (arp_mbufs l) ∧ ∀ msg, msg ∈ l → reason msg ≠ SLOW_ARP_REQ → msg_mbuf msg ∉ arp_mbufs l.

Definition waiting_msgs_inv (m : machine) : Prop :=
  good_msgs (all_msgs m) ∧ Forall (λ msg, msg_vid msg < MAX_VHOSTS)%nat (pool_objs (pl_msgs (m_plane m))) ∧
  ∀ p, p ∈ arp_mbufs (all_msgs m) → is_Some (pl_pool (m_plane m) !! p) ∧ p ∉ owned m.

(** No packet is in two places, rings and hands alike, and all are allocated; devices, routes
    and plans agree; ARP messages own their packets, in the ring and in the hands. *)
Definition fine_inv (f : fine) : Prop :=
  machine_inv config (fi_machine f) ∧ dstate_wf (fi_dev f) ∧ addr_ok addr (fi_dev f) ∧
  length (pl_vrx (m_plane (fi_machine f))) = length (rx_plans (fi_dev f)) ∧ waiting_msgs_inv (fi_machine f).

Definition burst_of (ev : sw_event) : list nat :=
  match ev with VhostRxEvent _ burst _ _ _ | EthRxEvent _ burst _ => burst.*1 | _ => [] end.

(** The core that receives the burst, and is between two visits. *)
Definition receiver (ev : sw_event) : option (nat + nat) :=
  match ev with VhostRxEvent core _ _ _ _ => Some (inl core) | EthRxEvent core _ _ => Some (inr core) | _ => None end.
Definition idle (c : nat + nat) (m : machine) : Prop :=
  match c with inl core => m_vrx m !! core = Some RxIdle | inr core => m_rx m !! core = Some RxIdle end.

(** What a step relies on: as in System.v, and that an mbuf is not used again while a message
    names it (a learning message is handled before its packet is freed). *)
Definition fine_event_ok (ev : fine_event) (f : fine) : Prop :=
  let m := fi_machine f in
  match ev with
  | Begin ev => (∃ c, receiver ev = Some c ∧ idle c m) ∧ sw_event_ok config addr ev (fi_switch f) ∧
      ∀ msg, msg ∈ all_msgs m → msg_mbuf msg ∉ burst_of ev
  | Proceed acc => continues (length (m_vrx m)) (length (m_rx m)) (length (pl_eth (m_plane m))) (length (m_eth m)) acc
  | Control ev => visit_of ev (fi_switch f) = None ∧ sw_event_ok config addr ev (fi_switch f)
  end.

Fixpoint fine_run_ok (evs : list fine_event) (f : fine) : Prop :=
  match evs with
  | [] => True
  | ev :: evs => fine_event_ok ev f ∧ ∀ f', fine_step ev f = Ok f' → fine_run_ok evs f'
  end.

(** The packets for VM [v] that core [c] received. *)
Definition received_for (c : nat + nat) (v : nat) (ev : fine_event) : list nat :=
  match ev with
  | Begin ev => if decide (receiver ev = Some c) then addressed config addr v ev else []
  | _ => []
  end.

(** ** Lemmas: messages *)

Lemma arp_mbufs_perm l l' : l ≡ₚ l' → arp_mbufs l ≡ₚ arp_mbufs l'.
Proof. intros E. unfold arp_mbufs. by rewrite E. Qed.

Lemma good_msgs_weaken l l' lost : good_msgs l → l ≡ₚ l' ++ lost → good_msgs l'.
Proof.
  intros (Hv & Hw & Hnd & Hd) E. pose proof (arp_mbufs_perm _ _ E) as Ea. rewrite arp_mbufs_app in Ea.
  assert (∀ msg, msg ∈ l' → msg ∈ l) as Hin by (intros msg ?; rewrite E; apply elem_of_app; by left).
  split_and!; [auto|intros msg ?; auto| |].
  - rewrite Ea in Hnd. by apply NoDup_app in Hnd as [? _].
  - intros msg Hm Hr Hp. apply (Hd msg); [auto|done|]. rewrite Ea. apply elem_of_app. by left.
Qed.

Lemma good_msgs_app l1 l2 : good_msgs l1 → good_msgs l2 →
  (∀ p, p ∈ arp_mbufs l1 → p ∉ msg_mbuf <$> l2) → (∀ p, p ∈ arp_mbufs l2 → p ∉ msg_mbuf <$> l1) → good_msgs (l1 ++ l2).
Proof.
  intros (Hv1 & Hw1 & Hn1 & Hd1) (Hv2 & Hw2 & Hn2 & Hd2) H12 H21.
  assert (∀ msg l, msg ∈ l → msg_mbuf msg ∈ msg_mbuf <$> l) as Hmb by (intros msg l ?; by apply list_elem_of_fmap_2).
  split_and!.
  - intros msg [?|?]%elem_of_app; auto.
  - by apply from_wire_app.
  - rewrite arp_mbufs_app. apply NoDup_app. split_and!; [done| |done]. intros p Hp Hp2. apply (H12 p Hp). by apply arp_mbufs_mbufs.
  - intros msg Hm Hr. rewrite arp_mbufs_app, not_elem_of_app. apply elem_of_app in Hm as [Hm|Hm]; split; auto;
      intros Hp; [by apply (H21 _ Hp); apply Hmb|by apply (H12 _ Hp); apply Hmb].
Qed.

(** Whatever the order, they are as SlowPath.v wants them. *)
Lemma good_msgs_exclusive l : good_msgs l → arp_exclusive l.
Proof.
  intros (_ & _ & Hnd & Hd). induction l as [|msg l IH]; [done|]. unfold arp_mbufs in Hnd, Hd. rewrite filter_cons in Hnd, Hd.
  split.
  - intros Hr (msg' & E & Hin)%list_elem_of_fmap. rewrite decide_True in Hnd, Hd by done.
    cbn [fmap list_fmap] in Hnd, Hd. apply NoDup_cons in Hnd as [Hn _]. destruct (decide (reason msg' = SLOW_ARP_REQ)) as [Hr'|Hr'].
    + apply Hn. rewrite E. apply arp_mbufs_in. by exists msg'.
    + apply (Hd msg'); [by right|done|]. rewrite <- E. by left.
  - apply IH.
    + case_decide; [by apply NoDup_cons in Hnd as [_ ?]|done].
    + intros msg' Hin Hr' Hp. apply (Hd msg'); [by right|done|]. case_decide; [by right|done].
Qed.

(** ** Lemmas: messages of one step *)

Lemma concat_msgs_at (pcs : list rx_pc) core pc :
  pcs !! core = Some pc → ∃ R, concat (pc_msgs <$> pcs) ≡ₚ pc_msgs pc ++ R ∧
    ∀ pc', concat (pc_msgs <$> <[core := pc']> pcs) ≡ₚ pc_msgs pc' ++ R.
Proof.
  intros Hpc. destruct (concat_at (pc_msgs <$> pcs) core (pc_msgs pc)) as (R & HR & HR'); [by rewrite list_lookup_fmap, Hpc|].
  exists R. split; [done|]. intros pc'. by rewrite list_fmap_insert.
Qed.

(** A step of a receiving core: what it did with the messages in hand and on the ring. *)
Lemma vrx_act_msgs core act m m' : vrx_act core act m = Ok m' →
  ∃ w w' pc pc' R, pl_vrx (m_plane m) !! core = Some w ∧ m_vrx m !! core = Some pc ∧
    act pc (load_vrx (m_plane m) w) = Ok (w', pc') ∧
    (pl_pool (m_plane m'), pl_msgs (m_plane m')) = (w_pool w', w_msgs w') ∧
    all_msgs m ≡ₚ (queued (m_plane m) ++ pc_msgs pc) ++ R ∧ all_msgs m' ≡ₚ (ring_items (w_slow w') ++ pc_msgs pc') ++ R.
Proof.
  intros E. unfold vrx_act in E. bind_step E as w Ew. bind_step E as pc Epc. bind_step E as [w' pc'] Ea. injection E as <-.
  apply arr_get_Ok in Ew, Epc.
  destruct (concat_msgs_at (m_vrx m) core pc Epc) as (R & HR & HR').
  exists w, w', pc, pc', (R ++ concat (pc_msgs <$> m_rx m)). split_and!; try done; unfold all_msgs, pending; cbn [m_plane m_vrx m_rx].
  - by rewrite HR, <- !app_assoc.
  - rewrite HR', <- !app_assoc. done.
Qed.

Lemma erx_act_msgs core act m m' : erx_act core act m = Ok m' →
  ∃ w w' pc pc' R, pl_rx (m_plane m) !! core = Some w ∧ m_rx m !! core = Some pc ∧
    act pc (load_rx (m_plane m) w) = Ok (w', pc') ∧
    (pl_pool (m_plane m'), pl_msgs (m_plane m')) = (rx_pool w', msg_pool w') ∧
    all_msgs m ≡ₚ (queued (m_plane m) ++ pc_msgs pc) ++ R ∧ all_msgs m' ≡ₚ (ring_items (slowpath_ring w') ++ pc_msgs pc') ++ R.
Proof.
  intros E. unfold erx_act in E. bind_step E as w Ew. bind_step E as pc Epc. bind_step E as [w' pc'] Ea. injection E as <-.
  apply arr_get_Ok in Ew, Epc.
  destruct (concat_msgs_at (m_rx m) core pc Epc) as (R & HR & HR').
  exists w, w', pc, pc', (concat (pc_msgs <$> m_vrx m) ++ R). split_and!; try done; unfold all_msgs, pending; cbn [m_plane m_vrx m_rx].
  - rewrite HR, <- !app_assoc. apply Permutation_app_head, Permutation_app_swap_app.
  - rewrite HR', <- !app_assoc. apply Permutation_app_head, Permutation_app_swap_app.
Qed.

(** Between two visits a core posts what it has, and what does not fit is lost. *)
Definition passes_msgs (q hand q' hand' : list slow_msg) : Prop := ∃ lost, q ++ hand ≡ₚ (q' ++ hand') ++ lost.

Lemma passes_same q hand : passes_msgs q hand q hand.
Proof. exists []. by rewrite app_nil_r. Qed.

Lemma passes_posted slow r lost r' :
  flush_slow slow r = (lost, r') → passes_msgs (ring_items r) slow (ring_items r') [].
Proof.
  intros E. destruct (flush_slow_eq slow r) as (r1 & E1 & Hi & _). rewrite E in E1. injection E1 as _ <-.
  exists (drop (rte_ring_free_count r) slow). by rewrite Hi, app_nil_r, <- app_assoc, take_drop.
Qed.

Lemma vrx_next_msgs pc w w' pc' : vrx_next pc w = Ok (w', pc') →
  w_msgs w' = w_msgs w ∧ passes_msgs (ring_items (w_slow w)) (pc_msgs pc) (ring_items (w_slow w')) (pc_msgs pc').
Proof.
  destruct pc as [|vid [|q qs] dsts slow|[|v dsts] slow|slow]; cbn [vrx_next]; intros E.
  - injection E as <- <-. split; [done|apply passes_same].
  - injection E as <- <-. split; [done|apply passes_same].
  - unfold vrx_queue in E. res_inv. cbn. split; [done|apply passes_same].
  - injection E as <- <-. split; [done|apply passes_same].
  - unfold vrx_vm in E. res_inv. repeat case_match; res_inv; cbn; (split; [done|apply passes_same]).
  - injection E as <- <-. unfold vrx_slow. destruct (flush_slow slow (w_slow w)) as [lost r] eqn:Ef. cbn. split; [done|]. by eapply passes_posted.
Qed.

Lemma erx_next_msgs pc w w' pc' : erx_next pc w = Ok (w', pc') →
  msg_pool w' = msg_pool w ∧ passes_msgs (ring_items (slowpath_ring w)) (pc_msgs pc) (ring_items (slowpath_ring w')) (pc_msgs pc').
Proof.
  destruct pc as [|vid qs dsts slow|[|v dsts] slow|slow]; cbn [erx_next]; intros E.
  - injection E as <- <-. split; [done|apply passes_same].
  - injection E as <- <-. split; [done|apply passes_same].
  - injection E as <- <-. split; [done|apply passes_same].
  - unfold erx_vm in E. res_inv. repeat case_match; res_inv; cbn; (split; [done|apply passes_same]).
  - injection E as <- <-. unfold erx_slow. destruct (flush_slow slow (slowpath_ring w)) as [lost r] eqn:Ef. cbn. split; [done|]. by eapply passes_posted.
Qed.

Lemma proceed_msgs acc m m' n k j q : continues n k j q acc → machine_step config eth_addr acc m = Ok m' →
  pl_msgs (m_plane m') = pl_msgs (m_plane m) ∧ ∃ lost, all_msgs m ≡ₚ all_msgs m' ++ lost.
Proof.
  assert (∀ q0 q1 h0 h1 R, passes_msgs q0 h0 q1 h1 → all_msgs m ≡ₚ (q0 ++ h0) ++ R → all_msgs m' ≡ₚ (q1 ++ h1) ++ R →
    ∃ lost, all_msgs m ≡ₚ all_msgs m' ++ lost) as Hpass.
  { intros q0 q1 h0 h1 R [lost Hl] H1' H2'. exists lost. rewrite H1', H2', Hl, <- !app_assoc.
    apply Permutation_app_head, Permutation_app_head, Permutation_app_comm. }
  intros Hc E. destruct acc as [ |core| |core|e vid|e vid|core queue|core tk queue]; try done; cbn [machine_step] in E.
  3-6: repeat case_match; res_inv; repeat case_match; res_inv; (split; [done|exists []; by rewrite app_nil_r]).
  - destruct (vrx_act_msgs _ _ _ _ E) as (w & w' & pc & pc' & R & _ & _ & Ea & [= _ ->] & Hm & Hm').
    destruct (vrx_next_msgs _ _ _ _ Ea) as [-> Hp]. split; [done|]. by eapply Hpass.
  - destruct (erx_act_msgs _ _ _ _ E) as (w & w' & pc & pc' & R & _ & _ & Ea & [= _ ->] & Hm & Hm').
    destruct (erx_next_msgs _ _ _ _ Ea) as [-> Hp]. split; [done|]. by eapply Hpass.
Qed.

(** A step of a core: messages [added], which name packets of its burst, come, some are lost. *)
Lemma waiting_msgs_step m m' new gone added lost :
  waiting_msgs_inv m → moved new gone m m' → (∀ p, p ∈ new → pl_pool (m_plane m) !! p = None) →
  (∀ msg, msg ∈ all_msgs m → msg_mbuf msg ∉ new) →
  all_msgs m ++ added ≡ₚ all_msgs m' ++ lost →
  (∀ msg, msg ∈ pool_objs (pl_msgs (m_plane m')) → msg ∈ pool_objs (pl_msgs (m_plane m))) →
  good_msgs added → (∀ msg, msg ∈ added → msg_mbuf msg ∈ new) →
  (∀ p, p ∈ arp_mbufs added → is_Some (pl_pool (m_plane m') !! p) ∧ p ∈ gone) →
  waiting_msgs_inv m'.
Proof.
  intros (Hg & Hpv & Hown) [Hsame Hwhere] Hfresh Hnew Hm Hobjs Hga Hmb Harp.
  assert (∀ p, p ∈ arp_mbufs (all_msgs m) → p ∉ new) as Hold.
  { intros p Hp Hn. destruct (Hown p Hp) as [[x Hx] _]. by rewrite Hfresh in Hx. }
  split_and!.
  - eapply good_msgs_weaken; [|exact Hm]. apply good_msgs_app; [done|done| |].
    + intros p Hp (msg & -> & Hin)%list_elem_of_fmap. by apply (Hold _ Hp), Hmb.
    + intros p Hp%arp_mbufs_mbufs (msg & -> & Hin)%list_elem_of_fmap. apply (Hnew msg Hin).
      apply list_elem_of_fmap in Hp as (msg' & -> & Hin'). by apply Hmb.
  - rewrite Forall_forall in *. auto.
  - intros p Hp. assert (p ∈ arp_mbufs (all_msgs m ++ added)) as Hp'.
    { rewrite (arp_mbufs_perm _ _ Hm), arp_mbufs_app. apply elem_of_app. by left. }
    rewrite arp_mbufs_app in Hp'. apply elem_of_app in Hp' as [Hp'|Hp'].
    + destruct (Hown p Hp') as [Hl Hn]. pose proof (Hold p Hp'). split; [by rewrite Hsame|]. intros [[?|?] _]%Hwhere; done.
    + destruct (Harp p Hp') as [Hl Hn]. split; [done|]. by intros [_ ?]%Hwhere.
Qed.

Lemma good_msgs_nil : good_msgs [].
Proof. split_and!; [intros msg Hm; by apply elem_of_nil in Hm|intros msg Hm; by apply elem_of_nil in Hm|constructor|intros msg Hm; by apply elem_of_nil in Hm]. Qed.

(** What vhost_rx and eth_rx add. *)
Lemma good_msgs_learn vid l :
  (vid < MAX_VHOSTS)%nat → (∀ msg, msg ∈ l → msg_vid msg = vid ∧ reason msg = SLOW_MAC_LEARNING) →
  good_msgs l ∧ arp_mbufs l = [].
Proof.
  intros Hvid Hl. destruct (learn_msgs l) as (Hw & _ & Ha); [intros msg Hm; by apply Hl|]. split; [|done]. unfold good_msgs. rewrite Ha.
  split_and!; [|done|constructor|intros msg _ _ Hp; by apply elem_of_nil in Hp]. intros msg Hm. by destruct (Hl msg Hm) as [-> ->].
Qed.

Lemma good_msgs_eth l :
  NoDup (msg_mbuf <$> l) → (∀ msg, msg ∈ l → (msg_vid msg < MAX_VHOSTS)%nat ∧ reason msg = SLOW_ARP_REQ ∧ src msg = SLOW_SRC_ETH) →
  good_msgs l.
Proof.
  intros Hnd Hl. split_and!.
  - intros msg Hm. by destruct (Hl msg Hm) as (? & -> & _).
  - intros msg Hm _. by apply Hl.
  - eapply sublist_NoDup; [exact Hnd|]. apply fmap_sublist, sublist_filter.
  - intros msg Hm Hr. by destruct (Hl msg Hm) as (_ & ? & _).
Qed.

(** What the beginning of a visit adds to the messages. *)
Definition adds_msgs (acc : access_event) (m m' : machine) : Prop :=
  ∃ added, all_msgs m ++ added ≡ₚ all_msgs m' ∧
    (∀ msg, msg ∈ pool_objs (pl_msgs (m_plane m')) → msg ∈ pool_objs (pl_msgs (m_plane m))) ∧
    good_msgs added ∧ (∀ msg, msg ∈ added → msg_mbuf msg ∈ arrives acc) ∧
    ∀ p, p ∈ arp_mbufs added → is_Some (pl_pool (m_plane m') !! p) ∧ p ∈ to_slow config acc.

Lemma adds_nothing acc m m' :
  all_msgs m ≡ₚ all_msgs m' → pl_msgs (m_plane m') = pl_msgs (m_plane m) → adds_msgs acc m m'.
Proof.
  intros Hm Hp. exists []. rewrite app_nil_r, Hp. split_and!; [done|done|apply good_msgs_nil| |]; intros ? Hin; by apply elem_of_nil in Hin.
Qed.

Lemma vrx_begin_adds core e vid m m' :
  let acc := VhostRxBegin core e vid in
  queues_ok config → machine_inv config m → access_ok config acc m → to_slow config acc = [] →
  machine_step config eth_addr acc m = Ok m' → adds_msgs acc m m'.
Proof.
  intros acc Hq Hinv (Hpc & He & _ & Hneed) Hnone E. cbn [acc machine_step] in E.
  destruct (vrx_act_msgs _ _ _ _ E) as (w & w' & pc & pc' & R & Hw & Hpc' & Ea & [= _ Hmp] & Hm & Hm').
  rewrite Hpc in Hpc'. injection Hpc' as <-. destruct (Forall2_lookup_lr _ _ _ _ _ _ (proj1 Hinv) Hw Hpc) as [Hfits Hat].
  destruct (vrx_begin_cases config e vid (load_vrx (m_plane m) w) Hq Hfits Hat He Hneed)
    as (w1 & pc1 & Hrun & _ & [= _ _ Hs] & Hcases).
  rewrite Ea in Hrun. injection Hrun as <- <-. change (w_slow (load_vrx (m_plane m) w)) with (pl_slow (m_plane m)) in Hs.
  rewrite Hs in Hm'. change (ring_items (pl_slow (m_plane m))) with (queued (m_plane m)) in Hm'. rewrite app_nil_r in Hm.
  destruct Hcases as [(-> & [= _ _ _ Hms])|(_ & (Hvid & l & Hok) & _)].
  { apply adds_nothing; [by rewrite Hm, Hm', app_nil_r|by rewrite Hmp, Hms]. }
  pose proof (λ msg, vhost_posted config (vr_rx e) l vid (pc_msgs pc') _ _ msg Hnone Hok) as Hposted.
  destruct (good_msgs_learn vid (pc_msgs pc') Hvid) as [Hg Ha]; [intros msg Hin; by destruct (Hposted msg Hin) as (? & ? & _)|].
  exists (pc_msgs pc'). split_and!; [|intros msg; rewrite Hmp; by eapply slow_ok_objs|done|intros msg Hin; by apply Hposted|].
  - rewrite Hm, Hm', <- !app_assoc. apply Permutation_app_head, Permutation_app_comm.
  - rewrite Ha. intros p Hp. by apply elem_of_nil in Hp.
Qed.

Lemma erx_begin_adds core e queue m m' :
  let acc := EthRxBegin core e queue in
  machine_inv config m → access_ok config acc m → Forall (λ msg, msg_vid msg < MAX_VHOSTS)%nat (pool_objs (pl_msgs (m_plane m))) →
  machine_step config eth_addr acc m = Ok m' → adds_msgs acc m m'.
Proof.
  intros acc Hinv (Hpc & He & _ & Hneed) Hpv E. cbn [acc machine_step] in E.
  destruct (erx_act_msgs _ _ _ _ E) as (w & w' & pc & pc' & R & Hw & Hpc' & Ea & [= Hpool Hmp] & Hm & Hm').
  rewrite Hpc in Hpc'. injection Hpc' as <-. destruct (Forall2_lookup_lr _ _ _ _ _ _ (proj1 (proj2 Hinv)) Hw Hpc) as [Hfits Hat].
  destruct (erx_begin_cases config e queue (load_rx (m_plane m) w) Hat Hfits He Hneed) as (w1 & pc1 & Hrun & _ & [= _ Hs] & Hcases).
  rewrite Ea in Hrun. injection Hrun as <- <-. change (slowpath_ring (load_rx (m_plane m) w)) with (pl_slow (m_plane m)) in Hs.
  rewrite Hs in Hm'. change (ring_items (pl_slow (m_plane m))) with (queued (m_plane m)) in Hm'. rewrite app_nil_r in Hm.
  destruct Hcases as [(-> & [= _ _ Hms])|(_ & Hok & Hp & _)].
  { apply adds_nothing; [by rewrite Hm, Hm', app_nil_r|by rewrite Hmp, Hms]. }
  destruct (eth_posted queue _ (pc_msgs pc') _ _ Hpv Hok) as [Hmb Hall]. destruct He as (_ & Hnd & _).
  assert (∀ msg, msg ∈ pc_msgs pc' → msg_mbuf msg ∈ to_slow config acc) as Hslow by (intros msg Hin; by apply Hall).
  exists (pc_msgs pc'). split_and!; [|intros msg; rewrite Hmp; by eapply slow_ok_objs| | |].
  - rewrite Hm, Hm', <- !app_assoc. apply Permutation_app_head, Permutation_app_comm.
  - apply good_msgs_eth; [rewrite Hmb; by apply NoDup_filter|]. intros msg Hin. by destruct (Hall msg Hin) as (? & ? & ? & _).
  - intros msg Hin. by apply Hslow, with_verdict_mem in Hin as [_ ?].
  - intros p (msg & -> & _ & Hin)%arp_mbufs_in. split; [|by apply Hslow]. rewrite Hpool, Hp. apply fmap_is_Some.
    apply erx_received_live; [done|]. by apply Hslow, with_verdict_mem in Hin as [_ ?].
Qed.

(** ** Lemmas: steps *)

Lemma serves_weaken v (sw sw' : nat + nat → list nat) log m m' :
  serves v sw log m m' → (∀ c, sw c `sublist_of` sw' c) → serves v sw' log m m'.
Proof.
  intros [Hl Hc] Hsub. split; [exact Hl|]. intros c. etransitivity; [apply Hc|]. by apply sublist_app.
Qed.

Lemma rx_cores_kept acc m m' :
  machine_inv config m → machine_inv config m' → machine_step config eth_addr acc m = Ok m' →
  length (pl_vrx (m_plane m')) = length (pl_vrx (m_plane m)).
Proof.
  intros (H1' & _) (H2' & _) E. apply Forall2_length in H1', H2'. destruct (machine_step_shape _ _ _ _ _ E) as (L & _). congruence.
Qed.

(** The access that begins a visit. *)
Lemma begin_ok ev f acc :
  in_u 32 (cfg_ip config) → fine_inv f → fine_event_ok (Begin ev) f → begin_of ev (fi_switch f) = Some acc →
  access_ok config acc (fi_machine f) ∧ arrives acc = burst_of ev ∧
  (∀ p, p ∈ burst_of ev → pl_pool (m_plane (fi_machine f)) !! p = None) ∧
  ∀ c v, switches config c v acc `sublist_of` received_for c v (Begin ev).
Proof.
  intros Hc (_ & Hdev & Haddr & _) ((c & Hr & Hidle) & Hok & _) Hb.
  assert (∀ visit v, visit_of ev (fi_switch f) = Some visit →
    event_ok config visit (m_plane (fi_machine f)) ∧ switched config v visit `sublist_of` addressed config addr v ev) as Hvisit.
  { intros visit v Hv. split; [by apply (visit_ok config addr ev (fi_switch f))|by eapply (switched_addressed config addr ev (fi_switch f))]. }
  destruct ev as [core burst now tsc vid|core burst queue|e vid|core tk queue|e|vid p|vid ok]; try done;
    injection Hb as <-; injection Hr as <-; destruct (Hvisit _ 0%nat eq_refl) as [(_ & He & Hfr & Hn) _];
    (split; [by split_and!|]; split; [done|]; split; [exact Hfr|]).
  - intros [core'|core'] v; [|apply sublist_nil_l]. cbn [switches received_for receiver].
    destruct (decide (core' = core)) as [->|Hne]; [|apply sublist_nil_l]. rewrite decide_True by done. by destruct (Hvisit _ v eq_refl).
  - intros [core'|core'] v; [apply sublist_nil_l|]. cbn [switches received_for receiver].
    destruct (decide (core' = core)) as [->|Hne]; [|apply sublist_nil_l]. rewrite decide_True by done. by destruct (Hvisit _ v eq_refl).
Qed.

Lemma begin_adds ev f acc m' :
  queues_ok config → fine_inv f → fine_event_ok (Begin ev) f → begin_of ev (fi_switch f) = Some acc →
  access_ok config acc (fi_machine f) → machine_step config eth_addr acc (fi_machine f) = Ok m' → adds_msgs acc (fi_machine f) m'.
Proof.
  intros Hq (Hinv & _ & _ & _ & _ & Hpv & _) (_ & Hok & _) Hb Hacc E.
  destruct ev as [core burst now tsc vid|core burst queue|e vid|core tk queue|e|vid p|vid ok]; try done; injection Hb as <-.
  - apply vrx_begin_adds; try done. destruct Hok as (_ & (Hnd & _) & Harp & _). by apply vhost_none_slow.
  - by apply erx_begin_adds.
Qed.

(** The outcome of a step. *)
Definition fine_safe (ev : fine_event) (f : fine) : Prop :=
  ∃ f', fine_step ev f = Ok f' ∧ fine_inv f' ∧
    ∀ v, (v < MAX_VHOSTS)%nat → ∃ log, serves v (λ c, received_for c v ev) log (fi_machine f) (fi_machine f').

Lemma begin_safe ev f : queues_ok config → in_u 32 (cfg_ip config) → fine_inv f → fine_event_ok (Begin ev) f → fine_safe (Begin ev) f.
Proof.
  intros Hq Hc Hinv Hok. pose proof Hok as ((c & Hr & _) & _ & Hnames).
  destruct (begin_of ev (fi_switch f)) as [acc|] eqn:Hb; [|by destruct ev].
  destruct (begin_ok ev f acc Hc Hinv Hok Hb) as (Hacc & Harr & Hfresh & Hsub). pose proof Hinv as (Hm & Hdev & Haddr & Hlen & Hmsgs).
  destruct (machine_event_safe config eth_addr acc _ Hq Hm Hacc) as (m' & E & Hm' & Hmoved & Hserves).
  destruct (begin_adds ev f acc m' Hq Hinv Hok Hb Hacc E) as (added & Hadd & Hobjs & Hg & Hmb & Harp).
  rewrite Harr in Hmoved, Hmb.
  exists (mk_fine m' (fi_dev f) (fi_last f)). split; [cbn [fine_step]; rewrite Hb; unfold access_step; by rewrite E|].
  split; [split_and!; [exact Hm'|exact Hdev|exact Haddr| |]|].
  - cbn [fi_machine fi_dev]. by rewrite (rx_cores_kept _ _ _ Hm Hm' E).
  - eapply (waiting_msgs_step _ _ _ _ added []); try done. by rewrite app_nil_r.
  - intros v Hv. destruct (Hserves v Hv) as [log Hl]. exists log. eapply serves_weaken; [exact Hl|]. intros d. apply Hsub.
Qed.

Lemma proceed_safe acc f : queues_ok config → fine_inv f → fine_event_ok (Proceed acc) f → fine_safe (Proceed acc) f.
Proof.
  intros Hq Hinv Hok. cbn [fine_event_ok] in Hok. pose proof Hinv as (Hm & Hdev & Haddr & Hlen & Hmsgs).
  assert (access_ok config acc (fi_machine f)) as Hacc.
  { by destruct (continues_ok config eth_addr [acc] (fi_machine f) Hq Hm (proj2 (Forall_singleton _ _) Hok)) as [? _]. }
  destruct (machine_event_safe config eth_addr acc _ Hq Hm Hacc) as (m' & E & Hm' & Hmoved & Hserves).
  destruct (proceed_msgs acc _ m' _ _ _ _ Hok E) as [Hp [lost Hl]].
  assert (arrives acc = [] ∧ to_slow config acc = [] ∧ ∀ c v, switches config c v acc = []) as (Ha & Ht & Hsw).
  { destruct acc; try done; split_and!; try done; by intros []. }
  rewrite Ha, Ht in Hmoved.
  exists (mk_fine m' (fi_dev f) (fi_last f)). split; [cbn [fine_step]; unfold access_step; by rewrite E|].
  split; [split_and!; [exact Hm'|exact Hdev|exact Haddr| |]|].
  - cbn [fi_machine fi_dev]. by rewrite (rx_cores_kept _ _ _ Hm Hm' E).
  - eapply (waiting_msgs_step _ _ _ _ [] lost); [exact Hmsgs|exact Hmoved| | | | | | |].
    all: try by intros ? Hin; apply elem_of_nil in Hin.
    + intros msg _ Hin. by apply elem_of_nil in Hin.
    + by rewrite app_nil_r.
    + cbn [fi_machine]. by rewrite Hp.
    + apply good_msgs_nil.
  - intros v Hv. destruct (Hserves v Hv) as [log Hlog]. exists log. eapply serves_weaken; [exact Hlog|]. intros c. cbn beta. rewrite Hsw. apply sublist_nil_l.
Qed.

(** The control loop moves statistics to the next window and touches packets of no core. *)
Definition only_stats (m m' : machine) (stats : list (list vdev_rx_stats)) : Prop :=
  let pl := m_plane m in let pl' := m_plane m' in
  (pl_vm_rings pl', pl_eth_rings pl', pl_rx pl', pl_tx pl') = (pl_vm_rings pl, pl_eth_rings pl, pl_rx pl, pl_tx pl) ∧
  (m_vrx m', m_rx m', m_tx m', m_eth m') = (m_vrx m, m_rx m, m_tx m, m_eth m) ∧
  pl_vrx pl' = zip_with set_stats (pl_vrx pl) stats ∧ stats_moved (w_stats <$> pl_vrx pl) stats.

Lemma stats_of m m' stats core w' : only_stats m m' stats → pl_vrx (m_plane m') !! core = Some w' →
  ∃ w st, pl_vrx (m_plane m) !! core = Some w ∧ w' = set_stats w st ∧
    Forall2 (λ st st', st' = st ∨ st' = advance_wnd st) (w_stats w) st.
Proof.
  intros (_ & _ & Hv & Hm) Hw. rewrite Hv in Hw. apply lookup_zip_with_Some in Hw as (w & st & -> & Hw & Hst).
  exists w, st. split_and!; [done|done|]. eapply (Forall2_lookup_lr _ _ _ core); [exact Hm| |exact Hst]. by rewrite list_lookup_fmap, Hw.
Qed.

Lemma fmap_set_stats {B} (g : vrx_world → B) m m' stats :
  only_stats m m' stats → (∀ w st, g (set_stats w st) = g w) → g <$> pl_vrx (m_plane m') = g <$> pl_vrx (m_plane m).
Proof.
  intros (_ & _ & -> & Hm) Hg. apply Forall2_length in Hm. rewrite length_fmap in Hm. revert stats Hm.
  induction (pl_vrx (m_plane m)) as [|w l IH]; intros [|st stats] Hl; try done. cbn. rewrite Hg. f_equal. apply IH. by injection Hl.
Qed.

Lemma only_stats_same m m' stats : only_stats m m' stats →
  owned m' = owned m ∧ (∀ v, vm_line m' v = vm_line m v) ∧ ∀ c v, batch_for m' c v = batch_for m c v.
Proof.
  intros Hst. pose proof Hst as ([= Hvm Heth Hrx Htx] & [= _ _ Hmt Hme] & _).
  assert (∀ v, vm_line m' v = vm_line m v) as Hline by (intros v; unfold vm_line; by rewrite Hvm, Htx, Hmt).
  split_and!; [|done|].
  - unfold owned, hands. rewrite Heth, Hrx, Hme, (fmap_set_stats vrx_hand m m' stats Hst) by done.
    apply (f_equal2 app); [|done]. f_equal. apply list_fmap_ext. intros i v _. apply Hline.
  - intros [core|core] v; unfold batch_for; [|by rewrite Hrx].
    pose proof (f_equal (λ l, l !! core) (fmap_set_stats w_batch m m' stats Hst (λ w st, eq_refl))) as E. cbn beta in E.
    rewrite !list_lookup_fmap in E. destruct (pl_vrx (m_plane m') !! core), (pl_vrx (m_plane m) !! core); cbn in *; congruence.
Qed.

Lemma only_stats_inv m m' stats :
  machine_inv config m → only_stats m m' stats → (∀ p, p ∈ owned m → pl_pool (m_plane m') !! p = pl_pool (m_plane m) !! p) →
  machine_inv config m'.
Proof.
  intros (Hv & Hr & Ht & Hg & [Hnd Hlive]) Hst Hpool. destruct (only_stats_same m m' stats Hst) as (Ho & _).
  pose proof Hst as ([= Hvm Heth Hrx Htx] & [= Hmv Hmr Hmt Hme] & Hvrx & Hmoved).
  assert (length (pl_vrx (m_plane m')) = length (m_vrx m')) as Hlen.
  { apply Forall2_length in Hv. rewrite Hmv, <- Hv, <- (length_fmap w_batch), (fmap_set_stats w_batch m m' stats Hst), length_fmap by done. done. }
  split_and!.
  - apply Forall2_same_length_lookup_2; [exact Hlen|]. intros core w' pc Hw Hpc. rewrite Hmv in Hpc.
    destruct (stats_of m m' stats core w' Hst Hw) as (w & st & Hw0 & -> & Hf).
    destruct (Forall2_lookup_lr _ _ _ _ _ _ Hv Hw0 Hpc) as [([Hl Hsw] & Hrest) Hat]. split; [|by destruct pc].
    destruct (stats_moved_wf _ _ Hf Hsw) as [Hl' Hsw']. split; [|exact Hrest]. split; [cbn; congruence|exact Hsw'].
  - unfold erx_cores_ok. by rewrite Hrx, Hmr.
  - unfold tx_ok. by rewrite Htx, Hmt.
  - unfold rings_ok. by rewrite Hvm, Heth, Hme.
  - split; [by rewrite Ho|]. rewrite Ho. intros p Hp. rewrite Hpool by done. by apply Hlive.
Qed.

(** An iteration of the control loop takes its messages off the ring. *)
Lemma waiting_msgs_slow m m' stats :
  let pre := take MAX_PKT_BURST (queued (m_plane m)) in
  waiting_msgs_inv m → only_stats m m' stats → queued (m_plane m') = drop MAX_PKT_BURST (queued (m_plane m)) →
  (∀ msg, msg ∈ pool_objs (pl_msgs (m_plane m')) → msg ∈ pre ∨ msg ∈ pool_objs (pl_msgs (m_plane m))) →
  (∀ p, p ∉ arp_mbufs pre → pl_pool (m_plane m') !! p = pl_pool (m_plane m) !! p) → waiting_msgs_inv m'.
Proof.
  intros pre (Hg & Hpv & Hown) Hst Hq Hobjs Hpool. destruct (only_stats_same m m' stats Hst) as (Ho & _).
  pose proof Hst as (_ & [= Hmv Hmr _ _] & _).
  assert (all_msgs m ≡ₚ all_msgs m' ++ pre) as Hm.
  { unfold all_msgs, pending. rewrite Hmv, Hmr, Hq. rewrite <- (take_drop MAX_PKT_BURST (queued (m_plane m))) at 1. fold pre.
    rewrite <- app_assoc. apply Permutation_app_comm. }
  split_and!.
  - by eapply good_msgs_weaken.
  - apply Forall_forall. intros msg [Hin|Hin]%Hobjs; [|rewrite Forall_forall in Hpv; auto].
    apply Hg. rewrite Hm. apply elem_of_app. by right.
  - intros p Hp. assert (p ∈ arp_mbufs (all_msgs m) ∧ p ∉ arp_mbufs pre) as [Hp1 Hp2].
    { destruct Hg as (_ & _ & Hnd & _). pose proof (arp_mbufs_perm _ _ Hm) as Ha. rewrite arp_mbufs_app in Ha. split.
      - rewrite Ha. apply elem_of_app. by left.
      - rewrite Ha in Hnd. apply NoDup_app in Hnd as (_ & Hd & _). by apply Hd. }
    rewrite Ho, Hpool by done. by apply Hown.
Qed.

Lemma control_slow e f :
  0 < eth_rx_queues config → fine_inv f → fine_event_ok (Control (SlowPathEvent e)) f → fine_safe (Control (SlowPathEvent e)) f.
Proof.
  intros Hq Hinv [_ Hok]. pose proof Hinv as (Hm & Hdev & Haddr & Hlen & Hmsgs). pose proof Hm as (Hvc & _ & _ & (Hlr & _) & _).
  set (m := fi_machine f) in *. set (q := queued (m_plane m)).
  assert (good_msgs q) as Hg by (apply (good_msgs_weaken (all_msgs m) q (pending m)); [apply Hmsgs|done]). pose proof Hg as (Hgv & Hgw & _).
  assert (msgs_ok addr (take MAX_PKT_BURST q) (load_slow (fi_switch f))) as Hms.
  { apply (load_slow_msgs config addr e (fi_switch f)); try done.
    - apply Forall_forall. intros msg Hin. by apply Hgv.
    - apply Forall_forall. intros msg Hin. by apply Hgv.
    - by apply good_msgs_exclusive.
    - intros p Hp. apply Hmsgs. unfold all_msgs. rewrite arp_mbufs_app. apply elem_of_app. by left. }
  destruct (slowpath_iter_spec config addr e (load_slow (fi_switch f)) Hq)
    as (w' & Hrun & (Hdev' & Haddr' & _ & _ & Hlen') & Hring & Hobjs & _ & _ & _ & _ & Hkept & Hmoved); [|exact Hms|].
  { apply load_slow_wf; try done. apply Forall_forall. intros w [i Hi]%list_elem_of_lookup.
    by destruct (Forall2_lookup_l _ _ _ _ _ Hvc Hi) as (pc & _ & ((Hl & _) & _) & _). }
  cbn [load_slow sl_ring sl_msgs sl_stats] in Hring, Hobjs, Hmoved. change (ring_items _) with q in Hobjs, Hkept.
  destruct Hkept as [Hrings Hpool]. { intros msg Hin%elem_of_take_of. by apply Hgw. }
  cbn [load_slow sl_rings sl_pool] in Hrings, Hpool.
  set (f' := with_switch (store_slow w' (fi_switch f)) f).
  assert (only_stats m (fi_machine f') (sl_stats w')) as Hst by (split_and!; cbn; rewrite ?Hrings; done).
  destruct (only_stats_same _ _ _ Hst) as (_ & Hline & Hbatch).
  exists f'. split; [cbn [fine_step]; unfold control_step, sw_step; cbn [visit_of]; by rewrite Hrun|]. split; [split_and!|].
  - apply (only_stats_inv m _ _ Hm Hst). intros p Hp. apply Hpool. intros Ha. destruct Hmsgs as (_ & _ & Hown). apply (Hown p); [|done].
    unfold all_msgs. rewrite arp_mbufs_app. apply elem_of_app. left. fold q. rewrite <- (take_drop MAX_PKT_BURST q), arp_mbufs_app.
    apply elem_of_app. by left.
  - exact Hdev'.
  - exact Haddr'.
  - change (length (pl_vrx (m_plane (fi_machine f'))) = length (rx_plans (sl_dev w'))). rewrite <- Hlen'.
    pose proof Hst as (_ & _ & -> & Hmv). apply Forall2_length in Hmv. rewrite length_fmap in Hmv. rewrite length_zip_with. lia.
  - apply (waiting_msgs_slow m _ _ Hmsgs Hst); [exact Hring| |exact Hpool]. intros msg Hin. cbn in Hin. rewrite Hobjs in Hin.
    apply elem_of_app in Hin as [[_ ?]%list_elem_of_filter|?]; [by left|by right].
  - intros v _. exists []. by apply serves_still.
Qed.

(** The callbacks move nothing. *)
Lemma control_device ev f d :
  fine_inv f → dstate_wf d → addr_ok addr d → length (rx_plans d) = length (rx_plans (fi_dev f)) →
  sw_step config eth_addr ev (fi_switch f) = Ok (mk_switch (m_plane (fi_machine f)) d (fi_last f)) → fine_safe (Control ev) f.
Proof.
  intros (Hm & _ & _ & Hlen & Hmsgs) Hd Ha Hl E. destruct f as [[pl pcs1 pcs2 l1 l2] d0 last].
  eexists. split; [cbn [fine_step]; unfold control_step; rewrite E; reflexivity|]. split.
  - split_and!; [exact Hm|exact Hd|exact Ha| |exact Hmsgs]. cbn in *. congruence.
  - intros v _. exists []. by apply serves_still.
Qed.

Lemma control_safe ev f : 0 < eth_rx_queues config → fine_inv f → fine_event_ok (Control ev) f → fine_safe (Control ev) f.
Proof.
  intros Hq Hinv Hok. pose proof Hinv as (_ & Hdev & Haddr & _). pose proof Hok as [Hv Hev].
  destruct ev as [| | | |e|vid p|vid ok]; try done.
  - by apply control_slow.
  - destruct Hev as [Hs Hp]. destruct (device_new addr vid p (fi_dev f) Hdev Haddr Hs Hp) as (rc & d' & E & Hd & Ha & Hl).
    apply (control_device _ f d'); try done. unfold sw_step. cbn [visit_of]. unfold fi_switch. cbn [sw_dev]. by rewrite E.
  - destruct (device_gone config addr vid ok (fi_dev f) Hq Hdev Haddr Hev) as (d' & E & Hd & Ha & Hl).
    apply (control_device _ f d'); try done. unfold sw_step. cbn [visit_of]. unfold fi_switch. cbn [sw_dev]. by rewrite E.
Qed.

Lemma fine_run_safe evs f :
  queues_ok config → in_u 32 (cfg_ip config) → 0 < eth_rx_queues config → fine_inv f → fine_run_ok evs f →
  ∃ f', fine_run evs f = Ok f' ∧ fine_inv f' ∧
    ∀ v, (v < MAX_VHOSTS)%nat → ∃ log, serves v (λ c, concat (received_for c v <$> evs)) log (fi_machine f) (fi_machine f').
Proof.
  intros Hq Hc Hr. revert f. induction evs as [|ev evs IH]; intros f Hinv Hok.
  - exists f. split_and!; try done. intros v _. exists []. by apply serves_still.
  - destruct Hok as [Hev Hok].
    assert (fine_safe ev f) as (f1 & E & Hinv1 & Hs1).
    { destruct ev; [by apply begin_safe|by apply proceed_safe|by apply control_safe]. }
    destruct (IH f1 Hinv1 (Hok _ E)) as (f' & Hrun & Hinv' & Hs). exists f'. cbn [fine_run]. rewrite E.
    split_and!; try done. intros v Hv. destruct (Hs1 v Hv) as [log1 Hl1], (Hs v Hv) as [log2 Hl2].
    exists (log1 ++ log2). cbn [fmap list_fmap concat]. by eapply serves_trans.
Qed.

(** ** Lemmas: the start *)

Lemma at_rest_pending pl : pending (at_rest pl) = [].
Proof.
  unfold pending, at_rest. cbn [m_vrx m_rx]. rewrite <- !list_fmap_compose.
  assert (∀ {A} (l : list A), concat ((λ _, []) <$> l) = ([] : list slow_msg)) as Hn by (intros A l; by induction l).
  rewrite (list_fmap_ext (pc_msgs ∘ λ _, RxIdle) (λ _, []) (pl_vrx pl)) by done.
  rewrite (list_fmap_ext (pc_msgs ∘ λ _, RxIdle) (λ _, []) (pl_rx pl)) by done. by rewrite !Hn.
Qed.

Lemma at_rest_batch pl c v : machine_inv config (at_rest pl) → batch_for (at_rest pl) c v = [].
Proof.
  intros (Hv & Hr & _). assert (∀ pkts : list (list nat), batch_at [] pkts → default [] (pkts !! v) = []) as Hb.
  { intros pkts (_ & _ & _ & Hb). destruct (pkts !! v) as [l|] eqn:E; [|done]. cbn. destruct l as [|p l]; [done|].
    assert (v ∈ []) as Hin by by apply (Hb v (p :: l) E). by apply elem_of_nil in Hin. }
  destruct c as [core|core]; unfold batch_for; cbn [m_plane at_rest].
  - destruct (pl_vrx pl !! core) as [w|] eqn:E; [|done]. destruct (Forall2_lookup_l _ _ _ _ _ Hv E) as (pc & Hpc & _ & Hat).
    cbn [at_rest m_vrx] in Hpc. rewrite list_lookup_fmap, E in Hpc. injection Hpc as <-. by apply Hb, Hat.
  - destruct (pl_rx pl !! core) as [w|] eqn:E; [|done]. destruct (Forall2_lookup_l _ _ _ _ _ Hr E) as (pc & Hpc & _ & Hat).
    cbn [at_rest m_rx] in Hpc. rewrite list_lookup_fmap, E in Hpc. injection Hpc as <-. by apply Hb.
Qed.

Lemma start_fine_inv (r : ring nat) (rs : ring slow_msg) (msgs : mempool) now :
  counts_ok config → cores_present config → ring_items r = [] → ring_items rs = [] →
  Forall (λ msg, msg_vid msg < MAX_VHOSTS)%nat (pool_objs msgs) →
  let f := start_fine (ctxs_at config 0) (fresh_shared config r rs msgs) now in
  fine_inv f ∧ ∀ v, (v < MAX_VHOSTS)%nat →
    vm_line (fi_machine f) v = [] ∧ (∀ c, batch_for (fi_machine f) c v = []) ∧ guest (pl_tx (m_plane (fi_machine f))) !! v = Some [].
Proof.
  intros Hc Hp Hr Hrs Hmsgs f. destruct (start_switch_inv config addr config r rs msgs now Hr Hrs Hmsgs Hp Hc eq_refl) as [Hinv Hempty].
  pose proof Hinv as (Hpl & Hdev & Haddr & Hlen & _).
  assert (machine_inv config (fi_machine f)) as Hm.
  { apply at_rest_inv; [exact Hpl|]. cbn. by rewrite length_replicate. }
  split; [split_and!; [exact Hm|exact Hdev|exact Haddr|exact Hlen|]|].
  - assert (all_msgs (fi_machine f) = []) as Hall.
    { unfold all_msgs. cbn [fi_machine f start_fine]. rewrite at_rest_pending, app_nil_r. exact Hrs. }
    unfold waiting_msgs_inv. rewrite Hall. split_and!; [apply good_msgs_nil|exact Hmsgs|]. intros p Hin. by apply elem_of_nil in Hin.
  - intros v Hv. destruct (Hempty v Hv) as [Hq Hg]. split; [|split; [|exact Hg]].
    + cbn [fi_machine f start_fine]. by rewrite at_rest_line.
    + intros c. by apply at_rest_batch.
Qed.

(** ** Property *)

End system_steps.

(** ** Witness *)

(** A check of [fine_event_ok] that can be run. *)
Section checker.
Context `{RteRing} `{RteMempool slow_msg} `{RteFlags} `{RteCksum} `{RteThash} `{RteEther}.
Context (config : config_t) (eth_addr : list Z) (addr : nat → nat).

Definition fine_promises (ev : fine_event) : Prop :=
  match ev with
  | Begin ev | Control ev => env_promises ev
  | Proceed (VhostTxTake e _) | Proceed (VhostTxGive e _) => env_ok e
  | Proceed (EthTxGive _ tk _) => ∀ n, 0 ≤ tk n ≤ Z.of_nat n
  | Proceed _ => True
  end.

Definition idleb (ev : sw_event) (m : machine) : bool :=
  match ev with
  | VhostRxEvent core _ _ _ _ => match m_vrx m !! core with Some RxIdle => true | _ => false end
  | EthRxEvent core _ _ => match m_rx m !! core with Some RxIdle => true | _ => false end
  | _ => false
  end.

Definition continuesb (n k j q : nat) (acc : access_event) : bool :=
  match acc with
  | VhostRxBegin _ _ _ | EthRxBegin _ _ _ => false
  | VhostRxNext core => Nat.ltb core n
  | EthRxNext core => Nat.ltb core k
  | VhostTxTake _ _ | VhostTxGive _ _ => true
  | EthTxTake core queue | EthTxGive core _ queue => Nat.ltb core j && Nat.ltb queue q
  end.

Definition is_control (ev : sw_event) : bool :=
  match ev with SlowPathEvent _ | NewDeviceEvent _ _ | DestroyDeviceEvent _ _ => true | _ => false end.

Definition fine_event_okb (ev : fine_event) (f : fine) : bool :=
  let m := fi_machine f in
  match ev with
  | Begin ev => idleb ev m && sw_event_okb config addr ev (fi_switch f) &&
      forallb (λ msg, negb (existsb (Nat.eqb (msg_mbuf msg)) (burst_of ev))) (all_msgs m)
  | Proceed acc => continuesb (length (m_vrx m)) (length (m_rx m)) (length (pl_eth (m_plane m))) (length (m_eth m)) acc
  | Control ev => is_control ev && sw_event_okb config addr ev (fi_switch f)
  end.

Fixpoint fine_run_okb (evs : list fine_event) (f : fine) : bool :=
  match evs with
  | [] => true
  | ev :: evs => fine_event_okb ev f && match fine_step config eth_addr ev f with Ok f' => fine_run_okb evs f' | Fault _ => true end
  end.

Lemma fine_event_okb_sound ev f : fine_promises ev → fine_event_okb ev f = true → fine_event_ok config addr ev f.
Proof.
  intros Hp. destruct ev as [ev|acc|ev]; cbn [fine_event_okb fine_event_ok fine_promises] in *.
  - rewrite !andb_true_iff, forallb_forall. intros [[Hi Hok] Hn]. split; [|split].
    + destruct ev as [core burst now tsc vid|core burst queue| | | | |]; try done; cbn [idleb] in Hi.
      * exists (inl core). split; [done|]. cbn. by destruct (m_vrx (fi_machine f) !! core) as [[]|].
      * exists (inr core). split; [done|]. cbn. by destruct (m_rx (fi_machine f) !! core) as [[]|].
    + by apply sw_event_okb_sound.
    + intros msg Hin Hb. specialize (Hn msg (proj1 (list_elem_of_In _ _) Hin)). apply negb_true_iff in Hn.
      apply Bool.not_true_iff_false in Hn. apply Hn, existsb_exists. exists (msg_mbuf msg).
      split; [by apply list_elem_of_In|by apply Nat.eqb_eq].
  - destruct acc; cbn [continuesb continues] in *; rewrite ?andb_true_iff, ?Nat.ltb_lt; tauto || done.
  - rewrite andb_true_iff. intros [Hc Hok]. split; [by destruct ev|by apply sw_event_okb_sound].
Qed.

Lemma fine_run_okb_sound evs f : Forall fine_promises evs → fine_run_okb evs f = true → fine_run_ok config eth_addr addr evs f.
Proof.
  intros Hp. revert f. induction Hp as [|ev evs He _ IH]; intros f; cbn [fine_run_okb fine_run_ok]; [done|].
  rewrite andb_true_iff. intros [Hev Hrest]. split; [by apply fine_event_okb_sound|]. intros f' E. rewrite E in Hrest. by apply IH.
Qed.
End checker.

Definition demo_start_fine : fine := start_fine (ctxs_at boot_config 0) (fresh_shared boot_config demo_ring demo_ring demo_pool) 0.

(** VM 0 sends a frame to the outside.  While its core has the frame in hand VM 1 comes; the
    message is posted and VM 0 learned.  Then VM 1 sends to VM 0: the control loop iterates
    between the sorting and the enqueue, and the core of VM 0 looks at its ring before it; the
    message of VM 1 is handled while the core of VM 0 has the packet. *)
Definition demo_interleaved : list fine_event :=
  [Control (NewDeviceEvent 0 100); Begin (demo_rx 0 1 0 [8;8;8;8]); Proceed (VhostRxNext 0); Control (NewDeviceEvent 1 101);
   Control (SlowPathEvent demo_slow)] ++ replicate 12 (Proceed (VhostRxNext 0)) ++
  [Control (SlowPathEvent demo_slow); Begin (demo_rx 1 2 1 [192;168;100;5]); Control (SlowPathEvent demo_slow);
   Proceed (VhostTxTake demo_tx_env 0)] ++ replicate 12 (Proceed (VhostRxNext 1)) ++
  [Proceed (VhostTxTake demo_tx_env 0); Control (SlowPathEvent demo_slow); Proceed (VhostTxGive demo_tx_env 0)].

Lemma demo_interleaved_promises : Forall fine_promises demo_interleaved.
Proof. repeat (apply Forall_app; split); try apply Forall_replicate; repeat (constructor; [try exact I; exact demo_tx_env_ok|]); try constructor. Qed.

Lemma demo_interleaved_ok : fine_run_okb boot_config demo_mac demo_addr demo_interleaved demo_start_fine = true.
Proof. vm_compute. reflexivity. Qed.

Definition run_fine (evs : list fine_event) : res fine := fine_run boot_config demo_mac evs demo_start_fine.
Definition guest_of (v : nat) (r : res fine) : option (list nat) :=
  match r with Ok f => guest (pl_tx (m_plane (fi_machine f))) !! v | Fault _ => None end.


(** ** Hazard: a packet that teaches after it is gone *)

(** VM 0 is known.  The first frame of VM 1 goes to VM 0 and is freed; its mbuf is used again for
    a frame of VM 0 while the message of VM 1 still names it. *)
Definition demo_gone : list fine_event :=
  [Control (NewDeviceEvent 0 100); Begin (demo_rx 0 1 0 [8;8;8;8])] ++ replicate 12 (Proceed (VhostRxNext 0)) ++
  [Control (SlowPathEvent demo_slow); Control (NewDeviceEvent 1 101); Begin (demo_rx 1 2 1 [192;168;100;5])] ++
  replicate 12 (Proceed (VhostRxNext 1)) ++ [Proceed (VhostTxTake demo_tx_env 0); Proceed (VhostTxGive demo_tx_env 0)].
Definition demo_taught : list fine_event := demo_gone ++ [Begin (demo_rx 0 2 0 [8;8;8;8]); Control (SlowPathEvent demo_slow)].

Definition route_of (octet : nat) (r : res fine) : option Z := match r with Ok f => routing (fi_dev f) !! octet | Fault _ => None end.
Definition taught (p : nat) (r : res fine) : option (Z * Z) :=
  match r with Ok f => (λ d, (ready d, dev_ip d)) <$> devs (fi_dev f) !! p | Fault _ => None end.

(** The last condition of [Begin] is needed: the run meets all conditions until the mbuf is used
    again; then the control loop takes VM 0's address 192.168.100.5 for that of VM 1, which gets
    no route of its own and is not learned again; and when VM 1 goes, the route of VM 0 is
    removed, which stays. *)
Theorem reused_packet_misteaches :
  fine_run_okb boot_config demo_mac demo_addr demo_gone demo_start_fine = true ∧
  (route_of 5 (run_fine demo_taught) = Some 0 ∧ route_of 6 (run_fine demo_taught) = Some (-1) ∧
   taught 101 (run_fine demo_taught) = Some (DEVICE_RX, 0xC0A86405)) ∧
  route_of 5 (run_fine (demo_taught ++ [Control (DestroyDeviceEvent 1 true)])) = Some (-1) ∧
  taught 100 (run_fine (demo_taught ++ [Control (DestroyDeviceEvent 1 true)])) = Some (DEVICE_RX, 0xC0A86405).
Proof. split_and!; vm_compute; reflexivity. Qed.
